(* ===== verification/_CoqProject ===== *)
-Q . S2P
Prelude.v
JsNumber.v
JsValue.v
JsRegex.v
ZodCodec.v
HttpStatusRules.v
PlaygroundMessage.v
PlaygroundMessageFacts.v
PlaygroundStream.v
PlaygroundChat.v
PlaygroundChatFacts.v
PlaygroundStorage.v
PlaygroundStorageFacts.v
PlaygroundHooks.v
PlaygroundRequest.v
JsRegexFacts.v
BillingExpr.v
BillingExprFacts.v
JsScanFacts.v
TierExpr.v
TierExprFacts.v
TierConfigFacts.v
TierShownFacts.v
ChannelMapping.v
NavAccess.v
JsMap.v
FlowGraph.v
FlowGraphFacts.v
FlowGraphSpec.v
FlowMaskFacts.v
JsPretty.v
AdvancedCustom.v
AdvancedCustomFacts.v
ParamOverride.v
ParamOverrideEditor.v
ParamOverrideFacts.v
ParamOverrideEditorFacts.v
ChannelForm.v
ChannelFormFacts.v
JsFixed.v
ModelPricing.v
PricingPanel.v
ModelPricingFacts.v
PricingPanelFacts.v
TierEditor.v
TierEditorFacts.v
PanelEditorFacts.v
RuleEditFacts.v
TierSessionFacts.v
RatioSync.v
RatioSyncFacts.v
