(* ===== verification/Prelude.v ===== *)
(** * Verification of the HotAI web console ([src/web/default/src], TypeScript)

    ** The program

    HotAI is a gateway for language models.  Its Go server relays requests and
    keeps accounts; its web console, a React program, is where users chat with
    the models, administrators set channels, prices, permissions and rules, and
    both read usage reports.  This library models the logic of the console
    that is more than rendering, and proves what makes it correct:

    - the playground (features/playground): a chat session that streams
      answers, buffers chunks, stops and retries, stores conversations in the
      browser and restores them;
    - billing expressions (features/pricing/lib/billing-expr.ts and
      tier-expr.ts): the text a price is stored as, its request rules, and the
      visual editor that prints and reads it;
    - the flow dashboard (features/dashboard/lib/flow.ts and
      flow-selection.ts): usage rows summed into a Sankey graph, with filters,
      a node limit, masking and highlights;
    - model prices (features/system-settings/models): the ten option texts
      prices are kept in, the table and the panel that edit them, the editor
      of tiered prices with its tiers, request rules and presets, and the
      synchronization with the prices of other servers;
    - channel settings (features/channels): model mappings, the guard on
      status code redirects, pending upstream changes, advanced routes, the
      conversions and checks of the channel form, and the editor of parameter
      override rules;
    - lib: HTTP status code rules, navigation modules, administrator
      permissions and roles.

    The parts meet in few places: the playground's hooks call the message
    library, the storage and the option helpers; the tier editor prints and
    parses expressions with the registry of billing expressions; the editor of
    tiered prices reports its texts to the panel of a model, and the panel's
    data are saved into the option texts; the channel form stores the advanced
    routes; everything that is stored goes through JSON and, in the playground,
    through Zod schemas.

    ** Files

    The language.
    - Prelude: strings as lists of 16-bit code units ([jsstr]), trimming,
      splitting, searching, decimal digits, sets in insertion order, the stable
      sort ([js_sort]) and the hint database [js].
    - JsNumber: numbers as binary64 values ([spec_float], 53 bits), printing
      and reading of decimals, exact arithmetic of integers below 2^53.
    - JsFixed: [Math.round], [toFixed] and [parseFloat].
    - JsValue: run-time values, property enumeration order, setting and
      deleting properties, [JSON.stringify] and [JSON.parse] with their round
      trip.
    - JsPretty: indented JSON and its round trip.
    - JsRegex, JsRegexFacts: the regular expressions of the sources, a
      backtracking matcher, and the relation it decides; JsScanFacts: global
      searches over a text made of parts.
    - JsMap: maps in insertion order and the loop that fills them.
    - ZodCodec: schemas as data, the class [Zod] with the documented laws of
      its [parse], and codecs that lay typed values out at run time.

    The program; each model file names the sources it translates.
    - HttpStatusRules: lib/http-status-code-rules.ts.
    - PlaygroundMessage, PlaygroundMessageFacts: types.ts and lib/message.
    - PlaygroundStream: lib/streaming, lib/options, lib/input.
    - PlaygroundChat, PlaygroundChatFacts: hooks/use-stream-request.ts and
      hooks/use-chat-handler.ts, one record [Chat] of their refs and states,
      one function per callback, [step] on the events of the outside.
    - PlaygroundStorage, PlaygroundStorageFacts: lib/storage and lib/state.
    - PlaygroundHooks: hooks/use-playground-state.ts, -conversation.ts and
      -options.ts, with their timers and the browser's storage;
      PlaygroundRequest: the requests of the conversation's handlers, with the
      chat handler they call.
    - BillingExpr, BillingExprFacts: billing-expr.ts.
    - TierExpr, TierExprFacts: tier-expr.ts; TierConfigFacts (several tiers)
      and TierShownFacts (what the pricing page reads of them).
    - ModelPricing, ModelPricingFacts: pricing-format.ts,
      model-pricing-core.ts, model-pricing-snapshots.ts and the callbacks of
      model-ratio-visual-editor.tsx; the ten texts are [Options].
    - PricingPanel, PricingPanelFacts: model-pricing-sheet.tsx, the record
      [Panel] with one function per handler; PanelEditorFacts: the panel with
      the editor of tiered prices mounted in it ([open_panel]).
    - TierEditor: tiered-pricing-editor.tsx; [flush] is a render with its
      effects, [settle] renders until the editor rests, [session] a sequence of
      events.  TierEditorFacts and TierSessionFacts have its theorems,
      RuleEditFacts what is printed of rules that are being filled in.
    - RatioSync, RatioSyncFacts: upstream-ratio-sync.tsx with its helpers,
      table and constants.
    - ChannelMapping: model-mapping-validation.ts, status-code-risk-guard.ts
      and upstream-update-utils.ts.
    - AdvancedCustom, AdvancedCustomFacts: advanced-custom.ts.
    - ChannelForm, ChannelFormFacts: channel-form.ts with the channel types and
      constants it uses.
    - ParamOverride, ParamOverrideFacts: reading, checking and writing override
      rules in param-override-editor-dialog.tsx; ParamOverrideEditor,
      ParamOverrideEditorFacts: the state and the handlers of that dialog.
    - NavAccess: lib/nav-modules.ts, lib/admin-permissions.ts, lib/roles.ts.
    - FlowGraph, FlowGraphFacts, FlowGraphSpec: flow.ts, flow-selection.ts and
      the flow types; FlowMaskFacts: the masked graph against the plain one.

    ** What the theorems show

    - Rules and mappings: merged ranges are sorted, disjoint and cover the same
      codes; the normalized text of a rule list is a fixed point; the risky
      redirects reported are exactly the new ones; advanced routes survive
      printing and parsing, validation accepts exactly the valid ones and
      names the first bad one, and every template is valid.
    - Messages: the think-tag loop refines the decomposition along leftmost
      tags and ends; completion, repair, edit and regeneration are described
      on every branch; what sending, regenerating and editing a message send to
      the model, parameter by parameter.
    - Chat session: an invariant of every reachable state under any order of
      requests, SSE events, timers, answers and stops; the end marker is final;
      a stop leaves nothing running; a failure marks one answer and notifies
      once; streams of snapshots or of deltas end as their text whatever the
      interleaving with timer flushes, and a repeated delta is lost.
    - Storage: saved conversations within the stated limits and settings are
      loaded unchanged; a load returns the longest end of what is stored that
      fits, whatever is stored; a loaded conversation is always stored, or about
      to be, or was refused by the browser.
    - Billing: request rules and base expressions survive printing and parsing,
      with the forms that do not stated exactly; unwrapping ends; the
      expression of a price with any number of readable tiers (labels without
      a double quote, thresholds printed without a minus sign) reads back as its
      labels, conditions and costs, the pricing page reads the same tiers, and
      normalizing a configuration keeps its expression.
    - Model prices: saving writes the rows of the targets and leaves all others,
      deleting removes one row, a row is marked as changed exactly when a field
      differs, opening and saving a row keeps every row, for a tiered row with
      the editor mounted when the visual editor wrote its texts; the ratios
      follow the prices of the panel; a fixed price that is still in the form
      wins over the chosen mode.
    - Tiered prices: the effects of the editor come to rest within five renders
      from any state; a session of edits, with rules complete or not, keeps the
      tiers readable, reports what is shown, and opens again unchanged; what
      opening does to texts that are not of the visual form: the expression is
      replaced, unreadable rules are erased; and when a preset with rules is
      applied without its prices.
    - Synchronization: no reachable set of choices has a fixed price with a
      ratio or an expression without its mode; applying it writes exactly the
      chosen fields and leaves no conflicting prices.
    - Channels: opening and saving a channel is stable, settings the form does
      not know are kept, an update says exactly what it changes, and the checks
      across fields pass exactly when the type has what it needs.
    - Override rules: saved rules open as the same rules, validation reports the
      first bad one, the ids of the dialog stay distinct, only opening it can
      raise an exception, and rules of a prune draft cannot be changed.
    - Flow dashboard: every node and link is the sum over the paths through
      it; flow is conserved at every node and every stage adds up to the
      summary; a role sees only its stages; the masked graph is the plain one
      but for the labels of what is not a model; the node limit bounds every stage; highlights and filters mean
      what they say and an offered filter never empties the chart.
    - Navigation: settings round trip, access is denied when the status cannot
      be fetched, and the permission editor shows grant, baseline, false.

    ** Parameters

    What is not under the sources is an argument: Zod's [parse] (class [Zod],
    instantiated by an interpreter of schemas in the witnesses), the quota of
    the browser's storage, clocks, random keys and the clock of local ids
    (arguments of the operations), the translation function, the collation of
    [localeCompare], [Intl.NumberFormat] and [toLocaleString], the lower-casing
    of a search, the message of a TypeError, [URL] and the color table of the
    chart library.  React is not a parameter: a component is its state and one
    function per handler and effect, and the order in which effects run is
    written out where it matters (PlaygroundHooks, TierEditor).  The tabs of the
    panel mount the content of the chosen mode only, as their library documents.

    ** Fuel

    Recursion is structural but for the following, each with enough fuel for
    every input: [json_parse] has two steps per code unit and two more, and
    every call but the first has consumed a unit; a repetition of a regular
    expression has one step more than the text left, and iterates on non-empty
    matches only; a search has a step per start; [unwrap_loop] and
    [think_loop] have the length of the text, of which every turn consumes
    some; [dec_of_N] has a step per bit; [settle] has the five renders after
    which nothing changes ([editor_rests]).  The theorems on these functions are
    of the form that the result is found, not only that a result is right.

    ** Not modelled

    - Rendering, styling, routing and the HTTP clients: no logic beyond calls
      of libraries.  The Go server and the classic client: other programs.
    - [evalExprLocally] (tier-expr.ts) hands its text to the browser's
      [Function] constructor.
    - In flow.ts the accessors that read events of the chart, the tooltip and
      the styling of the chart specification.
    - In the editor of tiered prices the cost estimator and the prompt for a
      language model; the tables' sorting, selection and paging, which belong
      to a library; option texts whose JSON is not an object.
    - Of the channel form Zod's run of the checks, of the override editor the
      labels and placeholders.
    - Still open: channel utilities; group ratios; pricing filters and price
      formats; currency; the URL state of tables. *)

From stdpp Require Export base tactics list numbers option strings gmap.
From Stdlib Require Export Lia Ascii Sorted.
From Stdlib Require String.

#[export] Set Default Goal Selector "!".

(** ** JavaScript strings

    A JavaScript string is a sequence of 16-bit code units; it is a list of
    [N] here.  Literals of the source are written [js "..."]. *)

Abbreviation jsstr := (list N).

Declare Scope js_scope.
Delimit Scope js_scope with js.

Definition js (s : string) : jsstr :=
  List.map N_of_ascii (String.list_ascii_of_string s).
Arguments js s%_string.

Definition ch (s : string) : N :=
  match js s with c :: _ => c | [] => 0%N end.
Arguments ch s%_string.

(** [String.prototype.trim] removes WhiteSpace and LineTerminator units. *)
Definition is_space (c : N) : bool :=
  existsb (N.eqb c)
    [9; 10; 11; 12; 13; 32; 160; 5760; 8232; 8233; 8239; 8287; 12288; 65279]%N
  || ((8192 <=? c)%N && (c <=? 8202)%N).

Definition is_digit (c : N) : bool := ((48 <=? c)%N && (c <=? 57)%N).

Fixpoint drop_while {A} (p : A -> bool) (l : list A) : list A :=
  match l with
  | [] => []
  | x :: l' => if p x then drop_while p l' else l
  end.

Fixpoint take_while {A} (p : A -> bool) (l : list A) : list A :=
  match l with
  | [] => []
  | x :: l' => if p x then x :: take_while p l' else []
  end.

Definition trim_start (s : jsstr) : jsstr := drop_while is_space s.
Definition trim_end (s : jsstr) : jsstr := rev (drop_while is_space (rev s)).
Definition trim (s : jsstr) : jsstr := trim_end (trim_start s).

(** [s.startsWith(p)] and the remainder of [s] after [p]. *)
Fixpoint strip_prefix (p s : jsstr) : option jsstr :=
  match p, s with
  | [], _ => Some s
  | _ :: _, [] => None
  | a :: p', b :: s' => if N.eqb a b then strip_prefix p' s' else None
  end.

Definition starts_with (p s : jsstr) : bool :=
  match strip_prefix p s with Some _ => true | None => false end.

Definition ends_with (p s : jsstr) : bool := starts_with (rev p) (rev s).

(** [s.indexOf(p)]: [None] for the source's [-1]. *)
Fixpoint index_of (p s : jsstr) : option nat :=
  if starts_with p s then Some 0
  else match s with
       | [] => None
       | _ :: s' => S <$> index_of p s'
       end.

(** [s.indexOf(p, from)] *)
Definition index_of_from (p s : jsstr) (from : nat) : option nat :=
  Nat.add from <$> index_of p (drop from s).

Definition includes (p s : jsstr) : bool :=
  match index_of p s with Some _ => true | None => false end.

(** [s.slice(a, b)] for [0 <= a] and [0 <= b]. *)
Definition slice {A} (a b : nat) (s : list A) : list A := take (b - a) (drop a s).

(** [s.split(c)] for a one-unit separator. *)
Fixpoint split_char (c : N) (s : jsstr) : list jsstr :=
  match s with
  | [] => [[]]
  | x :: s' =>
      if N.eqb x c then [] :: split_char c s'
      else match split_char c s' with
           | [] => [[x]]
           | w :: ws => (x :: w) :: ws
           end
  end.

(** [l.join(sep)] *)
Fixpoint join (sep : jsstr) (l : list jsstr) : jsstr :=
  match l with
  | [] => []
  | [w] => w
  | w :: ws => w ++ sep ++ join sep ws
  end.

(** [Boolean(s)] for a string: the empty string is the only falsy one. *)
Definition nonempty {A} (s : list A) : bool :=
  match s with [] => false | _ => true end.

(** [a || b] on strings. *)
Definition str_or (a b : jsstr) : jsstr := if nonempty a then a else b.

(** [toLowerCase] on ASCII letters.  The source only compares the result with
    ASCII literals that contain neither "k" nor "i", the two letters a
    non-ASCII unit can lower to. *)
Definition lower_unit (c : N) : N :=
  if ((65 <=? c)%N && (c <=? 90)%N) then (c + 32)%N else c.
Definition to_lower (s : jsstr) : jsstr := List.map lower_unit s.

(** [toUpperCase] on ASCII letters; the sources compare the result with "AND"
    and "OR", letters to which no other unit uppercases. *)
Definition upper_unit (c : N) : N :=
  if ((97 <=? c)%N && (c <=? 122)%N) then (c - 32)%N else c.
Definition to_upper (s : jsstr) : jsstr := List.map upper_unit s.

(** Decimal digits of a natural number, as template literals print it. *)
Definition digit (n : N) : N := (48 + n)%N.

Fixpoint digits_fuel (fuel : nat) (n : N) (acc : jsstr) : jsstr :=
  match fuel with
  | 0 => acc
  | S f =>
      let acc := digit (n mod 10)%N :: acc in
      if (n <? 10)%N then acc else digits_fuel f (n / 10)%N acc
  end.

Definition dec_of_N (n : N) : jsstr := digits_fuel (S (N.to_nat (N.log2 n))) n [].

(** The value of a digit string ([Number.parseInt(s, 10)] on digits). *)
Definition N_of_dec (s : jsstr) : N :=
  fold_left (fun acc c => (acc * 10 + (c - 48))%N) s 0%N.

(** ** Insertion-ordered sets ([new Set(...)] and [Array.from]) *)

Definition set_add {A} `{EqDecision A} (s : list A) (x : A) : list A :=
  if decide (x ∈ s) then s else s ++ [x].

Definition js_set {A} `{EqDecision A} (l : list A) : list A :=
  fold_left set_add l [].

(** [set.has(x)] *)
Definition set_has {A} `{EqDecision A} (s : list A) (x : A) : bool :=
  bool_decide (x ∈ s).

(** ** [Array.prototype.sort] with a comparator: a stable sort *)

Section Sort.
Context {A : Type} (cmp : A -> A -> comparison).

Fixpoint sort_insert (x : A) (l : list A) : list A :=
  match l with
  | [] => [x]
  | y :: l' =>
      match cmp x y with
      | Gt => y :: sort_insert x l'
      | _ => x :: y :: l'
      end
  end.

Definition js_sort (l : list A) : list A := foldr sort_insert [] l.
End Sort.

(** The default order of [Array.prototype.sort()]: by code units. *)
Fixpoint str_compare (a b : jsstr) : comparison :=
  match a, b with
  | [], [] => Eq
  | [], _ => Lt
  | _, [] => Gt
  | x :: a', y :: b' =>
      match N.compare x y with Eq => str_compare a' b' | c => c end
  end.

(** ** Automation *)

Create HintDb js.
Create Rewrite HintDb js_simp.

(** Split on the booleans and options a goal branches on. *)
Ltac split_match :=
  match goal with
  | |- context [match ?x with _ => _ end] => destruct x eqn:?
  | |- context [if ?b then _ else _] => destruct b eqn:?
  end.

Ltac split_match_in H :=
  match type of H with
  | context [match ?x with _ => _ end] => destruct x eqn:?
  | context [if ?b then _ else _] => destruct b eqn:?
  end.

(** Turn boolean tests of the source into propositions. *)
Ltac bool_prop :=
  repeat match goal with
  | H : _ && _ = true |- _ => apply andb_prop in H as [? ?]
  | H : _ || _ = false |- _ => apply orb_false_elim in H as [? ?]
  | H : negb _ = true |- _ => apply negb_true_iff in H
  | H : negb _ = false |- _ => apply negb_false_iff in H
  | H : N.eqb _ _ = true |- _ => apply N.eqb_eq in H
  | H : N.eqb _ _ = false |- _ => apply N.eqb_neq in H
  | H : Z.eqb _ _ = true |- _ => apply Z.eqb_eq in H
  | H : Z.eqb _ _ = false |- _ => apply Z.eqb_neq in H
  | H : Z.leb _ _ = true |- _ => apply Z.leb_le in H
  | H : Z.leb _ _ = false |- _ => apply Z.leb_gt in H
  | H : Z.ltb _ _ = true |- _ => apply Z.ltb_lt in H
  | H : Z.ltb _ _ = false |- _ => apply Z.ltb_ge in H
  | H : Nat.leb _ _ = true |- _ => apply Nat.leb_le in H
  | H : Nat.leb _ _ = false |- _ => apply Nat.leb_gt in H
  | H : Nat.ltb _ _ = true |- _ => apply Nat.ltb_lt in H
  | H : Nat.ltb _ _ = false |- _ => apply Nat.ltb_ge in H
  | H : bool_decide _ = true |- _ => apply bool_decide_eq_true in H
  | H : bool_decide _ = false |- _ => apply bool_decide_eq_false in H
  end.

(** ** Lemmas on strings *)

Lemma forallb_Forall_true {A} (p : A -> bool) l :
  forallb p l = true <-> Forall (fun x => p x = true) l.
Proof. rewrite forallb_forall, Forall_forall. by setoid_rewrite list_elem_of_In. Qed.

Lemma drop_while_id {A} (p : A -> bool) l :
  match l with x :: _ => p x = false | [] => True end -> drop_while p l = l.
Proof. destruct l as [|x l]; simpl; [done|]. by intros ->. Qed.

Lemma drop_while_head {A} (p : A -> bool) l :
  match drop_while p l with x :: _ => p x = false | [] => True end.
Proof. induction l as [|x l IH]; simpl; [done|]. by destruct (p x) eqn:E. Qed.

Lemma drop_while_idemp {A} (p : A -> bool) l :
  drop_while p (drop_while p l) = drop_while p l.
Proof. apply drop_while_id, drop_while_head. Qed.

Lemma drop_while_app_all {A} (p : A -> bool) l1 l2 :
  forallb p l1 = true -> drop_while p (l1 ++ l2) = drop_while p l2.
Proof. induction l1 as [|x l1 IH]; simpl; [done|]. destruct (p x); simpl; [auto|done]. Qed.

Lemma drop_while_suffix {A} (p : A -> bool) l :
  exists k, forallb p k = true /\ l = k ++ drop_while p l.
Proof.
  induction l as [|x l (k & Hk & IH)]; simpl; [by exists []|].
  destruct (p x) eqn:E; [|by exists []].
  exists (x :: k). simpl. rewrite E. split; [done|]. by f_equal.
Qed.

Lemma drop_while_all {A} (p : A -> bool) l :
  forallb p l = true -> drop_while p l = [].
Proof. intros H. by rewrite <- (app_nil_r l), drop_while_app_all. Qed.

Lemma take_while_app {A} (p : A -> bool) l : l = take_while p l ++ drop_while p l.
Proof. induction l as [|x l IH]; simpl; [done|]. destruct (p x); simpl; [by f_equal|done]. Qed.

Lemma take_while_forallb {A} (p : A -> bool) l : forallb p (take_while p l) = true.
Proof. induction l as [|x l IH]; simpl; [done|]. destruct (p x) eqn:E; simpl; [by rewrite E|done]. Qed.

(** A string without white space at either end. *)
Definition trimmed (s : jsstr) : Prop :=
  match s with c :: _ => is_space c = false | [] => True end /\
  match rev s with c :: _ => is_space c = false | [] => True end.

#[export] Instance trimmed_dec s : Decision (trimmed s).
Proof. unfold trimmed. destruct s, (rev _); apply _. Defined.

Lemma trim_id s : trimmed s -> trim s = s.
Proof.
  intros [H1 H2]. unfold trim, trim_end, trim_start.
  rewrite (drop_while_id _ s H1), (drop_while_id _ (rev s) H2). apply rev_involutive.
Qed.

Lemma trim_trimmed s : trimmed (trim s).
Proof.
  unfold trim, trim_end, trim_start.
  pose proof (drop_while_head is_space s) as H1.
  set (t := drop_while is_space s) in *.
  pose proof (drop_while_head is_space (rev t)) as H2.
  destruct (drop_while_suffix is_space (rev t)) as (k & Hk & E).
  set (u := drop_while is_space (rev t)) in *.
  assert (Ht : t = rev u ++ rev k) by (by rewrite <- rev_app_distr, <- E, rev_involutive).
  split; [|by rewrite rev_involutive].
  destruct (rev u) as [|c w]; [done|]. by rewrite Ht in H1.
Qed.

Lemma trim_idemp s : trim (trim s) = trim s.
Proof. apply trim_id, trim_trimmed. Qed.
#[export] Hint Resolve trim_trimmed : js.
#[export] Hint Rewrite trim_idemp : js_simp.

Lemma elem_of_drop_while {A} (p : A -> bool) l x : x ∈ drop_while p l -> x ∈ l.
Proof.
  intros Hx. destruct (drop_while_suffix p l) as (k & _ & E). rewrite E. apply elem_of_app. by right.
Qed.
Lemma elem_of_trim w x : x ∈ trim w -> x ∈ w.
Proof.
  unfold trim, trim_end, trim_start. intros Hx%list_elem_of_In%in_rev%list_elem_of_In.
  apply elem_of_drop_while in Hx. apply list_elem_of_In, in_rev, list_elem_of_In in Hx.
  by eapply elem_of_drop_while.
Qed.

Lemma forallb_not_head {A} (p : A -> bool) s :
  forallb (fun c => negb (p c)) s = true -> match s with c :: _ => p c = false | [] => True end.
Proof. destruct s; simpl; [done|]. intros H. by bool_prop. Qed.

Lemma forallb_rev {A} (p : A -> bool) s : forallb p (rev s) = forallb p s.
Proof.
  induction s as [|c s IH]; simpl; [done|]. rewrite forallb_app, IH. simpl.
  by rewrite andb_true_r, andb_comm.
Qed.

(** A string without white space is its own [trim]. *)
Lemma trim_no_space s : forallb (fun c => negb (is_space c)) s = true -> trim s = s.
Proof.
  intros H. apply trim_id. split; apply forallb_not_head; [done|]. by rewrite forallb_rev.
Qed.

Lemma filter_all {A} (p : A -> bool) s : forallb p s = true -> List.filter p s = s.
Proof. induction s as [|c s IH]; simpl; [done|]. destruct (p c); [|done]. intros H. by rewrite IH. Qed.

Lemma forallb_impl {A} (p q : A -> bool) s :
  (forall c, p c = true -> q c = true) -> forallb p s = true -> forallb q s = true.
Proof. rewrite !forallb_forall. auto. Qed.

Lemma forallb_join (p : N -> bool) sep ws :
  forallb p sep = true -> Forall (fun w => forallb p w = true) ws -> forallb p (join sep ws) = true.
Proof.
  intros Hs. induction 1 as [|w ws Hw H IH]; [done|]. destruct ws as [|v ws]; [done|].
  change (join sep (w :: v :: ws)) with (w ++ sep ++ join sep (v :: ws)).
  by rewrite !forallb_app, Hw, Hs, IH.
Qed.

Lemma is_digit_bounds c : is_digit c = true -> (48 <= c <= 57)%N.
Proof. unfold is_digit. intros H. apply andb_prop in H as [?%N.leb_le ?%N.leb_le]. lia. Qed.

Lemma not_elem_of_forallb (p : N -> bool) c s :
  forallb p s = true -> p c = false -> c ∉ s.
Proof.
  rewrite forallb_forall. intros H Hc Hin%list_elem_of_In. specialize (H c Hin). congruence.
Qed.

Lemma strip_prefix_spec p s r : strip_prefix p s = Some r <-> s = p ++ r.
Proof.
  revert s. induction p as [|a p IH]; intros s; simpl.
  { split; congruence. }
  destruct s as [|b s]; [split; discriminate|].
  destruct (N.eqb_spec a b) as [->|Hne]; [|split; congruence].
  rewrite IH. split; congruence.
Qed.

Lemma strip_prefix_app p s : strip_prefix p (p ++ s) = Some s.
Proof. by apply strip_prefix_spec. Qed.

Lemma starts_with_spec p s : starts_with p s = true <-> exists r, s = p ++ r.
Proof.
  unfold starts_with. destruct (strip_prefix p s) as [r|] eqn:E.
  - apply strip_prefix_spec in E. naive_solver.
  - split; [done|]. intros [r ->]. by rewrite strip_prefix_app in E.
Qed.

Lemma starts_with_app p s : starts_with p (p ++ s) = true.
Proof. apply starts_with_spec. eauto. Qed.

Lemma index_of_Some p s i :
  index_of p s = Some i ->
  i + length p <= length s /\ s = take i s ++ p ++ drop (i + length p) s.
Proof.
  assert (Hp : forall r, 0 + length p <= length (p ++ r) /\
                         p ++ r = take 0 (p ++ r) ++ p ++ drop (0 + length p) (p ++ r)).
  { intros r. rewrite length_app. simpl. rewrite drop_app_length. split; [lia|done]. }
  revert i. induction s as [|c s IH]; intros i; cbn [index_of];
    destruct (starts_with p _) eqn:E; try done.
  - intros [= <-]. apply starts_with_spec in E as [r ->]. apply Hp.
  - intros [= <-]. apply starts_with_spec in E as [r ->]. apply Hp.
  - destruct (index_of p s) as [j|]; [|done]. intros [= <-].
    destruct (IH j eq_refl) as [H1 H2]. simpl. split; [lia|]. by f_equal.
Qed.

Lemma index_of_None p s : index_of p s = None <-> forall a b, s <> a ++ p ++ b.
Proof.
  induction s as [|c s IH]; simpl; destruct (starts_with p _) eqn:E.
  - apply starts_with_spec in E as [r ->]. split; [done|]. intros H. by destruct (H [] r).
  - split; [|done]. intros _ a b Hab. symmetry in Hab. apply app_nil in Hab as [-> Hpb].
    assert (starts_with p [] = true) by (apply starts_with_spec; by exists b). congruence.
  - apply starts_with_spec in E as [r E]. rewrite E. split; [done|].
    intros H. by destruct (H [] r).
  - rewrite fmap_None, IH. split.
    + intros H [|x a] b Hab; simpl in Hab.
      * assert (starts_with p (c :: s) = true) by (apply starts_with_spec; eauto). congruence.
      * injection Hab as -> Hab. by destruct (H a b).
    + intros H a b ->. by apply (H (c :: a) b).
Qed.

Lemma includes_spec p s : includes p s = true <-> exists a b, s = a ++ p ++ b.
Proof.
  unfold includes. destruct (index_of p s) as [i|] eqn:E.
  - apply index_of_Some in E as [_ ->]. naive_solver.
  - rewrite index_of_None in E. split; [done|]. intros (a & b & ->). by destruct (E a b).
Qed.

Lemma split_char_nonnil c s : split_char c s <> [].
Proof. destruct s as [|x s]; simpl; [done|]. destruct (N.eqb x c); [done|]. by destruct (split_char c s). Qed.

Lemma split_char_app c w s :
  c ∉ w -> split_char c (w ++ c :: s) = w :: split_char c s.
Proof.
  induction w as [|x w IH]; intros H; simpl.
  - by rewrite N.eqb_refl.
  - rewrite not_elem_of_cons in H. destruct H as [Hx Hw].
    destruct (N.eqb_spec x c); [congruence|]. by rewrite IH.
Qed.

Lemma split_char_no c w : c ∉ w -> split_char c w = [w].
Proof.
  induction w as [|x w IH]; intros H; simpl; [done|].
  rewrite not_elem_of_cons in H. destruct H as [Hx Hw].
  destruct (N.eqb_spec x c); [congruence|]. by rewrite IH.
Qed.

(** [split] undoes [join] on pieces that do not contain the separator. *)
Lemma split_join c ws :
  ws <> [] -> Forall (fun w => c ∉ w) ws -> split_char c (join [c] ws) = ws.
Proof.
  induction ws as [|w ws IH]; [done|]. intros _ H.
  apply Forall_cons in H as [Hw Hws]. destruct ws as [|v ws].
  - by apply split_char_no.
  - change (join [c] (w :: v :: ws)) with (w ++ c :: join [c] (v :: ws)).
    by rewrite split_char_app, IH.
Qed.

Lemma split_char_pieces c s : Forall (fun w => c ∉ w) (split_char c s).
Proof.
  induction s as [|x s IH]; simpl; [repeat constructor; set_solver|].
  destruct (N.eqb_spec x c); [constructor; [set_solver|done]|].
  destruct (split_char c s) as [|w ws]; [repeat constructor; set_solver|].
  apply Forall_cons in IH as [Hw Hws]. constructor; [set_solver|done].
Qed.

Lemma join_split c s : join [c] (split_char c s) = s.
Proof.
  induction s as [|x s IH]; simpl; [done|].
  pose proof (split_char_nonnil c s) as Hn.
  destruct (N.eqb_spec x c) as [->|].
  - destruct (split_char c s); [done|]. simpl in *. by rewrite IH.
  - destruct (split_char c s) as [|w [|v ws]]; [done|..]; simpl in *; by rewrite <- IH.
Qed.

(** ** Lemmas on sets *)

Section SetLemmas.
Context {A : Type} `{EqDecision A}.
Implicit Types (l s : list A) (x : A).

Lemma elem_of_set_add s x y : y ∈ set_add s x <-> y ∈ s \/ y = x.
Proof. unfold set_add. case_decide; set_solver. Qed.

Lemma NoDup_set_add s x : NoDup s -> NoDup (set_add s x).
Proof.
  unfold set_add. intros Hs. case_decide; [done|].
  apply NoDup_app. split_and!; [done|set_solver|apply NoDup_singleton].
Qed.

Lemma fold_set_add l s :
  NoDup s ->
  NoDup (fold_left set_add l s) /\
  (forall y, y ∈ fold_left set_add l s <-> y ∈ s \/ y ∈ l).
Proof.
  revert s. induction l as [|x l IH]; intros s Hs; simpl; [set_solver|].
  destruct (IH (set_add s x) (NoDup_set_add _ _ Hs)) as [H1 H2].
  split; [done|]. intros y. rewrite H2, elem_of_set_add. set_solver.
Qed.

Lemma NoDup_js_set l : NoDup (js_set l).
Proof. apply fold_set_add, NoDup_nil_2. Qed.

Lemma elem_of_js_set l x : x ∈ js_set l <-> x ∈ l.
Proof. unfold js_set. rewrite (proj2 (fold_set_add l [] NoDup_nil_2)). set_solver. Qed.

Lemma fold_set_add_NoDup l s :
  NoDup (s ++ l) -> fold_left set_add l s = s ++ l.
Proof.
  revert s. induction l as [|x l IH]; intros s H; simpl; [by rewrite app_nil_r|].
  unfold set_add at 2. rewrite decide_False.
  - rewrite IH, <- app_assoc; [done|]. by rewrite <- app_assoc.
  - apply NoDup_app in H as (_ & H & _). intros Hx. by apply (H x Hx), list_elem_of_here.
Qed.

(** A list without repetitions is its own set. *)
Lemma js_set_id l : NoDup l -> js_set l = l.
Proof. intros H. by apply (fold_set_add_NoDup l []). Qed.

Lemma js_set_idemp l : js_set (js_set l) = js_set l.
Proof. apply js_set_id, NoDup_js_set. Qed.

Lemma set_has_spec s x : set_has s x = true <-> x ∈ s.
Proof. apply bool_decide_eq_true. Qed.
End SetLemmas.
#[export] Hint Resolve NoDup_js_set : js.

(** ** Lemmas on the stable sort *)

Section SortLemmas.
Context {A : Type} (cmp : A -> A -> comparison).

Lemma sort_insert_perm x l : sort_insert cmp x l ≡ₚ x :: l.
Proof.
  induction l as [|y l IH]; simpl; [done|].
  destruct (cmp x y); [done|done|]. rewrite IH. apply perm_swap.
Qed.

Lemma js_sort_perm l : js_sort cmp l ≡ₚ l.
Proof. induction l as [|x l IH]; simpl; [done|]. by rewrite sort_insert_perm, IH. Qed.

Lemma elem_of_js_sort l x : x ∈ js_sort cmp l <-> x ∈ l.
Proof. by rewrite js_sort_perm. Qed.

(** With a comparator that orders every pair, the result is sorted. *)
Context (cmp_gt : forall x y, cmp x y = Gt -> cmp y x <> Gt).

Lemma sort_insert_sorted x l :
  Sorted (fun a b => cmp a b <> Gt) l ->
  Sorted (fun a b => cmp a b <> Gt) (sort_insert cmp x l).
Proof.
  induction l as [|y l IH]; simpl; intros H; [repeat constructor|].
  destruct (cmp x y) eqn:E.
  1,2: constructor; [done|]; constructor; congruence.
  apply Sorted_inv in H as [Hl Hy]. constructor; [by apply IH|].
  destruct l as [|z l]; simpl; [constructor; by apply cmp_gt|].
  destruct (cmp x z); constructor; try (by apply cmp_gt); by apply HdRel_inv in Hy.
Qed.

Lemma js_sort_sorted l : Sorted (fun a b => cmp a b <> Gt) (js_sort cmp l).
Proof. induction l as [|x l IH]; simpl; [constructor|]. by apply sort_insert_sorted. Qed.
End SortLemmas.

(** Sorting commutes with a map the comparators do not see. *)
Lemma js_sort_fmap {A B} (cmp : A -> A -> comparison) (cmp' : B -> B -> comparison) (f : A -> B) l :
  (forall x y, cmp' (f x) (f y) = cmp x y) -> js_sort cmp' (f <$> l) = f <$> js_sort cmp l.
Proof.
  intros Hf.
  assert (Hi : forall x l, sort_insert cmp' (f x) (f <$> l) = f <$> sort_insert cmp x l).
  { intros x k. induction k as [|y k IH]; [done|]. simpl. rewrite Hf.
    destruct (cmp x y); [done|done|]. rewrite fmap_cons. by f_equal. }
  induction l as [|x l IH]; [done|]. rewrite fmap_cons.
  change (js_sort cmp' (f x :: (f <$> l))) with (sort_insert cmp' (f x) (js_sort cmp' (f <$> l))).
  by rewrite IH, Hi.
Qed.

(** Of two ends of a list the shorter one is an end of the longer one. *)
Lemma suffix_by_length {A} (a b l : list A) :
  a `suffix_of` l -> b `suffix_of` l -> length a <= length b -> a `suffix_of` b.
Proof.
  intros [p ->] [q E] Hl. assert (Hlen := f_equal length E). rewrite !length_app in Hlen.
  exists (drop (length q) p).
  rewrite <- (drop_app_length q b), <- E, drop_app.
  replace (length q - length p) with 0 by lia. done.
Qed.

(** ** Decimal printing and reading *)

Lemma N_of_dec_snoc s c : N_of_dec (s ++ [c]) = (N_of_dec s * 10 + (c - 48))%N.
Proof. unfold N_of_dec. by rewrite fold_left_app. Qed.

Lemma digits_fuel_acc f n acc : digits_fuel f n acc = digits_fuel f n [] ++ acc.
Proof.
  revert n acc. induction f as [|f IH]; intros n acc; simpl; [done|].
  destruct (n <? 10)%N; [done|]. rewrite IH, (IH _ [_]), <- app_assoc. done.
Qed.

Lemma digits_fuel_S f n :
  digits_fuel (S f) n [] =
  (if (n <? 10)%N then [] else digits_fuel f (n / 10)%N []) ++ [digit (n mod 10)].
Proof. simpl. destruct (n <? 10)%N; [done|]. by rewrite digits_fuel_acc. Qed.

Lemma digits_fuel_value f n :
  (n < 2 ^ N.of_nat f)%N -> N_of_dec (digits_fuel f n []) = n.
Proof.
  revert n. induction f as [|f IH]; intros n Hn.
  { simpl in *. unfold N_of_dec. simpl. lia. }
  rewrite digits_fuel_S, N_of_dec_snoc. unfold digit.
  pose proof (N.mod_lt n 10 ltac:(done)). pose proof (N.Div0.div_mod n 10).
  destruct (N.ltb_spec n 10).
  - rewrite N.mod_small by lia. unfold N_of_dec; simpl. lia.
  - rewrite IH; [clear Hn IH; revert H H0; generalize (n mod 10)%N (n / 10)%N; lia|]. rewrite Nat2N.inj_succ, N.pow_succ_r' in Hn.
    apply N.Div0.div_lt_upper_bound. lia.
Qed.

Lemma N_of_dec_of_N n : N_of_dec (dec_of_N n) = n.
Proof.
  apply digits_fuel_value. rewrite Nat2N.inj_succ, N2Nat.id.
  destruct (N.eq_dec n 0%N) as [->|]; [done|]. apply N.log2_spec. lia.
Qed.

Lemma dec_of_N_digits n : forallb is_digit (dec_of_N n) = true.
Proof.
  unfold dec_of_N. generalize (S (N.to_nat (N.log2 n))). intros f. revert n.
  induction f as [|f IH]; intros n; [done|].
  rewrite digits_fuel_S, forallb_app.
  assert (Hd : is_digit (digit (n mod 10)) = true).
  { unfold is_digit, digit. pose proof (N.mod_lt n 10 ltac:(done)) as H. revert H.
    generalize (n mod 10)%N. intros m H. apply andb_true_intro; split; apply N.leb_le; lia. }
  simpl. rewrite Hd. destruct (n <? 10)%N; [done|]. by rewrite IH.
Qed.

Lemma dec_of_N_nonnil n : dec_of_N n <> [].
Proof. unfold dec_of_N. rewrite digits_fuel_S. intros H. by apply app_nil in H as [_ ?]. Qed.
