(* ===== verification/JsNumber.v ===== *)
(** * JavaScript numbers

    A number is an IEEE 754 binary64 value ([spec_float] with 53 bits of
    precision), with the operations, comparisons and conversions the modelled
    sources use.  Everything is executable. *)

From S2P Require Import Prelude.
From Stdlib Require Export SpecFloat.

Abbreviation number := spec_float.

Definition prec64 : Z := 53.
Definition emax64 : Z := 1024.

#[export] Instance number_eq_dec : EqDecision number.
Proof. solve_decision. Defined.

Definition NaN : number := S754_nan.
Definition num_of_Z (z : Z) : number := binary_normalize prec64 emax64 z 0 false.
Definition num_of_nat (n : nat) : number := num_of_Z (Z.of_nat n).

Definition num_add : number -> number -> number := SFadd prec64 emax64.
Definition num_sub : number -> number -> number := SFsub prec64 emax64.
Definition num_mul : number -> number -> number := SFmul prec64 emax64.
Definition num_div : number -> number -> number := SFdiv prec64 emax64.

(** [===], [<], [<=] (all false on NaN). *)
Definition num_eqb : number -> number -> bool := SFeqb.
Definition num_ltb : number -> number -> bool := SFltb.
Definition num_leb : number -> number -> bool := SFleb.

Definition is_nan (x : number) : bool :=
  match x with S754_nan => true | _ => false end.
(** [Number.isFinite] *)
Definition is_finite (x : number) : bool :=
  match x with S754_zero _ | S754_finite _ _ _ => true | _ => false end.
(** [Boolean(x)] *)
Definition num_truthy (x : number) : bool :=
  match x with S754_zero _ | S754_nan => false | _ => true end.
(** [x || 0] *)
Definition num_or (x y : number) : number := if num_truthy x then x else y.

(** [Math.max(x, y)]: NaN is contagious and [+0] wins over [-0]. *)
Definition math_max (x y : number) : number :=
  if is_nan x || is_nan y then NaN
  else match x, y with
       | S754_zero s, S754_zero t => S754_zero (s && t)
       | _, _ => if num_ltb x y then y else x
       end.

(** The integer part of a finite number rounded down or up, and
    [Math.floor] and [Math.ceil]. *)
Definition floor_Z (s : bool) (m : positive) (e : Z) : Z :=
  let v := (if s then Z.neg m else Z.pos m)%Z in
  if (0 <=? e)%Z then Z.shiftl v e else (v / 2 ^ (- e))%Z.
Definition ceil_Z (s : bool) (m : positive) (e : Z) : Z := (- floor_Z (negb s) m e)%Z.

Definition math_floor (x : number) : number :=
  match x with
  | S754_finite s m e => binary_normalize prec64 emax64 (floor_Z s m e) 0 s
  | _ => x
  end.
Definition math_ceil (x : number) : number :=
  match x with
  | S754_finite s m e => binary_normalize prec64 emax64 (ceil_Z s m e) 0 s
  | _ => x
  end.

(** The integer a number stands for, when it is one. *)
Definition num_to_Z (x : number) : option Z :=
  match x with
  | S754_zero _ => Some 0%Z
  | S754_finite s m e =>
      let z := floor_Z s m e in
      if (ceil_Z s m e =? z)%Z then Some z else None
  | _ => None
  end.
(** [Number.isInteger] *)
Definition is_integer (x : number) : bool :=
  match num_to_Z x with Some _ => true | None => false end.

(** The correctly rounded value of [mant * 10 ^ exp10]; exponents far out of
    the binary64 range are answered without computing the power. *)
Definition decimal_value (s : bool) (mant : N) (exp10 : Z) : number :=
  match mant with
  | N0 => S754_zero s
  | Npos m =>
      let size := (exp10 + Z.of_nat (length (dec_of_N mant)))%Z in
      if (400 <? size)%Z then S754_infinity s
      else if (size <? -400)%Z then S754_zero s
      else if (0 <=? exp10)%Z then
        binary_round prec64 emax64 s (m * Z.to_pos (10 ^ exp10)) 0
      else SFdiv prec64 emax64 (S754_finite s m 0)
             (S754_finite false (Z.to_pos (10 ^ (- exp10))) 0)
  end.

(** ** Number to string ([Number::toString], radix 10)

    The shortest decimal significand that reads back as the same number, with
    the closest one among those of that length. *)

Definition floor_log10 (num den : Z) : Z :=
  (* the k with 10^(k-1) <= num/den < 10^k *)
  let guess := (Z.of_nat (length (dec_of_N (Z.to_N num)))
                - Z.of_nat (length (dec_of_N (Z.to_N den))))%Z in
  let ge k := if (0 <=? k)%Z then (den * 10 ^ k <=? num)%Z
              else (den <=? num * 10 ^ (- k))%Z in
  if ge guess then (guess + 1)%Z else guess.

(** A significand [d] and exponent [q] such that [d * 10^q] reads as [x], with
    as few digits as possible; [k] digits are tried first. *)
Fixpoint shortest_digits (fuel k : nat) (num den n : Z) (x : number) : N * Z :=
  match fuel with
  | 0 => (0%N, 0%Z)
  | S f =>
      let p := (Z.of_nat k - n)%Z in   (* x * 10^p has k integer digits *)
      let '(a, b) := if (0 <=? p)%Z then (num * 10 ^ p, den)%Z
                     else (num, den * 10 ^ (- p))%Z in
      let lo := (a / b)%Z in
      let r := (a mod b)%Z in
      let ok d := bool_decide (decimal_value false (Z.to_N d) (- p) = x) in
      let first := if (2 * r <=? b)%Z then lo else (lo + 1)%Z in
      let second := if (2 * r <=? b)%Z then (lo + 1)%Z else lo in
      if ok first then (Z.to_N first, - p)%Z
      else if ok second then (Z.to_N second, - p)%Z
      else shortest_digits f (S k) num den n x
  end.

Fixpoint strip_zeros (fuel : nat) (d : N) : N :=
  match fuel with
  | 0 => d
  | S f => if ((d =? 0) || negb (d mod 10 =? 0))%N then d else strip_zeros f (d / 10)%N
  end.

Definition zeros (k : nat) : jsstr := replicate k 48%N.

(** Layout of the digits, steps 6 to 12 of [Number::toString]. *)
Definition layout_digits (ds : jsstr) (n : Z) : jsstr :=
  let k := Z.of_nat (length ds) in
  if ((k <=? n) && (n <=? 21))%Z then ds ++ zeros (Z.to_nat (n - k))
  else if ((0 <? n) && (n <=? 21))%Z then
    take (Z.to_nat n) ds ++ js "." ++ drop (Z.to_nat n) ds
  else if ((-6 <? n) && (n <=? 0))%Z then js "0." ++ zeros (Z.to_nat (- n)) ++ ds
  else
    let e := (n - 1)%Z in
    let ex := (if (0 <=? e)%Z then js "e+" else js "e-") ++ dec_of_N (Z.abs_N e) in
    match ds with
    | [d] => d :: ex
    | d :: ds' => d :: js "." ++ ds' ++ ex
    | [] => []
    end.

Definition pos_num_to_string (m : positive) (e : Z) : jsstr :=
  let num := (if (0 <=? e)%Z then Z.shiftl (Z.pos m) e else Z.pos m)%Z in
  let den := (if (0 <=? e)%Z then 1 else 2 ^ (- e))%Z in
  let n := floor_log10 num den in
  let '(d, q) := shortest_digits 17 1 num den n (S754_finite false m e) in
  layout_digits (dec_of_N (strip_zeros 20 d)) (Z.of_nat (length (dec_of_N d)) + q).

(** Integers up to [2^53] print all their digits; other numbers take the
    search above.  [-0] prints as ["0"]. *)
Definition num_to_string (x : number) : jsstr :=
  match x with
  | S754_nan => js "NaN"
  | S754_infinity s => (if s then js "-" else []) ++ js "Infinity"
  | S754_zero _ => js "0"
  | S754_finite s m e =>
      (if s then js "-" else []) ++
      match num_to_Z x with
      | Some z => if (Z.abs z <=? 2 ^ 53)%Z then dec_of_N (Z.abs_N z)
                  else pos_num_to_string m e
      | None => pos_num_to_string m e
      end
  end.

(** ** String to number ([Number(s)]) *)

(** An unsigned decimal literal as a significand and a power of ten. *)
Definition scan_exponent (s : jsstr) : option (Z * jsstr) :=
  match s with
  | c :: s' =>
      if (c =? ch "e")%N || (c =? ch "E")%N then
        let '(neg, t) := match s' with
                         | d :: t => if (d =? ch "-")%N then (true, t)
                                     else if (d =? ch "+")%N then (false, t)
                                     else (false, s')
                         | [] => (false, s')
                         end in
        let ds := take_while is_digit t in
        if nonempty ds then
          let z := Z.of_N (N_of_dec ds) in
          Some (if neg then (- z)%Z else z, drop_while is_digit t)
        else None
      else Some (0%Z, s)
  | [] => Some (0%Z, s)
  end.

Definition read_unsigned_decimal (neg : bool) (s : jsstr) : option number :=
  let ip := take_while is_digit s in
  let s1 := drop_while is_digit s in
  let '(fp, s2) := match s1 with
                   | c :: t => if (c =? ch ".")%N
                               then (take_while is_digit t, drop_while is_digit t)
                               else ([], s1)
                   | [] => ([], s1)
                   end in
  if nonempty (ip ++ fp) then
    match scan_exponent s2 with
    | Some (e, []) =>
        Some (decimal_value neg (N_of_dec (ip ++ fp)) (e - Z.of_nat (length fp)))
    | _ => None
    end
  else None.

(** [Number(s)] on strings without a radix prefix: decimal literals,
    [Infinity] and white space; everything else is NaN. *)
Definition num_of_string (s : jsstr) : number :=
  let t := trim s in
  if negb (nonempty t) then S754_zero false
  else
    let '(neg, u) := match t with
                     | c :: u => if (c =? ch "-")%N then (true, u)
                                 else if (c =? ch "+")%N then (false, u)
                                 else (false, t)
                     | [] => (false, t)
                     end in
    if bool_decide (u = js "Infinity") then S754_infinity neg
    else match read_unsigned_decimal neg u with Some x => x | None => NaN end.

(** ** Lemmas: integers are exact up to 53 bits *)

Lemma digits2_iter_xO m k :
  digits2_pos (Pos.iter xO m k) = (digits2_pos m + k)%positive.
Proof.
  revert m. induction k as [|k IH] using Pos.peano_ind; intros m; simpl.
  - lia.
  - rewrite Pos.iter_succ. simpl. rewrite IH. lia.
Qed.

Lemma iter_xO_shift m k : Z.pos (Pos.iter xO m k) = (Z.pos m * 2 ^ Z.pos k)%Z.
Proof.
  induction k as [|k IH] using Pos.peano_ind; simpl; [lia|].
  rewrite Pos.iter_succ, Pos2Z.inj_xO, IH, Pos2Z.inj_succ, Z.pow_succ_r by lia. lia.
Qed.

Lemma digits2_bound m k :
  (Z.pos m < 2 ^ k)%Z -> (0 <= k)%Z -> (Z.pos (digits2_pos m) <= k)%Z.
Proof.
  revert k. induction m as [m IH|m IH|]; intros k H Hk; simpl.
  - assert (k <> 0)%Z by (intros ->; lia).
    assert (Z.pos (digits2_pos m) <= k - 1)%Z; [|lia].
    apply IH; [|lia]. replace k with (Z.succ (k - 1)) in H by lia.
    rewrite Z.pow_succ_r in H; lia.
  - assert (k <> 0)%Z by (intros ->; lia).
    assert (Z.pos (digits2_pos m) <= k - 1)%Z; [|lia].
    apply IH; [|lia]. replace k with (Z.succ (k - 1)) in H by lia.
    rewrite Z.pow_succ_r in H; lia.
  - assert (k <> 0)%Z by (intros ->; lia). lia.
Qed.

(** A mantissa that already has 53 bits is not changed by rounding. *)
Lemma round_aux_exact s m e :
  digits2_pos m = 53%positive -> (-1074 <= e <= 971)%Z ->
  binary_round_aux prec64 emax64 s (Z.pos m) e loc_Exact = S754_finite s m e.
Proof.
  intros Hm He. unfold binary_round_aux, shr_fexp. simpl Zdigits2. rewrite Hm.
  assert (Hf : (fexp prec64 emax64 (53 + e) - e = 0)%Z).
  { unfold fexp, emin, prec64, emax64. lia. }
  rewrite Hf. simpl. rewrite Hm, Hf. simpl.
  rewrite (proj2 (Z.leb_le _ _)); [done|unfold emax64, prec64; lia].
Qed.

Definition safe_exp (m : positive) : Z := (Z.pos (digits2_pos m) - 53)%Z.
Definition safe_mant (m : positive) : positive :=
  match (53 - Z.pos (digits2_pos m))%Z with
  | Zpos k => Pos.iter xO m k
  | _ => m
  end.

Lemma binary_round_safe s m :
  (Z.pos m < 2 ^ 53)%Z ->
  binary_round prec64 emax64 s m 0 = S754_finite s (safe_mant m) (safe_exp m).
Proof.
  intros H. pose proof (digits2_bound m 53 H ltac:(lia)) as Hd.
  unfold binary_round, safe_mant, safe_exp.
  assert (Hf : fexp prec64 emax64 (Z.pos (digits2_pos m) + 0)
               = (Z.pos (digits2_pos m) - 53)%Z).
  { unfold fexp, emin, prec64, emax64. lia. }
  rewrite Hf. unfold shl_align. rewrite Z.sub_0_r.
  destruct (53 - Z.pos (digits2_pos m))%Z as [|k|k] eqn:Ek; [| |lia].
  - replace (Z.pos (digits2_pos m) - 53)%Z with 0%Z by lia.
    apply round_aux_exact; lia.
  - replace (Z.pos (digits2_pos m) - 53)%Z with (Z.neg k) by lia.
    apply round_aux_exact; [|lia]. rewrite digits2_iter_xO. lia.
Qed.

Definition safe (z : Z) : Prop := (Z.abs z < 2 ^ 53)%Z.
#[export] Instance safe_dec z : Decision (safe z).
Proof. unfold safe. apply _. Defined.

(** The binary64 value of a safe integer, in closed form. *)
Lemma num_of_Z_safe z :
  safe z ->
  num_of_Z z = match z with
               | Z0 => S754_zero false
               | Zpos m => S754_finite false (safe_mant m) (safe_exp m)
               | Zneg m => S754_finite true (safe_mant m) (safe_exp m)
               end.
Proof. unfold safe, num_of_Z. destruct z; intros H; simpl; [done|..]; by apply binary_round_safe. Qed.

Lemma safe_mant_value m :
  (Z.pos m < 2 ^ 53)%Z ->
  (safe_exp m <= 0)%Z /\ Z.pos (safe_mant m) = (Z.pos m * 2 ^ (- safe_exp m))%Z.
Proof.
  intros H. pose proof (digits2_bound m 53 H ltac:(lia)).
  unfold safe_mant, safe_exp. split; [lia|].
  destruct (53 - Z.pos (digits2_pos m))%Z as [|k|k] eqn:Ek; [| |lia].
  - replace (- (Z.pos (digits2_pos m) - 53))%Z with 0%Z by lia. lia.
  - rewrite iter_xO_shift. f_equal. f_equal. lia.
Qed.

Lemma floor_Z_safe s m :
  (Z.pos m < 2 ^ 53)%Z ->
  floor_Z s (safe_mant m) (safe_exp m) = (if s then Z.neg m else Z.pos m)%Z.
Proof.
  intros H. destruct (safe_mant_value m H) as [He Hv]. unfold floor_Z.
  replace (if s then Z.neg (safe_mant m) else Z.pos (safe_mant m))%Z
    with ((if s then Z.neg m else Z.pos m) * 2 ^ (- safe_exp m))%Z by (destruct s; lia).
  destruct (Z.leb_spec 0 (safe_exp m)).
  - replace (safe_exp m) with 0%Z by lia. rewrite Z.shiftl_0_r. simpl. lia.
  - rewrite Z.div_mul; [done|]. apply Z.pow_nonzero; lia.
Qed.

Lemma num_to_Z_of_Z z : safe z -> num_to_Z (num_of_Z z) = Some z.
Proof.
  intros H. rewrite num_of_Z_safe by done. unfold safe in H.
  destruct z as [|m|m]; [done|..]; unfold num_to_Z, ceil_Z;
    rewrite !floor_Z_safe by lia; simpl; by rewrite Pos.eqb_refl.
Qed.

Lemma num_of_Z_finite z : safe z -> is_finite (num_of_Z z) = true.
Proof. intros H. rewrite num_of_Z_safe by done. by destruct z. Qed.

(** A safe integer prints as its decimal digits. *)
Lemma num_to_string_nonneg n :
  safe (Z.of_N n) -> num_to_string (num_of_Z (Z.of_N n)) = dec_of_N n.
Proof.
  intros H. pose proof (num_to_Z_of_Z _ H) as HZ.
  rewrite num_of_Z_safe in * by done. unfold num_to_string.
  destruct n as [|m]; [done|]. simpl Z.of_N in *. cbv iota. rewrite HZ.
  unfold safe in H. rewrite (proj2 (Z.leb_le _ _)) by lia. done.
Qed.

(** ** Lemmas: comparisons of safe integers *)

Lemma digits2_spec m :
  (2 ^ (Z.pos (digits2_pos m) - 1) <= Z.pos m < 2 ^ Z.pos (digits2_pos m))%Z.
Proof.
  induction m as [m IH|m IH|]; simpl digits2_pos; [..|done];
    rewrite Pos2Z.inj_succ, Z.pow_succ_r by lia;
    replace (Z.succ (Z.pos (digits2_pos m)) - 1)%Z
      with (Z.succ (Z.pos (digits2_pos m) - 1)) by lia;
    rewrite Z.pow_succ_r by lia; lia.
Qed.

Lemma digits2_mono m1 m2 :
  (digits2_pos m1 < digits2_pos m2)%positive -> (m1 < m2)%positive.
Proof.
  intros H. pose proof (digits2_spec m1) as [_ H1]. pose proof (digits2_spec m2) as [H2 _].
  assert (2 ^ Z.pos (digits2_pos m1) <= 2 ^ (Z.pos (digits2_pos m2) - 1))%Z; [|lia].
  apply Z.pow_le_mono_r; lia.
Qed.

Lemma safe_pos_compare m1 m2 :
  (Z.pos m1 < 2 ^ 53)%Z -> (Z.pos m2 < 2 ^ 53)%Z ->
  match (safe_exp m1 ?= safe_exp m2)%Z with
  | Eq => Pos.compare_cont Eq (safe_mant m1) (safe_mant m2)
  | c => c
  end = (m1 ?= m2)%positive.
Proof.
  intros H1 H2. destruct (safe_mant_value m1 H1) as [_ V1].
  destruct (safe_mant_value m2 H2) as [N2 V2].
  destruct (Z.compare_spec (safe_exp m1) (safe_exp m2)) as [E|E|E].
  - change (Pos.compare_cont Eq ?a ?b) with (a ?= b)%positive.
    change ((Z.pos (safe_mant m1) ?= Z.pos (safe_mant m2))%Z = (Z.pos m1 ?= Z.pos m2)%Z).
    rewrite V1, V2, E. symmetry. rewrite !(Z.mul_comm (Z.pos _)).
    apply Zmult_compare_compat_l, Z.lt_gt, Z.pow_pos_nonneg; lia.
  - symmetry. apply Pos.compare_lt_iff, digits2_mono. unfold safe_exp in E. lia.
  - symmetry. apply Pos.compare_gt_iff, digits2_mono. unfold safe_exp in E. lia.
Qed.

(** The comparison of two safe integers is that of [Z]. *)
Lemma SFcompare_safe a b :
  safe a -> safe b -> SFcompare (num_of_Z a) (num_of_Z b) = Some (a ?= b)%Z.
Proof.
  intros Ha Hb. rewrite !num_of_Z_safe by done. unfold safe in *.
  destruct a as [|m1|m1], b as [|m2|m2]; simpl; try done; f_equal.
  - apply safe_pos_compare; lia.
  - rewrite <- (safe_pos_compare m1 m2) by lia.
    by destruct (safe_exp m1 ?= safe_exp m2)%Z.
Qed.

Lemma num_ltb_safe a b :
  safe a -> safe b -> num_ltb (num_of_Z a) (num_of_Z b) = (a <? b)%Z.
Proof. intros Ha Hb. unfold num_ltb, SFltb, Z.ltb. by rewrite SFcompare_safe. Qed.

Lemma num_leb_safe a b :
  safe a -> safe b -> num_leb (num_of_Z a) (num_of_Z b) = (a <=? b)%Z.
Proof. intros Ha Hb. unfold num_leb, SFleb, Z.leb. by rewrite SFcompare_safe. Qed.

Lemma num_eqb_safe a b :
  safe a -> safe b -> num_eqb (num_of_Z a) (num_of_Z b) = (a =? b)%Z.
Proof.
  intros Ha Hb. unfold num_eqb, SFeqb. rewrite SFcompare_safe by done.
  destruct (Z.compare_spec a b), (Z.eqb_spec a b); try done; lia.
Qed.

(** [Math.max(0, x)] is never a negative number. *)
Lemma math_max_0_nonneg x : num_ltb (math_max (num_of_Z 0) x) (num_of_Z 0) = false.
Proof.
  unfold math_max. destruct x as [s|s| |s m e]; simpl; [by destruct s|by destruct s|done|].
  destruct s; [done|]. done.
Qed.

(** ** Addition of safe integers is exact *)

(** [m * 2 ^ k] *)
Definition shl (m : positive) (k : Z) : positive :=
  match k with Zpos p => Pos.iter xO m p | _ => m end.

Lemma shl_value m k : (0 <= k)%Z -> Z.pos (shl m k) = (Z.pos m * 2 ^ k)%Z.
Proof. intros H. destruct k as [|p|p]; simpl shl; [lia|apply iter_xO_shift|lia]. Qed.

Lemma shl_digits m k : (0 <= k)%Z -> Z.pos (digits2_pos (shl m k)) = (Z.pos (digits2_pos m) + k)%Z.
Proof. intros H. destruct k as [|p|p]; simpl shl; [lia|rewrite digits2_iter_xO; lia|lia]. Qed.

Lemma shl_shl m j k : (0 <= j)%Z -> (0 <= k)%Z -> shl (shl m j) k = shl m (j + k).
Proof.
  intros Hj Hk. apply Pos2Z.inj. rewrite !shl_value by lia. rewrite Z.pow_add_r by lia. lia.
Qed.

Lemma iter_pos_comm {A} (f : A -> A) p x : iter_pos f p (f x) = f (iter_pos f p x).
Proof. revert x. induction p as [p IH|p IH|]; intros x; simpl; [|by rewrite !IH|done]. by rewrite !IH. Qed.

Lemma iter_pos_succ {A} (f : A -> A) p x : iter_pos f (Pos.succ p) x = iter_pos f p (f x).
Proof.
  revert x. induction p as [p IH|p IH|]; intros x; simpl; [|done|done].
  by rewrite !IH, !iter_pos_comm.
Qed.

Lemma shr_shl m p :
  iter_pos shr_1 p (Build_shr_record (Z.pos (Pos.iter xO m p)) false false)
  = Build_shr_record (Z.pos m) false false.
Proof.
  induction p as [|p IH] using Pos.peano_ind; [done|].
  by rewrite iter_pos_succ, Pos.iter_succ.
Qed.

Lemma round_aux_shl s m e k :
  digits2_pos m = 53%positive -> (0 <= k <= 100)%Z -> (-900 <= e <= 900)%Z ->
  binary_round_aux prec64 emax64 s (Z.pos (shl m k)) (e - k) loc_Exact = S754_finite s m e.
Proof.
  intros Hm Hk He. destruct k as [|p|p]; [| |lia].
  { rewrite Z.sub_0_r. apply round_aux_exact; [done|lia]. }
  rewrite <- (round_aux_exact s m e) by (done || lia).
  unfold binary_round_aux. f_equal.
  assert (Hs : shr_fexp prec64 emax64 (Z.pos (shl m (Z.pos p))) (e - Z.pos p) loc_Exact
               = (Build_shr_record (Z.pos m) false false, e)).
  { unfold shr_fexp. simpl Zdigits2. rewrite digits2_iter_xO, Hm.
    assert (fexp prec64 emax64 (Z.pos (53 + p) + (e - Z.pos p)) - (e - Z.pos p) = Z.pos p)%Z as ->.
    { unfold fexp, emin, prec64, emax64. lia. }
    cbn [shr shr_record_of_loc shl]. rewrite shr_shl. f_equal. lia. }
  assert (Hm' : shr_fexp prec64 emax64 (Z.pos m) e loc_Exact = (Build_shr_record (Z.pos m) false false, e)).
  { unfold shr_fexp. simpl Zdigits2. rewrite Hm.
    assert (fexp prec64 emax64 (53 + e) - e = 0)%Z as -> by (unfold fexp, emin, prec64, emax64; lia).
    done. }
  rewrite Hs, Hm'. done.
Qed.

(** Scaling the mantissa and the exponent does not change the value. *)
Lemma binary_round_shl s m k :
  (Z.pos m < 2 ^ 53)%Z -> (0 <= k <= 100)%Z ->
  binary_round prec64 emax64 s (shl m k) (- k) = S754_finite s (safe_mant m) (safe_exp m).
Proof.
  intros H Hk. pose proof (digits2_bound m 53 H ltac:(lia)) as Hd.
  set (d := Z.pos (digits2_pos m)) in *.
  assert (Hsm : safe_mant m = shl m (53 - d)).
  { unfold safe_mant, shl. fold d. by destruct (53 - d)%Z. }
  rewrite Hsm. unfold safe_exp. fold d. unfold binary_round.
  assert (Hf : fexp prec64 emax64 (Z.pos (digits2_pos (shl m k)) + - k) = (d - 53)%Z).
  { rewrite shl_digits by lia. fold d. unfold fexp, emin, prec64, emax64. lia. }
  rewrite Hf. unfold shl_align.
  assert (H53 : digits2_pos (shl m (53 - d)) = 53%positive).
  { apply Pos2Z.inj. rewrite shl_digits by lia. fold d. lia. }
  destruct (Z.leb_spec 0 (d - 53 - - k)) as [Hc|Hc].
  - assert (match (d - 53 - - k)%Z with Z.neg p => (Pos.iter xO (shl m k) p, (d - 53)%Z)
            | _ => (shl m k, (- k)%Z) end = (shl m k, (- k)%Z)) as -> by (by destruct (d - 53 - - k)%Z).
    replace (shl m k) with (shl (shl m (53 - d)) (k - (53 - d))).
    + replace (- k)%Z with ((d - 53) - (k - (53 - d)))%Z by lia. apply round_aux_shl; [done|lia|lia].
    + rewrite shl_shl by lia. f_equal. lia.
  - destruct (d - 53 - - k)%Z as [|p|p] eqn:Ep; [lia|lia|].
    change (Pos.iter xO (shl m k) p) with (shl (shl m k) (Z.pos p)). rewrite shl_shl by lia.
    replace (k + Z.pos p)%Z with (53 - d)%Z by lia.
    apply round_aux_exact; [done|lia].
Qed.

Lemma shl_align_safe m ez :
  (Z.pos m < 2 ^ 53)%Z -> (ez <= safe_exp m)%Z ->
  Z.pos (shl_align (safe_mant m) (safe_exp m) ez).1 = (Z.pos m * 2 ^ (- ez))%Z.
Proof.
  intros H He. destruct (safe_mant_value m H) as [H0 Hv]. unfold shl_align.
  destruct (ez - safe_exp m)%Z as [|p|p] eqn:Ep; cbn [fst].
  - rewrite Hv. f_equal. f_equal. lia.
  - lia.
  - rewrite iter_xO_shift, Hv, <- Z.mul_assoc, <- Z.pow_add_r by lia. f_equal. f_equal. lia.
Qed.

Lemma num_add_nonneg a b :
  (0 <= a)%Z -> (0 <= b)%Z -> safe (a + b) -> num_add (num_of_Z a) (num_of_Z b) = num_of_Z (a + b).
Proof.
  unfold safe. intros Ha Hb Hs. rewrite !num_of_Z_safe by (unfold safe; lia). unfold num_add.
  destruct a as [|a|a]; [by destruct b| |lia]. destruct b as [|b|b]; [done| |lia].
  cbn [SFadd Z.add]. set (ez := Z.min (safe_exp a) (safe_exp b)).
  assert (Hea : (-52 <= safe_exp a <= 0)%Z).
  { unfold safe_exp. pose proof (digits2_bound a 53 ltac:(lia) ltac:(lia)). lia. }
  assert (Heb : (-52 <= safe_exp b <= 0)%Z).
  { unfold safe_exp. pose proof (digits2_bound b 53 ltac:(lia) ltac:(lia)). lia. }
  assert (Hsum : (Z.pos (shl_align (safe_mant a) (safe_exp a) ez).1
                  + Z.pos (shl_align (safe_mant b) (safe_exp b) ez).1)%Z = Z.pos (shl (a + b) (- ez))).
  { rewrite !shl_align_safe by lia. rewrite shl_value by lia. rewrite Pos2Z.inj_add. lia. }
  unfold cond_Zopp. rewrite Hsum. cbn [binary_normalize].
  replace ez with (- - ez)%Z at 2 by lia. apply binary_round_shl; lia.
Qed.

(** [reduce((sum, x) => sum + x, 0)] *)
Definition num_sum (xs : list number) : number := fold_left num_add xs (num_of_Z 0).
Definition Z_sum (zs : list Z) : Z := foldr Z.add 0%Z zs.

Lemma num_sum_from acc zs :
  (0 <= acc)%Z -> Forall (fun z => (0 <= z)%Z) zs -> safe (acc + Z_sum zs) ->
  fold_left num_add (num_of_Z <$> zs) (num_of_Z acc) = num_of_Z (acc + Z_sum zs).
Proof.
  intros Ha Hz. revert acc Ha. induction Hz as [|z zs Hz Hzs IH]; intros acc Ha Hs; simpl in *.
  - by rewrite Z.add_0_r.
  - assert (0 <= Z_sum zs)%Z.
    { clear -Hzs. induction Hzs; simpl; lia. }
    unfold safe in *. rewrite num_add_nonneg by (unfold safe; lia).
    rewrite IH by (unfold safe; lia). f_equal. lia.
Qed.

(** Sums of counts are exact while they stay below 2^53. *)
Lemma num_sum_exact zs :
  Forall (fun z => (0 <= z)%Z) zs -> safe (Z_sum zs) -> num_sum (num_of_Z <$> zs) = num_of_Z (Z_sum zs).
Proof. intros Hz Hs. unfold num_sum. by rewrite num_sum_from. Qed.

Lemma Z_sum_nonneg zs : Forall (fun z => (0 <= z)%Z) zs -> (0 <= Z_sum zs)%Z.
Proof. induction 1; simpl; lia. Qed.

Lemma Z_sum_cons z zs : Z_sum (z :: zs) = (z + Z_sum zs)%Z.
Proof. done. Qed.

Lemma Z_sum_app a b : Z_sum (a ++ b) = (Z_sum a + Z_sum b)%Z.
Proof. induction a; simpl; lia. Qed.

Lemma Z_sum_perm a b : a ≡ₚ b -> Z_sum a = Z_sum b.
Proof. induction 1; simpl; lia. Qed.

(** A sum of exact values does not depend on their order. *)
Lemma num_sum_perm_exact ns zs :
  ns ≡ₚ num_of_Z <$> zs -> Forall (fun z => (0 <= z)%Z) zs -> safe (Z_sum zs) ->
  num_sum ns = num_of_Z (Z_sum zs).
Proof.
  intros HP Hz Hs. apply Permutation_map_inv in HP as (zs' & -> & HP).
  change (num_sum (num_of_Z <$> zs') = num_of_Z (Z_sum zs)). rewrite (Z_sum_perm zs zs' HP) in *.
  apply num_sum_exact; [by rewrite <- HP|done].
Qed.

Lemma Z_sum_sublist a b :
  a `sublist_of` b -> Forall (fun z => (0 <= z)%Z) b -> (Z_sum a <= Z_sum b)%Z.
Proof.
  induction 1 as [|x a b _ IH|x a b _ IH]; intros Hb; [done|..];
    apply Forall_cons in Hb as [Hx Hb]; rewrite !Z_sum_cons; specialize (IH Hb); lia.
Qed.
