(* ===== verification/JsValue.v ===== *)
(** * JavaScript values, objects and JSON

    The values the sources exchange with [JSON.parse], [JSON.stringify] and
    the [unknown] inputs of their parsers: primitives, arrays and plain
    objects.  Objects are association lists in property enumeration order. *)

From S2P Require Import Prelude JsNumber.

Unset Elimination Schemes.
Inductive value :=
| VUndefined
| VNull
| VBool (b : bool)
| VNum (x : number)
| VStr (s : jsstr)
| VArr (l : list value)
| VObj (fs : list (jsstr * value)).
Set Elimination Schemes.

(** Induction with hypotheses for the elements and the fields. *)
Section ValueInd.
Context (P : value -> Prop).
Context (Pundef : P VUndefined) (Pnull : P VNull) (Pbool : forall b, P (VBool b)).
Context (Pnum : forall x, P (VNum x)) (Pstr : forall s, P (VStr s)).
Context (Parr : forall l, Forall P l -> P (VArr l)).
Context (Pobj : forall fs, Forall (fun f => P f.2) fs -> P (VObj fs)).

Fixpoint value_ind (v : value) : P v :=
  match v with
  | VUndefined => Pundef
  | VNull => Pnull
  | VBool b => Pbool b
  | VNum x => Pnum x
  | VStr s => Pstr s
  | VArr l =>
      Parr l ((fix go l : Forall P l :=
                 match l with
                 | [] => Forall_nil_2 _
                 | v :: l' => Forall_cons_2 _ _ _ (value_ind v) (go l')
                 end) l)
  | VObj fs =>
      Pobj fs ((fix go fs : Forall (fun f => P f.2) fs :=
                  match fs with
                  | [] => Forall_nil_2 _
                  | f :: fs' => Forall_cons_2 (fun f => P f.2) _ _ (value_ind f.2) (go fs')
                  end) fs)
  end.
End ValueInd.

(** ** Objects *)

Fixpoint assoc {A} (k : jsstr) (fs : list (jsstr * A)) : option A :=
  match fs with
  | [] => None
  | (k', v) :: fs' => if decide (k = k') then Some v else assoc k fs'
  end.

Definition keys {A} (fs : list (jsstr * A)) : list jsstr := fs.*1.

(** An array index: a canonical decimal below [2^32 - 1].  Such keys are
    enumerated first, in increasing order. *)
Definition array_index (k : jsstr) : option N :=
  if nonempty k && forallb is_digit k && bool_decide (dec_of_N (N_of_dec k) = k)
     && (N_of_dec k <? 4294967295)%N
  then Some (N_of_dec k) else None.

(** Create a new property: an index goes before the larger indices and the
    named properties, a name goes last. *)
Fixpoint obj_create {A} (k : jsstr) (v : A) (fs : list (jsstr * A)) : list (jsstr * A) :=
  match fs with
  | [] => [(k, v)]
  | (k', v') :: fs' =>
      match array_index k, array_index k' with
      | Some n, Some n' => if (n <? n')%N then (k, v) :: fs
                           else (k', v') :: obj_create k v fs'
      | Some _, None => (k, v) :: fs
      | None, _ => (k', v') :: obj_create k v fs'
      end
  end.

(** [o[k] = v] *)
Definition obj_set {A} (k : jsstr) (v : A) (fs : list (jsstr * A)) : list (jsstr * A) :=
  match assoc k fs with
  | Some _ => List.map (fun f => if decide (k = f.1) then (k, v) else f) fs
  | None => obj_create k v fs
  end.

(** [v?.k] for a named own property. *)
Definition get_prop (v : value) (k : jsstr) : value :=
  match v with
  | VObj fs => default VUndefined (assoc k fs)
  | _ => VUndefined
  end.

(** [v?.[i]] *)
Definition get_index (v : value) (i : nat) : value :=
  match v with
  | VArr l => default VUndefined (l !! i)
  | VObj fs => default VUndefined (assoc (dec_of_N (N.of_nat i)) fs)
  | VStr s => match s !! i with Some c => VStr [c] | None => VUndefined end
  | _ => VUndefined
  end.

(** [Boolean(v)] *)
Definition truthy (v : value) : bool :=
  match v with
  | VUndefined | VNull => false
  | VBool b => b
  | VNum x => num_truthy x
  | VStr s => nonempty s
  | VArr _ | VObj _ => true
  end.

(** [v || w] *)
Definition value_or (v w : value) : value := if truthy v then v else w.

(** [v == null] *)
Definition is_nullish (v : value) : bool :=
  match v with VUndefined | VNull => true | _ => false end.

(** [typeof v === 'object'] *)
Definition is_object (v : value) : bool :=
  match v with VNull | VArr _ | VObj _ => true | _ => false end.

Definition is_array (v : value) : bool := match v with VArr _ => true | _ => false end.

(** [String(v)]; [None] when the conversion throws (a plain object whose own
    [toString] is data). *)
Fixpoint to_string (v : value) : option jsstr :=
  match v with
  | VUndefined => Some (js "undefined")
  | VNull => Some (js "null")
  | VBool b => Some (if b then js "true" else js "false")
  | VNum x => Some (num_to_string x)
  | VStr s => Some s
  | VArr l =>
      join (js ",") <$>
        (fix go l := match l with
                     | [] => Some []
                     | v :: l' =>
                         match (if is_nullish v then Some [] else to_string v), go l' with
                         | Some s, Some ss => Some (s :: ss)
                         | _, _ => None
                         end
                     end) l
  | VObj fs =>
      match assoc (js "toString") fs with
      | Some _ => None
      | None => Some (js "[object Object]")
      end
  end.

(** [Number(v)]; [None] when the conversion throws. *)
Definition to_number (v : value) : option number :=
  match v with
  | VUndefined => Some NaN
  | VNull => Some (num_of_Z 0)
  | VBool b => Some (num_of_Z (if b then 1 else 0))
  | VNum x => Some x
  | VStr s => Some (num_of_string s)
  | VArr _ | VObj _ => num_of_string <$> to_string v
  end.

(** [{ ...v }]: the own enumerable properties. *)
Definition spread (v : value) : list (jsstr * value) :=
  match v with
  | VObj fs => fs
  | VArr l => imap (fun i x => (dec_of_N (N.of_nat i), x)) l
  | VStr s => imap (fun i c => (dec_of_N (N.of_nat i), VStr [c])) s
  | _ => []
  end.

(** ** [JSON.stringify] *)

Definition hex_digit (n : N) : N := if (n <? 10)%N then (48 + n)%N else (87 + n)%N.
Definition hex4 (n : N) : jsstr :=
  [hex_digit (n / 4096 mod 16); hex_digit (n / 256 mod 16);
   hex_digit (n / 16 mod 16); hex_digit (n mod 16)]%N.

Definition is_high (c : N) : bool := ((55296 <=? c) && (c <=? 56319))%N.
Definition is_low (c : N) : bool := ((56320 <=? c) && (c <=? 57343))%N.

Definition escape_u (c : N) : jsstr := js "\u" ++ hex4 c.

Definition escape_unit (c : N) : jsstr :=
  if (c =? 8)%N then js "\b" else if (c =? 9)%N then js "\t"
  else if (c =? 10)%N then js "\n" else if (c =? 12)%N then js "\f"
  else if (c =? 13)%N then js "\r" else if (c =? 34)%N then [92; 34]%N
  else if (c =? 92)%N then [92; 92]%N
  else if (c <? 32)%N then escape_u c else [c].

(** Surrogates that do not form a pair are escaped. *)
Fixpoint escape (s : jsstr) : jsstr :=
  match s with
  | [] => []
  | c :: s' =>
      match s' with
      | d :: s'' =>
          if is_high c && is_low d then c :: d :: escape s''
          else if is_high c || is_low c then escape_u c ++ escape s'
          else escape_unit c ++ escape s'
      | [] => if is_high c || is_low c then escape_u c else escape_unit c
      end
  end.

Definition quote (s : jsstr) : jsstr := 34%N :: escape s ++ [34%N].

(** [JSON.stringify(v)] for a value other than [undefined]. *)
Fixpoint stringify (v : value) : jsstr :=
  match v with
  | VUndefined | VNull => js "null"
  | VBool b => if b then js "true" else js "false"
  | VNum x => if is_finite x then num_to_string x else js "null"
  | VStr s => quote s
  | VArr l => js "[" ++ join (js ",") (List.map stringify l) ++ js "]"
  | VObj fs =>
      js "{" ++
      join (js ",")
        ((fix go fs := match fs with
                       | [] => []
                       | (k, VUndefined) :: fs' => go fs'
                       | (k, v) :: fs' => (quote k ++ js ":" ++ stringify v) :: go fs'
                       end) fs)
      ++ js "}"
  end.

(** ** [JSON.parse] *)

Definition is_json_ws (c : N) : bool := existsb (N.eqb c) [9; 10; 13; 32]%N.
Definition skip_ws (s : jsstr) : jsstr := drop_while is_json_ws s.

Definition hex_val (c : N) : option N :=
  if is_digit c then Some (c - 48)%N
  else if ((97 <=? c) && (c <=? 102))%N then Some (c - 87)%N
  else if ((65 <=? c) && (c <=? 70))%N then Some (c - 55)%N
  else None.

Definition hex4_val (a b c d : N) : option N :=
  match hex_val a, hex_val b, hex_val c, hex_val d with
  | Some a, Some b, Some c, Some d => Some (a * 4096 + b * 256 + c * 16 + d)%N
  | _, _, _, _ => None
  end.

Definition simple_escape (c : N) : option N :=
  if (c =? 34)%N || (c =? 92)%N || (c =? 47)%N then Some c
  else if (c =? ch "b")%N then Some 8%N else if (c =? ch "f")%N then Some 12%N
  else if (c =? ch "n")%N then Some 10%N else if (c =? ch "r")%N then Some 13%N
  else if (c =? ch "t")%N then Some 9%N else None.

Definition cons_fst {B} (c : N) (r : option (jsstr * B)) : option (jsstr * B) :=
  match r with Some (s, t) => Some (c :: s, t) | None => None end.

(** The characters of a string literal up to its closing quote. *)
Fixpoint parse_chars (s : jsstr) : option (jsstr * jsstr) :=
  match s with
  | [] => None
  | c :: s' =>
      if (c =? 34)%N then Some ([], s')
      else if (c <? 32)%N then None
      else if (c =? 92)%N then
        match s' with
        | [] => None
        | e :: t =>
            if (e =? ch "u")%N then
              match t with
              | h1 :: h2 :: h3 :: h4 :: t' =>
                  match hex4_val h1 h2 h3 h4 with
                  | Some u => cons_fst u (parse_chars t')
                  | None => None
                  end
              | _ => None
              end
            else match simple_escape e with
                 | Some u => cons_fst u (parse_chars t)
                 | None => None
                 end
        end
      else cons_fst c (parse_chars s')
  end.

(** [-? int frac? exp?], then whatever follows. *)
Definition parse_json_number (s : jsstr) : option (number * jsstr) :=
  let '(neg, t) := match s with
                   | c :: t => if (c =? ch "-")%N then (true, t) else (false, s)
                   | [] => (false, s)
                   end in
  let ip := take_while is_digit t in
  let s1 := drop_while is_digit t in
  if nonempty ip && bool_decide (ip = js "0" \/ head ip <> Some 48%N) then
    let frac := match s1 with
                | c :: u =>
                    if (c =? ch ".")%N then
                      let fp := take_while is_digit u in
                      if nonempty fp then Some (fp, drop_while is_digit u) else None
                    else Some ([], s1)
                | [] => Some ([], s1)
                end in
    match frac with
    | Some (fp, s2) =>
        match scan_exponent s2 with
        | Some (e, s3) =>
            Some (decimal_value neg (N_of_dec (ip ++ fp)) (e - Z.of_nat (length fp)), s3)
        | None => None
        end
    | None => None
    end
  else None.

Fixpoint parse_value (fuel : nat) (s : jsstr) : option (value * jsstr) :=
  match fuel with
  | 0 => None
  | S f =>
      let s := skip_ws s in
      match s with
      | [] => None
      | c :: t =>
          if (c =? ch "{")%N then
            match skip_ws t with
            | d :: r => if (d =? ch "}")%N then Some (VObj [], r) else parse_members f [] (d :: r)
            | [] => None
            end
          else if (c =? ch "[")%N then
            match skip_ws t with
            | d :: r => if (d =? ch "]")%N then Some (VArr [], r) else parse_elements f [] (d :: r)
            | [] => None
            end
          else if (c =? 34)%N then
            match parse_chars t with Some (w, r) => Some (VStr w, r) | None => None end
          else match strip_prefix (js "true") s with
          | Some r => Some (VBool true, r)
          | None =>
          match strip_prefix (js "false") s with
          | Some r => Some (VBool false, r)
          | None =>
          match strip_prefix (js "null") s with
          | Some r => Some (VNull, r)
          | None =>
              match parse_json_number s with Some (x, r) => Some (VNum x, r) | None => None end
          end end end
      end
  end
with parse_members (fuel : nat) (acc : list (jsstr * value)) (s : jsstr)
  : option (value * jsstr) :=
  match fuel with
  | 0 => None
  | S f =>
      match skip_ws s with
      | q :: t =>
          if (q =? 34)%N then
            match parse_chars t with
            | Some (k, t1) =>
                match skip_ws t1 with
                | c :: t2 =>
                    if (c =? ch ":")%N then
                      match parse_value f t2 with
                      | Some (v, t3) =>
                          let acc := obj_set k v acc in
                          match skip_ws t3 with
                          | d :: t4 => if (d =? ch ",")%N then parse_members f acc t4
                                       else if (d =? ch "}")%N then Some (VObj acc, t4)
                                       else None
                          | [] => None
                          end
                      | None => None
                      end
                    else None
                | [] => None
                end
            | None => None
            end
          else None
      | [] => None
      end
  end
with parse_elements (fuel : nat) (acc : list value) (s : jsstr) : option (value * jsstr) :=
  match fuel with
  | 0 => None
  | S f =>
      match parse_value f s with
      | Some (v, t) =>
          match skip_ws t with
          | d :: t' => if (d =? ch ",")%N then parse_elements f (acc ++ [v]) t'
                       else if (d =? ch "]")%N then Some (VArr (acc ++ [v]), t')
                       else None
          | [] => None
          end
      | None => None
      end
  end.

(** [JSON.parse(s)]; [None] when it throws a SyntaxError.  Each call of the
    parser but the first has consumed a unit of input, so the fuel below is
    never the reason for [None]. *)
Definition json_parse (s : jsstr) : option value :=
  match parse_value (2 * length s + 2) s with
  | Some (v, r) => if nonempty (skip_ws r) then None else Some v
  | None => None
  end.


(** ** Round trip of string literals *)

Lemma hex4_roundtrip_range :
  forallb (fun k => match hex4 k with
                    | [a; b; c; d] => bool_decide (hex4_val a b c d = Some k)
                    | _ => false
                    end) (List.map N.of_nat (seq 0 32) ++ List.map (fun i => (55296 + N.of_nat i)%N) (seq 0 2048))
  = true.
Proof. vm_compute. reflexivity. Qed.

Lemma hex4_roundtrip c :
  (c <? 32)%N || is_high c || is_low c = true ->
  exists h1 h2 h3 h4, hex4 c = [h1; h2; h3; h4] /\ hex4_val h1 h2 h3 h4 = Some c.
Proof.
  intros H. pose proof hex4_roundtrip_range as R. rewrite forallb_forall in R.
  assert (Hc : (c < 32)%N \/ (55296 <= c < 57344)%N).
  { unfold is_high, is_low in H.
    destruct (N.ltb_spec c 32), (N.leb_spec 55296 c), (N.leb_spec c 56319),
      (N.leb_spec 56320 c), (N.leb_spec c 57343); simpl in H; try done; lia. }
  specialize (R c). unshelve epose proof (R _) as R'.
  { apply in_or_app. destruct Hc as [Hc|Hc]; [left|right].
    - apply in_map_iff. exists (N.to_nat c). rewrite in_seq. lia.
    - apply in_map_iff. exists (N.to_nat (c - 55296)). rewrite in_seq. lia. }
  unfold hex4 in *. apply bool_decide_eq_true in R'. by repeat eexists.
Qed.

(** One escaped unit is read back. *)
Lemma parse_escape_u c s :
  (c <? 32)%N || is_high c || is_low c = true ->
  parse_chars (escape_u c ++ s) = cons_fst c (parse_chars s).
Proof.
  intros H. destruct (hex4_roundtrip c H) as (h1 & h2 & h3 & h4 & E1 & E2).
  unfold escape_u. rewrite E1. simpl. by rewrite E2.
Qed.

Lemma parse_escape_unit c s :
  is_high c || is_low c = false ->
  parse_chars (escape_unit c ++ s) = cons_fst c (parse_chars s).
Proof.
  intros H. unfold escape_unit.
  repeat match goal with |- context [if (c =? ?n)%N then _ else _] =>
    destruct (N.eqb_spec c n) as [->|]; [done|] end.
  destruct (c <? 32)%N eqn:E.
  - apply parse_escape_u. by rewrite E.
  - simpl. rewrite E. by repeat (rewrite (proj2 (N.eqb_neq _ _)); [|done]).
Qed.

Lemma surrogate_plain c s :
  is_high c || is_low c = true ->
  parse_chars (c :: s) = cons_fst c (parse_chars s).
Proof.
  intros H. assert (55296 <= c)%N.
  { unfold is_high, is_low in H. destruct (N.leb_spec 55296 c), (N.leb_spec 56320 c); simpl in H; try done; lia. }
  simpl. rewrite (proj2 (N.eqb_neq _ _)) by lia. rewrite (proj2 (N.ltb_ge _ _)) by lia.
  rewrite (proj2 (N.eqb_neq _ _)) by lia. done.
Qed.

Lemma parse_chars_escape s r : parse_chars (escape s ++ 34%N :: r) = Some (s, r).
Proof.
  remember (length s) as n eqn:Hn. revert s Hn.
  induction (lt_wf n) as [n _ IH]. intros s ->.
  assert (IH1 : forall t, length t < length s -> parse_chars (escape t ++ 34%N :: r) = Some (t, r)).
  { intros t Ht. by apply (IH (length t)). }
  clear IH. destruct s as [|c [|d s]]; [done|..].
  - simpl. destruct (is_high c || is_low c) eqn:E.
    + rewrite parse_escape_u; [done|]. by rewrite <- orb_assoc, E, orb_true_r.
    + by rewrite parse_escape_unit.
  - change (escape (c :: d :: s)) with
      (if is_high c && is_low d then c :: d :: escape s
       else if is_high c || is_low c then escape_u c ++ escape (d :: s)
       else escape_unit c ++ escape (d :: s)).
    destruct (is_high c && is_low d) eqn:Ep; [|destruct (is_high c || is_low c) eqn:E].
    + apply andb_prop in Ep as [Hc Hd]. simpl app.
      rewrite surrogate_plain by (by rewrite Hc).
      rewrite surrogate_plain by (by rewrite Hd, orb_true_r).
      rewrite IH1; [done|simpl; lia].
    + rewrite <- app_assoc, parse_escape_u by (by rewrite <- orb_assoc, E, orb_true_r).
      rewrite IH1; [done|simpl; lia].
    + rewrite <- app_assoc, parse_escape_unit by done. rewrite IH1; [done|simpl; lia].
Qed.

(** [JSON.parse(JSON.stringify(s)) === s] *)
Lemma json_parse_quote s : json_parse (quote s) = Some (VStr s).
Proof.
  unfold json_parse, quote. replace (2 * _ + 2) with (S (2 * length (34%N :: escape s ++ [34%N]) + 1)) by lia.
  cbn [parse_value]. unfold skip_ws at 1. cbn. by rewrite parse_chars_escape.
Qed.

(** ** Round trip of numbers *)

(** What may follow a number inside a JSON text. *)
Definition delim (r : jsstr) : Prop :=
  match r with
  | [] => True
  | c :: _ => c = ch "," \/ c = ch "}" \/ c = ch "]" \/ is_json_ws c = true
  end.

Lemma is_json_ws_cases c : is_json_ws c = true -> c = 9%N \/ c = 10%N \/ c = 13%N \/ c = 32%N.
Proof.
  unfold is_json_ws. simpl. rewrite !orb_true_iff, !N.eqb_eq. intros [|[|[|[|?]]]]; auto; done.
Qed.

Ltac destruct_delim H :=
  destruct H as [->|[->|[->|[->|[->|[->| ->]]]%is_json_ws_cases]]].

Lemma while_app {A} (p : A -> bool) s r :
  match r with c :: _ => p c = false | [] => True end ->
  take_while p (s ++ r) = take_while p s /\ drop_while p (s ++ r) = drop_while p s ++ r.
Proof.
  intros Hr. induction s as [|c s [IH1 IH2]]; simpl.
  - destruct r as [|d r]; [done|]. simpl. by rewrite Hr.
  - destruct (p c); [|done]. by rewrite IH1, IH2.
Qed.

Lemma delim_digit r : delim r -> match r with c :: _ => is_digit c = false | [] => True end.
Proof. destruct r as [|c r]; [done|]. intros H. by destruct_delim H. Qed.

Lemma take_while_delim s r : delim r -> take_while is_digit (s ++ r) = take_while is_digit s.
Proof. intros H. by apply while_app, delim_digit. Qed.

Lemma drop_while_delim s r : delim r -> drop_while is_digit (s ++ r) = drop_while is_digit s ++ r.
Proof. intros H. by apply while_app, delim_digit. Qed.

Lemma scan_exponent_delim s e r :
  scan_exponent s = Some (e, []) -> delim r -> scan_exponent (s ++ r) = Some (e, r).
Proof.
  intros H Hr.
  assert (Hgo : forall (neg : bool) t,
    (if nonempty (take_while is_digit t)
     then Some (if neg then (- Z.of_N (N_of_dec (take_while is_digit t)))%Z
                else Z.of_N (N_of_dec (take_while is_digit t)), drop_while is_digit t)
     else None) = Some (e, []) ->
    (if nonempty (take_while is_digit (t ++ r))
     then Some (if neg then (- Z.of_N (N_of_dec (take_while is_digit (t ++ r))))%Z
                else Z.of_N (N_of_dec (take_while is_digit (t ++ r))), drop_while is_digit (t ++ r))
     else None) = Some (e, r)).
  { intros neg t Ht. rewrite take_while_delim, drop_while_delim by done.
    destruct (nonempty (take_while is_digit t)); [|done].
    destruct (drop_while is_digit t); [|done]. by injection Ht as <-. }
  destruct s as [|c s]; cbn [scan_exponent app] in *.
  - injection H as <-. destruct r as [|c r]; [done|]. by destruct_delim Hr.
  - destruct ((c =? ch "e")%N || (c =? ch "E")%N); [|congruence].
    destruct s as [|d s]; [done|]. cbn [app].
    destruct (d =? ch "-")%N; [by apply (Hgo true)|].
    destruct (d =? ch "+")%N; [by apply (Hgo false)|by apply (Hgo false (d :: s))].
Qed.

Lemma parse_json_number_delim s x r :
  parse_json_number s = Some (x, []) -> delim r -> parse_json_number (s ++ r) = Some (x, r).
Proof.
  intros H Hr. unfold parse_json_number in *.
  destruct s as [|c s]; [done|]. rewrite <- app_comm_cons.
  assert (Hn : exists neg t, (if (c =? ch "-")%N then (true, s) else (false, c :: s)) = (neg, t) /\
    (if (c =? ch "-")%N then (true, s ++ r) else (false, c :: s ++ r)) = (neg, t ++ r)).
  { destruct (c =? ch "-")%N; eauto. }
  destruct Hn as (neg & t & E1 & E2). rewrite E1 in H. rewrite E2. clear E1 E2.
  rewrite take_while_delim, drop_while_delim by done.
  destruct (nonempty (take_while is_digit t) && _); [|done].
  destruct (drop_while is_digit t) as [|d u] eqn:Ed.
  - simpl in H. injection H as <-. simpl. destruct r as [|c0 r]; [done|].
    by destruct_delim Hr.
  - cbn [app]. destruct (d =? ch ".")%N.
    + rewrite take_while_delim, drop_while_delim by done.
      destruct (nonempty (take_while is_digit u)); [|done].
      destruct (scan_exponent (drop_while is_digit u)) as [[e s3]|] eqn:Es; [|done].
      injection H as <- ->. by rewrite (scan_exponent_delim _ _ _ Es Hr).
    + destruct (scan_exponent (d :: u)) as [[e s3]|] eqn:Es; [|done].
      injection H as <- ->. apply (scan_exponent_delim _ _ r) in Es; [|done].
      cbn [app] in Es. by rewrite Es.
Qed.

(** A number that survives a JSON round trip.  Integers below [2^53] do
    ([json_num_ok_safe]); for others it is a computation. *)
Definition json_num_ok (x : number) : Prop :=
  is_finite x = true /\ parse_json_number (num_to_string x) = Some (x, []).
#[export] Instance json_num_ok_dec x : Decision (json_num_ok x).
Proof.
  unfold json_num_ok. apply and_dec; [apply _|].
  destruct (parse_json_number _) as [[y [|c l]]|]; [|right; congruence|by right].
  destruct (decide (y = x)) as [->|]; [by left|right; congruence].
Defined.

Lemma dec_of_N_head n : n <> 0%N -> head (dec_of_N n) <> Some 48%N.
Proof.
  intros Hn. unfold dec_of_N.
  assert (Hf : (n < 2 ^ N.of_nat (S (N.to_nat (N.log2 n))))%N).
  { rewrite Nat2N.inj_succ, N2Nat.id. apply N.log2_spec. lia. }
  revert Hf. generalize (S (N.to_nat (N.log2 n))). intros f. revert n Hn.
  induction f as [|f IH]; intros n Hn Hf; [done|]. rewrite digits_fuel_S.
  destruct (N.ltb_spec n 10) as [Hl|Hl].
  - simpl. rewrite N.mod_small by done. unfold digit. intros [=]. lia.
  - assert (Hd : (n / 10)%N <> 0%N).
    { intros E. apply N.div_small_iff in E; lia. }
    rewrite Nat2N.inj_succ, N.pow_succ_r' in Hf.
    assert (Hlt : (n / 10 < 2 ^ N.of_nat f)%N) by (apply N.Div0.div_lt_upper_bound; lia).
    specialize (IH _ Hd Hlt). pose proof (digits_fuel_value f _ Hlt) as Hv.
    destruct (digits_fuel f (n / 10)%N []) as [|c l]; [|done].
    exfalso. apply Hd. by rewrite <- Hv.
Qed.

Lemma digits_fuel_length f n : length (digits_fuel f n []) <= f.
Proof.
  revert n. induction f as [|f IH]; intros n; [done|].
  rewrite digits_fuel_S, length_app. simpl.
  destruct (n <? 10)%N; simpl; [lia|]. specialize (IH (n / 10)%N). lia.
Qed.

Lemma dec_of_N_length n : (n < 2 ^ 53)%N -> length (dec_of_N n) <= 54.
Proof.
  intros H. unfold dec_of_N. etransitivity; [apply digits_fuel_length|].
  assert (N.log2 n <= 53)%N; [|lia]. change 53%N with (N.log2 (2 ^ 53)).
  apply N.log2_le_mono. lia.
Qed.

Lemma take_while_all {A} (p : A -> bool) s : forallb p s = true -> take_while p s = s.
Proof. induction s as [|c s IH]; simpl; [done|]. destruct (p c); [|done]. intros H. by rewrite IH. Qed.

Lemma parse_json_digits neg n :
  (0 < n < 2 ^ 53)%N ->
  parse_json_number ((if neg : bool then js "-" else []) ++ dec_of_N n)
  = Some (decimal_value neg n 0, []).
Proof.
  intros Hn. pose proof (dec_of_N_digits n) as Hd. pose proof (dec_of_N_head n ltac:(lia)) as Hh.
  pose proof (N_of_dec_of_N n) as Hv. unfold parse_json_number.
  destruct (dec_of_N n) as [|c s] eqn:Es; [by apply dec_of_N_nonnil in Es|].
  assert (Hc : (c =? ch "-")%N = false).
  { simpl in Hd. apply andb_prop in Hd as [Hd _]. destruct (N.eqb_spec c (ch "-")) as [->|]; done. }
  assert (E : (match (if neg then js "-" else []) ++ c :: s with
               | c0 :: t => if (c0 =? ch "-")%N then (true, t) else (false, (if neg then js "-" else []) ++ c :: s)
               | [] => (false, (if neg then js "-" else []) ++ c :: s) end) = (neg, c :: s)).
  { destruct neg; simpl; [done|]. by rewrite Hc. }
  rewrite E. rewrite take_while_all, drop_while_all by done.
  rewrite bool_decide_true by (by right). simpl.
  by rewrite app_nil_r, Hv.
Qed.

Lemma decimal_value_safe neg m :
  (Z.pos m < 2 ^ 53)%Z ->
  decimal_value neg (Npos m) 0 = num_of_Z (if neg then Z.neg m else Z.pos m).
Proof.
  intros H. pose proof (dec_of_N_length (Npos m) ltac:(lia)).
  unfold decimal_value. rewrite (proj2 (Z.ltb_ge _ _)) by lia.
  rewrite (proj2 (Z.ltb_ge _ _)) by lia. simpl. rewrite Pos.mul_1_r. by destruct neg.
Qed.

Lemma json_num_ok_safe z : safe z -> json_num_ok (num_of_Z z).
Proof.
  intros H. split; [by apply num_of_Z_finite|].
  pose proof (num_to_Z_of_Z z H) as HZ. rewrite num_of_Z_safe in * by done.
  unfold safe in H. destruct z as [|m|m]; [done|..]; unfold num_to_string; rewrite HZ;
    rewrite (proj2 (Z.leb_le _ _)) by lia; simpl Z.abs_N.
  - rewrite (parse_json_digits false) by lia. rewrite decimal_value_safe, num_of_Z_safe; done.
  - rewrite (parse_json_digits true) by lia. rewrite decimal_value_safe by lia.
    by rewrite num_of_Z_safe.
Qed.

(** ** Round trip of values *)

(** Building an object field by field gives back the same enumeration. *)
Definition obj_build {A} (fs acc : list (jsstr * A)) : list (jsstr * A) :=
  fold_left (fun acc f => obj_set f.1 f.2 acc) fs acc.
Definition obj_canon {A} (fs : list (jsstr * A)) : Prop := obj_build fs [] = fs.

(** The values that [JSON.stringify] writes without loss. *)
#[warnings="-register-all"]
Inductive json_ok : value -> Prop :=
| ok_null : json_ok VNull
| ok_bool b : json_ok (VBool b)
| ok_num x : json_num_ok x -> json_ok (VNum x)
| ok_str s : json_ok (VStr s)
| ok_arr l : Forall json_ok l -> json_ok (VArr l)
| ok_obj fs : obj_canon fs -> Forall (fun f => json_ok f.2) fs -> json_ok (VObj fs).
#[export] Hint Constructors json_ok : js.

Definition stringify_field (f : jsstr * value) : jsstr :=
  quote f.1 ++ js ":" ++ stringify f.2.

Lemma stringify_obj fs :
  Forall (fun f => json_ok f.2) fs ->
  stringify (VObj fs) = js "{" ++ join (js ",") (List.map stringify_field fs) ++ js "}".
Proof.
  intros H. cbn [stringify].
  match goal with |- _ ++ join _ ?a ++ _ = _ =>
    assert (a = List.map stringify_field fs) as ->; [|done] end.
  induction fs as [|[k v] fs IH]; [done|]. apply Forall_cons in H as [Hv H].
  cbn [List.map]. rewrite <- IH by done. simpl in Hv. by destruct Hv.
Qed.

Lemma parse_json_number_head s x r :
  parse_json_number s = Some (x, r) ->
  exists c t, s = c :: t /\ (c = ch "-" \/ is_digit c = true).
Proof.
  unfold parse_json_number. destruct s as [|c t]; [done|]. intros H. exists c, t.
  split; [done|]. destruct (N.eqb_spec c (ch "-")) as [->|]; [by left|right].
  simpl in H. by destruct (is_digit c).
Qed.

Lemma stringify_head v :
  json_ok v ->
  exists c t, stringify v = c :: t /\ is_json_ws c = false /\ c <> ch "]".
Proof.
  destruct 1 as [|b|x [Hf Hx]|s|l _|fs _ _].
  - by eexists _, _.
  - destruct b; by eexists _, _.
  - simpl. rewrite Hf. apply parse_json_number_head in Hx as (c & t & -> & Hc).
    exists c, t. split; [done|]. destruct Hc as [->|Hc]; [done|].
    unfold is_digit in Hc. apply andb_prop in Hc as [H1 H2]. apply N.leb_le in H1, H2.
    split; [|intros ->; vm_compute in H2; by apply H2].
    unfold is_json_ws. simpl. by repeat (rewrite (proj2 (N.eqb_neq _ _)); [|lia]).
  - by eexists _, _.
  - by eexists _, _.
  - by eexists _, _.
Qed.

Lemma stringify_length v : json_ok v -> 1 <= length (stringify v).
Proof. intros H. destruct (stringify_head v H) as (c & t & -> & _). simpl. lia. Qed.

(** The property of one value, with the input that may follow it. *)
Definition reads_back (v : value) : Prop :=
  forall f r, 2 * length (stringify v) <= f -> delim r ->
  parse_value f (stringify v ++ r) = Some (v, r).

Lemma skip_ws_head c t : is_json_ws c = false -> skip_ws (c :: t) = c :: t.
Proof. unfold skip_ws. simpl. by intros ->. Qed.

Lemma strip_prefix_head a p c s : a <> c -> strip_prefix (a :: p) (c :: s) = None.
Proof. intros H. simpl. by rewrite (proj2 (N.eqb_neq a c)). Qed.

Lemma reads_back_num x : json_num_ok x -> reads_back (VNum x).
Proof.
  intros [Hf Hx] f r Hfuel Hr. cbn [stringify] in *. rewrite Hf in *.
  destruct (parse_json_number_head _ _ _ Hx) as (c & t & E & Hc).
  rewrite E in *. destruct f as [|f]; [simpl in Hfuel; lia|].
  pose proof (parse_json_number_delim _ _ _ Hx Hr) as Hp. cbn [app] in *.
  assert (Hd : (c <> 9 /\ c <> 10 /\ c <> 13 /\ c <> 32 /\ c <> 123 /\ c <> 91 /\ c <> 34
               /\ c <> 116 /\ c <> 102 /\ c <> 110)%N).
  { destruct Hc as [->|Hc]; [by vm_compute|].
    unfold is_digit in Hc. apply andb_prop in Hc as [H1 H2]. apply N.leb_le in H1, H2. lia. }
  cbn [parse_value]. rewrite (skip_ws_head c).
  2: { unfold is_json_ws. simpl. by repeat (rewrite (proj2 (N.eqb_neq _ _)); [|lia]). }
  do 3 (rewrite (proj2 (N.eqb_neq c _)); [|let H := fresh in intros H; vm_compute in H; lia]).
  unfold js. cbn [String.list_ascii_of_string List.map].
  do 3 (rewrite strip_prefix_head; [|let H := fresh in intros H; vm_compute in H; lia]).
  by rewrite Hp.
Qed.

Lemma parse_elements_join l : 
  Forall json_ok l -> Forall reads_back l -> l <> [] ->
  forall f acc r, 2 * length (join (js ",") (List.map stringify l)) + 1 <= f ->
  parse_elements f acc (join (js ",") (List.map stringify l) ++ js "]" ++ r)
  = Some (VArr (acc ++ l), r).
Proof.
  intros Hok Hrb. induction l as [|v l IH]; [done|]. intros _ f acc r Hf.
  apply Forall_cons in Hok as [Hv Hok]. apply Forall_cons in Hrb as [Rv Hrb].
  destruct f as [|f]; [lia|]. cbn [parse_elements].
  destruct l as [|w l].
  - simpl join in *. rewrite Rv; [done|lia|by right; right; left].
  - assert (E : join (js ",") (List.map stringify (v :: w :: l))
                = stringify v ++ js "," ++ join (js ",") (List.map stringify (w :: l))) by done.
    rewrite E in *. rewrite !length_app in Hf. pose proof (stringify_length v Hv).
    rewrite <- !app_assoc. rewrite Rv; [|lia|by left].
    match goal with |- context [js "," ++ ?z] => change (js "," ++ z) with (ch "," :: z) end.
    rewrite skip_ws_head, N.eqb_refl by done.
    rewrite IH; [|done|done|done|change (length (js ",")) with 1 in Hf; lia]. by rewrite <- app_assoc.
Qed.

Lemma stringify_field_length k v :
  length (stringify_field (k, v)) = length (escape k) + length (stringify v) + 3.
Proof.
  unfold stringify_field, quote. cbn [fst snd]. rewrite length_app, length_cons, !length_app.
  change (length (js ":")) with 1. simpl length. lia.
Qed.

Lemma parse_members_join fs :
  Forall (fun f => json_ok f.2) fs -> Forall (fun f => reads_back f.2) fs -> fs <> [] ->
  forall f acc r, 2 * length (join (js ",") (List.map stringify_field fs)) + 1 <= f ->
  parse_members f acc (join (js ",") (List.map stringify_field fs) ++ js "}" ++ r)
  = Some (VObj (obj_build fs acc), r).
Proof.
  intros Hok Hrb. induction fs as [|[k v] fs IH]; [done|]. intros _ f acc r Hf.
  apply Forall_cons in Hok as [Hv Hok]. apply Forall_cons in Hrb as [Rv Hrb]. simpl in Hv, Rv.
  destruct f as [|f]; [lia|].
  assert (E : exists tail, delim tail /\
    join (js ",") (List.map stringify_field ((k, v) :: fs)) ++ js "}" ++ r
    = 34%N :: escape k ++ 34%N :: ch ":" :: stringify v ++ tail /\
    tail = match fs with
           | [] => ch "}" :: r
           | _ => ch "," :: join (js ",") (List.map stringify_field fs) ++ js "}" ++ r
           end).
  { destruct fs as [|f0 fs].
    - exists (ch "}" :: r). split; [by right; left|]. split; [|done].
      simpl join. unfold stringify_field, quote. cbn [fst snd app js String.list_ascii_of_string List.map].
      rewrite <- ?app_assoc. cbn [app]. rewrite <- ?app_assoc. done.
    - eexists. split; [|split; [|done]]; [by left|].
      change (join (js ",") (List.map stringify_field ((k, v) :: f0 :: fs)))
        with (stringify_field (k, v) ++ js "," ++ join (js ",") (List.map stringify_field (f0 :: fs))).
      unfold stringify_field at 1, quote. cbn [fst snd].
      rewrite <- ?app_assoc. cbn [app]. rewrite <- ?app_assoc. done. }
  destruct E as (tail & Hd & -> & Ht). cbn [parse_members].
  rewrite skip_ws_head by done. change (34 =? 34)%N with true. cbv iota.
  rewrite parse_chars_escape, skip_ws_head, N.eqb_refl by done.
  assert (Hl : length (stringify v) + 3 <= length (join (js ",") (List.map stringify_field ((k, v) :: fs)))
    /\ (fs <> [] -> length (join (js ",") (List.map stringify_field fs)) + 2
        <= length (join (js ",") (List.map stringify_field ((k, v) :: fs))))).
  { pose proof (stringify_field_length k v). destruct fs as [|f0 fs].
    - simpl join. split; [lia|done].
    - change (join (js ",") (List.map stringify_field ((k, v) :: f0 :: fs)))
        with (stringify_field (k, v) ++ js "," ++ join (js ",") (List.map stringify_field (f0 :: fs))).
      rewrite !length_app. lia. }
  destruct Hl as [Hl1 Hl2]. rewrite Rv; [|lia|done]. rewrite Ht.
  destruct fs as [|f0 fs].
  - rewrite skip_ws_head by done. done.
  - rewrite skip_ws_head, N.eqb_refl by done.
    rewrite IH; [done|done|done|done|]. specialize (Hl2 ltac:(done)). lia.
Qed.

Lemma stringify_reads_back v : json_ok v -> reads_back v.
Proof.
  induction v as [| |b|x|s|l IH|fs IH] using value_ind; intros Hv;
    inversion Hv as [|?|? Hx|?|? Hl|? Hc Hl]; subst.
  - intros [|f] r Hf _; [simpl in Hf; lia|done].
  - intros [|f] r Hf _; [destruct b; simpl in Hf; lia|by destruct b].
  - by apply reads_back_num.
  - intros [|f] r Hf _; [simpl in Hf; lia|].
    cbn [stringify]. unfold quote. cbn [app]. cbn [parse_value].
    rewrite skip_ws_head by done. rewrite <- app_assoc. cbn [app].
    change (34 =? ch "{")%N with false. change (34 =? ch "[")%N with false.
    change (34 =? 34)%N with true. cbv iota. by rewrite parse_chars_escape.
  - assert (Hrb : Forall reads_back l).
    { rewrite Forall_forall in *. auto. }
    intros [|f] r Hf _; [simpl in Hf; lia|]. cbn [stringify] in *.
    rewrite <- app_assoc. cbn [app]. change (js "[" ++ ?z) with (ch "[" :: z).
    cbn [parse_value]. rewrite skip_ws_head by done.
    change (ch "[" =? ch "{")%N with false. rewrite N.eqb_refl. cbv iota.
    destruct l as [|v l]; [done|].
    assert (Hh : exists c t, join (js ",") (List.map stringify (v :: l)) = c :: t
                             /\ is_json_ws c = false /\ c <> ch "]").
    { apply Forall_cons in Hl as [Hv0 _]. destruct (stringify_head v Hv0) as (c & t & E & Hw).
      destruct l as [|w l]; cbn [List.map join]; rewrite E; by eexists _, _. }
    destruct Hh as (c & t & E & Hw & Hne).
    rewrite <- app_assoc.
    pose proof (parse_elements_join (v :: l) Hl Hrb ltac:(done) f [] r) as Hp.
    rewrite E in *. cbn [app]. rewrite skip_ws_head by done.
    rewrite (proj2 (N.eqb_neq _ _)) by done. apply Hp.
    rewrite !length_app in Hf. simpl length in *. lia.
  - assert (Hrb : Forall (fun f => reads_back f.2) fs).
    { rewrite Forall_forall in *. auto. }
    intros [|f] r Hf _; [simpl in Hf; lia|]. rewrite stringify_obj in * by done.
    rewrite <- app_assoc. change (js "{" ++ ?z) with (ch "{" :: z).
    cbn [parse_value]. rewrite skip_ws_head by done. rewrite N.eqb_refl. cbv iota.
    destruct fs as [|[k v] fs]; [done|].
    assert (Hh : exists t, join (js ",") (List.map stringify_field ((k, v) :: fs)) = 34%N :: t).
    { destruct fs; by eexists. }
    destruct Hh as (t & E). rewrite <- app_assoc.
    pose proof (parse_members_join ((k, v) :: fs) Hl Hrb ltac:(done) f [] r) as Hp.
    rewrite E in *. cbn [app]. rewrite skip_ws_head by done.
    change (34 =? ch "}")%N with false. cbv iota. rewrite Hc in Hp. apply Hp.
    rewrite !length_app in Hf. simpl length in *. lia.
Qed.

(** [JSON.parse(JSON.stringify(v))] is [v]. *)
Lemma json_roundtrip v : json_ok v -> json_parse (stringify v) = Some v.
Proof.
  intros H. unfold json_parse.
  pose proof (stringify_reads_back v H (2 * length (stringify v) + 2) [] ltac:(lia) I) as Hp.
  rewrite app_nil_r in Hp. by rewrite Hp.
Qed.

(** Objects whose keys are distinct names keep their order. *)
Lemma assoc_None {A} k (fs : list (jsstr * A)) : assoc k fs = None <-> k ∉ keys fs.
Proof.
  unfold keys. induction fs as [|[k' v] fs IH]; simpl; [set_solver|].
  case_decide; set_solver.
Qed.

Lemma obj_create_named {A} k (v : A) fs :
  array_index k = None -> obj_create k v fs = fs ++ [(k, v)].
Proof. intros H. induction fs as [|[k' v'] fs IH]; simpl; [done|]. rewrite H. by rewrite IH. Qed.

Lemma obj_canon_named {A} (fs : list (jsstr * A)) :
  NoDup (keys fs) -> Forall (fun k => array_index k = None) (keys fs) -> obj_canon fs.
Proof.
  unfold obj_canon, obj_build, keys. intros Hn Hi.
  assert (G : forall l acc : list (jsstr * A), NoDup (acc ++ l).*1 -> Forall (fun k => array_index k = None) l.*1 ->
    fold_left (fun acc f => obj_set f.1 f.2 acc) l acc = acc ++ l).
  { clear. induction l as [|[k v] l IH]; intros acc Hn Hi; simpl; [by rewrite app_nil_r|].
    apply Forall_cons in Hi as [Hk Hi]. simpl in Hk. unfold obj_set at 2.
    rewrite (proj2 (assoc_None k acc)).
    - rewrite obj_create_named, IH, <- app_assoc; [done|by rewrite <- app_assoc|done|done].
    - unfold keys. rewrite fmap_app, fmap_cons in Hn. apply NoDup_app in Hn as (_ & Hn & _).
      intros Hin. apply (Hn k Hin). apply list_elem_of_here. }
  by apply (G fs []).
Qed.

(** ** Setting properties *)

Lemma assoc_create {A} k k' (v : A) fs :
  assoc k fs = None -> assoc k' (obj_create k v fs) = if decide (k' = k) then Some v else assoc k' fs.
Proof.
  induction fs as [|[k0 v0] fs IH]; intros Hk; simpl; [done|]. simpl in Hk.
  destruct (decide (k = k0)) as [|Hkk]; [done|]. specialize (IH Hk).
  assert (Hlater : assoc k' ((k0, v0) :: obj_create k v fs)
    = if decide (k' = k) then Some v else if decide (k' = k0) then Some v0 else assoc k' fs).
  { simpl. rewrite IH. repeat case_decide; congruence. }
  destruct (array_index k) as [n|], (array_index k0) as [n0|]; try done.
  by destruct (n <? n0)%N.
Qed.

Lemma assoc_map_set {A} k k' (v : A) fs :
  is_Some (assoc k fs) ->
  assoc k' (List.map (fun f => if decide (k = f.1) then (k, v) else f) fs)
  = if decide (k' = k) then Some v else assoc k' fs.
Proof.
  induction fs as [|[k0 v0] fs IH]; simpl; [by intros [? ?]|]. intros Hk.
  destruct (decide (k = k0)) as [->|Hkk]; simpl.
  - destruct (decide (k' = k0)) as [->|]; [done|].
    clear IH Hk. induction fs as [|[k1 v1] fs IH]; simpl; [done|].
    destruct (decide (k0 = k1)) as [->|]; simpl; rewrite IH; by repeat case_decide.
  - rewrite IH by done. repeat case_decide; congruence.
Qed.

(** [o[k] = v] then [o[k']]. *)
Lemma assoc_obj_set {A} k k' (v : A) fs :
  assoc k' (obj_set k v fs) = if decide (k' = k) then Some v else assoc k' fs.
Proof.
  unfold obj_set. destruct (assoc k fs) eqn:E; [apply assoc_map_set; by eexists|].
  by apply assoc_create.
Qed.

Lemma keys_obj_set {A} k (v : A) fs :
  array_index k = None -> keys (obj_set k v fs) = set_add (keys fs) k.
Proof.
  intros Hk. unfold obj_set, set_add. destruct (assoc k fs) eqn:E.
  - rewrite decide_True.
    + unfold keys. clear E Hk. induction fs as [|[k0 v0] fs IH]; [done|]. cbn [List.map fmap list_fmap].
      f_equal; [by case_decide|done].
    + destruct (decide (k ∈ keys fs)) as [|H%assoc_None]; [done|congruence].
  - rewrite decide_False by (by apply assoc_None). rewrite obj_create_named by done.
    unfold keys. by rewrite fmap_app.
Qed.

Lemma fold_obj_set {X A} (key : X -> jsstr) (val : X -> A) xs acc k :
  NoDup (key <$> xs) ->
  assoc k (fold_left (fun acc x => obj_set (key x) (val x) acc) xs acc)
  = match List.find (fun x => bool_decide (key x = k)) xs with
    | Some x => Some (val x)
    | None => assoc k acc
    end.
Proof.
  revert acc. induction xs as [|x xs IH]; intros acc Hn; simpl; [done|].
  rewrite fmap_cons in Hn. apply NoDup_cons in Hn as [Hx Hn]. rewrite IH by done.
  case_bool_decide as E.
  - subst k. destruct (List.find _ xs) as [y|] eqn:Ef.
    + exfalso. apply List.find_some in Ef as [Hy E]. apply bool_decide_eq_true in E. apply Hx.
      rewrite <- E. apply list_elem_of_fmap. exists y. split; [done|]. by apply list_elem_of_In.
    + by rewrite assoc_obj_set, decide_True.
  - destruct (List.find _ xs); [done|]. rewrite assoc_obj_set, decide_False; [done|congruence].
Qed.

(** ** Enumeration order *)

(** Indices come first, in increasing order, then names. *)
Definition key_before (k k' : jsstr) : Prop :=
  match array_index k, array_index k' with
  | Some n, Some n' => (n < n')%N
  | Some _, None => True
  | None, Some _ => False
  | None, None => True
  end.
Definition ordered {A} (fs : list (jsstr * A)) : Prop := StronglySorted key_before (keys fs) /\ NoDup (keys fs).

Lemma keys_create_elem {A} k (v : A) fs x : x ∈ keys (obj_create k v fs) <-> x = k \/ x ∈ keys fs.
Proof.
  unfold keys. induction fs as [|[k0 v0] fs IH]; cbn [obj_create]; [set_solver|].
  destruct (array_index k), (array_index k0); [destruct (_ <? _)%N|..]; set_solver.
Qed.

Lemma ordered_create {A} k (v : A) fs : k ∉ keys fs -> ordered fs -> ordered (obj_create k v fs).
Proof.
  unfold ordered, keys. induction fs as [|[k0 v0] fs IH]; intros Hk [Hs Hn]; cbn [obj_create].
  { split; [repeat constructor|apply NoDup_singleton]. }
  rewrite fmap_cons in Hk, Hs, Hn. cbn [fst] in *. apply not_elem_of_cons in Hk as [Hk0 Hk].
  inversion Hs as [|? ? Hs' Hf]; subst. apply NoDup_cons in Hn as [Hn0 Hn].
  destruct (IH Hk (conj Hs' Hn)) as [IHs IHn].
  assert (Hlater : (forall x, x ∈ keys (obj_create k v fs) -> key_before k0 x) ->
    StronglySorted key_before (((k0, v0) :: obj_create k v fs).*1)
    /\ NoDup (((k0, v0) :: obj_create k v fs).*1)).
  { intros Hb. rewrite fmap_cons. cbn [fst]. split.
    - constructor; [done|]. apply Forall_forall. exact Hb.
    - apply NoDup_cons. split; [|done]. intros [E|E]%keys_create_elem; [by apply Hk0|by apply Hn0]. }
  assert (Hall : forall x, x ∈ fs.*1 -> key_before k0 x) by (by rewrite Forall_forall in Hf).
  assert (Hfirst : key_before k k0 -> (forall x, x ∈ fs.*1 -> key_before k x) ->
    StronglySorted key_before (((k, v) :: (k0, v0) :: fs).*1) /\ NoDup (((k, v) :: (k0, v0) :: fs).*1)).
  { intros H0 H1. rewrite !fmap_cons. cbn [fst]. split.
    - constructor; [done|]. apply Forall_forall. intros x [->|Hx]%elem_of_cons; auto.
    - apply NoDup_cons. split; [by intros [?|?]%elem_of_cons|by apply NoDup_cons]. }
  unfold key_before in *.
  destruct (array_index k) as [n|] eqn:Ek, (array_index k0) as [n0|] eqn:Ek0.
  - destruct (N.ltb_spec n n0).
    + apply Hfirst; [done|]. intros x Hx. specialize (Hall x Hx). destruct (array_index x); [lia|done].
    + apply Hlater. intros x [->|Hx]%keys_create_elem; [|by apply Hall]. rewrite Ek.
      assert (n <> n0); [|lia]. intros ->. apply Hk0. unfold array_index in Ek, Ek0.
      destruct (_ && _) eqn:E1 in Ek; [|done]. destruct (_ && _) eqn:E2 in Ek0; [|done]. bool_prop. congruence.
  - apply Hfirst; [done|]. intros x Hx. specialize (Hall x Hx). by destruct (array_index x).
  - apply Hlater. intros x [->|Hx]%keys_create_elem; [by rewrite Ek|by apply Hall].
  - apply Hlater. intros x [->|Hx]%keys_create_elem; [by rewrite Ek|by apply Hall].
Qed.

Lemma keys_map_set {A} k (v : A) fs :
  keys (List.map (fun f => if decide (k = f.1) then (k, v) else f) fs) = keys fs.
Proof.
  unfold keys. induction fs as [|[k0 v0] fs IH]; [done|]. cbn [List.map]. rewrite !fmap_cons.
  f_equal; [|done]. by case_decide.
Qed.

Lemma ordered_obj_set {A} k (v : A) fs : ordered fs -> ordered (obj_set k v fs).
Proof.
  intros H. unfold obj_set. destruct (assoc k fs) eqn:E.
  - unfold ordered. by rewrite keys_map_set.
  - apply ordered_create; [by apply assoc_None|done].
Qed.

Lemma obj_create_last {A} k (v : A) fs :
  Forall (fun x => key_before x k) (keys fs) -> obj_create k v fs = fs ++ [(k, v)].
Proof.
  unfold keys. induction fs as [|[k0 v0] fs IH]; [done|]. rewrite fmap_cons. intros [H0 H]%Forall_cons.
  cbn [obj_create fst app] in *. unfold key_before in H0. rewrite IH by done.
  destruct (array_index k), (array_index k0); try done. destruct (N.ltb_spec n n0); [lia|done].
Qed.

(** An object is canonical exactly when its keys are in order. *)
Lemma ordered_canon {A} (fs : list (jsstr * A)) : ordered fs -> obj_canon fs.
Proof.
  intros Ho. unfold obj_canon, obj_build.
  assert (G : forall l acc : list (jsstr * A), ordered (acc ++ l) ->
    fold_left (fun acc f => obj_set f.1 f.2 acc) l acc = acc ++ l).
  { clear. induction l as [|[k v] l IH]; intros acc Ho; cbn [fold_left fst snd]; [by rewrite app_nil_r|].
    assert (E : obj_set k v acc = acc ++ [(k, v)]).
    { destruct Ho as [Hs Hn]. unfold keys in *. rewrite fmap_app, fmap_cons in Hs, Hn. cbn [fst] in *.
      apply NoDup_app in Hn as (_ & Hd & _). unfold obj_set. rewrite (proj2 (assoc_None k acc)).
      - apply obj_create_last, Forall_forall. intros x Hx. unfold keys in Hx.
        revert Hs Hx. clear. induction (acc.*1) as [|y ys IH]; [by intros _ ?%elem_of_nil|].
        cbn [app]. intros Hs Hx. inversion Hs as [|? ? Hs' Hf]; subst.
        apply elem_of_cons in Hx as [->|Hx]; [|by apply IH]. rewrite Forall_forall in Hf. apply Hf.
        apply elem_of_app. right. apply list_elem_of_here.
      - unfold keys. intros Hx. apply (Hd k Hx), list_elem_of_here. }
    rewrite E, IH, <- app_assoc; [done|]. by rewrite <- app_assoc. }
  by apply (G fs []).
Qed.

Lemma canon_ordered {A} (fs : list (jsstr * A)) : obj_canon fs -> ordered fs.
Proof.
  unfold obj_canon, obj_build. intros <-.
  assert (G : forall l acc : list (jsstr * A), ordered acc ->
    ordered (fold_left (fun acc f => obj_set f.1 f.2 acc) l acc)).
  { induction l as [|f l IH]; intros acc H; [done|]. by apply IH, ordered_obj_set. }
  apply G. split; constructor.
Qed.

Lemma ordered_filter {A} (p : jsstr * A -> bool) fs : ordered fs -> ordered (List.filter p fs).
Proof.
  unfold ordered, keys. induction fs as [|f fs IH]; [done|]. rewrite fmap_cons. intros [Hs Hn].
  inversion Hs as [|? ? Hs' Hf]; subst. apply NoDup_cons in Hn as [Hn0 Hn].
  destruct (IH (conj Hs' Hn)) as [IHs IHn]. cbn [List.filter]. destruct (p f); [|done]. rewrite fmap_cons.
  assert (Hsub : forall x, x ∈ (List.filter p fs).*1 -> x ∈ fs.*1).
  { intros x (g & -> & Hg)%list_elem_of_fmap. apply list_elem_of_In, filter_In in Hg as [Hg _].
    apply list_elem_of_fmap_2, list_elem_of_In, Hg. }
  split; [|apply NoDup_cons; auto]. constructor; [done|]. rewrite Forall_forall in *. auto.
Qed.

(** ** Removing a property *)

(** [delete o.k] *)
Definition obj_delete {A} (k : jsstr) (fs : list (jsstr * A)) : list (jsstr * A) :=
  List.filter (fun f => negb (bool_decide (f.1 = k))) fs.

Lemma assoc_obj_delete {A} k k' (fs : list (jsstr * A)) :
  assoc k' (obj_delete k fs) = if decide (k' = k) then None else assoc k' fs.
Proof.
  unfold obj_delete. induction fs as [|[k0 v0] fs IH]; [by case_decide|]. cbn [List.filter fst].
  case_bool_decide as E; cbn [negb assoc]; rewrite IH; repeat case_decide; congruence.
Qed.

Lemma obj_set_same k (v : value) fs : NoDup (keys fs) -> assoc k fs = Some v -> obj_set k v fs = fs.
Proof.
  intros Hn E. unfold obj_set. rewrite E. unfold keys in Hn. induction fs as [|[k0 v0] fs IH]; [done|].
  rewrite fmap_cons in Hn. apply NoDup_cons in Hn as [H0 Hn]. cbn [List.map assoc fst] in *.
  destruct (decide (k = k0)) as [->|Hk].
  - injection E as ->. f_equal. clear IH. cbn [fst] in H0. induction fs as [|[k1 v1] fs IH]; [done|].
    rewrite fmap_cons in H0. apply not_elem_of_cons in H0 as [H1 H0]. cbn [List.map fst].
    rewrite decide_False by done. f_equal. apply IH; [done|]. rewrite fmap_cons in Hn. by apply NoDup_cons in Hn as [_ ?].
  - f_equal. by apply IH.
Qed.

Lemma obj_delete_absent k (fs : list (jsstr * value)) : assoc k fs = None -> obj_delete k fs = fs.
Proof.
  intros E. apply filter_all. induction fs as [|[k0 v0] fs IH]; [done|]. cbn [assoc forallb fst] in *.
  destruct (decide (k = k0)); [done|]. rewrite bool_decide_eq_false_2 by congruence. by apply IH.
Qed.

(** ** Objects that are printed without loss *)

Definition obj_ok (fs : list (jsstr * value)) : Prop := ordered fs /\ Forall (fun f => json_ok f.2) fs.

Lemma obj_ok_json fs : obj_ok fs <-> json_ok (VObj fs).
Proof.
  split.
  - intros [Ho Hf]. constructor; [by apply ordered_canon|done].
  - inversion 1 as [| | | | |? Hc Hf]; subst. split; [by apply canon_ordered|done].
Qed.

Lemma obj_ok_set k v fs : json_ok v -> obj_ok fs -> obj_ok (obj_set k v fs).
Proof.
  intros Hv [Ho Hf]. split; [by apply ordered_obj_set|]. unfold obj_set. destruct (assoc k fs).
  - clear Ho. induction Hf as [|f fs Hf _ IH]; constructor; [by case_decide|done].
  - clear Ho. induction Hf as [|[k0 v0] fs Hf Hfs IH]; cbn [obj_create]; [by repeat constructor|].
    repeat split_match; repeat (constructor; [done|]); done.
Qed.

Lemma obj_ok_delete k fs : obj_ok fs -> obj_ok (obj_delete k fs).
Proof.
  intros [Ho Hf]. split; [by apply ordered_filter|]. rewrite Forall_forall in *. intros f Hin.
  apply Hf. apply list_elem_of_In, filter_In in Hin as [Hin _]. by apply list_elem_of_In.
Qed.

Lemma obj_ok_NoDup fs : obj_ok fs -> NoDup (keys fs).
Proof. by intros [[_ ?] _]. Qed.
#[export] Hint Resolve obj_ok_set obj_ok_delete obj_ok_NoDup : js.

Lemma assoc_ok k fs : obj_ok fs -> json_ok (default VNull (assoc k fs)).
Proof.
  intros [_ Hf]. induction Hf as [|[k0 v0] fs Hv _ IH]; [constructor|]. cbn [assoc]. by case_decide.
Qed.
