(* ===== verification/JsRegex.v ===== *)
(** * Regular expressions of the sources

    A backtracking matcher in continuation-passing style for the constructs
    the modelled files use: classes, sequence, alternation, greedy repetition,
    capture groups, back references, anchors and word boundaries.  As in
    ECMAScript, alternatives are tried left to right and repetitions longest
    first, and a repetition never iterates on the empty match.  Every regular
    expression literal of the sources is a term of type [regex]. *)

From S2P Require Import Prelude.

Inductive regex :=
| REmpty
| RChar (p : N -> bool)
| RSeq (r1 r2 : regex)
| RAlt (r1 r2 : regex)
| RStar (r : regex)
| RGroup (n : nat) (r : regex)
| RBack (n : nat)
| RBegin (multiline : bool)
| REnd (multiline : bool)
| RWordB.

(** The position: previous unit, index, units to come, captures so far. *)
Record mstate := mkSt {
  st_prev : option N; st_idx : nat; st_rest : jsstr; st_caps : list (nat * jsstr) }.

Definition capture (n : nat) (st : mstate) : option jsstr :=
  snd <$> List.find (fun c => Nat.eqb c.1 n) (st_caps st).

(** [m[n]] of a match, [''] when the group did not take part ([m[n] || '']). *)
Definition group (n : nat) (st : mstate) : jsstr := default [] (capture n st).

Definition is_line_end (c : N) : bool := existsb (N.eqb c) [10; 13; 8232; 8233]%N.
Definition is_word (c : N) : bool :=
  is_digit c || ((65 <=? c) && (c <=? 90))%N || ((97 <=? c) && (c <=? 122))%N || (c =? 95)%N.

Definition adv1 (c : N) (r : jsstr) (st : mstate) : mstate :=
  mkSt (Some c) (S (st_idx st)) r (st_caps st).

(** Move over the text [w], which the input starts with. *)
Fixpoint adv (w : jsstr) (st : mstate) : mstate :=
  match w, st_rest st with
  | c :: w', d :: r => adv w' (adv1 d r st)
  | _, _ => st
  end.

Fixpoint m (r : regex) (k : mstate -> option mstate) (st : mstate) : option mstate :=
  match r with
  | REmpty => k st
  | RChar p =>
      match st_rest st with
      | c :: rest => if p c then k (adv1 c rest st) else None
      | [] => None
      end
  | RSeq r1 r2 => m r1 (m r2 k) st
  | RAlt r1 r2 =>
      match m r1 k st with Some y => Some y | None => m r2 k st end
  | RStar r1 =>
      (fix loop (fuel : nat) (st : mstate) : option mstate :=
         match fuel with
         | 0 => k st
         | S f =>
             match m r1 (fun y => if length (st_rest y) <? length (st_rest st)
                                  then loop f y else None) st with
             | Some y => Some y
             | None => k st
             end
         end) (S (length (st_rest st))) st
  | RGroup n r1 =>
      m r1 (fun y =>
        k (mkSt (st_prev y) (st_idx y) (st_rest y)
             ((n, take (length (st_rest st) - length (st_rest y)) (st_rest st)) :: st_caps y))) st
  | RBack n =>
      match strip_prefix (group n st) (st_rest st) with
      | Some _ => k (adv (group n st) st)
      | None => None
      end
  | RBegin multi =>
      match st_prev st with
      | None => k st
      | Some c => if multi && is_line_end c then k st else None
      end
  | REnd multi =>
      match st_rest st with
      | [] => k st
      | c :: _ => if multi && is_line_end c then k st else None
      end
  | RWordB =>
      let a := match st_prev st with Some c => is_word c | None => false end in
      let b := match st_rest st with c :: _ => is_word c | [] => false end in
      if xorb a b then k st else None
  end.

Definition start (s : jsstr) : mstate := mkSt None 0 s [].

(** The first match at or after the position, scanning to the right. *)
Fixpoint search (r : regex) (fuel : nat) (st : mstate) : option (nat * mstate) :=
  match m r Some (mkSt (st_prev st) (st_idx st) (st_rest st) []) with
  | Some y => Some (st_idx st, y)
  | None =>
      match fuel, st_rest st with
      | S f, c :: rest => search r f (adv1 c rest st)
      | _, _ => None
      end
  end.

(** [s.match(r)] without the [g] flag: the captures of the first match. *)
Definition re_match (r : regex) (s : jsstr) : option mstate :=
  snd <$> search r (length s) (start s).
(** [r.test(s)] *)
Definition re_test (r : regex) (s : jsstr) : bool :=
  match re_match r s with Some _ => true | None => false end.

(** All matches with the [g] flag, with their index and text; a match that
    consumes nothing moves one unit on. *)
Fixpoint re_all_from (r : regex) (fuel : nat) (st : mstate) : list (nat * jsstr * mstate) :=
  match fuel with
  | 0 => []
  | S f =>
      match search r (length (st_rest st)) st with
      | None => []
      | Some (i, y) =>
          let text := take (st_idx y - i) (drop (i - st_idx st) (st_rest st)) in
          let next := if (i <? st_idx y) then Some y
                      else match st_rest y with
                           | c :: rest => Some (adv1 c rest y) | [] => None end in
          (i, text, y) :: match next with
                          | Some z => re_all_from r f (mkSt (st_prev z) (st_idx z) (st_rest z) [])
                          | None => []
                          end
      end
  end.
Definition re_all (r : regex) (s : jsstr) : list (nat * jsstr * mstate) :=
  re_all_from r (S (length s)) (start s).

(** ** Notation for the literals of the sources *)

Definition rplus (r : regex) : regex := RSeq r (RStar r).
Definition ropt (r : regex) : regex := RAlt r REmpty.
Definition runit (c : N) : regex := RChar (N.eqb c).
Fixpoint rlit (s : jsstr) : regex :=
  match s with [] => REmpty | c :: s' => RSeq (runit c) (rlit s') end.
Fixpoint ralts (l : list jsstr) : regex :=
  match l with [] => RChar (fun _ => false) | [w] => rlit w | w :: l' => RAlt (rlit w) (ralts l') end.
Fixpoint rseq (l : list regex) : regex :=
  match l with [] => REmpty | [r] => r | r :: l' => RSeq r (rseq l') end.
Definition rspaces : regex := RStar (RChar is_space).
Definition rdot : regex := RChar (fun c => negb (is_line_end c)).
Definition rany : regex := RChar (fun _ => true).

(** [r{lo,lo+extra}], longest first. *)
Fixpoint ropts (r : regex) (extra : nat) : regex :=
  match extra with 0 => REmpty | S n => ropt (RSeq r (ropts r n)) end.
Fixpoint rrange (r : regex) (lo extra : nat) : regex :=
  match lo with 0 => ropts r extra | S n => RSeq r (rrange r n extra) end.

(** Source text with [''] standing for a double quote. *)
Definition jsq (s : string) : jsstr := List.map (fun c => if (c =? 39)%N then 34%N else c) (js s).
Arguments jsq s%_string.
