(* ===== verification/ZodCodec.v ===== *)
(** * Schemas, and the layout of typed values at run time

    Zod is a library: its [parse] is the operation of the class [Zod], whose
    laws are the documented behaviour of the schema constructors the sources
    use.  A schema is data.  A [codec] says how a TypeScript type is laid out
    at run time, so that [as Message[]] after a [parse] is a total decoding:
    [fits] relates a schema to the codec of the type it describes. *)

From S2P Require Import Prelude JsNumber JsValue.

(** ** Schemas *)

#[warnings="-register-all"]
Inductive schema :=
| SString | SNumber | SBoolean
| SEnum (l : list jsstr)
| SNullable (s : schema)
| SOptional (s : schema)
| SArray (min : nat) (s : schema)
| SObject (fs : list (jsstr * schema)).

(** One declared field: read it, parse it, keep the key unless it is absent
    and stays undefined. *)
Definition parse_field (parse : schema -> value -> option value) (o : list (jsstr * value))
    (f : jsstr * schema) : option (list (jsstr * value)) :=
  match assoc f.1 o, parse f.2 (default VUndefined (assoc f.1 o)) with
  | _, None => None
  | None, Some VUndefined => Some []
  | _, Some v => Some [(f.1, v)]
  end.

(** Unknown keys are dropped, declared keys come in the declared order. *)
Definition parse_fields (parse : schema -> value -> option value) (fs : list (jsstr * schema))
    (o : list (jsstr * value)) : option (list (jsstr * value)) :=
  (@concat (jsstr * value)) <$> mapM (parse_field parse o) fs.

(** What the code relies on of Zod 4; [None] is a thrown [ZodError]. *)
Class Zod := {
  zparse : schema -> value -> option value;
  zparse_string v : zparse SString v = match v with VStr _ => Some v | _ => None end;
  zparse_number v :
    zparse SNumber v = match v with VNum x => if is_finite x then Some v else None | _ => None end;
  zparse_boolean v : zparse SBoolean v = match v with VBool _ => Some v | _ => None end;
  zparse_enum l v :
    zparse (SEnum l) v =
    match v with VStr s => if bool_decide (s ∈ l) then Some v else None | _ => None end;
  zparse_nullable s v :
    zparse (SNullable s) v = match v with VNull => Some VNull | _ => zparse s v end;
  zparse_optional s v :
    zparse (SOptional s) v = match v with VUndefined => Some VUndefined | _ => zparse s v end;
  zparse_array n s v :
    zparse (SArray n s) v =
    match v with
    | VArr l => if n <=? length l then VArr <$> mapM (zparse s) l else None
    | _ => None
    end;
  zparse_object fs v :
    zparse (SObject fs) v =
    match v with VObj o => VObj <$> parse_fields zparse fs o | _ => None end }.

(** ** Values and the types they are used at

    [codec A] says how a value of a TypeScript type is laid out at run time:
    [enc] builds the object the code holds, [dec] reads it at the type. *)

Record codec (A : Type) := mkCodec { enc : A -> value; dec : value -> option A }.
Arguments mkCodec {A} _ _.
Arguments enc {A} _ _.
Arguments dec {A} _ _.

Definition c_str : codec jsstr :=
  mkCodec VStr (fun v => match v with VStr s => Some s | _ => None end).
Definition c_num : codec number :=
  mkCodec VNum (fun v => match v with VNum x => Some x | _ => None end).
Definition c_bool : codec bool :=
  mkCodec VBool (fun v => match v with VBool b => Some b | _ => None end).
Definition c_nullable {A} (c : codec A) : codec (option A) :=
  mkCodec (fun o => match o with None => VNull | Some a => enc c a end)
          (fun v => match v with VNull => Some None | _ => Some <$> dec c v end).
(** An absent property and one that is [undefined] are the same. *)
Definition c_opt {A} (c : codec A) : codec (option A) :=
  mkCodec (fun o => match o with None => VUndefined | Some a => enc c a end)
          (fun v => match v with VUndefined => Some None | _ => Some <$> dec c v end).
Definition c_arr {A} (c : codec A) : codec (list A) :=
  mkCodec (fun l => VArr (List.map (enc c) l))
          (fun v => match v with VArr l => mapM (dec c) l | _ => None end).
Definition c_enum {A} (names : list (jsstr * A)) (name : A -> jsstr) : codec A :=
  mkCodec (fun a => VStr (name a))
          (fun v => match v with VStr s => assoc s names | _ => None end).


(** The fields of an object, one after the other; an [undefined] one is left
    out. *)
Record fcodec (A : Type) := mkFCodec {
  fenc : A -> list (jsstr * value); fdec : list (jsstr * value) -> option A }.
Arguments mkFCodec {A} _ _.
Arguments fenc {A} _ _.
Arguments fdec {A} _ _.

Definition prop_of (o : list (jsstr * value)) (k : jsstr) : value := default VUndefined (assoc k o).
Definition put (k : jsstr) (v : value) : list (jsstr * value) :=
  match v with VUndefined => [] | _ => [(k, v)] end.

Definition f_nil : fcodec unit := mkFCodec (fun _ => []) (fun _ => Some tt).
Definition f_cons {A B} (k : jsstr) (c : codec A) (r : fcodec B) : fcodec (A * B) :=
  mkFCodec (fun x => put k (enc c x.1) ++ fenc r x.2)
    (fun o => match dec c (prop_of o k), fdec r o with
              | Some a, Some b => Some (a, b)
              | _, _ => None
              end).

Lemma f_cons_dec {A B} k (c : codec A) (r : fcodec B) o x :
  fdec (f_cons k c r) o = Some x -> dec c (prop_of o k) = Some x.1 /\ fdec r o = Some x.2.
Proof. simpl. by destruct (dec c _), (fdec r o); intros [= <-]. Qed.

Definition c_obj {A B} (r : fcodec B) (to : A -> B) (back : B -> A) : codec A :=
  mkCodec (fun a => VObj (fenc r (to a)))
    (fun v => match v with VObj o => back <$> fdec r o | _ => None end).

(** ** A schema fits a codec

    [ok] restricts the values that can be written; [undef] and [null] say
    whether the codec uses these two values itself. *)

Section Fits.
Context {zod : Zod}.

Record fits {A} (undef null : bool) (s : schema) (c : codec A) (ok : A -> Prop) : Prop := {
  fits_typed v p : zparse s v = Some p -> is_Some (dec c p);
  fits_self a : ok a -> zparse s (enc c a) = Some (enc c a);
  fits_back a : dec c (enc c a) = Some a;
  fits_json a : ok a -> enc c a = VUndefined \/ json_ok (enc c a);
  fits_undef a : enc c a = VUndefined -> undef = true;
  fits_null a : enc c a = VNull -> null = true }.

Record fields_fit {A} (fs : list (jsstr * schema)) (r : fcodec A) (ok : A -> Prop) : Prop := {
  ff_typed p : (forall f, f ∈ fs -> exists v, zparse f.2 v = Some (prop_of p f.1)) ->
               is_Some (fdec r p);
  ff_keys a : keys (fenc r a) `sublist_of` keys fs;
  ff_self a o : ok a -> (forall k, k ∈ keys fs -> assoc k o = assoc k (fenc r a)) ->
                parse_fields zparse fs o = Some (fenc r a);
  ff_back a o : (forall k, k ∈ keys fs -> assoc k o = assoc k (fenc r a)) -> fdec r o = Some a;
  ff_json a : ok a -> Forall (fun f => json_ok f.2) (fenc r a) }.

Lemma fits_impl {A} undef null s (c : codec A) (P Q : A -> Prop) :
  fits undef null s c P -> (forall a, Q a -> P a) -> fits undef null s c Q.
Proof. intros [T S B J U N] H. split; eauto. Qed.

Lemma fits_str : fits false false SString c_str (fun _ => True).
Proof.
  split; simpl; try done; try by auto with js.
  - intros v p. rewrite zparse_string. by destruct v; intros [= <-]; eexists.
  - intros a _. by rewrite zparse_string.
Qed.

Lemma fits_num : fits false false SNumber c_num json_num_ok.
Proof.
  split; simpl; try done; try by auto with js.
  - intros v p. rewrite zparse_number. destruct v; try done. destruct (is_finite x); [|done].
    intros [= <-]. by eexists.
  - intros a [Ha _]. by rewrite zparse_number, Ha.
Qed.

Lemma fits_bool : fits false false SBoolean c_bool (fun _ => True).
Proof.
  split; simpl; try done; try by auto with js.
  - intros v p. rewrite zparse_boolean. by destruct v; intros [= <-]; eexists.
  - intros a _. by rewrite zparse_boolean.
Qed.

Lemma fits_enum {A} (names : list (jsstr * A)) name :
  (forall a, assoc (name a) names = Some a) ->
  fits false false (SEnum (keys names)) (c_enum names name) (fun _ => True).
Proof.
  intros Hn.
  assert (Hk : forall s, s ∈ keys names -> is_Some (assoc s names)).
  { intros s Hs. destruct (assoc s names) eqn:E; [by eexists|].
    by apply assoc_None in E. }
  split; simpl; try done; try by auto with js.
  - intros v p. rewrite zparse_enum. destruct v; try done. case_bool_decide; [|done].
    intros [= <-]. by apply Hk.
  - intros a _. rewrite zparse_enum, bool_decide_true; [done|].
    destruct (decide (name a ∈ keys names)) as [|H]; [done|].
    apply assoc_None in H. by rewrite Hn in H.
Qed.

Lemma fits_nullable {A} s (c : codec A) ok :
  fits false false s c ok -> fits false true (SNullable s) (c_nullable c) (fun o => from_option ok True o).
Proof.
  intros [T S B J U N]. split; simpl.
  - intros v p. rewrite zparse_nullable. intros H.
    destruct p; try (by eexists); destruct v; try (by injection H); apply T in H as [a ->]; by eexists.
  - intros [a|] Ha; simpl in *; rewrite zparse_nullable; [|done].
    pose proof (N a). destruct (enc c a) eqn:E; rewrite <- ?E; auto; by discriminate H.
  - intros [a|]; [|done]. pose proof (N a).
    destruct (enc c a) eqn:E; rewrite <- ?E, ?B; auto; by discriminate H.
  - intros [a|] Ha; simpl in *; auto with js.
  - intros [a|]; [apply U|done].
  - done.
Qed.

Lemma fits_opt {A} null s (c : codec A) ok :
  fits false null s c ok -> fits true null (SOptional s) (c_opt c) (fun o => from_option ok True o).
Proof.
  intros [T S B J U N]. split; simpl.
  - intros v p. rewrite zparse_optional. intros H.
    destruct p; try (by eexists); destruct v; try (by injection H); apply T in H as [a ->]; by eexists.
  - intros [a|] Ha; simpl in *; rewrite zparse_optional; [|done].
    pose proof (U a). destruct (enc c a) eqn:E; rewrite <- ?E; auto; by discriminate H.
  - intros [a|]; [|done]. pose proof (U a).
    destruct (enc c a) eqn:E; rewrite <- ?E, ?B; auto; by discriminate H.
  - intros [a|] Ha; simpl in *; auto with js.
  - done.
  - intros [a|]; [apply N|done].
Qed.

Lemma mapM_typed {A} (f : value -> option value) (g : value -> option A) l l' :
  (forall v p, f v = Some p -> is_Some (g p)) -> mapM f l = Some l' -> is_Some (mapM g l').
Proof.
  intros Hf. rewrite mapM_Some. induction 1 as [|v p l l' Hp _ [b IH]]; simpl; [by eexists|].
  apply Hf in Hp as [a Ha]. rewrite Ha, IH. by eexists.
Qed.

Lemma mapM_map_id {A B C} (f : B -> option C) (e : A -> B) (g : A -> C) l :
  Forall (fun a => f (e a) = Some (g a)) l -> mapM f (List.map e l) = Some (List.map g l).
Proof. induction 1 as [|a l Ha _ IH]; simpl; [done|]. by rewrite Ha, IH. Qed.

Lemma fits_arr {A} n s (c : codec A) ok :
  fits false false s c ok ->
  fits false false (SArray n s) (c_arr c) (fun l => n <= length l /\ Forall ok l).
Proof.
  intros [T S B J U N]. split; simpl; try done.
  - intros v p. rewrite zparse_array. destruct v; try done. case_match; [|done].
    destruct (mapM _ _) as [l'|] eqn:E; [|done]. intros [= <-]. simpl. by eapply mapM_typed.
  - intros l [Hn Hl]. rewrite zparse_array, length_map, (proj2 (Nat.leb_le _ _)) by done.
    by rewrite (mapM_map_id _ _ (enc c)) by (eapply Forall_impl; [apply Hl|auto]).
  - intros l. rewrite (mapM_map_id _ _ id), List.map_id; [done|]. apply Forall_forall. auto.
  - intros l [_ Hl]. right. constructor. apply Forall_fmap.
    eapply Forall_impl; [apply Hl|]. intros a Ha. simpl. destruct (J a Ha) as [E|]; [|done].
    by apply U in E.
Qed.

Lemma assoc_put k k' v : assoc k (put k' v) = if decide (k = k') then match v with VUndefined => None | _ => Some v end else None.
Proof. unfold put. destruct v; simpl; by case_decide. Qed.

Lemma assoc_app {A} k (l l' : list (jsstr * A)) :
  assoc k (l ++ l') = match assoc k l with Some v => Some v | None => assoc k l' end.
Proof. induction l as [|[k' v] l IH]; simpl; [done|]. by case_decide. Qed.

Lemma ff_nil : fields_fit [] f_nil (fun _ => True).
Proof. split; simpl; intros; try done; by destruct a. Qed.

Lemma ff_cons {A B} null k s (c : codec A) ok fs (r : fcodec B) okr undef :
  fits undef null s c ok -> fields_fit fs r okr -> k ∉ keys fs ->
  fields_fit ((k, s) :: fs) (f_cons k c r) (fun x => ok x.1 /\ okr x.2).
Proof.
  intros [T S B' J U N] [FT FK FS FB FJ] Hk.
  assert (Hnone : forall y, assoc k (fenc r y) = None).
  { intros y. apply assoc_None. intros Hy. apply Hk. eapply sublist_subseteq in Hy; eauto. }
  assert (Hrest : forall (x : A) y o, (forall k0, k0 ∈ keys ((k, s) :: fs) ->
      assoc k0 o = assoc k0 (put k (enc c x) ++ fenc r y)) ->
      forall k0, k0 ∈ keys fs -> assoc k0 o = assoc k0 (fenc r y)).
  { intros x y o Ho k0 Hk0. rewrite Ho by (simpl; by right).
    rewrite assoc_app, assoc_put, decide_False; [done|]. by intros ->. }
  assert (Hhead : forall (x : A) y o, (forall k0, k0 ∈ keys ((k, s) :: fs) ->
      assoc k0 o = assoc k0 (put k (enc c x) ++ fenc r y)) ->
      assoc k o = match enc c x with VUndefined => None | _ => Some (enc c x) end).
  { intros x y o Ho. rewrite Ho by (simpl; by left).
    rewrite assoc_app, assoc_put, decide_True, Hnone by done. by destruct (enc c x). }
  split; simpl.
  - intros p Hp. destruct (Hp (k, s)) as [v Hv]; [by left|]. apply T in Hv as [a Ha]. simpl in Ha.
    destruct (FT p) as [b Hb]; [intros f Hf; apply Hp; by right|]. rewrite Ha, Hb. by eexists.
  - intros [a b]; simpl. unfold put. destruct (enc c a); simpl; by constructor.
  - intros [a b] o [Ha Hb] Ho. simpl in *. pose proof (Hhead _ _ _ Ho) as Hh.
    pose proof (FS b o Hb (Hrest _ _ _ Ho)) as Hr. unfold parse_fields in *. simpl.
    destruct (mapM _ fs) as [l|] eqn:E; [|done]. simpl in Hr. injection Hr as <-.
    specialize (S a Ha). unfold parse_field, put. simpl. rewrite Hh.
    destruct (enc c a); simpl; by rewrite S.
  - intros [a b] o Ho. simpl in *. rewrite (FB b o (Hrest _ _ _ Ho)).
    unfold prop_of. rewrite (Hhead _ _ _ Ho). specialize (B' a). by destruct (enc c a); simpl; rewrite B'.
  - intros [a b] [Ha Hb]. simpl in *. apply Forall_app. split; [|auto].
    unfold put. destruct (J a Ha) as [->|Hj]; [done|]. destruct (enc c a); auto.
Qed.

Lemma parse_fields_prop fs o p :
  NoDup (keys fs) -> parse_fields zparse fs o = Some p ->
  forall f, f ∈ fs -> zparse f.2 (prop_of o f.1) = Some (prop_of p f.1).
Proof.
  unfold parse_fields. intros Hn H. apply fmap_Some in H as (l & Hl & ->).
  assert (Hk : forall (fs : list (jsstr * schema)) l, mapM (parse_field zparse o) fs = Some l ->
    keys (concat l) `sublist_of` keys fs).
  { clear. induction fs as [|[k s] fs IH]; intros l; simpl.
    - by intros [= <-].
    - destruct (parse_field zparse o (k, s)) as [e|] eqn:E; [|done].
      destruct (mapM _ fs) as [l'|]; [|done]. intros [= <-]. specialize (IH _ eq_refl). simpl.
      unfold keys in *. rewrite fmap_app. unfold parse_field in E. simpl in E.
      repeat case_match; simplify_eq/=; by constructor. }
  revert l Hl. induction fs as [|[k s] fs IH]; intros l Hl f Hf; [by apply elem_of_nil in Hf|].
  apply NoDup_cons in Hn as [Hkn Hn]. simpl in *.
  destruct (parse_field zparse o (k, s)) as [e|] eqn:E; [|done].
  destruct (mapM _ fs) as [l'|] eqn:El; [|done]. injection Hl as <-. simpl.
  specialize (Hk _ _ El). specialize (IH Hn _ eq_refl).
  apply elem_of_cons in Hf as [->|Hf]; simpl.
  - assert (assoc k (concat l') = None) as Hnone.
    { apply assoc_None. intros Hy. apply Hkn. eapply sublist_subseteq in Hy; eauto. }
    unfold prop_of. rewrite assoc_app. unfold parse_field in E. simpl in E.
    repeat case_match; simplify_eq/=; rewrite ?decide_True, ?Hnone in * by done; by simplify_eq/=.
  - rewrite IH by done. unfold prop_of. rewrite assoc_app.
    assert (f.1 <> k) by (intros <-; apply Hkn; unfold keys; apply list_elem_of_fmap; eauto).
    unfold parse_field in E. simpl in E.
    repeat case_match; simplify_eq/=; repeat case_decide; by simplify_eq/=.
Qed.

Lemma fits_obj {A B} fs (r : fcodec B) ok (to : A -> B) back :
  fields_fit fs r ok -> NoDup (keys fs) -> Forall (fun k => array_index k = None) (keys fs) ->
  (forall a, back (to a) = a) ->
  fits false false (SObject fs) (c_obj r to back) (fun a => ok (to a)).
Proof.
  intros [FT FK FS FB FJ] Hn Hi Hb. split; simpl; try done.
  - intros v p. rewrite zparse_object. destruct v as [| | | | | |o]; try done.
    destruct (parse_fields zparse fs o) as [p'|] eqn:E; [|done]. intros [= <-]. simpl.
    apply fmap_is_Some, FT. intros f Hf. eexists. by eapply parse_fields_prop.
  - intros a Ha. rewrite zparse_object. by rewrite (FS _ _ Ha).
  - intros a. rewrite (FB (to a)); simpl; [by rewrite Hb|done].
  - intros a Ha. right. constructor; [|by apply FJ]. apply obj_canon_named.
    + by eapply sublist_NoDup.
    + rewrite Forall_forall in *. intros k Hk. apply Hi. eapply sublist_subseteq in Hk; [done|apply FK].
Qed.
End Fits.

(** ** A decoder with these laws, to run examples *)

Fixpoint reference_parse (s : schema) (v : value) : option value :=
  match s with
  | SString => match v with VStr _ => Some v | _ => None end
  | SNumber => match v with VNum x => if is_finite x then Some v else None | _ => None end
  | SBoolean => match v with VBool _ => Some v | _ => None end
  | SEnum l => match v with VStr s => if bool_decide (s ∈ l) then Some v else None | _ => None end
  | SNullable s' => match v with VNull => Some VNull | _ => reference_parse s' v end
  | SOptional s' => match v with VUndefined => Some VUndefined | _ => reference_parse s' v end
  | SArray n s' =>
      match v with
      | VArr l => if n <=? length l then VArr <$> mapM (reference_parse s') l else None
      | _ => None
      end
  | SObject fs =>
      match v with VObj o => VObj <$> parse_fields reference_parse fs o | _ => None end
  end.

Definition reference_zod : Zod.
Proof. refine {| zparse := reference_parse |}; reflexivity. Defined.
