(* ===== verification/HttpStatusRules.v ===== *)
(** * HTTP status code rules ([lib/http-status-code-rules.ts])

    The parser of rule lists such as ["500-599, 429"]: tokens, validation and
    the merge of overlapping or adjacent ranges. *)

From S2P Require Import Prelude JsNumber JsValue.

Module HttpStatusCodeRules.

Record StatusCodeRange := mkRange { start : Z; end_ : Z }.

#[export] Instance StatusCodeRange_eq_dec : EqDecision StatusCodeRange.
Proof. solve_decision. Defined.

Record ParsedHttpStatusCodeRules := mkParsed {
  ok : bool;
  ranges : list StatusCodeRange;
  tokens : list jsstr;
  normalized : jsstr;
  invalidTokens : list jsstr }.

(** [/^\d+$/.test(s)] *)
Definition isNumber (s : jsstr) : bool := nonempty s && forallb is_digit s.

(** [Number.parseInt] of a digit string is compared with 100 and 599 only; the
    exact integer and its binary64 rounding agree on those tests. *)
Definition isValidCode (code : Z) : bool := (100 <=? code)%Z && (code <=? 599)%Z.

Definition parseIntZ (s : jsstr) : Z := Z.of_N (N_of_dec s).

Definition parseToken (token : jsstr) : option StatusCodeRange :=
  let cleaned := List.filter (fun c => negb (is_space c)) (trim token) in
  if negb (nonempty cleaned) then None
  else if includes (js "-") cleaned then
    match split_char (ch "-") cleaned with
    | a :: b :: _ =>
        if negb (isNumber a) || negb (isNumber b) then None
        else
          let s := parseIntZ a in
          let e := parseIntZ b in
          if negb (isValidCode s) || negb (isValidCode e) || (e <? s)%Z then None
          else Some (mkRange s e)
    | _ => None
    end
  else if negb (isNumber cleaned) then None
  else
    let code := parseIntZ cleaned in
    if negb (isValidCode code) then None else Some (mkRange code code).

(** The comparator of [mergeRanges]. *)
Definition range_cmp (a b : StatusCodeRange) : comparison :=
  if negb (start a =? start b)%Z then (start a ?= start b)%Z else (end_ a ?= end_ b)%Z.

(** One step of the [reduce]: [merged] is kept in reverse, so its head is the
    source's [merged[merged.length - 1]]. *)
Definition merge_step (merged : list StatusCodeRange) (current : StatusCodeRange)
  : list StatusCodeRange :=
  match merged with
  | last :: rest =>
      if (end_ last + 1 <? start current)%Z then current :: merged
      else mkRange (start last) (Z.max (end_ last) (end_ current)) :: rest
  | [] => [current]
  end.

Definition mergeRanges (rs : list StatusCodeRange) : list StatusCodeRange :=
  rev (fold_left merge_step (js_sort range_cmp rs) []).

Definition range_token (r : StatusCodeRange) : jsstr :=
  if (start r =? end_ r)%Z then dec_of_N (Z.to_N (start r))
  else dec_of_N (Z.to_N (start r)) ++ js "-" ++ dec_of_N (Z.to_N (end_ r)).

(** The loop over the segments: accepted ranges and refused segments. *)
Fixpoint scan_segments (segments : list jsstr) : list StatusCodeRange * list jsstr :=
  match segments with
  | [] => ([], [])
  | seg :: rest =>
      let '(rs, bad) := scan_segments rest in
      match parseToken seg with
      | Some r => (r :: rs, bad)
      | None => (rs, seg :: bad)
      end
  end.

(** The full-width comma U+FF0C separates like the ASCII one. *)
Definition segments (raw : jsstr) : list jsstr :=
  let sanitized := List.map (fun c => if (c =? 65292)%N then ch "," else c) raw in
  List.filter nonempty (List.map trim (split_char (ch ",") sanitized)).

Definition parseRaw (raw : jsstr) : ParsedHttpStatusCodeRules :=
  if negb (nonempty raw) then mkParsed true [] [] [] []
  else
    let '(rs, bad) := scan_segments (segments raw) in
    if nonempty bad then mkParsed false [] [] raw bad
    else
      let merged := mergeRanges rs in
      let toks := List.map range_token merged in
      mkParsed true merged toks (join (js ",") toks) [].

(** [(input ?? '').toString().trim()], then the rules; [None] when the
    conversion to a string throws. *)
Definition parseHttpStatusCodeRules (input : value) : option ParsedHttpStatusCodeRules :=
  (fun s => parseRaw (trim s)) <$> (if is_nullish input then Some [] else to_string input).

(** ** The merge of ranges *)

Definition range_ok (r : StatusCodeRange) : Prop := (start r <= end_ r)%Z.
Definition covers (rs : list StatusCodeRange) (c : Z) : Prop :=
  Exists (fun r => (start r <= c <= end_ r)%Z) rs.

#[export] Instance covers_proper : Proper ((≡ₚ) ==> (=) ==> iff) covers.
Proof. intros l k H c ? <-. unfold covers. by rewrite H. Qed.

(** Ranges in increasing order with at least one code missing between two. *)
Fixpoint separated (rs : list StatusCodeRange) : Prop :=
  match rs with
  | a :: ((b :: _) as rest) => (end_ a + 1 < start b)%Z /\ separated rest
  | _ => True
  end.

(** The same for a list kept in reverse. *)
Fixpoint separated_rev (rs : list StatusCodeRange) : Prop :=
  match rs with
  | b :: ((a :: _) as rest) => (end_ a + 1 < start b)%Z /\ separated_rev rest
  | _ => True
  end.

Definition start_le (a b : StatusCodeRange) : Prop := (start a <= start b)%Z.

Lemma separated_snoc rs a b :
  separated (rs ++ [a]) -> (end_ a + 1 < start b)%Z -> separated (rs ++ [a; b]).
Proof.
  induction rs as [|c rs IH]; simpl; [done|].
  destruct rs as [|d rs]; simpl in *; naive_solver.
Qed.

Lemma separated_rev_rev rs : separated_rev rs -> separated (rev rs).
Proof.
  induction rs as [|b rs IH]; [done|]. destruct rs as [|a rs]; [done|].
  intros [H1 H2]. specialize (IH H2). simpl in *. rewrite <- app_assoc. simpl.
  by apply separated_snoc.
Qed.

Lemma range_cmp_gt x y : range_cmp x y = Gt -> range_cmp y x <> Gt.
Proof.
  unfold range_cmp. rewrite (Z.eqb_sym (start y)).
  destruct (Z.eqb_spec (start x) (start y)); simpl; intros H%Z.compare_gt_iff G%Z.compare_gt_iff; lia.
Qed.

Lemma range_cmp_start x y : range_cmp x y <> Gt -> start_le x y.
Proof.
  unfold range_cmp, start_le. destruct (Z.eqb_spec (start x) (start y)); simpl; [lia|].
  rewrite Z.compare_le_iff. done.
Qed.

Lemma js_sort_starts rs : StronglySorted start_le (js_sort range_cmp rs).
Proof.
  apply Sorted_StronglySorted; [intros ???; unfold start_le; lia|].
  pose proof (js_sort_sorted range_cmp range_cmp_gt rs) as H.
  induction H as [|x l H IH Hx]; constructor; [done|].
  destruct Hx; constructor. by apply range_cmp_start.
Qed.

(** What the [reduce] keeps true while it consumes the sorted ranges. *)
Record merge_inv (merged rest : list StatusCodeRange) : Prop := {
  inv_sep : separated_rev merged;
  inv_ok : Forall range_ok merged;
  inv_le : match merged with last :: _ => Forall (start_le last) rest | [] => True end }.

Lemma merge_step_inv merged r rest :
  merge_inv merged (r :: rest) -> range_ok r -> Forall (start_le r) rest ->
  merge_inv (merge_step merged r) rest /\
  (forall c, covers (merge_step merged r) c <-> covers merged c \/ (start r <= c <= end_ r)%Z).
Proof.
  intros [Hs Ho Hl] Hr Hrest. destruct merged as [|m ms]; simpl.
  { split; [split; [done|by repeat constructor|done]|].
    intros c. unfold covers. rewrite Exists_cons, !Exists_nil. naive_solver. }
  apply Forall_cons in Ho as [Hm Hms]. apply Forall_cons in Hl as [Hle Hl].
  unfold range_ok, start_le in *. destruct (Z.ltb_spec (end_ m + 1) (start r)).
  - split; [split; [done|by repeat constructor|done]|].
    intros c. unfold covers. rewrite !Exists_cons. naive_solver.
  - split; [split|].
    + simpl. destruct ms; simpl in *; [done|]. naive_solver.
    + constructor; [unfold range_ok; simpl; lia|done].
    + done.
    + intros c. unfold covers. rewrite !Exists_cons. simpl.
      assert ((start m <= c <= end_ m `max` end_ r)%Z <->
              (start m <= c <= end_ m)%Z \/ (start r <= c <= end_ r)%Z) by lia.
      naive_solver.
Qed.

Lemma merge_fold_inv rest : forall merged,
  StronglySorted start_le rest -> Forall range_ok rest -> merge_inv merged rest ->
  merge_inv (fold_left merge_step rest merged) [] /\
  (forall c, covers (fold_left merge_step rest merged) c <-> covers merged c \/ covers rest c).
Proof.
  induction rest as [|r rest IH]; intros merged Hsort Hok Hinv; simpl.
  { split; [done|]. intros c. unfold covers at 3. rewrite Exists_nil. naive_solver. }
  apply StronglySorted_inv in Hsort as [Hsort Hr]. apply Forall_cons in Hok as [Hor Hok].
  destruct (merge_step_inv merged r rest Hinv Hor) as [Hinv' Hc].
  { done. }
  destruct (IH _ Hsort Hok Hinv') as [H1 H2]. split; [done|].
  intros c. rewrite H2, Hc. unfold covers at 4. rewrite Exists_cons. unfold covers. naive_solver.
Qed.

Lemma mergeRanges_correct rs :
  Forall range_ok rs ->
  separated (mergeRanges rs) /\ Forall range_ok (mergeRanges rs) /\
  (forall c, covers (mergeRanges rs) c <-> covers rs c).
Proof.
  intros Hok.
  destruct (merge_fold_inv (js_sort range_cmp rs) []) as [[Hs Ho _] Hc].
  { apply js_sort_starts. }
  { by rewrite js_sort_perm. }
  { by split. }
  unfold mergeRanges. split_and!.
  - by apply separated_rev_rev.
  - by apply Forall_rev.
  - intros c. rewrite <- Permutation_rev, Hc, js_sort_perm. unfold covers at 1.
    rewrite Exists_nil. naive_solver.
Qed.

(** C6: [mergeRanges] returns ranges in increasing order, no two of them
    overlapping or adjacent, that cover exactly the codes of its input. *)
Theorem mergeRanges_spec rs :
  Forall range_ok rs ->
  separated (mergeRanges rs) /\ Forall range_ok (mergeRanges rs) /\
  (forall c, covers (mergeRanges rs) c <-> covers rs c).
Proof. apply mergeRanges_correct. Qed.

Lemma mergeRanges_spec_witness :
  Forall range_ok [mkRange 500 502; mkRange 429 429; mkRange 503 599] /\
  separated (mergeRanges [mkRange 500 502; mkRange 429 429; mkRange 503 599]).
Proof.
  assert (H : Forall range_ok [mkRange 500 502; mkRange 429 429; mkRange 503 599]).
  { repeat constructor; unfold range_ok; simpl; lia. }
  split; [exact H|]. exact (proj1 (mergeRanges_spec _ H)).
Defined.

(** ** Tokens *)

Definition range_valid (r : StatusCodeRange) : Prop :=
  (100 <= start r)%Z /\ (start r <= end_ r)%Z /\ (end_ r <= 599)%Z.

Definition token_unit (c : N) : bool := is_digit c || (c =? ch "-")%N.

Lemma token_unit_no_space c : token_unit c = true -> negb (is_space c) = true.
Proof.
  unfold token_unit. intros [H%is_digit_bounds|H%N.eqb_eq]%orb_prop; [|by subst].
  assert (E : c ∈ [48; 49; 50; 51; 52; 53; 54; 55; 56; 57]%N).
  { rewrite !elem_of_cons. lia. }
  repeat (apply elem_of_cons in E as [->|E]; [done|]). by apply elem_of_nil in E.
Qed.

Lemma dec_token_units n : forallb token_unit (dec_of_N n) = true.
Proof.
  eapply forallb_impl; [|apply dec_of_N_digits]. intros c H. unfold token_unit. by rewrite H.
Qed.

Lemma range_token_units r : forallb token_unit (range_token r) = true.
Proof.
  unfold range_token. destruct (start r =? end_ r)%Z; rewrite ?forallb_app, ?dec_token_units; done.
Qed.

Lemma dash_not_in_dec n : ch "-" ∉ dec_of_N n.
Proof. apply (not_elem_of_forallb is_digit); [apply dec_of_N_digits|done]. Qed.

Lemma isNumber_dec n : isNumber (dec_of_N n) = true.
Proof.
  unfold isNumber. rewrite dec_of_N_digits. pose proof (dec_of_N_nonnil n).
  by destruct (dec_of_N n).
Qed.

Lemma parseIntZ_dec z : (0 <= z)%Z -> parseIntZ (dec_of_N (Z.to_N z)) = z.
Proof. intros H. unfold parseIntZ. rewrite N_of_dec_of_N. lia. Qed.

Lemma isValidCode_true z : (100 <= z <= 599)%Z -> isValidCode z = true.
Proof. intros H. unfold isValidCode. apply andb_true_intro; split; apply Z.leb_le; lia. Qed.

Lemma range_token_nonnil r : range_token r <> [].
Proof.
  unfold range_token. destruct (start r =? end_ r)%Z; [apply dec_of_N_nonnil|].
  intros H. by apply app_nil in H as [H _]; apply dec_of_N_nonnil in H.
Qed.

(** Printing a valid range and parsing it gives the range back. *)
Lemma parseToken_range_token r : range_valid r -> parseToken (range_token r) = Some r.
Proof.
  intros (H1 & H2 & H3). pose proof (range_token_nonnil r) as Hn.
  unfold parseToken.
  assert (Hs : forallb (fun c => negb (is_space c)) (range_token r) = true).
  { eapply forallb_impl; [apply token_unit_no_space|apply range_token_units]. }
  rewrite trim_no_space, filter_all by done.
  assert (Hne : nonempty (range_token r) = true) by (by destruct (range_token r)).
  rewrite Hne. cbn [negb]. unfold range_token. destruct r as [s e]; cbn [start end_] in *.
  destruct (Z.eqb_spec s e) as [->|Hse].
  - assert (Hi : includes (js "-") (dec_of_N (Z.to_N e)) = false).
    { apply not_true_is_false. intros (a & b & E)%includes_spec.
      apply (dash_not_in_dec (Z.to_N e)). rewrite E. set_solver. }
    rewrite Hi, isNumber_dec. simpl. rewrite parseIntZ_dec, isValidCode_true by lia. done.
  - assert (Hi : includes (js "-") (dec_of_N (Z.to_N s) ++ js "-" ++ dec_of_N (Z.to_N e)) = true).
    { apply includes_spec. eauto. }
    rewrite Hi. change (js "-" ++ ?z) with (ch "-" :: z).
    rewrite split_char_app, split_char_no by apply dash_not_in_dec.
    rewrite !isNumber_dec. simpl. rewrite !parseIntZ_dec, !isValidCode_true by lia.
    simpl. destruct (Z.ltb_spec e s); [lia|done].
Qed.

Lemma parseToken_valid t r : parseToken t = Some r -> range_valid r.
Proof.
  unfold parseToken, range_valid, isValidCode.
  set (c := List.filter _ _). destruct (nonempty c); simpl; [|done].
  destruct (includes _ c).
  - destruct (split_char _ c) as [|a [|b l]]; [done|done|].
    destruct (negb (isNumber a) || negb (isNumber b)); [done|].
    match goal with |- (if ?g then _ else _) = _ -> _ => destruct g eqn:E end; [done|].
    intros [= <-]. simpl. bool_prop. lia.
  - destruct (isNumber c); simpl; [|done].
    match goal with |- (if ?g then _ else _) = _ -> _ => destruct g eqn:E end; [done|].
    intros [= <-]. simpl. bool_prop. lia.
Qed.

(** ** The parser *)

Lemma scan_segments_spec segs :
  scan_segments segs =
  (omap parseToken segs, List.filter (fun t => if parseToken t is Some _ then false else true) segs).
Proof.
  induction segs as [|t segs IH]; [done|]. simpl. rewrite IH.
  by destruct (parseToken t).
Qed.

Lemma omap_valid segs : Forall range_valid (omap parseToken segs).
Proof.
  apply Forall_forall. intros r (t & _ & H)%list_elem_of_omap. by apply parseToken_valid in H.
Qed.

Lemma range_valid_ok rs : Forall range_valid rs -> Forall range_ok rs.
Proof. intros H. eapply Forall_impl; [exact H|]. intros r Hr. apply Hr. Qed.

Lemma covers_valid rs c : Forall range_valid rs -> covers rs c -> (100 <= c <= 599)%Z.
Proof.
  unfold covers. rewrite Exists_exists, Forall_forall. intros H (r & Hr & Hc).
  destruct (H r Hr) as (?&?&?). lia.
Qed.

Lemma mergeRanges_valid rs : Forall range_valid rs -> Forall range_valid (mergeRanges rs).
Proof.
  intros Hv. destruct (mergeRanges_correct rs (range_valid_ok rs Hv)) as (_ & Ho & Hc).
  rewrite Forall_forall in *. intros r Hr. specialize (Ho r Hr). unfold range_ok in Ho.
  assert (Hb : forall c, (start r <= c <= end_ r)%Z -> (100 <= c <= 599)%Z).
  { intros c H. apply (covers_valid rs); [by apply Forall_forall|].
    apply Hc. unfold covers. apply Exists_exists. eauto. }
  pose proof (Hb (start r)). pose proof (Hb (end_ r)). unfold range_valid. lia.
Qed.

Lemma separated_cons a rs :
  separated (a :: rs) ->
  separated rs /\ match rs with b :: _ => (end_ a + 1 < start b)%Z | [] => True end.
Proof. destruct rs; simpl; naive_solver. Qed.

Lemma js_sort_separated rs :
  separated rs -> Forall range_ok rs -> js_sort range_cmp rs = rs.
Proof.
  induction rs as [|a rs IH]; [done|]. intros [Hs Ha]%separated_cons [Ho Hos]%Forall_cons.
  simpl. rewrite IH by done. destruct rs as [|b rs]; [done|]. simpl. unfold range_cmp.
  unfold range_ok in Ho. destruct (Z.eqb_spec (start a) (start b)); [lia|]. simpl.
  by rewrite (proj2 (Z.compare_lt_iff _ _)) by lia.
Qed.

Lemma merge_fold_separated rs : forall acc,
  separated rs ->
  match acc, rs with a :: _, b :: _ => (end_ a + 1 < start b)%Z | _, _ => True end ->
  fold_left merge_step rs acc = rev rs ++ acc.
Proof.
  induction rs as [|b rs IH]; intros acc Hs Ha; [done|]. simpl.
  apply separated_cons in Hs as [Hs Hb].
  assert (E : merge_step acc b = b :: acc).
  { destruct acc as [|a acc]; [done|]. simpl. by rewrite (proj2 (Z.ltb_lt _ _)). }
  rewrite E, IH, <- app_assoc; [done|done|]. by destruct rs.
Qed.

Lemma mergeRanges_id rs : separated rs -> Forall range_ok rs -> mergeRanges rs = rs.
Proof.
  intros Hs Ho. unfold mergeRanges. rewrite js_sort_separated, merge_fold_separated by done.
  by rewrite app_nil_r, rev_involutive.
Qed.

(** The comma-separated text of merged ranges splits into their tokens. *)
Lemma segments_tokens rs :
  segments (join (js ",") (List.map range_token rs)) = List.map range_token rs.
Proof.
  assert (Hu : Forall (fun w => forallb token_unit w = true) (List.map range_token rs)).
  { apply Forall_forall. intros w. rewrite list_elem_of_In, in_map_iff.
    intros (r & <- & _). apply range_token_units. }
  unfold segments.
  replace (List.map _ (join _ _)) with (join (js ",") (List.map range_token rs)).
  2: { rewrite <- (map_id (join _ _)) at 1. apply map_ext_in. intros c Hc.
       destruct (N.eqb_spec c 65292) as [->|]; [|done]. exfalso.
       assert (H : forallb (fun c => token_unit c || (c =? ch ",")%N)
                     (join (js ",") (List.map range_token rs)) = true).
       { apply forallb_join; [done|]. eapply Forall_impl; [exact Hu|]. intros w Hw.
         eapply forallb_impl; [|exact Hw]. intros x ->. done. }
       rewrite forallb_forall in H. by specialize (H _ Hc). }
  destruct rs as [|r rs]; [done|].
  change (js ",") with [ch ","]. rewrite split_join; [|done|].
  2: { eapply Forall_impl; [exact Hu|]. intros w Hw.
       by apply (not_elem_of_forallb token_unit). }
  rewrite (map_ext_in trim id).
  2: { intros w Hw%list_elem_of_In. apply trim_no_space.
       eapply forallb_impl; [apply token_unit_no_space|]. by eapply Forall_forall in Hu. }
  rewrite map_id. apply filter_all. apply forallb_forall. intros w.
  rewrite in_map_iff. intros (r0 & <- & _). pose proof (range_token_nonnil r0).
  by destruct (range_token r0).
Qed.

Lemma omap_tokens rs :
  Forall range_valid rs -> omap parseToken (List.map range_token rs) = rs.
Proof.
  induction 1 as [|r rs Hr H IH]; [done|]. simpl.
  rewrite parseToken_range_token by done. f_equal. exact IH.
Qed.

Lemma tokens_all_parse rs :
  Forall range_valid rs ->
  List.filter (fun t => if parseToken t is Some _ then false else true) (List.map range_token rs) = [].
Proof. induction 1 as [|r rs Hr H IH]; [done|]. simpl. by rewrite parseToken_range_token, IH. Qed.

(** The result of parsing, without the loop. *)
Lemma parseRaw_eq raw :
  parseRaw raw =
  let bad := List.filter (fun t => if parseToken t is Some _ then false else true) (segments raw) in
  if nonempty bad then mkParsed false [] [] raw bad
  else
    let merged := mergeRanges (omap parseToken (segments raw)) in
    let toks := List.map range_token merged in
    mkParsed true merged toks (join (js ",") toks) [].
Proof. unfold parseRaw. rewrite scan_segments_spec. by destruct raw. Qed.

(** The normalised text of an accepted rule list is a fixed point: parsing
    it gives the same ranges, tokens and text again. *)
Theorem parse_normalized_roundtrip raw :
  ok (parseRaw (trim raw)) = true ->
  parseRaw (trim (normalized (parseRaw (trim raw)))) = parseRaw (trim raw).
Proof.
  rewrite (parseRaw_eq (trim raw)). cbv zeta.
  destruct (nonempty (List.filter _ (segments (trim raw)))); [done|]. intros _. cbn [normalized].
  pose proof (omap_valid (segments (trim raw))) as Hv.
  set (rs := omap parseToken (segments (trim raw))) in *.
  destruct (mergeRanges_correct rs (range_valid_ok rs Hv)) as (Hs & Ho & _).
  pose proof (mergeRanges_valid rs Hv) as Hm.
  rewrite trim_no_space.
  2: { apply forallb_join; [done|]. apply Forall_forall. intros w.
       rewrite list_elem_of_In, in_map_iff. intros (r & <- & _).
       eapply forallb_impl; [apply token_unit_no_space|apply range_token_units]. }
  rewrite parseRaw_eq, segments_tokens. cbv zeta.
  by rewrite tokens_all_parse, omap_tokens, (mergeRanges_id (mergeRanges rs)) by done.
Qed.

Lemma parse_normalized_roundtrip_witness :
  parseRaw (trim (normalized (parseRaw (trim (js " 500-503, 429,504 - 599 ")))))
  = parseRaw (trim (js " 500-503, 429,504 - 599 ")).
Proof. apply parse_normalized_roundtrip. vm_compute. reflexivity. Defined.

(** A rule list is accepted exactly when every non-blank segment is a
    token; then a code is covered exactly when some segment names it, and every
    range is within 100..599; otherwise the refused segments are reported. *)
Theorem parseRaw_spec raw :
  let p := parseRaw raw in
  (ok p = true <-> forall t, t ∈ segments raw -> is_Some (parseToken t)) /\
  (ok p = true -> Forall range_valid (ranges p) /\ separated (ranges p) /\
     forall c, covers (ranges p) c <->
       exists t r, t ∈ segments raw /\ parseToken t = Some r /\ (start r <= c <= end_ r)%Z) /\
  (ok p = false -> ranges p = [] /\
     forall t, t ∈ invalidTokens p <-> t ∈ segments raw /\ parseToken t = None).
Proof.
  cbv zeta. rewrite parseRaw_eq. cbv zeta. set (segs := segments raw).
  set (bad := List.filter _ segs).
  assert (Hbad : forall t, t ∈ bad <-> t ∈ segs /\ parseToken t = None).
  { intros t. unfold bad. rewrite !list_elem_of_In, filter_In. destruct (parseToken t); naive_solver. }
  pose proof (omap_valid segs) as Hv.
  destruct (mergeRanges_correct _ (range_valid_ok _ Hv)) as (Hs & Ho & Hc).
  destruct bad as [|t0 bad0]; cbn [nonempty ok ranges invalidTokens]; split_and!; try done.
  - split; [|done]. intros _ t Ht. destruct (parseToken t) eqn:E; [by eexists|].
    assert (Hin : t ∈ @nil jsstr) by (by apply Hbad). by apply elem_of_nil in Hin.
  - intros _. split_and!; [by apply mergeRanges_valid|done|]. intros c. rewrite Hc.
    unfold covers. rewrite Exists_exists. setoid_rewrite list_elem_of_omap. naive_solver.
  - split; [done|]. intros H. destruct (proj1 (Hbad t0)) as [H1 H2]; [by left|].
    destruct (H t0 H1) as [? ?]. congruence.
Qed.

(** The second dash of ["200-300-400"] and what follows it are ignored. *)
Example parseToken_extra_dash : parseToken (js "200-300-400") = Some (mkRange 200 300).
Proof. vm_compute. reflexivity. Qed.

End HttpStatusCodeRules.
