(* ===== verification/PlaygroundMessage.v ===== *)
(** * Playground messages ([features/playground/types.ts], [lib/message])

    The message record, its constructors and accessors
    ([message-utils.ts]), timing ([message-timing-utils.ts]), the separation
    of reasoning from visible text ([message-reasoning-utils.ts]), streaming
    ([message-streaming-utils.ts]) and the updates of a conversation
    ([message-update-utils.ts], [conversation-message-utils.ts]).

    [nanoid] and [Date.now] are read by the code in many places: each value
    read is an argument here, in the order in which the code reads them. *)

From S2P Require Import Prelude JsNumber JsValue.

(** ** Types ([types.ts]) *)

Inductive MessageRole := User | Assistant | System.
Inductive MessageStatus := Loading | Streaming | Complete | Error.

#[export] Instance MessageRole_eq_dec : EqDecision MessageRole.
Proof. solve_decision. Defined.
#[export] Instance MessageStatus_eq_dec : EqDecision MessageStatus.
Proof. solve_decision. Defined.

Record MessageVersion := mkVersion { v_id : jsstr; v_content : jsstr }.
Record Source := mkSource { href : jsstr; title : jsstr }.
Record Reasoning := mkReasoning {
  r_content : jsstr;
  r_duration : number;
  r_startedAt : option number;
  r_completedAt : option number;
  r_durationMs : option number }.

Record Message := mkMessage {
  key : jsstr;
  from : MessageRole;
  versions : list MessageVersion;
  createdAt : option number;
  startedAt : option number;
  completedAt : option number;
  durationMs : option number;
  sources : option (list Source);
  reasoning : option Reasoning;
  isReasoningStreaming : option bool;
  isReasoningComplete : option bool;
  isContentComplete : option bool;
  status : option MessageStatus;
  errorCode : option (option jsstr) }.

#[export] Instance MessageVersion_eq_dec : EqDecision MessageVersion.
Proof. solve_decision. Defined.
#[export] Instance Source_eq_dec : EqDecision Source.
Proof. solve_decision. Defined.
#[export] Instance Reasoning_eq_dec : EqDecision Reasoning.
Proof. solve_decision. Defined.
#[export] Instance Message_eq_dec : EqDecision Message.
Proof. solve_decision. Defined.

(** [{...message, field: v}] for the fields the code replaces. *)
Definition set_versions v m := mkMessage (key m) (from m) v (createdAt m) (startedAt m)
  (completedAt m) (durationMs m) (sources m) (reasoning m) (isReasoningStreaming m)
  (isReasoningComplete m) (isContentComplete m) (status m) (errorCode m).
Definition set_createdAt c m := mkMessage (key m) (from m) (versions m) c (startedAt m)
  (completedAt m) (durationMs m) (sources m) (reasoning m) (isReasoningStreaming m)
  (isReasoningComplete m) (isContentComplete m) (status m) (errorCode m).
Definition set_timing s c d m := mkMessage (key m) (from m) (versions m) (createdAt m) s
  c d (sources m) (reasoning m) (isReasoningStreaming m)
  (isReasoningComplete m) (isContentComplete m) (status m) (errorCode m).
Definition set_reasoning r m := mkMessage (key m) (from m) (versions m) (createdAt m)
  (startedAt m) (completedAt m) (durationMs m) (sources m) r (isReasoningStreaming m)
  (isReasoningComplete m) (isContentComplete m) (status m) (errorCode m).
Definition set_streaming b m := mkMessage (key m) (from m) (versions m) (createdAt m)
  (startedAt m) (completedAt m) (durationMs m) (sources m) (reasoning m) (Some b)
  (isReasoningComplete m) (isContentComplete m) (status m) (errorCode m).
Definition set_status s m := mkMessage (key m) (from m) (versions m) (createdAt m)
  (startedAt m) (completedAt m) (durationMs m) (sources m) (reasoning m)
  (isReasoningStreaming m) (isReasoningComplete m) (isContentComplete m) (Some s) (errorCode m).
Definition set_errorCode e m := mkMessage (key m) (from m) (versions m) (createdAt m)
  (startedAt m) (completedAt m) (durationMs m) (sources m) (reasoning m)
  (isReasoningStreaming m) (isReasoningComplete m) (isContentComplete m) (status m) (Some e).

(** [Boolean(m.isReasoningStreaming)] *)
Definition flag (b : option bool) : bool := default false b.

Module ERROR_MESSAGES.
Definition API_REQUEST_ERROR := js "Request error occurred".
Definition NETWORK_ERROR := js "Network connection failed or server not responding".
Definition PARSE_ERROR := js "Error parsing response data".
Definition STREAM_START_ERROR := js "Error establishing connection".
Definition CONNECTION_CLOSED := js "Connection closed".
Definition INTERRUPTED := js "Generation was interrupted".
End ERROR_MESSAGES.

(** ** [message-utils.ts] *)

Definition createMessageVersion (id content : jsstr) : MessageVersion := mkVersion id content.

Definition getCurrentVersion (m : Message) : MessageVersion :=
  match versions m with v :: _ => v | [] => mkVersion (js "default") [] end.

Definition getMessageContent (m : Message) : jsstr := v_content (getCurrentVersion m).

Definition hasMessageContent (m : Message) : bool := nonempty (trim (getMessageContent m)).

Definition updateCurrentVersionContent (m : Message) (content : jsstr) : Message :=
  set_versions [mkVersion (v_id (getCurrentVersion m)) content] m.

Definition createUserMessage (k vid content : jsstr) (created : number) : Message :=
  mkMessage k User [createMessageVersion vid content] (Some created) None None None None None
    None None None None None.

Definition createLoadingAssistantMessage (k vid : jsstr) (started : number) : Message :=
  mkMessage k Assistant [createMessageVersion vid []] (Some started) (Some started) None None
    None None (Some false) (Some false) (Some false) (Some Loading) None.

(** API message content: plain text, or parts when there are images. *)
Inductive ContentPart := TextPart (text : jsstr) | ImagePart (url : jsstr).
Inductive MessageContent := PlainContent (s : jsstr) | PartsContent (ps : list ContentPart).

Definition buildMessageContent (text : jsstr) (imageUrls : list jsstr) : MessageContent :=
  let validImages := List.filter (fun url => nonempty (trim url)) imageUrls in
  if negb (nonempty validImages) then PlainContent text
  else PartsContent (TextPart text :: List.map (fun url => ImagePart (trim url)) validImages).

Fixpoint first_text (ps : list ContentPart) : jsstr :=
  match ps with
  | [] => []
  | TextPart t :: _ => t
  | ImagePart _ :: ps' => first_text ps'
  end.

Definition getTextContent (content : MessageContent) : jsstr :=
  match content with PlainContent s => s | PartsContent ps => first_text ps end.

Record ChatCompletionMessage := mkChatMessage { role : MessageRole; content : jsstr }.

Definition formatMessageForAPI (m : Message) : ChatCompletionMessage :=
  mkChatMessage (from m) (v_content (getCurrentVersion m)).

Definition isValidMessage (m : Message) : bool :=
  if negb (nonempty (versions m)) then false
  else if bool_decide (from m = Assistant) && negb (hasMessageContent m) then false
  else true.

(** ** [message-timing-utils.ts] *)

(** [a ?? b] *)
Definition or_else {A} (a b : option A) : option A := match a with Some _ => a | None => b end.

Definition elapsed (done_ started : number) : number :=
  math_max (num_of_Z 0) (num_sub done_ started).

Definition completeAssistantTiming (m : Message) (done_ : number) : Message :=
  if negb (bool_decide (from m = Assistant)) then m
  else
    let started := default done_ (or_else (startedAt m) (createdAt m)) in
    set_timing (Some started) (Some done_) (Some (elapsed done_ started)) m.

Definition startReasoningTiming (m : Message) (started : number) : Reasoning :=
  match reasoning m with
  | Some r => mkReasoning (r_content r) (r_duration r) (or_else (r_startedAt r) (Some started))
                (r_completedAt r) (r_durationMs r)
  | None => mkReasoning [] (num_of_Z 0) (Some started) None None
  end.

Definition completeReasoningTiming (m : Message) (done_ : number) : Message :=
  match reasoning m with
  | None => m
  | Some r =>
      match r_durationMs r with
      | Some _ => m
      | None =>
          let started := default done_ (or_else (r_startedAt r) (startedAt m)) in
          let ms := elapsed done_ started in
          set_reasoning
            (Some (mkReasoning (r_content r) (math_ceil (num_div ms (num_of_Z 1000)))
                     (Some started) (Some done_) (Some ms))) m
      end
  end.

(** ** [message-reasoning-utils.ts] *)

Definition OPEN_TAG := js "<think>".
Definition CLOSE_TAG := js "</think>".

Record ThinkParts := mkThinkParts {
  visibleParts : list jsstr; reasoningParts : list jsstr; unclosed : bool }.

(** The [while (true)] loop from position [pos] on.  Each round moves [pos]
    past a closing tag, so a bound on the length left is enough fuel. *)
Fixpoint think_loop (fuel : nat) (content : jsstr) (pos : nat) : ThinkParts :=
  match fuel with
  | 0 => mkThinkParts [] [] false
  | S f =>
      match index_of_from OPEN_TAG content pos with
      | None =>
          mkThinkParts (if (pos <? length content) then [drop pos content] else []) [] false
      | Some openPos =>
          let vis := if (pos <? openPos) then [slice pos openPos content] else [] in
          match index_of_from CLOSE_TAG content (openPos + 7) with
          | None => mkThinkParts vis [drop (openPos + 7) content] true
          | Some closePos =>
              let rest := think_loop f content (closePos + 8) in
              mkThinkParts (vis ++ visibleParts rest)
                (slice (openPos + 7) closePos content :: reasoningParts rest)
                (unclosed rest)
          end
      end
  end.

Record ParsedThinkTags := mkParsedThink {
  visibleContent : jsstr; p_reasoning : jsstr; hasUnclosedTag : bool }.

Definition PARAGRAPH := [10; 10]%N.

Definition parseThinkTags (content : jsstr) : ParsedThinkTags :=
  if negb (includes OPEN_TAG content) then mkParsedThink content [] false
  else
    let parts := think_loop (S (length content)) content 0 in
    mkParsedThink (trim (concat (visibleParts parts)))
      (trim (join PARAGRAPH (reasoningParts parts))) (unclosed parts).

(** ** [message-streaming-utils.ts] *)

Definition with_content (r : Reasoning) (c : jsstr) : Reasoning :=
  mkReasoning c (r_duration r) (r_startedAt r) (r_completedAt r) (r_durationMs r).

Definition processStreamingContent (m : Message) (contentChunk : jsstr) (now : number) : Message :=
  let fullContent := getMessageContent m ++ contentChunk in
  if negb (bool_decide (is_Some (reasoning m))) && negb (includes OPEN_TAG fullContent) then
    set_streaming false (updateCurrentVersionContent m fullContent)
  else
    let parsed := parseThinkTags fullContent in
    let finalReasoning :=
      if nonempty (p_reasoning parsed)
      then Some (with_content (startReasoningTiming m now) (p_reasoning parsed))
      else reasoning m in
    set_streaming (hasUnclosedTag parsed)
      (set_reasoning finalReasoning (updateCurrentVersionContent m fullContent)).

Inductive StreamChunkType := ReasoningChunk | ContentChunk.
#[export] Instance StreamChunkType_eq_dec : EqDecision StreamChunkType.
Proof. solve_decision. Defined.

Definition getAppendableChunk (currentContent chunk : jsstr) : jsstr :=
  if negb (nonempty currentContent) || negb (starts_with currentContent chunk) then chunk
  else drop (length currentContent) chunk.

Definition applyStreamingChunk (m : Message) (type : StreamChunkType) (chunk : jsstr)
    (now1 now2 : number) : Message :=
  if bool_decide (status m = Some Error) then m
  else match type with
  | ReasoningChunk =>
      let r := startReasoningTiming m now1 in
      let appendable := getAppendableChunk (r_content r) chunk in
      set_status Streaming
        (set_streaming true (set_reasoning (Some (with_content r (r_content r ++ appendable))) m))
  | ContentChunk =>
      let appendable := getAppendableChunk (getMessageContent m) chunk in
      let contentMessage := processStreamingContent m appendable now1 in
      set_status Streaming
        (if flag (isReasoningStreaming contentMessage) then contentMessage
         else completeReasoningTiming contentMessage now2)
  end.

Definition finalizeMessage (m : Message) (apiReasoningContent : option jsstr)
    (now1 now2 : number) : Message :=
  let content := getMessageContent m in
  let parsed := if includes OPEN_TAG content then Some (parseThinkTags content) else None in
  let visible := match parsed with Some p => visibleContent p | None => content end in
  let finalReasoning :=
    str_or (default [] apiReasoningContent)
      (str_or (match reasoning m with Some r => r_content r | None => [] end)
         (match parsed with Some p => p_reasoning p | None => [] end)) in
  let finalized :=
    set_streaming false
      (set_reasoning
         (if nonempty finalReasoning
          then Some (with_content (startReasoningTiming m now1) finalReasoning) else None)
         (updateCurrentVersionContent m visible)) in
  completeReasoningTiming finalized now2.

Definition completeAssistantMessage (m : Message) (now1 now2 now3 : number) : Message :=
  completeAssistantTiming (set_status Complete (finalizeMessage m None now1 now2)) now3.

Definition isAssistantMessageFinal (m : Message) : bool :=
  bool_decide (status m = Some Complete) || bool_decide (status m = Some Error).

Definition isAssistantMessagePending (m : Message) : bool :=
  bool_decide (status m = Some Loading) || bool_decide (status m = Some Streaming).

Definition isPendingAssistantMessage (m : Message) : bool :=
  bool_decide (from m = Assistant) && isAssistantMessagePending m.

(** [response.choices[0]]: a choice may lack its message, its text or its
    reasoning. *)
Record ChatCompletionChoice := mkChoice {
  choice_content : option jsstr; choice_reasoning : option jsstr }.
Record ChatCompletionResponse := mkResponse { choices : option (list ChatCompletionChoice) }.

Definition first_choice (r : ChatCompletionResponse) : option ChatCompletionChoice :=
  match choices r with Some (c :: _) => Some c | _ => None end.

Definition hasChatCompletionChoice (r : ChatCompletionResponse) : bool :=
  bool_decide (is_Some (first_choice r)).

Definition applyChatCompletionChoice (m : Message) (c : ChatCompletionChoice)
    (now1 now2 now3 : number) : Message :=
  completeAssistantTiming
    (set_status Complete
       (finalizeMessage (updateCurrentVersionContent m (default [] (choice_content c)))
          (choice_reasoning c) now1 now2)) now3.

Definition applyChatCompletionResponse (m : Message) (r : ChatCompletionResponse)
    (now1 now2 now3 : number) : option Message :=
  (fun c => applyChatCompletionChoice m c now1 now2 now3) <$> first_choice r.

(** The index of the last pending assistant message, found from the end. *)
Fixpoint last_pending (ms : list Message) : option nat :=
  match ms with
  | [] => None
  | m :: ms' =>
      match last_pending ms' with
      | Some i => Some (S i)
      | None => if isPendingAssistantMessage m then Some 0 else None
      end
  end.

Section Translated.
(** [t] of i18next translates an error message. *)
Context (t : jsstr -> jsstr).

Definition interrupted_text : jsstr :=
  t ERROR_MESSAGES.API_REQUEST_ERROR ++ js ": " ++ t ERROR_MESSAGES.INTERRUPTED.

Definition sanitize_one (m : Message) (now1 now2 now3 : number) : Message :=
  let finalized := finalizeMessage m None now1 now2 in
  let hasContent := hasMessageContent finalized in
  let hasReasoning :=
    match reasoning finalized with Some r => nonempty (trim (r_content r)) | None => false end in
  if hasContent || hasReasoning then
    completeAssistantTiming (set_streaming false (set_status Complete finalized)) now3
  else
    completeAssistantTiming
      (set_streaming false
         (set_status Error (updateCurrentVersionContent finalized interrupted_text))) now3.

(** The new array and whether it is another array than the argument. *)
Definition sanitizeMessagesOnLoad (ms : list Message) (now1 now2 now3 : number)
  : list Message * bool :=
  match last_pending ms with
  | None => (ms, false)
  | Some i =>
      match ms !! i with
      | Some m => (<[i := sanitize_one m now1 now2 now3]> ms, true)
      | None => (ms, false)
      end
  end.
End Translated.

(** ** [message-update-utils.ts] *)

Definition updateLastAssistantMessage (ms : list Message) (updater : Message -> Message)
  : list Message :=
  match last ms with
  | Some l => if bool_decide (from l = Assistant)
              then <[length ms - 1 := updater l]> ms else ms
  | None => ms
  end.

Definition mark_error (errorMessage : jsstr) (code : option jsstr) (title_ : jsstr)
    (now : number) (m : Message) : Message :=
  completeAssistantTiming
    (set_errorCode (match code with Some (_ :: _) => code | _ => None end)
       (set_streaming false
          (set_status Error
             (updateCurrentVersionContent m (title_ ++ js ": " ++ errorMessage))))) now.

Definition updateAssistantMessageWithError (ms : list Message) (errorMessage : jsstr)
    (code : option jsstr) (title_ : jsstr) (now : number) : list Message :=
  updateLastAssistantMessage ms (mark_error errorMessage code title_ now).

(** ** [conversation-message-utils.ts] *)

Fixpoint find_key (ms : list Message) (k : jsstr) : option nat :=
  match ms with
  | [] => None
  | m :: ms' => if decide (key m = k) then Some 0 else S <$> find_key ms' k
  end.

(** Identifiers come from [nanoid]: the key of a message, then its version. *)
Definition appendUserMessagePair (ms : list Message) (text : jsstr)
    (k1 v1 k2 v2 : jsstr) (submittedAt : number) : list Message :=
  ms ++ [createUserMessage k1 v1 text submittedAt;
         createLoadingAssistantMessage k2 v2 submittedAt].

Definition createRegeneratedMessages (ms : list Message) (messageKey : jsstr)
    (k v : jsstr) (now : number) : option (list Message) :=
  match find_key ms messageKey with
  | None => None
  | Some i =>
      match ms !! i with
      | None => None
      | Some m =>
          if bool_decide (from m = User)
          then Some (take (i + 1) ms ++ [createLoadingAssistantMessage k v now])
          else Some (take i ms ++ [createLoadingAssistantMessage k v now])
      end
  end.

Definition removeMessageByKey (ms : list Message) (messageKey : jsstr) : list Message :=
  List.filter (fun m => negb (bool_decide (key m = messageKey))) ms.

Fixpoint getPreviousUserMessage (ms : list Message) (beforeIndex : nat) : option Message :=
  match beforeIndex with
  | 0 => None
  | S i => match ms !! i with
           | Some m => if bool_decide (from m = User) then Some m
                       else getPreviousUserMessage ms i
           | None => None
           end
  end.

Record ApplyMessageEditResult := mkEdit { e_messages : list Message; shouldSend : bool }.

Definition edit_one (messageKey text : jsstr) (shouldSubmit : bool) (submittedAt : number)
    (m : Message) : Message :=
  if bool_decide (key m = messageKey) then
    set_createdAt (if shouldSubmit then Some submittedAt else createdAt m)
      (updateCurrentVersionContent m text)
  else m.

Definition applyMessageEdit (ms : list Message) (messageKey text : jsstr) (shouldSubmit : bool)
    (k v : jsstr) (submittedAt : number) : option ApplyMessageEditResult :=
  match find_key ms messageKey with
  | None => None
  | Some i =>
      let updated := List.map (edit_one messageKey text shouldSubmit submittedAt) ms in
      match updated !! i with
      | None => None
      | Some m =>
          if negb shouldSubmit || negb (bool_decide (from m = User))
          then Some (mkEdit updated false)
          else Some (mkEdit (take (i + 1) updated
                             ++ [createLoadingAssistantMessage k v submittedAt]) true)
      end
  end.

Definition getEditingMessageContent (ms : list Message) (editingKey : option jsstr) : jsstr :=
  match editingKey with
  | Some ((_ :: _) as k) =>
      match find_key ms k with
      | Some i => match ms !! i with Some m => getMessageContent m | None => [] end
      | None => []
      end
  | _ => []
  end.

Record ChatMessageRenderState := mkRender {
  alwaysShowActions : bool; render_content : jsstr; isEditing : bool }.

Definition getChatMessageRenderState (ms : list Message) (m : Message) (messageIndex : nat)
    (editingKey : option jsstr) : ChatMessageRenderState :=
  mkRender (bool_decide (S messageIndex = length ms) && bool_decide (from m = Assistant))
    (getMessageContent m) (bool_decide (editingKey = Some (key m))).

(** ** [message-content-utils.ts], [message-action-utils.ts],
    [message-editor-utils.ts] and [message-error-utils.ts] *)

Definition shouldShowMessageLoader (m : Message) (isAssistant : bool) (versionContent : jsstr) : bool :=
  isAssistant && negb (flag (isReasoningStreaming m)) &&
  (bool_decide (status m = Some Loading) ||
   (bool_decide (status m = Some Streaming) && negb (nonempty versionContent))).

Definition shouldShowMessageContent (m : Message) (versionContent : jsstr) : bool :=
  (bool_decide (from m = User) || negb (flag (isReasoningStreaming m))) && nonempty versionContent.

Definition getDisplayContent (m : Message) (versionContent : jsstr) : jsstr :=
  if negb (bool_decide (from m = Assistant)) then versionContent
  else if negb (includes OPEN_TAG versionContent) then versionContent
  else visibleContent (parseThinkTags versionContent).

Record MessageContentState := mkContentState {
  displayContent : jsstr; hasSources : bool; isAssistant_ : bool; showLoader : bool;
  showMessageContent : bool; s_sources : list Source; reasoningContent : option jsstr }.

(** [hasReasoning] is [is_Some reasoningContent]. *)
Definition getMessageContentState (m : Message) (versionContent : jsstr) : MessageContentState :=
  let isAssistant := bool_decide (from m = Assistant) in
  let srcs := default [] (sources m) in
  let rc := if isAssistant then match reasoning m with Some r => r_content r | None => [] end else [] in
  mkContentState (getDisplayContent m versionContent) (nonempty srcs) isAssistant
    (shouldShowMessageLoader m isAssistant versionContent)
    (shouldShowMessageContent m versionContent) srcs
    (if nonempty rc then Some rc else None).

Record MessageActionState := mkActionState {
  a_content : jsstr; hasContent : bool; a_isAssistant : bool; isLoading : bool; isUser : bool }.

Definition getMessageActionState (m : Message) : MessageActionState :=
  mkActionState (getMessageContent m) (hasMessageContent m) (bool_decide (from m = Assistant))
    (bool_decide (status m = Some Loading) || bool_decide (status m = Some Streaming))
    (bool_decide (from m = User)).

Record MessageEditorState := mkEditorState {
  canSave : bool; hasChanged : bool; showSaveAndSubmit : bool }.

Definition getMessageEditorState (m : Message) (editText originalText : jsstr) : MessageEditorState :=
  let hasText := nonempty (trim editText) in
  let changed := negb (bool_decide (editText = originalText)) in
  mkEditorState (hasText && changed) changed (bool_decide (from m = User)).

Definition MODEL_PRICE_ERROR_CODE := js "model_price_error".
Definition FALLBACK_ERROR_CONTENT := js "An unknown error occurred".

Inductive ErrorKind := Generic | ModelPrice.
Record MessageErrorState := mkErrorState {
  err_content : jsstr; err_kind : ErrorKind; showSettingsLink : bool }.

Definition isAdminRole (r : option number) : bool :=
  match r with Some x => num_leb (num_of_Z 10) x | None => false end.

Definition isErrorMessage (m : Message) : bool := bool_decide (status m = Some Error).

Definition getMessageErrorState (m : Message) (isAdmin : bool) : option MessageErrorState :=
  if negb (isErrorMessage m) then None
  else
    let content := str_or (getMessageContent m) FALLBACK_ERROR_CONTENT in
    let isModelPriceError := bool_decide (errorCode m = Some (Some MODEL_PRICE_ERROR_CODE)) in
    Some (mkErrorState content (if isModelPriceError then ModelPrice else Generic)
            (isModelPriceError && isAdmin)).
