(* ===== verification/PlaygroundMessageFacts.v ===== *)
(** * Theorems on playground messages

    The think-tag parser against its grammar, the timing and status fields
    that streaming and completion leave behind, the repair of stored
    conversations and the edits of a conversation. *)

From S2P Require Import Prelude JsNumber JsValue PlaygroundMessage.

(** ** The grammar of think tags *)

(** [think_parse s vs rs b]: [s] is visible text [vs] alternating with tagged
    reasoning [rs]; [b] says that the last tag is not closed.  Tags are the
    leftmost ones. *)
Inductive think_parse : jsstr -> list jsstr -> list jsstr -> bool -> Prop :=
| tp_plain v :
    index_of OPEN_TAG v = None -> think_parse v [v] [] false
| tp_open v r :
    index_of OPEN_TAG (v ++ OPEN_TAG ++ r) = Some (length v) ->
    index_of CLOSE_TAG r = None ->
    think_parse (v ++ OPEN_TAG ++ r) [v] [r] true
| tp_block v r rest vs rs b :
    index_of OPEN_TAG (v ++ OPEN_TAG ++ r ++ CLOSE_TAG ++ rest) = Some (length v) ->
    index_of CLOSE_TAG (r ++ CLOSE_TAG ++ rest) = Some (length r) ->
    think_parse rest vs rs b ->
    think_parse (v ++ OPEN_TAG ++ r ++ CLOSE_TAG ++ rest) (v :: vs) (r :: rs) b.

Lemma index_of_from_Some p s pos i :
  index_of_from p s pos = Some i ->
  exists k, i = pos + k /\ index_of p (drop pos s) = Some k.
Proof. unfold index_of_from. destruct (index_of p (drop pos s)); naive_solver. Qed.

Lemma index_of_from_None p s pos :
  index_of_from p s pos = None -> index_of p (drop pos s) = None.
Proof. unfold index_of_from. by destruct (index_of p (drop pos s)). Qed.

(** A first occurrence splits the text, with the position as length. *)
Lemma index_of_split p s k :
  index_of p s = Some k ->
  exists v r, s = v ++ p ++ r /\ length v = k /\ v = take k s /\ r = drop (k + length p) s.
Proof.
  intros H. destruct (index_of_Some p s k H) as [H1 H2].
  exists (take k s), (drop (k + length p) s). split_and!; [done| |done|done].
  rewrite length_take. lia.
Qed.

Lemma concat_opt {A} (b : bool) (v : list A) :
  (b = false -> v = []) -> concat (if b then [v] else []) = v.
Proof. destruct b; simpl; [by rewrite app_nil_r|]. intros H. by rewrite H. Qed.

Lemma think_loop_spec f : forall content pos,
  length content - pos < f ->
  exists vs rs b,
    think_parse (drop pos content) vs rs b /\
    concat (visibleParts (think_loop f content pos)) = concat vs /\
    reasoningParts (think_loop f content pos) = rs /\
    unclosed (think_loop f content pos) = b.
Proof.
  induction f as [|f IH]; intros content pos Hf; [lia|]. cbn [think_loop].
  destruct (index_of_from OPEN_TAG content pos) as [o|] eqn:Eo.
  2: { apply index_of_from_None in Eo. exists [drop pos content], [], false.
       split_and!; [by constructor| |done|done]. cbn [visibleParts].
       rewrite concat_opt; [by simpl; rewrite app_nil_r|].
       intros H%Nat.ltb_ge. by apply drop_ge. }
  apply index_of_from_Some in Eo as (k & -> & Ek).
  destruct (index_of_split _ _ _ Ek) as (v & r & Es & Hv & Ev & Er).
  change (length OPEN_TAG) with 7 in Er. rewrite drop_drop, Nat.add_assoc in Er.
  assert (Evis : slice pos (pos + k) content = v).
  { unfold slice. replace (pos + k - pos) with k by lia. done. }
  assert (Hvis : concat (if pos <? pos + k then [slice pos (pos + k) content] else []) = v).
  { rewrite Evis. apply concat_opt. intros H%Nat.ltb_ge. apply length_zero_iff_nil. lia. }
  destruct (index_of_from CLOSE_TAG content (pos + k + 7)) as [c|] eqn:Ec.
  - apply index_of_from_Some in Ec as (j & -> & Ej). rewrite <- Er in Ej.
    destruct (index_of_split _ _ _ Ej) as (r1 & rest & Er1 & Hr1 & Et & Ed).
    change (length CLOSE_TAG) with 8 in Ed.
    rewrite Er, drop_drop in Ed.
    replace (pos + k + 7 + (j + 8)) with (pos + k + 7 + j + 8) in Ed by lia.
    destruct (IH content (pos + k + 7 + j + 8)) as (vs & rs & b & Hp & H1 & H2 & H3).
    { assert (length (drop pos content) > 0).
      { rewrite Es, !length_app. change (length OPEN_TAG) with 7. lia. }
      rewrite length_drop in H. lia. }
    exists (v :: vs), (r1 :: rs), b. cbn [visibleParts reasoningParts unclosed].
    split_and!.
    + rewrite <- Ed in Hp. rewrite Es, Er1. constructor; [|by rewrite <- Er1, Hr1|done].
      by rewrite <- Er1, <- Es, Hv.
    + rewrite concat_app, Hvis, H1. done.
    + f_equal; [|done]. unfold slice. replace (pos + k + 7 + j - (pos + k + 7)) with j by lia.
      by rewrite <- Er.
    + done.
  - apply index_of_from_None in Ec. rewrite <- Er in *.
    exists [v], [r], true. cbn [visibleParts reasoningParts unclosed]. split_and!; try done.
    + rewrite Es. constructor; [|done]. by rewrite <- Es, Hv.
    + rewrite Hvis. simpl. by rewrite app_nil_r.
Qed.

(** C5: [parseThinkTags] returns, for every text, the trimmed visible text and
    the trimmed reasoning paragraphs of its decomposition along the leftmost
    think tags, and reports whether the last tag is open; the loop always ends. *)
Theorem parseThinkTags_spec content :
  exists vs rs b,
    think_parse content vs rs b /\
    visibleContent (parseThinkTags content)
      = (if includes OPEN_TAG content then trim (concat vs) else content) /\
    p_reasoning (parseThinkTags content) = trim (join PARAGRAPH rs) /\
    hasUnclosedTag (parseThinkTags content) = b.
Proof.
  unfold parseThinkTags. destruct (includes OPEN_TAG content) eqn:E; cbn [negb].
  - destruct (think_loop_spec (S (length content)) content 0) as (vs & rs & b & Hp & H1 & H2 & H3);
      [lia|].
    exists vs, rs, b. cbn [visibleContent p_reasoning hasUnclosedTag].
    by rewrite H1, H2, H3.
  - exists [content], [], false. split_and!; try done. constructor.
    unfold includes in E. by destruct (index_of OPEN_TAG content).
Qed.

#[local] Opaque OPEN_TAG CLOSE_TAG.

(** The decomposition is unique. *)
Lemma think_parse_det s vs rs b vs' rs' b' :
  think_parse s vs rs b -> think_parse s vs' rs' b' -> vs = vs' /\ rs = rs' /\ b = b'.
Proof.
  intros H. revert vs' rs' b'.
  induction H as [v Hv|v r Ho Hc|v r rest vs rs b Ho Hc Hp IH]; intros vs' rs' b' H'.
  - inversion H'; subst; [done|congruence|congruence].
  - inversion H' as [|v' r' Ho' Hc' E|v' r' rest' ? ? ? Ho' Hc' Hp' E]; subst; [congruence|..].
    + rewrite E, Ho in Ho'. injection Ho' as Hl. apply app_inj_1 in E as [-> E]; [|done].
      apply app_inv_head in E as ->. done.
    + rewrite E, Ho in Ho'. injection Ho' as Hl. apply app_inj_1 in E as [-> E]; [|done].
      apply app_inv_head in E as <-. congruence.
  - inversion H' as [|v' r' Ho' Hc' E|v' r' rest' ? ? ? Ho' Hc' Hp' E]; subst; [congruence|..].
    + rewrite E, Ho in Ho'. injection Ho' as Hl. apply app_inj_1 in E as [-> E]; [|done].
      apply app_inv_head in E as ->. congruence.
    + rewrite E, Ho in Ho'. injection Ho' as Hl. apply app_inj_1 in E as [-> E]; [|done].
      apply app_inv_head in E. rewrite E, Hc in Hc'. injection Hc' as Hl'.
      apply app_inj_1 in E as [-> E]; [|done]. apply app_inv_head in E as ->.
      by destruct (IH _ _ _ Hp') as (-> & -> & ->).
Qed.

(** ** What each update keeps *)

Lemma set_versions_content m v : getMessageContent (updateCurrentVersionContent m v) = v.
Proof. done. Qed.

Lemma completeReasoningTiming_frame m n :
  let m' := completeReasoningTiming m n in
  key m' = key m /\ from m' = from m /\ versions m' = versions m /\ status m' = status m /\
  startedAt m' = startedAt m /\ createdAt m' = createdAt m /\
  isReasoningStreaming m' = isReasoningStreaming m /\
  r_content <$> reasoning m' = r_content <$> reasoning m.
Proof.
  cbv zeta. unfold completeReasoningTiming.
  destruct (reasoning m) as [r|] eqn:E; [|by rewrite E].
  destruct (r_durationMs r); [by rewrite E|done].
Qed.

(** After [completeReasoningTiming] a reasoning has its duration, and a newly
    computed one is not negative. *)
Lemma completeReasoningTiming_done m n r :
  reasoning (completeReasoningTiming m n) = Some r -> is_Some (r_durationMs r).
Proof.
  unfold completeReasoningTiming. destruct (reasoning m) as [r0|] eqn:E; [|congruence].
  destruct (r_durationMs r0) eqn:Ed; [rewrite E; intros [= <-]; eauto|].
  intros [= <-]. by eexists.
Qed.

Lemma completeAssistantTiming_frame m n :
  let m' := completeAssistantTiming m n in
  key m' = key m /\ from m' = from m /\ versions m' = versions m /\ status m' = status m /\
  createdAt m' = createdAt m /\ isReasoningStreaming m' = isReasoningStreaming m /\
  reasoning m' = reasoning m /\ errorCode m' = errorCode m.
Proof. cbv zeta. unfold completeAssistantTiming. by case_bool_decide. Qed.

Lemma elapsed_nonneg a b : num_ltb (elapsed a b) (num_of_Z 0) = false.
Proof. apply math_max_0_nonneg. Qed.

Lemma completeAssistantTiming_duration m n :
  from m = Assistant ->
  exists d, durationMs (completeAssistantTiming m n) = Some d /\ num_ltb d (num_of_Z 0) = false.
Proof.
  intros H. unfold completeAssistantTiming. rewrite bool_decide_true by done.
  eexists. split; [done|]. apply elapsed_nonneg.
Qed.

(** [finalizeMessage] in one place: what it writes and what it leaves alone. *)
Lemma finalizeMessage_spec m api n1 n2 :
  let m' := finalizeMessage m api n1 n2 in
  key m' = key m /\ from m' = from m /\ status m' = status m /\
  createdAt m' = createdAt m /\ startedAt m' = startedAt m /\
  isReasoningStreaming m' = Some false /\
  versions m' = [mkVersion (v_id (getCurrentVersion m)) (visibleContent (parseThinkTags (getMessageContent m)))] /\
  match reasoning m' with
  | None => True
  | Some r => r_content r <> [] /\ is_Some (r_durationMs r)
  end.
Proof.
  cbv zeta. unfold finalizeMessage.
  match goal with |- context [completeReasoningTiming ?x n2] => set (fin := x) end.
  destruct (completeReasoningTiming_frame fin n2) as (-> & -> & -> & -> & -> & -> & -> & Hr).
  pose proof (completeReasoningTiming_done fin n2) as Hd.
  split_and!; try done.
  - unfold fin. cbn. unfold parseThinkTags.
    by destruct (includes OPEN_TAG (getMessageContent m)).
  - destruct (reasoning (completeReasoningTiming fin n2)) as [r|] eqn:E; [|done].
    split; [|by apply Hd]. unfold fin in Hr. cbn in Hr.
    match type of Hr with context [nonempty ?x] => destruct x as [|c s] eqn:Ex end; [done|].
    cbn in Hr. injection Hr as ->. done.
Qed.

Lemma completeAssistantMessage_status m n1 n2 n3 :
  status (completeAssistantMessage m n1 n2 n3) = Some Complete /\
  from (completeAssistantMessage m n1 n2 n3) = from m.
Proof.
  unfold completeAssistantMessage.
  destruct (completeAssistantTiming_frame (set_status Complete (finalizeMessage m None n1 n2)) n3)
    as (_ & -> & _ & -> & _).
  split; [done|]. by destruct (finalizeMessage_spec m None n1 n2) as (_ & H & _).
Qed.

(** Completing an assistant message makes it final: status [complete], no
    reasoning in progress, a duration that is not negative, and a reasoning that
    is absent or non-empty and timed; its key, role and creation time stay, and
    its single version holds the text without the think tags. *)
Theorem completeAssistantMessage_final m n1 n2 n3 :
  from m = Assistant ->
  let m' := completeAssistantMessage m n1 n2 n3 in
  status m' = Some Complete /\ isAssistantMessageFinal m' = true /\
  isReasoningStreaming m' = Some false /\
  key m' = key m /\ from m' = Assistant /\ createdAt m' = createdAt m /\
  versions m' = [mkVersion (v_id (getCurrentVersion m))
                   (visibleContent (parseThinkTags (getMessageContent m)))] /\
  (exists d, durationMs m' = Some d /\ num_ltb d (num_of_Z 0) = false) /\
  match reasoning m' with
  | None => True
  | Some r => r_content r <> [] /\ is_Some (r_durationMs r)
  end.
Proof.
  intros Ha. cbv zeta. unfold completeAssistantMessage.
  destruct (finalizeMessage_spec m None n1 n2) as (Hk & Hf & _ & Hc & _ & Hs & Hv & Hr).
  pose proof (completeAssistantTiming_frame (set_status Complete (finalizeMessage m None n1 n2)) n3)
    as (E1 & E2 & E3 & E4 & E5 & E6 & E7 & _).
  cbn [set_status key from versions status createdAt isReasoningStreaming reasoning] in *.
  unfold isAssistantMessageFinal. rewrite E1, E2, E3, E4, E5, E6, E7, Hk, Hf, Hc, Hs, Hv.
  split_and!; try done. by apply completeAssistantTiming_duration; cbn; rewrite Hf.
Qed.

Definition sample_assistant : Message :=
  createLoadingAssistantMessage (js "k") (js "v") (num_of_Z 5).

Lemma completeAssistantMessage_final_witness :
  status (completeAssistantMessage sample_assistant (num_of_Z 7) (num_of_Z 8) (num_of_Z 9))
  = Some Complete.
Proof. apply (completeAssistantMessage_final sample_assistant). reflexivity. Defined.

(** ** Streaming *)

Lemma processStreamingContent_spec m chunk now :
  let m' := processStreamingContent m chunk now in
  key m' = key m /\ from m' = from m /\ status m' = status m /\
  createdAt m' = createdAt m /\ startedAt m' = startedAt m /\
  versions m' = [mkVersion (v_id (getCurrentVersion m)) (getMessageContent m ++ chunk)].
Proof. cbv zeta. unfold processStreamingContent. by destruct (_ && _). Qed.

Lemma applyStreamingChunk_error m ty c n1 n2 :
  status m = Some Error -> applyStreamingChunk m ty c n1 n2 = m.
Proof. intros H. unfold applyStreamingChunk. by rewrite bool_decide_true. Qed.

Lemma applyStreamingChunk_frame m ty chunk n1 n2 :
  status m <> Some Error ->
  let m' := applyStreamingChunk m ty chunk n1 n2 in
  status m' = Some Streaming /\ key m' = key m /\ from m' = from m /\
  createdAt m' = createdAt m /\ startedAt m' = startedAt m.
Proof.
  intros Hs. cbv zeta. unfold applyStreamingChunk. rewrite bool_decide_false by done.
  destruct ty; [done|].
  destruct (processStreamingContent_spec m (getAppendableChunk (getMessageContent m) chunk) n1)
    as (E1 & E2 & E3 & E4 & E5 & E6).
  destruct (flag _); [by split_and!|].
  destruct (completeReasoningTiming_frame
    (processStreamingContent m (getAppendableChunk (getMessageContent m) chunk) n1) n2)
    as (F1 & F2 & F3 & F4 & F5 & F6 & _ & _).
  cbn [set_status status key from createdAt startedAt]. split_and!; congruence.
Qed.

Lemma applyStreamingChunk_content m chunk n1 n2 :
  status m <> Some Error ->
  versions (applyStreamingChunk m ContentChunk chunk n1 n2)
  = [mkVersion (v_id (getCurrentVersion m))
       (getMessageContent m ++ getAppendableChunk (getMessageContent m) chunk)].
Proof.
  intros Hs. unfold applyStreamingChunk. rewrite bool_decide_false by done.
  destruct (processStreamingContent_spec m (getAppendableChunk (getMessageContent m) chunk) n1)
    as (_ & _ & _ & _ & _ & E6).
  destruct (flag _); [done|]. cbn [set_status versions].
  by destruct (completeReasoningTiming_frame
    (processStreamingContent m (getAppendableChunk (getMessageContent m) chunk) n1) n2)
    as (_ & _ & -> & _).
Qed.

Lemma applyStreamingChunk_from m ty chunk n1 n2 :
  from (applyStreamingChunk m ty chunk n1 n2) = from m.
Proof.
  destruct (decide (status m = Some Error)) as [E|E]; [by rewrite applyStreamingChunk_error|].
  by apply applyStreamingChunk_frame.
Qed.

(** Applying a chunk never touches a failed message; otherwise the message
    is streaming, keeps its key, role and times, a content chunk appends to the
    current version exactly the part the message does not start with, and a
    reasoning chunk does the same to the reasoning and leaves the text alone. *)
Theorem applyStreamingChunk_spec m ty chunk n1 n2 :
  let m' := applyStreamingChunk m ty chunk n1 n2 in
  (status m = Some Error -> m' = m) /\
  (status m <> Some Error ->
   status m' = Some Streaming /\ key m' = key m /\ from m' = from m /\
   createdAt m' = createdAt m /\ startedAt m' = startedAt m /\
   match ty with
   | ContentChunk =>
       versions m' = [mkVersion (v_id (getCurrentVersion m))
         (getMessageContent m ++ getAppendableChunk (getMessageContent m) chunk)]
   | ReasoningChunk =>
       versions m' = versions m /\ isReasoningStreaming m' = Some true /\
       exists r, reasoning m' = Some r /\
         r_content r = (let old := match reasoning m with Some r0 => r_content r0 | None => [] end in
                        old ++ getAppendableChunk old chunk)
   end).
Proof.
  cbv zeta. split; [apply applyStreamingChunk_error|]. intros Hs.
  destruct (applyStreamingChunk_frame m ty chunk n1 n2 Hs) as (E1 & E2 & E3 & E4 & E5).
  split_and!; try done. destruct ty; [|by apply applyStreamingChunk_content].
  unfold applyStreamingChunk. rewrite bool_decide_false by done.
  split_and!; try done. eexists. split; [done|]. unfold startReasoningTiming.
  by destruct (reasoning m).
Qed.

Lemma applyStreamingChunk_spec_witness :
  status (applyStreamingChunk sample_assistant ContentChunk (js "hi") (num_of_Z 7) (num_of_Z 8))
  = Some Streaming.
Proof. apply (applyStreamingChunk_spec sample_assistant ContentChunk (js "hi")). discriminate. Defined.

(** ** Repair of a stored conversation *)

Lemma last_pending_Some ms i :
  last_pending ms = Some i ->
  exists m, ms !! i = Some m /\ isPendingAssistantMessage m = true /\
  forall j m', i < j -> ms !! j = Some m' -> isPendingAssistantMessage m' = false.
Proof.
  revert i. induction ms as [|m ms IH]; intros i; simpl; [done|].
  destruct (last_pending ms) as [k|] eqn:E.
  - intros [= <-]. destruct (IH k eq_refl) as (m0 & H1 & H2 & H3). exists m0.
    split_and!; [done|done|]. intros [|j] m' Hj Hm'; [lia|]. apply (H3 j); [lia|done].
  - destruct (isPendingAssistantMessage m) eqn:Ep; [|done]. intros [= <-].
    exists m. split_and!; [done|done|]. intros [|j] m' Hj Hm'; [lia|]. simpl in Hm'.
    clear IH Ep Hj. revert j Hm'. induction ms as [|m1 ms IH]; intros j Hm'; [done|].
    simpl in E. destruct (last_pending ms); [done|].
    destruct (isPendingAssistantMessage m1) eqn:E1; [done|].
    destruct j as [|j]; [by injection Hm' as <-|by apply (IH eq_refl j)].
Qed.

Lemma last_pending_None ms m :
  last_pending ms = None -> m ∈ ms -> isPendingAssistantMessage m = false.
Proof.
  induction ms as [|m1 ms IH]; simpl; [set_solver|].
  destruct (last_pending ms); [done|]. destruct (isPendingAssistantMessage m1) eqn:E; [done|].
  intros _ [->|H]%elem_of_cons; [done|]. by apply IH.
Qed.

Lemma completeAssistantTiming_final m n :
  isAssistantMessageFinal (completeAssistantTiming m n) = isAssistantMessageFinal m.
Proof.
  unfold isAssistantMessageFinal.
  by destruct (completeAssistantTiming_frame m n) as (_ & _ & _ & -> & _).
Qed.

Lemma sanitize_one_final t m n1 n2 n3 :
  isAssistantMessageFinal (sanitize_one t m n1 n2 n3) = true /\
  key (sanitize_one t m n1 n2 n3) = key m /\ from (sanitize_one t m n1 n2 n3) = from m.
Proof.
  unfold sanitize_one. destruct (finalizeMessage_spec m None n1 n2) as (Hk & Hf & _).
  destruct (_ || _); rewrite completeAssistantTiming_final;
    match goal with |- context [completeAssistantTiming ?x ?n] =>
      destruct (completeAssistantTiming_frame x n) as (-> & -> & _) end; by cbn.
Qed.

Lemma final_not_pending m : isAssistantMessageFinal m = true -> isPendingAssistantMessage m = false.
Proof.
  unfold isAssistantMessageFinal, isPendingAssistantMessage, isAssistantMessagePending.
  intros [H|H]%orb_prop; bool_prop; rewrite H; simpl; by rewrite andb_false_r.
Qed.

(** Loading repairs exactly one message, the last pending assistant one: it
    becomes final, no message from it on is pending, every other message
    (an earlier pending one included) is returned unchanged, and a conversation
    without pending messages is returned as the same array. *)
Theorem sanitizeMessagesOnLoad_spec t ms n1 n2 n3 :
  let '(ms', changed) := sanitizeMessagesOnLoad t ms n1 n2 n3 in
  length ms' = length ms /\
  match last_pending ms with
  | None => ms' = ms /\ changed = false /\
            forall m, m ∈ ms' -> isPendingAssistantMessage m = false
  | Some i =>
      changed = true /\
      (exists m m', ms !! i = Some m /\ isPendingAssistantMessage m = true /\
         ms' !! i = Some m' /\ isAssistantMessageFinal m' = true /\
         key m' = key m /\ from m' = from m) /\
      (forall j, j <> i -> ms' !! j = ms !! j) /\
      (forall j m', i <= j -> ms' !! j = Some m' -> isPendingAssistantMessage m' = false)
  end.
Proof.
  unfold sanitizeMessagesOnLoad. destruct (last_pending ms) as [i|] eqn:E.
  2: { split_and!; [done|done|done|]. intros m. by apply last_pending_None. }
  destruct (last_pending_Some ms i E) as (m & Hm & Hp & Hafter). rewrite Hm.
  destruct (sanitize_one_final t m n1 n2 n3) as (Hfin & Hk & Hf).
  pose proof (lookup_lt_Some _ _ _ Hm) as Hlt.
  split_and!; [by rewrite length_insert|done| | |].
  - exists m, (sanitize_one t m n1 n2 n3). split_and!; try done. by apply list_lookup_insert_eq.
  - intros j Hj. by apply list_lookup_insert_ne.
  - intros j m' Hj. destruct (decide (j = i)) as [->|].
    + rewrite list_lookup_insert_eq by done. intros [= <-]. by apply final_not_pending.
    + rewrite list_lookup_insert_ne by done. intros H. apply (Hafter j); [lia|done].
Qed.

(** ** Edits of a conversation *)

Lemma find_key_Some ms k i :
  find_key ms k = Some i ->
  exists m, ms !! i = Some m /\ key m = k /\ forall m', m' ∈ take i ms -> key m' <> k.
Proof.
  revert i. induction ms as [|m ms IH]; intros i; simpl; [done|]. case_decide as Hk.
  - intros [= <-]. exists m. split_and!; [done|done|]. set_solver.
  - destruct (find_key ms k) as [j|]; [|done]. intros [= <-].
    destruct (IH j eq_refl) as (m0 & H1 & H2 & H3). exists m0. split_and!; [done|done|].
    intros m' [->|H]%elem_of_cons; [done|]. by apply H3.
Qed.

Lemma find_key_None ms k : find_key ms k = None <-> forall m, m ∈ ms -> key m <> k.
Proof.
  induction ms as [|m ms IH]; simpl; [set_solver|]. case_decide as Hk.
  - split; [done|]. intros H. by destruct (H m (list_elem_of_here _ _)).
  - rewrite fmap_None, IH. set_solver.
Qed.

Lemma createLoading_pending k v n :
  isPendingAssistantMessage (createLoadingAssistantMessage k v n) = true.
Proof. done. Qed.

(** Regenerating from a message keeps the conversation up to the answered
    user message and appends one fresh pending assistant message; it is refused
    exactly when no message has the key. *)
Theorem createRegeneratedMessages_spec ms mk k v now :
  (createRegeneratedMessages ms mk k v now = None <-> forall m, m ∈ ms -> key m <> mk) /\
  (forall out, createRegeneratedMessages ms mk k v now = Some out ->
   exists kept m rest,
     ms = kept ++ m :: rest /\ key m = mk /\ (forall m', m' ∈ kept -> key m' <> mk) /\
     out = kept ++ (if decide (from m = User) then [m] else [])
           ++ [createLoadingAssistantMessage k v now]).
Proof.
  unfold createRegeneratedMessages. destruct (find_key ms mk) as [i|] eqn:E.
  - destruct (find_key_Some ms mk i E) as (m & Hm & Hk & Hb). rewrite Hm.
    pose proof (take_drop_middle ms i m Hm) as Hsplit. split.
    + split; [by case_bool_decide|]. intros H. destruct (H m); [|done].
      by eapply list_elem_of_lookup_2.
    + intros out Hout. exists (take i ms), m, (drop (S i) ms). split_and!; try done.
      case_bool_decide as Hu; injection Hout as <-.
      * rewrite decide_True by done. rewrite Nat.add_1_r, (take_S_r ms i m Hm), <- app_assoc. done.
      * by rewrite decide_False.
  - split; [|done]. split; [|done]. intros _. by apply find_key_None.
Qed.

Lemma edit_one_frame mk text b n m :
  key (edit_one mk text b n m) = key m /\ from (edit_one mk text b n m) = from m /\
  (key m <> mk -> edit_one mk text b n m = m) /\
  (key m = mk -> getMessageContent (edit_one mk text b n m) = text).
Proof. unfold edit_one. case_bool_decide; split_and!; done. Qed.

(** Editing replaces the text of the message with the key and no other;
    saving without submitting keeps the length of the conversation, submitting a
    user message cuts the conversation after it and appends a pending assistant
    message; nothing is sent in the first case and the result ends in a pending
    message in the second. *)
Theorem applyMessageEdit_spec ms mk text submit k v now out :
  applyMessageEdit ms mk text submit k v now = Some out ->
  exists i m, ms !! i = Some m /\ key m = mk /\
  (shouldSend out = true <-> submit = true /\ from m = User) /\
  (shouldSend out = false ->
     e_messages out = List.map (edit_one mk text submit now) ms) /\
  (shouldSend out = true ->
     e_messages out = List.map (edit_one mk text submit now) (take (i + 1) ms)
                      ++ [createLoadingAssistantMessage k v now]) /\
  (exists m', e_messages out !! i = Some m' /\ getMessageContent m' = text).
Proof.
  unfold applyMessageEdit. destruct (find_key ms mk) as [i|] eqn:E; [|done].
  destruct (find_key_Some ms mk i E) as (m & Hm & Hk & Hb).
  set (up := List.map (edit_one mk text submit now) ms).
  assert (Hup : up !! i = Some (edit_one mk text submit now m)).
  { unfold up. change (List.map ?f ?l) with (f <$> l). by rewrite list_lookup_fmap, Hm. }
  rewrite Hup. destruct (edit_one_frame mk text submit now m) as (_ & Hf & _ & Hc).
  intros Hout. exists i, m. split_and!; [done|done|..];
    destruct submit; simpl in Hout; rewrite ?Hf in Hout;
    try (case_bool_decide as Hu; simpl in Hout); injection Hout as <-; simpl;
    try done; try (intros; naive_solver).
  all: try (split; [naive_solver|naive_solver]).
  all: try (eexists; split; [exact Hup|by apply Hc]).
  - intros _. f_equal. unfold up. change (List.map ?f ?l) with (f <$> l). by rewrite fmap_take.
  - exists (edit_one mk text true now m). split; [|by apply Hc].
    rewrite lookup_app_l; [by rewrite lookup_take_lt by lia|].
    rewrite length_take. apply lookup_lt_Some in Hup. lia.
Qed.

Lemma applyMessageEdit_spec_witness :
  exists i m, [createUserMessage (js "u") (js "v") (js "old") (num_of_Z 1)] !! i = Some m /\
              key m = js "u".
Proof.
  destruct (applyMessageEdit_spec [createUserMessage (js "u") (js "v") (js "old") (num_of_Z 1)]
    (js "u") (js "new") true (js "k") (js "w") (num_of_Z 2) _ eq_refl) as (i & m & H1 & H2 & _).
  exists i, m. split; assumption.
Defined.
