(* ===== verification/PlaygroundStream.v ===== *)
(** * Streaming protocol and request payloads of the playground

    [lib/streaming/stream-utils.ts], [lib/streaming/request-error-utils.ts],
    [lib/streaming/payload-builder.ts], [lib/options/playground-option-utils.ts]
    and [lib/input/input-control-utils.ts]. *)

From S2P Require Import Prelude JsNumber JsValue PlaygroundMessage.

(** ** [stream-utils.ts] *)

Definition STREAM_DONE_MESSAGE := js "[DONE]".
Definition STREAM_CLOSED_READY_STATE : Z := 2.

Record StreamErrorDetails := mkDetails { d_errorCode : option value; d_errorMessage : value }.

(** [v || undefined] on values read from JSON. *)
Definition or_undefined (v : value) : option value := if truthy v then Some v else None.

Definition parseStreamErrorDetails (data : option jsstr) : StreamErrorDetails :=
  let fallback := VStr (str_or (default [] data) ERROR_MESSAGES.API_REQUEST_ERROR) in
  match data with
  | Some ((_ :: _) as d) =>
      match json_parse d with
      | Some parsed =>
          let err := get_prop parsed (js "error") in
          if negb (truthy err) then mkDetails None fallback
          else mkDetails (or_undefined (get_prop err (js "code")))
                 (value_or (get_prop err (js "message")) fallback)
      | None => mkDetails None fallback
      end
  | _ => mkDetails None fallback
  end.

Record StreamMessageUpdate := mkUpdate { u_type : StreamChunkType; u_chunk : value }.

(** [None] when [JSON.parse] or the access to [choices] of [null] throws. *)
Definition parseStreamMessageUpdates (data : jsstr) : option (list StreamMessageUpdate) :=
  match json_parse data with
  | None | Some VNull => None
  | Some chunk =>
      let delta := get_prop (get_index (get_prop chunk (js "choices")) 0) (js "delta") in
      if negb (truthy delta) then Some []
      else
        let r := get_prop delta (js "reasoning_content") in
        let c := get_prop delta (js "content") in
        Some ((if truthy r then [mkUpdate ReasoningChunk r] else [])
              ++ (if truthy c then [mkUpdate ContentChunk c] else []))
  end.

Definition isStreamDoneMessage (data : jsstr) : bool := bool_decide (data = STREAM_DONE_MESSAGE).

Definition isStreamClosedReadyState (readyState : option Z) : bool :=
  bool_decide (readyState = Some STREAM_CLOSED_READY_STATE).

(** Ready states and HTTP statuses are small integers. *)
Definition dec_of_Z (z : Z) : jsstr :=
  (if (z <? 0)%Z then js "-" else []) ++ dec_of_N (Z.abs_N z).

Definition getStreamReadyStateError (eventReadyState status : option Z) : option jsstr :=
  match eventReadyState, status with
  | Some rs, Some st =>
      if (STREAM_CLOSED_READY_STATE <=? rs)%Z && negb (st =? 200)%Z
      then Some (js "HTTP " ++ dec_of_Z st ++ js ": " ++ ERROR_MESSAGES.CONNECTION_CLOSED)
      else None
  | _, _ => None
  end.

(** ** [request-error-utils.ts]

    The error is any value that was thrown; its fields are read with [?.]. *)
Definition parseRequestErrorDetails (error : value) : StreamErrorDetails :=
  let data := get_prop (get_prop error (js "response")) (js "data") in
  mkDetails (or_undefined (get_prop (get_prop data (js "error")) (js "code")))
    (value_or (get_prop data (js "message"))
       (value_or (get_prop error (js "message")) (VStr ERROR_MESSAGES.API_REQUEST_ERROR))).

(** ** [payload-builder.ts] *)

Record PlaygroundConfig := mkConfig {
  model : jsstr; group : jsstr; temperature : number; top_p : number; max_tokens : number;
  frequency_penalty : number; presence_penalty : number; seed : option number; stream : bool }.

Record ParameterEnabled := mkEnabled {
  en_temperature : bool; en_top_p : bool; en_max_tokens : bool;
  en_frequency_penalty : bool; en_presence_penalty : bool; en_seed : bool }.

Record ChatCompletionRequest := mkRequest {
  q_model : jsstr; q_group : jsstr; q_messages : list ChatCompletionMessage; q_stream : bool;
  q_temperature : option number; q_top_p : option number; q_max_tokens : option number;
  q_frequency_penalty : option number; q_presence_penalty : option number;
  q_seed : option number }.

Definition when {A} (b : bool) (x : A) : option A := if b then Some x else None.

Definition buildChatCompletionPayload (ms : list Message) (config : PlaygroundConfig)
    (enabled : ParameterEnabled) : ChatCompletionRequest :=
  let processed := List.map formatMessageForAPI (List.filter isValidMessage ms) in
  mkRequest (model config) (group config) processed (stream config)
    (when (en_temperature enabled) (temperature config))
    (when (en_top_p enabled) (top_p config))
    (when (en_max_tokens enabled) (max_tokens config))
    (when (en_frequency_penalty enabled) (frequency_penalty config))
    (when (en_presence_penalty enabled) (presence_penalty config))
    (if en_seed enabled then seed config else None).

(** ** [constants.ts] *)

Definition DEFAULT_GROUP := js "default".
Definition DEFAULT_CONFIG : PlaygroundConfig :=
  mkConfig (js "gpt-4o") DEFAULT_GROUP (decimal_value false 7 (-1)) (num_of_Z 1) (num_of_Z 4096)
    (num_of_Z 0) (num_of_Z 0) None true.
Definition DEFAULT_PARAMETER_ENABLED : ParameterEnabled :=
  mkEnabled true true false true true false.

(** ** [playground-option-utils.ts] *)

Record ModelOption := mkModelOption { m_label : jsstr; m_value : jsstr }.
Record GroupOption := mkGroupOption {
  g_label : jsstr; g_value : jsstr; ratio : number; desc : option jsstr }.

Definition getModelFallback (models : list ModelOption) (currentModel : jsstr) : option jsstr :=
  if existsb (fun o => bool_decide (m_value o = currentModel)) models then None
  else match models with [] => None | o :: _ => Some (m_value o) end.

Definition shouldClearModelForGroup (models : list ModelOption) (currentModel : jsstr) : bool :=
  if negb (nonempty currentModel) then false
  else negb (existsb (fun o => bool_decide (m_value o = currentModel)) models).

Definition getGroupFallback (groups : list GroupOption) (currentGroup : jsstr) : option jsstr :=
  if existsb (fun g => bool_decide (g_value g = currentGroup)) groups then None
  else match groups with
       | [] => None
       | g0 :: _ =>
           Some (match List.find (fun g => bool_decide (g_value g = js "default")) groups with
                 | Some g => g_value g
                 | None => g_value g0
                 end)
       end.

(** ** [input-control-utils.ts] *)

Definition getSubmittableInputText (text : option jsstr) (disabled : bool) : option jsstr :=
  if disabled || negb (nonempty (trim (default [] text))) then None else text.

Record InputControlState := mkInputState {
  canSubmit : bool; isSelectorDisabled : bool; shouldShowStop : bool }.

Definition getInputControlState (disabled : bool) (groups : list GroupOption)
    (hasStopHandler isGenerating isModelLoading : bool) (models : list ModelOption)
    (text : jsstr) : InputControlState :=
  mkInputState (negb disabled && nonempty models && nonempty (trim text))
    (disabled || isModelLoading || negb (nonempty groups))
    (isGenerating && hasStopHandler).

(** ** Theorems *)

(** The messages the comment of the code would leave out and the code keeps:
    a valid message is one that has a version, and text when it is an answer. *)
Lemma isValidMessage_spec m :
  isValidMessage m = true <->
  versions m <> [] /\ (from m = Assistant -> trim (getMessageContent m) <> []).
Proof.
  unfold isValidMessage, hasMessageContent.
  destruct (versions m) as [|v vs]; [simpl; naive_solver|]. simpl.
  case_bool_decide as Ha; simpl; [|naive_solver].
  destruct (trim (getMessageContent m)); simpl; naive_solver.
Qed.

(** A streaming answer that has text, and an empty user message, are both sent. *)
Example streaming_answer_is_sent :
  isValidMessage (set_status Streaming
    (updateCurrentVersionContent
       (createLoadingAssistantMessage (js "k") (js "v") (num_of_Z 0)) (js "par"))) = true /\
  isValidMessage (createUserMessage (js "k") (js "v") [] (num_of_Z 0)) = true.
Proof. split; reflexivity. Qed.

(** The group fallback is empty exactly when the current group is offered
    or nothing is offered; otherwise it is an offered group, and it is
    ["default"] whenever that group is offered. *)
Theorem getGroupFallback_spec groups cur :
  (getGroupFallback groups cur = None <-> groups = [] \/ cur ∈ (g_value <$> groups)) /\
  (forall g, getGroupFallback groups cur = Some g ->
     g ∈ (g_value <$> groups) /\ (js "default" ∈ (g_value <$> groups) -> g = js "default")).
Proof.
  unfold getGroupFallback.
  assert (Hex : existsb (fun g => bool_decide (g_value g = cur)) groups = true
                <-> cur ∈ (g_value <$> groups)).
  { rewrite existsb_exists, list_elem_of_fmap. setoid_rewrite <- list_elem_of_In.
    setoid_rewrite bool_decide_eq_true. naive_solver. }
  destruct (existsb _ groups) eqn:E.
  - split; [|done]. naive_solver.
  - assert (Hn : cur ∉ (g_value <$> groups)) by (intros H%Hex; congruence).
    destruct groups as [|g0 gs]; [split; [naive_solver|done]|].
    set (groups := g0 :: gs) in *. split; [naive_solver|].
    intros g Hg. apply (inj Some) in Hg as <-.
    destruct (List.find (fun g => bool_decide (g_value g = js "default")) groups) as [g1|] eqn:Ef.
    + apply find_some in Ef as [Hin Hd%bool_decide_eq_true].
      split; [|intros _; exact Hd]. apply list_elem_of_fmap. exists g1.
      split; [done|by apply list_elem_of_In].
    + split; [by left|].
      intros (g2 & Heq & Hin)%list_elem_of_fmap.
      pose proof (find_none _ _ Ef g2 (proj1 (list_elem_of_In _ _) Hin)) as Hb.
      simpl in Hb. by rewrite bool_decide_true in Hb.
Qed.
