(* ===== verification/PlaygroundChat.v ===== *)
(** * The chat handler of the playground as a state machine

    [hooks/use-stream-request.ts] and [hooks/use-chat-handler.ts]: the refs and
    React states of the two hooks are one record, every callback is a function
    on it, and [step] runs the callback an external event triggers (a click, an
    SSE event, a timer, the answer of a request).  React applies the functional
    updates of [onMessageUpdate] in order, so they act at once here.

    [clk i] is the i-th reading of [Date.now()] while an event is handled. *)

From S2P Require Import Prelude JsNumber JsValue PlaygroundMessage PlaygroundStream.

Definition clock := nat -> number.

(** ** State *)

(** The refs and state of [useStreamRequest]; sources are numbered. *)
Record StreamReq := mkStreamReq {
  sseSource : option nat;
  sourcesMade : nat;
  closedSources : list nat;
  isStreamComplete : bool;
  isStreaming : bool }.

Record PendingStreamChunks := mkPending { p_content : jsstr; p_reasoningChunk : jsstr }.

(** The refs and state of [useChatHandler], with the messages it updates. *)
Record Chat := mkChat {
  messages : list Message;
  streamReq : StreamReq;
  pendingStreamChunks : PendingStreamChunks;
  streamFlushTimer : bool;
  isRequesting : bool;
  requestId : nat;
  abortController : option nat;
  abortedRequests : list nat;
  toasts : list jsstr;
  (** The payloads handed to the network. *)
  sentPayloads : list ChatCompletionRequest }.

Definition no_chunks := mkPending [] [].

Definition initial (ms : list Message) : Chat :=
  mkChat ms (mkStreamReq None 0 [] false false) no_chunks false false 0 None [] [] [].

Definition on_messages (f : list Message -> list Message) (c : Chat) : Chat :=
  mkChat (f (messages c)) (streamReq c) (pendingStreamChunks c) (streamFlushTimer c)
    (isRequesting c) (requestId c) (abortController c) (abortedRequests c) (toasts c) (sentPayloads c).
Definition on_stream (f : StreamReq -> StreamReq) (c : Chat) : Chat :=
  mkChat (messages c) (f (streamReq c)) (pendingStreamChunks c) (streamFlushTimer c)
    (isRequesting c) (requestId c) (abortController c) (abortedRequests c) (toasts c) (sentPayloads c).
Definition set_buffer (p : PendingStreamChunks) (timer : bool) (c : Chat) : Chat :=
  mkChat (messages c) (streamReq c) p timer
    (isRequesting c) (requestId c) (abortController c) (abortedRequests c) (toasts c) (sentPayloads c).
Definition set_requesting (b : bool) (c : Chat) : Chat :=
  mkChat (messages c) (streamReq c) (pendingStreamChunks c) (streamFlushTimer c)
    b (requestId c) (abortController c) (abortedRequests c) (toasts c) (sentPayloads c).
Definition set_request (id : nat) (ctl : option nat) (ab : list nat) (c : Chat) : Chat :=
  mkChat (messages c) (streamReq c) (pendingStreamChunks c) (streamFlushTimer c)
    (isRequesting c) id ctl ab (toasts c) (sentPayloads c).
Definition add_toast (s : jsstr) (c : Chat) : Chat :=
  mkChat (messages c) (streamReq c) (pendingStreamChunks c) (streamFlushTimer c)
    (isRequesting c) (requestId c) (abortController c) (abortedRequests c) (toasts c ++ [s]) (sentPayloads c).
Definition add_payload (q : ChatCompletionRequest) (c : Chat) : Chat :=
  mkChat (messages c) (streamReq c) (pendingStreamChunks c) (streamFlushTimer c)
    (isRequesting c) (requestId c) (abortController c) (abortedRequests c) (toasts c)
    (sentPayloads c ++ [q]).

(** ** [use-stream-request.ts] *)

Definition close_source (s : StreamReq) (i : option nat) : list nat :=
  match i with Some i => closedSources s ++ [i] | None => closedSources s end.

Definition closeActiveStream (source : option nat) (s : StreamReq) : StreamReq :=
  let streamSource := match source with Some _ => source | None => sseSource s end in
  let closed := close_source s streamSource in
  if bool_decide (source = None) || bool_decide (sseSource s = source)
  then mkStreamReq None (sourcesMade s) closed (isStreamComplete s) false
  else mkStreamReq (sseSource s) (sourcesMade s) closed (isStreamComplete s) (isStreaming s).

(** The part of [sendStreamRequest] before the listeners: close the previous
    source and make a new one, whose number is returned by [sourcesMade]. *)
Definition openStream (s : StreamReq) : StreamReq :=
  mkStreamReq (Some (sourcesMade s)) (S (sourcesMade s)) (close_source s (sseSource s)) false true.

Definition markComplete (s : StreamReq) : StreamReq :=
  mkStreamReq (sseSource s) (sourcesMade s) (closedSources s) true (isStreaming s).

(** ** [use-chat-handler.ts] *)

Definition mergePendingStreamChunk (currentChunk nextChunk : jsstr) : jsstr :=
  if negb (nonempty currentChunk) || negb (starts_with currentChunk nextChunk)
  then currentChunk ++ nextChunk else nextChunk.

Section Handler.
Context (t : jsstr -> jsstr).

Definition apply_pending (p : PendingStreamChunks) (clk : clock) (m : Message) : Message :=
  let m1 := if nonempty (p_reasoningChunk p)
            then applyStreamingChunk m ReasoningChunk (p_reasoningChunk p) (clk 0) (clk 1)
            else m in
  if nonempty (p_content p)
  then applyStreamingChunk m1 ContentChunk (p_content p) (clk 2) (clk 3) else m1.

Definition flushStreamUpdates (clk : clock) (c : Chat) : Chat :=
  let p := pendingStreamChunks c in
  if negb (nonempty (p_reasoningChunk p)) && negb (nonempty (p_content p))
  then set_buffer p false c
  else
    on_messages (fun prev => updateLastAssistantMessage prev (apply_pending p clk))
      (set_buffer no_chunks false c).

Definition scheduleStreamFlush (c : Chat) : Chat :=
  set_buffer (pendingStreamChunks c) true c.

Definition KNOWN_ERROR_MESSAGES : list jsstr :=
  [ERROR_MESSAGES.API_REQUEST_ERROR; ERROR_MESSAGES.NETWORK_ERROR; ERROR_MESSAGES.PARSE_ERROR;
   ERROR_MESSAGES.STREAM_START_ERROR; ERROR_MESSAGES.CONNECTION_CLOSED;
   ERROR_MESSAGES.INTERRUPTED].

Definition getDisplayError (error : jsstr) : jsstr :=
  if set_has KNOWN_ERROR_MESSAGES error then t error
  else if ends_with (js ": " ++ ERROR_MESSAGES.CONNECTION_CLOSED) error
  then take (length error - length ERROR_MESSAGES.CONNECTION_CLOSED) error
       ++ t ERROR_MESSAGES.CONNECTION_CLOSED
  else error.

Definition handleStreamUpdate (ty : StreamChunkType) (chunk : jsstr) (c : Chat) : Chat :=
  let p := pendingStreamChunks c in
  let p' := match ty with
            | ContentChunk =>
                mkPending (mergePendingStreamChunk (p_content p) chunk) (p_reasoningChunk p)
            | ReasoningChunk =>
                mkPending (p_content p) (mergePendingStreamChunk (p_reasoningChunk p) chunk)
            end in
  scheduleStreamFlush (set_buffer p' (streamFlushTimer c) c).

Definition complete_unless_final (clk : clock) (m : Message) : Message :=
  if isAssistantMessageFinal m then m
  else completeAssistantMessage m (clk 4) (clk 5) (clk 6).

Definition handleStreamComplete (clk : clock) (c : Chat) : Chat :=
  on_messages (fun prev => updateLastAssistantMessage prev (complete_unless_final clk))
    (set_requesting false (flushStreamUpdates clk c)).

Definition handleStreamError (error : jsstr) (code : option jsstr) (clk : clock) (c : Chat) : Chat :=
  let displayError := getDisplayError error in
  let errorTitle := t ERROR_MESSAGES.API_REQUEST_ERROR in
  on_messages (fun prev => updateAssistantMessageWithError prev displayError code errorTitle (clk 7))
    (add_toast displayError (set_requesting false (flushStreamUpdates clk c))).

(** The [handleError] closure of source [i]. *)
Definition handleError (i : nat) (error : jsstr) (code : option jsstr) (clk : clock) (c : Chat) : Chat :=
  if isStreamComplete (streamReq c) then c
  else on_stream (closeActiveStream (Some i)) (handleStreamError error code clk c).

(** The declared types say that chunks, messages and codes are strings; an
    answer of the server that breaks them has no transition. *)
Definition as_string (v : value) : option jsstr := match v with VStr s => Some s | _ => None end.

Fixpoint run_updates (us : list StreamMessageUpdate) (c : Chat) : option Chat :=
  match us with
  | [] => Some c
  | u :: us' =>
      match as_string (u_chunk u) with
      | Some s => run_updates us' (handleStreamUpdate (u_type u) s c)
      | None => None
      end
  end.

Definition on_sse_message (i : nat) (data : jsstr) (clk : clock) (c : Chat) : option Chat :=
  if isStreamDoneMessage data then
    Some (handleStreamComplete clk
            (on_stream (fun s => closeActiveStream (Some i) (markComplete s)) c))
  else match parseStreamMessageUpdates data with
       | Some us => run_updates us c
       | None => Some (handleError i ERROR_MESSAGES.PARSE_ERROR None clk c)
       end.

Definition typed_details (d : StreamErrorDetails) : option (jsstr * option jsstr) :=
  match as_string (d_errorMessage d), d_errorCode d with
  | Some msg, None => Some (msg, None)
  | Some msg, Some (VStr code) => Some (msg, Some code)
  | _, _ => None
  end.

Definition on_sse_error (i : nat) (readyState : option Z) (data : option jsstr) (clk : clock)
    (c : Chat) : option Chat :=
  if isStreamClosedReadyState readyState then Some c
  else match typed_details (parseStreamErrorDetails data) with
       | Some (msg, code) => Some (handleError i msg code clk c)
       | None => None
       end.

Definition on_readystatechange (i : nat) (eventReadyState status : option Z) (clk : clock)
    (c : Chat) : Chat :=
  match getStreamReadyStateError eventReadyState status with
  | Some ((_ :: _) as msg) => handleError i msg None clk c
  | _ => c
  end.

(** [sendStreamingChat]; [started] is false when [source.stream()] throws. *)
Definition sendStreamingChat (ms : list Message) (config : PlaygroundConfig)
    (parameterEnabled : ParameterEnabled) (started : bool) (clk : clock) (c : Chat) : Chat :=
  let payload := buildChatCompletionPayload ms config parameterEnabled in
  let c1 := add_payload payload (on_stream openStream (set_requesting true c)) in
  if started then c1
  else on_stream (closeActiveStream (Some (sourcesMade (streamReq c))))
         (handleStreamError ERROR_MESSAGES.STREAM_START_ERROR None clk c1).

(** [sendNonStreamingChat] up to the [await]. *)
Definition sendNonStreamingChat (ms : list Message) (config : PlaygroundConfig)
    (parameterEnabled : ParameterEnabled) (c : Chat) : Chat :=
  let payload := buildChatCompletionPayload ms config parameterEnabled in
  let id := S (requestId c) in
  add_payload payload (set_requesting true (set_request id (Some id) (abortedRequests c) c)).

Definition sendChat (ms : list Message) (config : PlaygroundConfig)
    (parameterEnabled : ParameterEnabled) (started : bool) (clk : clock) (c : Chat) : Chat :=
  if stream config then sendStreamingChat ms config parameterEnabled started clk c
  else sendNonStreamingChat ms config parameterEnabled c.

(** The [finally] block of request [id]. *)
Definition finish_request (id : nat) (c : Chat) : Chat :=
  if bool_decide (requestId c = id)
  then set_requesting false (set_request (requestId c) None (abortedRequests c) c)
  else c.

Definition on_response (id : nat) (r : ChatCompletionResponse) (clk : clock) (c : Chat) : Chat :=
  finish_request id
    (if bool_decide (id ∈ abortedRequests c) then c
     else if negb (hasChatCompletionChoice r)
     then handleStreamError ERROR_MESSAGES.API_REQUEST_ERROR None clk c
     else on_messages (fun prev => updateLastAssistantMessage prev (fun m =>
            default m (applyChatCompletionResponse m r (clk 4) (clk 5) (clk 6)))) c).

Definition on_request_error (id : nat) (error : value) (clk : clock) (c : Chat) : option Chat :=
  if bool_decide (id ∈ abortedRequests c) then Some (finish_request id c)
  else match typed_details (parseRequestErrorDetails error) with
       | Some (msg, code) => Some (finish_request id (handleStreamError msg code clk c))
       | None => None
       end.

Definition complete_if_pending (clk : clock) (m : Message) : Message :=
  if isAssistantMessagePending m then completeAssistantMessage m (clk 4) (clk 5) (clk 6) else m.

Definition stopGeneration (clk : clock) (c : Chat) : Chat :=
  let c1 := flushStreamUpdates clk (on_stream (closeActiveStream None) c) in
  let ab := match abortController c1 with
            | Some id => abortedRequests c1 ++ [id] | None => abortedRequests c1 end in
  on_messages (fun prev => updateLastAssistantMessage prev (complete_if_pending clk))
    (set_requesting false (set_request (requestId c1) None ab c1)).

Definition isGenerating (c : Chat) : bool := isStreaming (streamReq c) || isRequesting c.

(** ** Events *)

Inductive Event :=
| Send (ms : list Message) (config : PlaygroundConfig) (enabled : ParameterEnabled) (started : bool)
| SseMessage (i : nat) (data : jsstr)
| SseError (i : nat) (readyState : option Z) (data : option jsstr)
| ReadyStateChange (i : nat) (eventReadyState status : option Z)
| FlushTimer
| Response (id : nat) (r : ChatCompletionResponse)
| RequestError (id : nat) (error : value)
| Stop.

(** SSE events come from a source that was made; the timer fires when set. *)
Definition step (ev : Event) (clk : clock) (c : Chat) : option Chat :=
  let made i := (i <? sourcesMade (streamReq c)) in
  match ev with
  | Send ms config enabled started => Some (sendChat ms config enabled started clk c)
  | SseMessage i data => if made i then on_sse_message i data clk c else None
  | SseError i rs data => if made i then on_sse_error i rs data clk c else None
  | ReadyStateChange i rs st => if made i then Some (on_readystatechange i rs st clk c) else None
  | FlushTimer => if streamFlushTimer c then Some (flushStreamUpdates clk c) else None
  | Response id r => Some (on_response id r clk c)
  | RequestError id e => on_request_error id e clk c
  | Stop => Some (stopGeneration clk c)
  end.

(** States reached from a conversation by any sequence of events. *)
Inductive reachable (ms : list Message) : Chat -> Prop :=
| reach_init : reachable ms (initial ms)
| reach_step c c' ev clk : reachable ms c -> step ev clk c = Some c' -> reachable ms c'.
End Handler.
