(* ===== verification/PlaygroundChatFacts.v ===== *)
(** * Theorems on the chat handler

    The invariant of every reachable state, what completion, failure and stop
    leave behind, and what the two levels of chunk buffering do to a stream,
    whatever the interleaving of chunks and timer flushes. *)

From S2P Require Import Prelude JsNumber JsValue PlaygroundMessage.
From S2P Require Import PlaygroundMessageFacts PlaygroundStream PlaygroundChat.

(** ** Updates of the last message *)

(** Same length, and the same messages except perhaps the last. *)
Definition same_but_last (ms ms' : list Message) : Prop :=
  length ms' = length ms /\ forall j, S j < length ms -> ms' !! j = ms !! j.

#[export] Instance same_but_last_preorder : PreOrder same_but_last.
Proof.
  split.
  - by intros ms.
  - intros a b c [H1 H2] [H3 H4]. split; [congruence|].
    intros j Hj. rewrite H4 by lia. by apply H2.
Qed.

Lemma updateLast_same ms f : same_but_last ms (updateLastAssistantMessage ms f).
Proof.
  unfold updateLastAssistantMessage. destruct (last ms); [|reflexivity].
  case_bool_decide; [|reflexivity]. split; [apply length_insert|].
  intros j Hj. apply list_lookup_insert_ne. lia.
Qed.
#[export] Hint Resolve updateLast_same : js.

Lemma updateLast_last ms f m :
  last ms = Some m ->
  last (updateLastAssistantMessage ms f) = Some (if decide (from m = Assistant) then f m else m).
Proof.
  intros Hl. unfold updateLastAssistantMessage. rewrite Hl.
  case_bool_decide as Ha; [rewrite decide_True by done|by rewrite decide_False].
  apply last_Some in Hl as [l ->]. rewrite last_lookup, length_insert.
  rewrite <- Nat.sub_1_r. apply list_lookup_insert_eq. rewrite length_app. simpl. lia.
Qed.

Lemma updateLast_None ms f : last ms = None -> updateLastAssistantMessage ms f = ms.
Proof. intros H. unfold updateLastAssistantMessage. by rewrite H. Qed.

(** The handlers only touch the last message. *)
Lemma on_messages_same f c :
  (forall ms, same_but_last ms (f ms)) -> same_but_last (messages c) (messages (on_messages f c)).
Proof. intros H. apply H. Qed.

Lemma flush_same clk c : same_but_last (messages c) (messages (flushStreamUpdates clk c)).
Proof. unfold flushStreamUpdates. destruct (_ && _); simpl; [reflexivity|apply updateLast_same]. Qed.

Lemma handleStreamError_same t e code clk c :
  same_but_last (messages c) (messages (handleStreamError t e code clk c)).
Proof.
  unfold handleStreamError. simpl. etransitivity; [apply (flush_same clk)|apply updateLast_same].
Qed.

Lemma handleError_same t i e code clk c :
  same_but_last (messages c) (messages (handleError t i e code clk c)).
Proof.
  unfold handleError. destruct (isStreamComplete _); [reflexivity|]. apply handleStreamError_same.
Qed.

Lemma run_updates_messages us c c' : run_updates us c = Some c' -> messages c' = messages c /\ streamReq c' = streamReq c.
Proof.
  revert c. induction us as [|u us IH]; intros c; simpl; [by intros [= <-]|].
  destruct (as_string (u_chunk u)) as [s|]; [|done]. intros H. apply IH in H as [-> ->].
  by destruct (u_type u).
Qed.

Lemma finish_request_messages id c : messages (finish_request id c) = messages c.
Proof. unfold finish_request. by case_bool_decide. Qed.

Lemma step_same t ev clk c c' :
  step t ev clk c = Some c' -> same_but_last (messages c) (messages c').
Proof.
  destruct ev as [ms cfg en started|i d|i rs d|i rs st| |id r|id e|]; simpl.
  - intros [= <-]. unfold sendChat, sendStreamingChat. destruct (stream cfg); [|done].
    destruct started; [done|]. exact (handleStreamError_same t _ _ clk (add_payload
      (buildChatCompletionPayload ms cfg en) (on_stream openStream (set_requesting true c)))).
  - destruct (_ <? _); [|done]. unfold on_sse_message. destruct (isStreamDoneMessage d).
    + intros [= <-]. simpl. etransitivity; [|apply updateLast_same].
      apply (flush_same clk (on_stream _ c)).
    + destruct (parseStreamMessageUpdates d); [|intros [= <-]; apply handleError_same].
      by intros [-> _]%run_updates_messages.
  - destruct (_ <? _); [|done]. unfold on_sse_error. destruct (isStreamClosedReadyState rs); [by intros [= <-]|].
    destruct (typed_details _) as [[msg code]|]; [|done]. intros [= <-]. apply handleError_same.
  - destruct (_ <? _); [|done]. intros [= <-]. unfold on_readystatechange.
    destruct (getStreamReadyStateError rs st) as [[|x l]|]; [reflexivity|apply handleError_same|reflexivity].
  - destruct (streamFlushTimer c); [|done]. intros [= <-]. apply flush_same.
  - intros [= <-]. unfold on_response. rewrite finish_request_messages.
    case_bool_decide; [reflexivity|]. destruct (negb _); [apply handleStreamError_same|].
    apply updateLast_same.
  - unfold on_request_error. case_bool_decide; [intros [= <-]; by rewrite finish_request_messages|].
    destruct (typed_details _) as [[msg code]|]; [|done]. intros [= <-].
    rewrite finish_request_messages. apply handleStreamError_same.
  - intros [= <-]. unfold stopGeneration. simpl. etransitivity; [|apply updateLast_same].
    apply (flush_same clk (on_stream _ c)).
Qed.

(** ** The invariant of reachable states *)

(** Of [useStreamRequest]: the [isStreaming] state says whether a source is
    active, and the active source was never closed. *)
Record stream_inv (s : StreamReq) : Prop := {
  si_streaming : isStreaming s = true <-> is_Some (sseSource s);
  si_made : forall i, sseSource s = Some i -> i < sourcesMade s /\ i ∉ closedSources s;
  si_closed : forall i, i ∈ closedSources s -> i < sourcesMade s }.

(** Of [useChatHandler]: buffered chunks always have a flush scheduled, and the
    abort controller is the one of the latest request, not aborted yet. *)
Record chat_inv (c : Chat) : Prop := {
  ci_stream : stream_inv (streamReq c);
  ci_buffer : streamFlushTimer c = false -> pendingStreamChunks c = no_chunks;
  ci_abort : forall id, abortController c = Some id -> id = requestId c;
  ci_aborted : forall id, id ∈ abortedRequests c -> id <= requestId c }.

Lemma closeActive_inv s o :
  stream_inv s -> (forall i, o = Some i -> i < sourcesMade s) -> stream_inv (closeActiveStream o s).
Proof.
  intros [H1 H2 H3] Ho. unfold closeActiveStream.
  assert (Hcl : forall j i, j ∈ close_source s (match o with Some _ => o | None => sseSource s end) ->
                 i = j -> i < sourcesMade s).
  { intros j i Hj ->. unfold close_source in Hj. destruct o as [k|].
    - apply elem_of_app in Hj as [Hj|Hj%list_elem_of_singleton]; [by apply H3|subst; by apply Ho].
    - destruct (sseSource s) as [k|] eqn:E; [|by apply H3].
      apply elem_of_app in Hj as [Hj|Hj%list_elem_of_singleton]; [by apply H3|subst; by apply H2]. }
  destruct (_ || _) eqn:Eg; split; simpl.
  - split; [done|]. by intros [? ?].
  - done.
  - eauto.
  - done.
  - intros i Hi. split; [by apply H2|]. destruct (H2 i Hi) as [_ Hn].
    unfold close_source. destruct o as [k|]; [|done].
    apply orb_false_elim in Eg as [_ Eg]. apply bool_decide_eq_false in Eg.
    rewrite elem_of_app, list_elem_of_singleton. intros [?|?]; [done|congruence].
  - eauto.
Qed.

Lemma openStream_inv s : stream_inv s -> stream_inv (openStream s).
Proof.
  intros [H1 H2 H3].
  assert (Hcl : forall i, i ∈ close_source s (sseSource s) -> i < sourcesMade s).
  { intros i. unfold close_source. destruct (sseSource s) as [k|]; [|apply H3].
    rewrite elem_of_app, list_elem_of_singleton. intros [?| ->]; [by apply H3|by apply H2]. }
  split; simpl; [split; [by eexists|done]| |].
  - intros i [= <-]. split; [lia|]. intros H%Hcl. lia.
  - intros i H%Hcl. lia.
Qed.

Lemma markComplete_inv s : stream_inv s -> stream_inv (markComplete s).
Proof. by intros [H1 H2 H3]. Qed.

(** Flushing empties the buffer, stops the timer and keeps the rest. *)
Lemma flush_fields clk c :
  let c' := flushStreamUpdates clk c in
  streamReq c' = streamReq c /\ isRequesting c' = isRequesting c /\ requestId c' = requestId c /\
  abortController c' = abortController c /\ abortedRequests c' = abortedRequests c /\
  toasts c' = toasts c /\ streamFlushTimer c' = false /\ pendingStreamChunks c' = no_chunks.
Proof.
  cbv zeta. unfold flushStreamUpdates.
  destruct (pendingStreamChunks c) as [[|x p] [|y q]]; simpl; split_and!; done.
Qed.

Lemma flush_inv clk c : chat_inv c -> chat_inv (flushStreamUpdates clk c).
Proof.
  intros [H1 H2 H3 H4]. destruct (flush_fields clk c) as (E1 & E2 & E3 & E4 & E5 & E6 & E7 & E8).
  split; rewrite ?E1, ?E3, ?E4, ?E5, ?E8; done.
Qed.

Lemma handleStreamError_inv t e code clk c :
  chat_inv c -> chat_inv (handleStreamError t e code clk c).
Proof. intros H. destruct (flush_inv clk c H) as [H1 H2 H3 H4]. by split. Qed.

Lemma on_stream_inv f c : chat_inv c -> stream_inv (f (streamReq c)) -> chat_inv (on_stream f c).
Proof. by intros [H1 H2 H3 H4] Hf. Qed.

Lemma handleError_inv t i e code clk c :
  chat_inv c -> i < sourcesMade (streamReq c) -> chat_inv (handleError t i e code clk c).
Proof.
  intros H Hi. unfold handleError. destruct (isStreamComplete _); [done|].
  apply on_stream_inv; [by apply handleStreamError_inv|].
  destruct (flush_fields clk c) as (E & _). apply closeActive_inv.
  - simpl. rewrite E. apply H.
  - simpl. rewrite E. by intros ? [= <-].
Qed.

Lemma run_updates_inv us c c' : chat_inv c -> run_updates us c = Some c' -> chat_inv c'.
Proof.
  revert c. induction us as [|u us IH]; intros c Hc; simpl; [by intros [= <-]|].
  destruct (as_string (u_chunk u)) as [s|]; [|done]. apply IH.
  destruct Hc as [H1 H2 H3 H4]. by split.
Qed.

Lemma finish_request_inv id c : chat_inv c -> chat_inv (finish_request id c).
Proof. intros [H1 H2 H3 H4]. unfold finish_request. case_bool_decide; by split. Qed.

Lemma stop_inv clk c : chat_inv c -> chat_inv (stopGeneration clk c).
Proof.
  intros H. assert (H1 : chat_inv (flushStreamUpdates clk (on_stream (closeActiveStream None) c))).
  { apply flush_inv, on_stream_inv; [done|]. apply closeActive_inv; [apply H|done]. }
  unfold stopGeneration. set (c1 := flushStreamUpdates clk _) in *.
  destruct H1 as [G1 G2 G3 G4]. split; simpl; [done|done|done|].
  intros id Hid. destruct (abortController c1) as [k|] eqn:Ek; [|by apply G4].
  apply elem_of_app in Hid as [Hid| ->%list_elem_of_singleton]; [by apply G4|].
  rewrite (G3 k); done.
Qed.

Lemma add_payload_inv q c : chat_inv c -> chat_inv (add_payload q c).
Proof. intros [H1 H2 H3 H4]. by split. Qed.

Lemma sendChat_inv t ms cfg en started clk c :
  chat_inv c -> chat_inv (sendChat t ms cfg en started clk c).
Proof.
  intros H. unfold sendChat. destruct (stream cfg).
  - assert (H1 : forall q, chat_inv (add_payload q (on_stream openStream (set_requesting true c)))).
    { intros q. apply add_payload_inv, on_stream_inv; [by destruct H|apply openStream_inv, H]. }
    unfold sendStreamingChat. set (q := buildChatCompletionPayload ms cfg en).
    destruct started; [apply H1|].
    apply on_stream_inv; [by apply handleStreamError_inv|]. apply closeActive_inv; simpl;
      destruct (flush_fields clk (add_payload q (on_stream openStream (set_requesting true c)))) as (-> & _).
    + apply H1.
    + simpl. intros ? [= <-]. lia.
  - destruct H as [H1 H2 H3 H4]. split; simpl; [done|done|by intros ? [= <-]|].
    intros id' Hid%H4. lia.
Qed.

Lemma step_inv t ev clk c c' : chat_inv c -> step t ev clk c = Some c' -> chat_inv c'.
Proof.
  intros H. destruct ev as [ms cfg en st|i d|i rs d|i rs st| |id r|id e|]; simpl.
  - intros [= <-]. by apply sendChat_inv.
  - destruct (Nat.ltb_spec i (sourcesMade (streamReq c))); [|done].
    unfold on_sse_message. destruct (isStreamDoneMessage d).
    + intros [= <-]. unfold handleStreamComplete.
      assert (H1 : chat_inv (flushStreamUpdates clk
        (on_stream (fun s => closeActiveStream (Some i) (markComplete s)) c))).
      { apply flush_inv, on_stream_inv; [done|]. apply closeActive_inv.
        - apply markComplete_inv, H.
        - by intros ? [= <-]. }
      by destruct H1.
    + destruct (parseStreamMessageUpdates d); [by apply run_updates_inv|].
      intros [= <-]. by apply handleError_inv.
  - destruct (Nat.ltb_spec i (sourcesMade (streamReq c))); [|done].
    unfold on_sse_error. destruct (isStreamClosedReadyState rs); [by intros [= <-]|].
    destruct (typed_details _) as [[msg code]|]; [|done]. intros [= <-]. by apply handleError_inv.
  - destruct (Nat.ltb_spec i (sourcesMade (streamReq c))); [|done].
    intros [= <-]. unfold on_readystatechange.
    destruct (getStreamReadyStateError rs st) as [[|x l]|]; [done|by apply handleError_inv|done].
  - destruct (streamFlushTimer c); [|done]. intros [= <-]. by apply flush_inv.
  - intros [= <-]. unfold on_response. apply finish_request_inv.
    case_bool_decide; [done|]. destruct (negb _); [by apply handleStreamError_inv|by destruct H].
  - unfold on_request_error. case_bool_decide; [intros [= <-]; by apply finish_request_inv|].
    destruct (typed_details _) as [[msg code]|]; [|done]. intros [= <-].
    by apply finish_request_inv, handleStreamError_inv.
  - intros [= <-]. by apply stop_inv.
Qed.

Lemma initial_inv ms : chat_inv (initial ms).
Proof.
  split; simpl; [|done|done|set_solver].
  split; simpl; [split; [done|by intros [? ?]]|done|set_solver].
Qed.

(** C1: In every state reachable by clicks, SSE events, timers and answers in
    any order: buffered chunks have a flush scheduled, [isStreaming] holds
    exactly when a source is active, the active source was never closed, the
    abort controller belongs to the latest request, and the conversation has its
    length and all messages but the last unchanged. *)
Theorem reachable_invariant t ms c :
  reachable t ms c -> chat_inv c /\ same_but_last ms (messages c).
Proof.
  induction 1 as [|c c' ev clk Hr [IH1 IH2] Hs].
  - split; [apply initial_inv|reflexivity].
  - split; [by apply (step_inv t ev clk c)|]. etransitivity; [exact IH2|by eapply step_same].
Qed.

Definition demo_chat : list Message :=
  [createUserMessage (js "u") (js "v") (js "hello") (num_of_Z 1);
   createLoadingAssistantMessage (js "a") (js "w") (num_of_Z 1)].
Definition demo_clk : clock := fun i => num_of_Z (Z.of_nat i + 10).

Lemma reachable_invariant_witness :
  exists c, reachable id demo_chat c /\ isStreaming (streamReq c) = true /\ chat_inv c.
Proof.
  assert (H : reachable id demo_chat 
    (sendChat id demo_chat DEFAULT_CONFIG DEFAULT_PARAMETER_ENABLED true demo_clk (initial demo_chat))).
  { eapply (reach_step id demo_chat (initial demo_chat) _
      (Send demo_chat DEFAULT_CONFIG DEFAULT_PARAMETER_ENABLED true) demo_clk).
    - apply reach_init.
    - reflexivity. }
  eexists. split; [exact H|]. split; [reflexivity|].
  exact (proj1 (reachable_invariant id demo_chat _ H)).
Defined.

(** ** How a generation ends *)

Lemma closeActive_closed i s :
  closedSources (closeActiveStream (Some i) s) = closedSources s ++ [i].
Proof. unfold closeActiveStream. by destruct (_ || _). Qed.

Lemma closeActive_complete o s : isStreamComplete (closeActiveStream o s) = isStreamComplete s.
Proof. unfold closeActiveStream. by destruct (_ || _). Qed.

Lemma closeActive_own i s :
  sseSource s = Some i -> isStreaming (closeActiveStream (Some i) s) = false.
Proof. intros H. unfold closeActiveStream. rewrite H. by rewrite (bool_decide_true (Some i = Some i)), orb_true_r. Qed.

Lemma closeActive_other i s :
  sseSource s <> Some i -> sseSource (closeActiveStream (Some i) s) = sseSource s.
Proof. intros H. unfold closeActiveStream. by rewrite !bool_decide_false. Qed.

Lemma apply_pending_from p clk m : from (apply_pending p clk m) = from m.
Proof.
  unfold apply_pending.
  destruct (nonempty (p_reasoningChunk p)), (nonempty (p_content p));
    by rewrite ?applyStreamingChunk_from.
Qed.

Lemma apply_pending_error p clk m : status m = Some Error -> apply_pending p clk m = m.
Proof.
  intros H. unfold apply_pending.
  assert (E : (if nonempty (p_reasoningChunk p)
               then applyStreamingChunk m ReasoningChunk (p_reasoningChunk p) (clk 0) (clk 1)
               else m) = m).
  { destruct (nonempty _); [by apply applyStreamingChunk_error|done]. }
  rewrite E. destruct (nonempty (p_content p)); [by apply applyStreamingChunk_error|done].
Qed.

Lemma flush_last clk c m :
  last (messages c) = Some m ->
  exists m', last (messages (flushStreamUpdates clk c)) = Some m' /\ from m' = from m /\
    (status m = Some Error -> m' = m).
Proof.
  intros Hl. unfold flushStreamUpdates. destruct (_ && _); [by exists m|]. simpl.
  rewrite (updateLast_last _ _ _ Hl). eexists. split; [done|].
  destruct (decide (from m = Assistant)); [|done].
  split; [apply apply_pending_from|apply apply_pending_error].
Qed.

Lemma flush_last_None clk c : last (messages c) = None -> last (messages (flushStreamUpdates clk c)) = None.
Proof.
  intros Hl. unfold flushStreamUpdates. destruct (_ && _); [done|]. simpl. by rewrite updateLast_None.
Qed.

(** The last message of a conversation, when it is an assistant's. *)
Definition last_assistant (c : Chat) (P : Message -> Prop) : Prop :=
  forall m, last (messages c) = Some m -> from m = Assistant -> P m.

Lemma update_after_flush clk c f (P : Message -> Prop) :
  (forall m, from m = Assistant -> from (f m) = Assistant -> P (f m)) ->
  (forall m, from (f m) = from m) ->
  forall m, last (updateLastAssistantMessage (messages (flushStreamUpdates clk c)) f) = Some m ->
  from m = Assistant -> P m.
Proof.
  intros HP Hf m Hm Ha. destruct (last (messages (flushStreamUpdates clk c))) as [m0|] eqn:E.
  - rewrite (updateLast_last _ _ _ E) in Hm. injection Hm as <-.
    destruct (decide (from m0 = Assistant)); [by apply HP|done].
  - rewrite updateLast_None in Hm; congruence.
Qed.

Lemma complete_unless_final_ok clk m :
  isAssistantMessageFinal (complete_unless_final clk m) = true /\
  from (complete_unless_final clk m) = from m.
Proof.
  unfold complete_unless_final. destruct (isAssistantMessageFinal m) eqn:E; [done|].
  destruct (completeAssistantMessage_status m (clk 4) (clk 5) (clk 6)) as [H1 H2].
  split; [|done]. unfold isAssistantMessageFinal. by rewrite H1.
Qed.

Lemma complete_if_pending_ok clk m :
  isAssistantMessagePending (complete_if_pending clk m) = false /\
  from (complete_if_pending clk m) = from m.
Proof.
  unfold complete_if_pending. destruct (isAssistantMessagePending m) eqn:E; [|done].
  destruct (completeAssistantMessage_status m (clk 4) (clk 5) (clk 6)) as [H1 H2].
  split; [|done]. unfold isAssistantMessagePending. by rewrite H1.
Qed.

(** C12: The end marker of a stream closes its source, flushes the buffer and
    leaves the request finished: nothing is buffered, no flush is scheduled, the
    last assistant message is final, and from then on a late error of any source
    changes nothing. *)
Theorem stream_done_final t i clk c :
  exists c', on_sse_message t i STREAM_DONE_MESSAGE clk c = Some c' /\
    isRequesting c' = false /\ pendingStreamChunks c' = no_chunks /\
    streamFlushTimer c' = false /\ i ∈ closedSources (streamReq c') /\
    (sseSource (streamReq c) = Some i -> isGenerating c' = false) /\
    last_assistant c' (fun m => isAssistantMessageFinal m = true) /\
    (forall j msg code clk', handleError t j msg code clk' c' = c').
Proof.
  unfold on_sse_message. change (isStreamDoneMessage STREAM_DONE_MESSAGE) with true. cbv iota.
  eexists. split; [done|]. unfold handleStreamComplete.
  set (c0 := on_stream _ c).
  destruct (flush_fields clk c0) as (E1 & _ & _ & _ & _ & _ & E7 & E8).
  simpl. rewrite E7, E8, E1. split_and!; try done.
  - unfold c0. cbn [streamReq on_stream]. rewrite closeActive_closed. set_solver.
  - intros Hs. unfold isGenerating. cbn [streamReq on_messages set_requesting isRequesting].
    rewrite E1. unfold c0. cbn [streamReq on_stream]. by rewrite closeActive_own.
  - unfold last_assistant. simpl. apply update_after_flush; intros m; [intros _ _|]; apply complete_unless_final_ok.
  - intros j msg code clk'. unfold handleError. cbn [streamReq on_messages set_requesting].
    rewrite E1. unfold c0. cbn [streamReq on_stream]. by rewrite closeActive_complete.
Qed.

(** C13: Stopping a generation, streamed or not, in any state: nothing runs and
    nothing is buffered or scheduled afterwards, the last assistant message is no
    longer pending, the active source is closed and the request in flight is
    aborted, so its answer leaves the messages as they are. *)
Theorem stopGeneration_spec t clk c :
  let c' := stopGeneration clk c in
  isGenerating c' = false /\ pendingStreamChunks c' = no_chunks /\ streamFlushTimer c' = false /\
  sseSource (streamReq c') = None /\ abortController c' = None /\
  (forall i, sseSource (streamReq c) = Some i -> i ∈ closedSources (streamReq c')) /\
  last_assistant c' (fun m => isAssistantMessagePending m = false) /\
  (forall id, abortController c = Some id ->
     forall r clk', messages (on_response t id r clk' c') = messages c').
Proof.
  cbv zeta. unfold stopGeneration.
  destruct (flush_fields clk (on_stream (closeActiveStream None) c))
    as (E1 & _ & _ & E4 & E5 & _ & E7 & E8).
  split_and!; simpl.
  - unfold isGenerating. simpl. by rewrite E1.
  - done.
  - done.
  - by rewrite E1.
  - done.
  - rewrite E1. intros i Hi. unfold closeActiveStream. simpl. rewrite Hi. simpl. set_solver.
  - unfold last_assistant. simpl. apply update_after_flush; intros m; [intros _ _|]; apply complete_if_pending_ok.
  - intros id Hid r clk'. unfold on_response. rewrite finish_request_messages. simpl.
    rewrite E4, E5. simpl. rewrite Hid. rewrite bool_decide_true; [done|]. set_solver.
Qed.

(** A failure reported before the end marker: the request is finished, the
    buffered text is flushed first, the last assistant message gets the status
    [error] and the translated title and message as its only text, the user sees
    one notification, and only the failing source is deactivated. *)
Theorem handleError_spec t i e code clk c :
  isStreamComplete (streamReq c) = false ->
  let c' := handleError t i e code clk c in
  isRequesting c' = false /\ pendingStreamChunks c' = no_chunks /\ streamFlushTimer c' = false /\
  toasts c' = toasts c ++ [getDisplayError t e] /\
  (sseSource (streamReq c) = Some i -> isGenerating c' = false) /\
  (sseSource (streamReq c) <> Some i -> sseSource (streamReq c') = sseSource (streamReq c)) /\
  last_assistant c' (fun m =>
    status m = Some Error /\ isReasoningStreaming m = Some false /\
    getMessageContent m = t ERROR_MESSAGES.API_REQUEST_ERROR ++ js ": " ++ getDisplayError t e).
Proof.
  intros Hc. cbv zeta. unfold handleError. rewrite Hc.
  destruct (flush_fields clk c) as (E1 & _ & _ & _ & _ & E6 & E7 & E8).
  split_and!; simpl; rewrite ?E1, ?E6; try done.
  - intros Hs. unfold isGenerating, handleStreamError.
    cbn [streamReq on_stream on_messages add_toast set_requesting isRequesting].
    rewrite E1. by rewrite closeActive_own.
  - apply closeActive_other.
  - unfold last_assistant. simpl. unfold updateAssistantMessageWithError.
    set (mk := mark_error _ _ _ _).
    assert (Hfr : forall m, from (mk m) = from m /\ status (mk m) = Some Error /\
      isReasoningStreaming (mk m) = Some false /\
      getMessageContent (mk m) = t ERROR_MESSAGES.API_REQUEST_ERROR ++ js ": " ++ getDisplayError t e).
    { intros m. unfold mk, mark_error.
      match goal with |- context [completeAssistantTiming ?x ?n] =>
        destruct (completeAssistantTiming_frame x n) as (_ & G2 & G3 & G4 & _ & G6 & _) end.
      unfold getMessageContent, getCurrentVersion. by rewrite G2, G3, G4, G6. }
    apply update_after_flush; intros m; [intros _ _|]; apply (Hfr m).
Qed.

Lemma handleError_spec_witness :
  toasts (handleError id 0 ERROR_MESSAGES.PARSE_ERROR None demo_clk (initial demo_chat))
  = [ERROR_MESSAGES.PARSE_ERROR].
Proof.
  destruct (handleError_spec id 0 ERROR_MESSAGES.PARSE_ERROR None demo_clk (initial demo_chat))
    as (_ & _ & _ & H & _); [reflexivity|]. exact H.
Defined.

(** ** What becomes of the chunks of a stream

    Chunks are merged into a buffer, and the buffer is merged into the message
    when the timer fires: an interleaving is a list of chunks and flushes. *)

Inductive feed := Chunk (s : jsstr) | Flush.

Fixpoint chunks (l : list feed) : list jsstr :=
  match l with
  | [] => []
  | Chunk s :: l' => s :: chunks l'
  | Flush :: l' => chunks l'
  end.

Definition chat_feed (clk : clock) (c : Chat) (a : feed) : Chat :=
  match a with
  | Chunk s => handleStreamUpdate ContentChunk s c
  | Flush => flushStreamUpdates clk c
  end.

(** The abstract machine: the text shown and the text waiting. *)
Definition buffer := (jsstr * jsstr)%type.

Definition feed_step (b : buffer) (a : feed) : buffer :=
  match a with
  | Chunk s => (b.1, mergePendingStreamChunk b.2 s)
  | Flush => if nonempty b.2 then (b.1 ++ getAppendableChunk b.1 b.2, []) else b
  end.

(** The chat handler simulates it. *)
Definition shows (c : Chat) (b : buffer) : Prop :=
  exists m, last (messages c) = Some m /\ from m = Assistant /\ status m <> Some Error /\
    getMessageContent m = b.1 /\ p_content (pendingStreamChunks c) = b.2 /\
    p_reasoningChunk (pendingStreamChunks c) = [].

Lemma feed_simulation clk c b a : shows c b -> shows (chat_feed clk c a) (feed_step b a).
Proof.
  intros (m & Hl & Ha & Hs & Hc & Hp & Hr). destruct b as [sh wa]; simpl in *. destruct a as [s|].
  - exists m. simpl. rewrite Hp. by split_and!.
  - simpl. unfold flushStreamUpdates. rewrite Hr, Hp. destruct wa as [|x wa]; simpl.
    { exists m. simpl. by rewrite Hp, Hr. }
    exists (apply_pending (pendingStreamChunks c) clk m). simpl.
    rewrite (updateLast_last _ _ _ Hl), decide_True by done.
    unfold apply_pending. rewrite Hr, Hp. cbn [nonempty].
    destruct (applyStreamingChunk_frame m ContentChunk (x :: wa) (clk 2) (clk 3) Hs) as (E1 & _ & E3 & _).
    split_and!; try done; [congruence|congruence|].
    unfold getMessageContent at 1, getCurrentVersion. rewrite applyStreamingChunk_content by done.
    simpl. by rewrite Hc.
Qed.

Lemma feed_simulation_list clk l : forall c b,
  shows c b -> shows (fold_left (chat_feed clk) l c) (fold_left feed_step l b).
Proof. induction l as [|a l IH]; intros c b H; simpl; [done|]. by apply IH, feed_simulation. Qed.

(** Streams of snapshots: each chunk repeats the text so far and extends it. *)
Fixpoint growing (prev : jsstr) (l : list jsstr) : Prop :=
  match l with
  | [] => True
  | s :: l' => prev `prefix_of` s /\ s <> [] /\ growing s l'
  end.

Lemma starts_with_prefix p s : starts_with p s = true <-> p `prefix_of` s.
Proof. rewrite starts_with_spec. done. Qed.

Definition snap_inv (cur : jsstr) (b : buffer) : Prop :=
  (b.2 = [] /\ b.1 = cur) \/ (b.2 = cur /\ cur <> [] /\ b.1 `prefix_of` cur).

Lemma snap_step_chunk cur b s :
  snap_inv cur b -> cur `prefix_of` s -> s <> [] -> snap_inv s (feed_step b (Chunk s)).
Proof.
  destruct b as [sh wa]. unfold snap_inv. cbn [feed_step fst snd]. unfold mergePendingStreamChunk.
  intros [[-> ->]|(-> & Hc & Hp)] Hs Hn; right.
  - by split_and!.
  - rewrite (proj2 (starts_with_prefix cur s)) by done.
    destruct cur; [done|]. cbn [nonempty negb orb]. split_and!; [done|done|]. by etransitivity.
Qed.

Lemma snap_step_flush cur b : snap_inv cur b -> snap_inv cur (feed_step b Flush).
Proof.
  destruct b as [sh wa]. unfold snap_inv. simpl. intros [[-> ->]|(-> & Hc & Hp)]; [by left|].
  left. destruct cur as [|x cur]; [done|]. cbn [nonempty fst snd]. split; [done|].
  unfold getAppendableChunk. rewrite (proj2 (starts_with_prefix sh (x :: cur))) by done.
  destruct sh as [|y sh]; [done|]. cbn [nonempty negb orb].
  destruct Hp as [k ->]. by rewrite drop_app_length.
Qed.

Lemma last_default {A} (y : A) ys d d' : List.last (y :: ys) d = List.last (y :: ys) d'.
Proof. revert y. induction ys as [|z ys IH]; intros y; [done|]. apply (IH z). Qed.

Lemma snap_run l : forall cur b,
  snap_inv cur b -> growing cur (chunks l) ->
  snap_inv (List.last (chunks l) cur) (fold_left feed_step l b).
Proof.
  induction l as [|[s|] l IH]; intros cur b Hb Hg; [done|..]; cbn [chunks fold_left] in *.
  - destruct Hg as (H1 & H2 & H3). specialize (IH s _ (snap_step_chunk _ _ _ Hb H1 H2) H3).
    replace (List.last (s :: chunks l) cur) with (List.last (chunks l) s); [done|].
    destruct (chunks l) as [|y ys]; [done|]. exact (last_default y ys s cur).
  - apply IH; [by apply snap_step_flush|done].
Qed.

Lemma shows_fresh k v n c :
  last (messages c) = Some (createLoadingAssistantMessage k v n) ->
  pendingStreamChunks c = no_chunks -> shows c ([], []).
Proof. intros H1 H2. eexists. rewrite H2. by split_and!. Qed.

(** The text of the last message. *)
Definition last_text (c : Chat) : option jsstr := getMessageContent <$> last (messages c).

Lemma shows_text c sh wa : shows c (sh, wa) -> last_text c = Some sh.
Proof. intros (m & H & _ & _ & E & _). unfold last_text. rewrite H. simpl. by rewrite E. Qed.

(** For a server that streams snapshots (each chunk extends the previous
    one), the answer ends as the last snapshot, whatever the interleaving of
    chunks and timer flushes. *)
Theorem snapshot_stream_content clk k v n c l :
  last (messages c) = Some (createLoadingAssistantMessage k v n) ->
  pendingStreamChunks c = no_chunks ->
  growing [] (chunks l) ->
  last_text (fold_left (chat_feed clk) (l ++ [Flush]) c) = Some (List.last (chunks l) []).
Proof.
  intros H1 H2 Hg.
  pose proof (feed_simulation_list clk (l ++ [Flush]) c _ (shows_fresh k v n c H1 H2)) as Hs.
  rewrite (fold_left_app feed_step) in Hs. cbn [fold_left] in Hs.
  pose proof (snap_run l [] ([], []) (or_introl (conj eq_refl eq_refl)) Hg) as Hi.
  apply snap_step_flush in Hi. destruct (feed_step _ Flush) as [sh wa] eqn:E.
  assert (Hw : wa = []).
  { cbn [feed_step] in E. destruct (nonempty _) eqn:En; [congruence|].
    rewrite E in En. by destruct wa. }
  rewrite (shows_text _ _ _ Hs). f_equal.
  destruct Hi as [[_ Hsh]|(Hc & Hne & _)]; [done|]. simpl in Hc. congruence.
Qed.

Lemma snapshot_stream_content_witness :
  last_text (fold_left (chat_feed demo_clk)
    ([Chunk (js "He"); Flush; Chunk (js "Hello"); Chunk (js "Hello!")] ++ [Flush]) (initial demo_chat))
  = Some (js "Hello!").
Proof.
  apply (snapshot_stream_content demo_clk (js "a") (js "w") (num_of_Z 1) (initial demo_chat)
           [Chunk (js "He"); Flush; Chunk (js "Hello"); Chunk (js "Hello!")]).
  - reflexivity.
  - reflexivity.
  - simpl. split_and!; try done.
    + apply prefix_nil.
    + eexists. reflexivity.
    + eexists. reflexivity.
Defined.

(** Streams of deltas: no run of chunks starts with the text of the run just
    before it. *)
Definition independent (l : list jsstr) : Prop :=
  forall a b c d, l = a ++ b ++ c ++ d -> concat b <> [] -> starts_with (concat b) (concat c) = false.

Lemma merge_fresh w s :
  (w <> [] -> starts_with w s = false) -> mergePendingStreamChunk w s = w ++ s.
Proof. intros H. unfold mergePendingStreamChunk. destruct w; [done|]. by rewrite H. Qed.

Lemma append_fresh w s :
  (w <> [] -> starts_with w s = false) -> getAppendableChunk w s = s.
Proof. intros H. unfold getAppendableChunk. destruct w; [done|]. by rewrite H. Qed.

Lemma delta_run l : forall done_ b rest,
  independent (done_ ++ chunks l ++ rest) ->
  (exists x y, done_ = x ++ y /\ b.1 = concat x /\ b.2 = concat y) ->
  exists x y, done_ ++ chunks l = x ++ y /\
    (fold_left feed_step l b).1 = concat x /\ (fold_left feed_step l b).2 = concat y.
Proof.
  induction l as [|[s|] l IH]; intros done_ [sh wa] rest Hi (x & y & -> & Hx & Hy);
    cbn [chunks fold_left fst snd] in *; subst.
  - exists x, y. by rewrite app_nil_r.
  - replace ((x ++ y) ++ s :: chunks l) with ((x ++ y ++ [s]) ++ chunks l)
      by (by rewrite <- !app_assoc).
    apply (IH _ _ rest).
    { by rewrite <- !app_assoc in *. }
    exists x, (y ++ [s]). split_and!; [done|done|]. simpl. rewrite merge_fresh.
    + rewrite concat_app. simpl. by rewrite app_nil_r.
    + intros Hne. pose proof (Hi x y [s] (chunks l ++ rest)) as H.
      simpl in H. rewrite app_nil_r in H. apply H; [by rewrite <- !app_assoc|done].
  - apply (IH _ _ rest Hi). simpl. destruct (nonempty (concat y)) eqn:En.
    + exists (x ++ y), []. split_and!; [by rewrite app_nil_r| |done]. simpl.
      rewrite append_fresh, concat_app; [done|]. intros Hne.
      apply (Hi [] x y (chunks l ++ rest)); [by rewrite <- !app_assoc|done].
    + exists x, y. by split_and!.
Qed.

(** C28: For a server that streams deltas whose runs never start with the run
    before, the answer ends as the concatenation of all chunks, whatever the
    interleaving of chunks and timer flushes. *)
Theorem delta_stream_content clk k v n c l :
  last (messages c) = Some (createLoadingAssistantMessage k v n) ->
  pendingStreamChunks c = no_chunks ->
  independent (chunks l) ->
  last_text (fold_left (chat_feed clk) (l ++ [Flush]) c) = Some (concat (chunks l)).
Proof.
  intros H1 H2 Hi.
  pose proof (feed_simulation_list clk (l ++ [Flush]) c _ (shows_fresh k v n c H1 H2)) as Hs.
  assert (Hch : chunks (l ++ [Flush]) = chunks l).
  { clear. induction l as [|[s|] l IH]; simpl; congruence. }
  destruct (delta_run (l ++ [Flush]) [] ([], []) []) as (x & y & E & Ex & Ey).
  { by rewrite app_nil_l, app_nil_r, Hch. }
  { by exists [], []. }
  rewrite Hch in E. simpl in E.
  assert (Hw : (fold_left feed_step (l ++ [Flush]) ([], [])).2 = []).
  { rewrite fold_left_app. cbn [fold_left feed_step]. destruct (nonempty _) eqn:En; [done|].
    by destruct (fold_left feed_step l _).2. }
  destruct (fold_left feed_step (l ++ [Flush]) ([], [])) as [sh wa]. cbn [fst snd] in *.
  rewrite (shows_text _ _ _ Hs). by rewrite E, concat_app, <- Ex, <- Ey, Hw, app_nil_r.
Qed.

Lemma delta_stream_content_witness :
  last_text (fold_left (chat_feed demo_clk)
    ([Chunk (js "He"); Flush; Chunk (js "llo")] ++ [Flush]) (initial demo_chat)) = Some (js "Hello").
Proof.
  apply (delta_stream_content demo_clk (js "a") (js "w") (num_of_Z 1) (initial demo_chat)
           [Chunk (js "He"); Flush; Chunk (js "llo")]).
  - reflexivity.
  - reflexivity.
  - intros a b c d E Hb. simpl chunks in E.
    destruct a as [|? [|? [|? ?]]], b as [|? [|? [|? ?]]], c as [|? [|? [|? ?]]];
      simplify_list_eq; try done; by destruct d.
Defined.

(** A delta stream that repeats its first chunk loses the repetition: two
    equal chunks leave the text of one, flushed together or one after the other. *)
Theorem repeated_chunk_lost clk k v n c s :
  last (messages c) = Some (createLoadingAssistantMessage k v n) ->
  pendingStreamChunks c = no_chunks ->
  last_text (fold_left (chat_feed clk) [Chunk s; Chunk s; Flush] c) = Some s /\
  last_text (fold_left (chat_feed clk) [Chunk s; Flush; Chunk s; Flush] c) = Some s.
Proof.
  intros H1 H2.
  assert (Hrun : forall l, fold_left feed_step l ([], []) = (s, []) ->
                 last_text (fold_left (chat_feed clk) l c) = Some s).
  { intros l Hl. apply (shows_text _ s []). rewrite <- Hl.
    by apply feed_simulation_list, (shows_fresh k v n). }
  assert (Hp : starts_with s s = true) by (apply starts_with_prefix; reflexivity).
  split; apply Hrun; cbn [fold_left feed_step fst snd]; unfold mergePendingStreamChunk, getAppendableChunk.
  - destruct s as [|x s]; [done|]. cbn [nonempty negb orb app fst snd]. by rewrite Hp.
  - destruct s as [|x s]; [done|]. cbn [nonempty negb orb app fst snd].
    rewrite Hp. cbn [nonempty negb orb fst snd].
    by rewrite drop_all, app_nil_r.
Qed.

Lemma repeated_chunk_lost_witness :
  last_text (fold_left (chat_feed demo_clk) [Chunk (js "ha"); Chunk (js "ha"); Flush] (initial demo_chat))
  = Some (js "ha").
Proof.
  apply (repeated_chunk_lost demo_clk (js "a") (js "w") (num_of_Z 1) (initial demo_chat) (js "ha"));
    reflexivity.
Defined.
