(* ===== verification/PlaygroundStorage.v ===== *)
(** * The playground's local storage
      ([lib/storage/storage.ts], [lib/storage/storage-schema.ts],
       [lib/state/playground-state-utils.ts], [hooks/use-playground-state.ts])

    The browser's [localStorage] is a finite map from keys to strings, with a
    predicate [fits] that says when [setItem] does not throw
    [QuotaExceededError].  Zod is a library: its [parse] is the operation of
    the class [Zod]; the schemas themselves are data. *)

From S2P Require Import Prelude JsNumber JsValue JsRegex ZodCodec PlaygroundMessage PlaygroundStream.

(** ** Schemas ([storage-schema.ts]) *)

Definition STORAGE_VERSION := num_of_Z 1.
Definition MAX_STORED_MESSAGES : nat := 100.
Definition MAX_STORED_MESSAGES_BYTES : Z := 1024 * 1024.
Definition MAX_LOADED_MESSAGES_CHARS : Z := 120000.
Definition MAX_LOADED_MESSAGE_CHARS : Z := 40000.

Definition playgroundConfigSchema := SObject [
  (js "model", SOptional SString);
  (js "group", SOptional SString);
  (js "temperature", SOptional SNumber);
  (js "top_p", SOptional SNumber);
  (js "max_tokens", SOptional SNumber);
  (js "frequency_penalty", SOptional SNumber);
  (js "presence_penalty", SOptional SNumber);
  (js "seed", SOptional (SNullable SNumber));
  (js "stream", SOptional SBoolean)].

Definition parameterEnabledSchema := SObject [
  (js "temperature", SOptional SBoolean);
  (js "top_p", SOptional SBoolean);
  (js "max_tokens", SOptional SBoolean);
  (js "frequency_penalty", SOptional SBoolean);
  (js "presence_penalty", SOptional SBoolean);
  (js "seed", SOptional SBoolean)].

Definition messageRoleSchema := SEnum [js "user"; js "assistant"; js "system"].
Definition messageStatusSchema :=
  SEnum [js "loading"; js "streaming"; js "complete"; js "error"].
Definition messageVersionSchema := SObject [(js "id", SString); (js "content", SString)].
Definition sourceSchema := SObject [(js "href", SString); (js "title", SString)].
Definition reasoningSchema := SObject [
  (js "content", SString);
  (js "duration", SNumber);
  (js "startedAt", SOptional SNumber);
  (js "completedAt", SOptional SNumber);
  (js "durationMs", SOptional SNumber)].
Definition messageSchema := SObject [
  (js "key", SString);
  (js "from", messageRoleSchema);
  (js "versions", SArray 1 messageVersionSchema);
  (js "createdAt", SOptional SNumber);
  (js "startedAt", SOptional SNumber);
  (js "completedAt", SOptional SNumber);
  (js "durationMs", SOptional SNumber);
  (js "sources", SOptional (SArray 0 sourceSchema));
  (js "reasoning", SOptional reasoningSchema);
  (js "isReasoningStreaming", SOptional SBoolean);
  (js "isReasoningComplete", SOptional SBoolean);
  (js "isContentComplete", SOptional SBoolean);
  (js "status", SOptional messageStatusSchema);
  (js "errorCode", SOptional (SNullable SString))].
Definition messagesSchema := SArray 0 messageSchema.


(** ** The layout of the stored types ([types.ts]) *)

Definition role_names : list (jsstr * MessageRole) :=
  [(js "user", User); (js "assistant", Assistant); (js "system", System)].
Definition role_name (r : MessageRole) : jsstr :=
  match r with User => js "user" | Assistant => js "assistant" | System => js "system" end.
Definition status_names : list (jsstr * MessageStatus) :=
  [(js "loading", Loading); (js "streaming", Streaming); (js "complete", Complete);
   (js "error", Error)].
Definition status_name (s : MessageStatus) : jsstr :=
  match s with
  | Loading => js "loading" | Streaming => js "streaming"
  | Complete => js "complete" | Error => js "error"
  end.

Definition c_version : codec MessageVersion :=
  c_obj (f_cons (js "id") c_str (f_cons (js "content") c_str f_nil))
    (fun v => (v_id v, (v_content v, tt))) (fun x => let '(a, (b, _)) := x in mkVersion a b).
Definition c_source : codec Source :=
  c_obj (f_cons (js "href") c_str (f_cons (js "title") c_str f_nil))
    (fun s => (href s, (title s, tt))) (fun x => let '(a, (b, _)) := x in mkSource a b).
Definition c_reasoning : codec Reasoning :=
  c_obj
    (f_cons (js "content") c_str (f_cons (js "duration") c_num
    (f_cons (js "startedAt") (c_opt c_num) (f_cons (js "completedAt") (c_opt c_num)
    (f_cons (js "durationMs") (c_opt c_num) f_nil)))))
    (fun r => (r_content r, (r_duration r, (r_startedAt r, (r_completedAt r, (r_durationMs r, tt))))))
    (fun x => let '(a, (b, (c, (d, (e, _))))) := x in mkReasoning a b c d e).
Definition c_message : codec Message :=
  c_obj
    (f_cons (js "key") c_str (f_cons (js "from") (c_enum role_names role_name)
    (f_cons (js "versions") (c_arr c_version) (f_cons (js "createdAt") (c_opt c_num)
    (f_cons (js "startedAt") (c_opt c_num) (f_cons (js "completedAt") (c_opt c_num)
    (f_cons (js "durationMs") (c_opt c_num) (f_cons (js "sources") (c_opt (c_arr c_source))
    (f_cons (js "reasoning") (c_opt c_reasoning)
    (f_cons (js "isReasoningStreaming") (c_opt c_bool)
    (f_cons (js "isReasoningComplete") (c_opt c_bool)
    (f_cons (js "isContentComplete") (c_opt c_bool)
    (f_cons (js "status") (c_opt (c_enum status_names status_name))
    (f_cons (js "errorCode") (c_opt (c_nullable c_str)) f_nil))))))))))))))
    (fun m => (key m, (from m, (versions m, (createdAt m, (startedAt m, (completedAt m,
       (durationMs m, (sources m, (reasoning m, (isReasoningStreaming m, (isReasoningComplete m,
       (isContentComplete m, (status m, (errorCode m, tt)))))))))))))))
    (fun x => let '(a, (b, (c, (d, (e, (f, (g, (h, (i, (j, (k, (l, (m, (n, _)))))))))))))) := x in
       mkMessage a b c d e f g h i j k l m n).
Definition c_messages : codec (list Message) := c_arr c_message.

(** [Partial<PlaygroundConfig>] and [Partial<ParameterEnabled>]. *)
Record PartialConfig := mkPartialConfig {
  pc_model : option jsstr; pc_group : option jsstr; pc_temperature : option number;
  pc_top_p : option number; pc_max_tokens : option number; pc_frequency_penalty : option number;
  pc_presence_penalty : option number; pc_seed : option (option number);
  pc_stream : option bool }.
Record PartialEnabled := mkPartialEnabled {
  pe_temperature : option bool; pe_top_p : option bool; pe_max_tokens : option bool;
  pe_frequency_penalty : option bool; pe_presence_penalty : option bool;
  pe_seed : option bool }.
Definition no_config := mkPartialConfig None None None None None None None None None.
Definition no_enabled := mkPartialEnabled None None None None None None.

Definition c_config : codec PartialConfig :=
  c_obj
    (f_cons (js "model") (c_opt c_str) (f_cons (js "group") (c_opt c_str)
    (f_cons (js "temperature") (c_opt c_num) (f_cons (js "top_p") (c_opt c_num)
    (f_cons (js "max_tokens") (c_opt c_num) (f_cons (js "frequency_penalty") (c_opt c_num)
    (f_cons (js "presence_penalty") (c_opt c_num)
    (f_cons (js "seed") (c_opt (c_nullable c_num))
    (f_cons (js "stream") (c_opt c_bool) f_nil)))))))))
    (fun p => (pc_model p, (pc_group p, (pc_temperature p, (pc_top_p p, (pc_max_tokens p,
       (pc_frequency_penalty p, (pc_presence_penalty p, (pc_seed p, (pc_stream p, tt))))))))))
    (fun x => let '(a, (b, (c, (d, (e, (f, (g, (h, (i, _))))))))) := x in
       mkPartialConfig a b c d e f g h i).
Definition c_enabled : codec PartialEnabled :=
  c_obj
    (f_cons (js "temperature") (c_opt c_bool) (f_cons (js "top_p") (c_opt c_bool)
    (f_cons (js "max_tokens") (c_opt c_bool) (f_cons (js "frequency_penalty") (c_opt c_bool)
    (f_cons (js "presence_penalty") (c_opt c_bool) (f_cons (js "seed") (c_opt c_bool) f_nil))))))
    (fun p => (pe_temperature p, (pe_top_p p, (pe_max_tokens p, (pe_frequency_penalty p,
       (pe_presence_penalty p, (pe_seed p, tt)))))))
    (fun x => let '(a, (b, (c, (d, (e, (f, _)))))) := x in mkPartialEnabled a b c d e f).

(** A complete configuration as a partial one. *)
Definition full_config (c : PlaygroundConfig) : PartialConfig :=
  mkPartialConfig (Some (model c)) (Some (group c)) (Some (temperature c)) (Some (top_p c))
    (Some (max_tokens c)) (Some (frequency_penalty c)) (Some (presence_penalty c))
    (Some (seed c)) (Some (stream c)).
Definition full_enabled (e : ParameterEnabled) : PartialEnabled :=
  mkPartialEnabled (Some (en_temperature e)) (Some (en_top_p e)) (Some (en_max_tokens e))
    (Some (en_frequency_penalty e)) (Some (en_presence_penalty e)) (Some (en_seed e)).

(** ** [storage.ts]: bounding what is kept *)

Module STORAGE_KEYS.
Definition CONFIG := js "playground_config".
Definition MESSAGES := js "playground_messages".
Definition PARAMETER_ENABLED := js "playground_parameter_enabled".
End STORAGE_KEYS.

Definition TRUNCATED_CONTENT_SUFFIX : jsstr := [10; 10]%N ++ js "[...]".
Definition MIN_PREFIX_COLLAPSE_LENGTH : Z := 2000.
Definition MIN_REPEATED_SECTION_COUNT : nat := 3.
(** [/^#{2,6}\s+\d+\.\s+.+$/gm] *)
Definition SECTION_HEADING_LINE_PATTERN : regex :=
  rseq [RBegin true; rrange (runit (ch "#")) 2 4; rplus (RChar is_space);
        rplus (RChar is_digit); runit (ch "."); rplus (RChar is_space); rplus rdot; REnd true].

Definition len {A} (s : list A) : Z := Z.of_nat (length s).

(** The array and whether it is another array than the argument. *)
Definition trimMessages (ms : list Message) : list Message * bool :=
  if length ms <=? MAX_STORED_MESSAGES then (ms, false)
  else (drop (length ms - MAX_STORED_MESSAGES) ms, true).

Definition getMessageSize (m : Message) : Z :=
  (fold_left (fun total v => total + len (v_content v)) (versions m) 0
   + match reasoning m with Some r => len (r_content r) | None => 0 end)%Z.

Definition truncateText (text : jsstr) (maxLength : Z) : jsstr :=
  if (len text <=? maxLength)%Z then text
  else if (maxLength <=? len TRUNCATED_CONTENT_SUFFIX)%Z then take (Z.to_nat maxLength) text
  else take (Z.to_nat (maxLength - len TRUNCATED_CONTENT_SUFFIX)) text
       ++ TRUNCATED_CONTENT_SUFFIX.

Record SectionOccurrence := mkOccurrence { heading : jsstr; o_index : nat }.

Definition getSectionOccurrences (text : jsstr) : list SectionOccurrence :=
  List.map (fun x => mkOccurrence x.1.2 x.1.1) (re_all SECTION_HEADING_LINE_PATTERN text).

Definition getHeadingCounts (os : list SectionOccurrence) : gmap jsstr nat :=
  fold_left (fun counts o => <[heading o := S (default 0 (counts !! heading o))]> counts) os ∅.

(** The loop from the last occurrence to the first: the headings seen and the
    indexes collected. *)
Definition collect_step (counts : gmap jsstr nat) (st : gset jsstr * list nat)
    (o : SectionOccurrence) : gset jsstr * list nat :=
  let '(seen, idx) := st in
  if (default 0 (counts !! heading o) <? MIN_REPEATED_SECTION_COUNT)
     || bool_decide (heading o ∈ seen)
  then (seen, idx) else ({[heading o]} ∪ seen, idx ++ [o_index o]).

(** [None] for the source's [-1]. *)
Definition findLastRepeatedSectionRunStart (text : jsstr) : option nat :=
  let occurrences := getSectionOccurrences text in
  let headingCounts := getHeadingCounts occurrences in
  match (fold_left (collect_step headingCounts) (rev occurrences) (∅, [])).2 with
  | [] => None
  | i :: rest => Some (fold_left Nat.min rest i)
  end.

Definition collapseRepeatedSectionSnapshots (text : jsstr) : jsstr :=
  if (len text <? MIN_PREFIX_COLLAPSE_LENGTH)%Z then text
  else match findLastRepeatedSectionRunStart text with
       | None => text
       | Some start => drop start text
       end.

(** A version, and whether it is another object than the argument. *)
Definition normalize_version (v : MessageVersion) : MessageVersion * bool :=
  let collapsed := collapseRepeatedSectionSnapshots (v_content v) in
  let content := truncateText collapsed MAX_LOADED_MESSAGE_CHARS in
  if bool_decide (content = v_content v) && bool_decide (collapsed = v_content v)
  then (v, false) else (mkVersion (v_id v) content, true).

(** [Date.now] is read for the completion time, then by [finalizeMessage].
    The flag says whether the result is another object than the argument. *)
Definition normalizeStoredMessageForLoad (m : Message) (now now1 now2 : number)
  : Message * bool :=
  let vs := List.map normalize_version (versions m) in
  let r := (fun r => with_content r (truncateText (r_content r) MAX_LOADED_MESSAGE_CHARS))
             <$> reasoning m in
  let changed :=
    existsb snd vs || negb (bool_decide (r_content <$> r = r_content <$> reasoning m)) in
  let normalized := if changed then set_reasoning r (set_versions vs.*1 m) else m in
  if negb (isAssistantMessagePending normalized) then (normalized, changed)
  else
    let hasContent := hasMessageContent normalized in
    let hasReasoning :=
      match reasoning normalized with Some r => nonempty (trim (r_content r)) | None => false end in
    if negb hasContent && negb hasReasoning then (normalized, changed)
    else
      let completed :=
        default now
          (or_else (completedAt normalized)
          (or_else (reasoning normalized ≫= r_completedAt)
          (or_else (startedAt normalized) (createdAt normalized)))) in
      (completeAssistantTiming
         (set_streaming false (set_status Complete (finalizeMessage normalized None now1 now2)))
         completed, true).

(** The loop from the last message to the first. *)
Fixpoint size_loop (rev_ms : list Message) (totalSize : Z) (result : list Message)
  : list Message :=
  match rev_ms with
  | [] => result
  | m :: rest =>
      if nonempty result && (totalSize + getMessageSize m >? MAX_LOADED_MESSAGES_CHARS)%Z
      then result
      else size_loop rest (totalSize + getMessageSize m) (result ++ [m])
  end.

(** Always a new array. *)
Definition trimMessagesByContentSize (ms : list Message) : list Message * bool :=
  (rev (size_loop (rev ms) 0 []), true).

(** ** [storage.ts]: reading and writing *)

Abbreviation store := (gmap jsstr jsstr).

(** [None] when [JSON.parse] throws, [Some None] for [null]. *)
Definition readStoredValue (key : jsstr) (st : store) : option (option value) :=
  match st !! key with
  | None | Some [] => Some None
  | Some saved => Some <$> json_parse saved
  end.

Definition readStoredMessagesValue (st : store) : option (option value) * store :=
  match st !! STORAGE_KEYS.MESSAGES with
  | None | Some [] => (Some None, st)
  | Some saved =>
      if (len saved >? MAX_STORED_MESSAGES_BYTES)%Z
      then (Some None, delete STORAGE_KEYS.MESSAGES st)
      else (Some <$> json_parse saved, st)
  end.

Definition unwrapStoredValue (v : value) : value :=
  match v with
  | VObj o =>
      match assoc (js "version") o, assoc (js "data") o with
      | Some _, Some d => d
      | _, _ => v
      end
  | _ => v
  end.

Definition envelope (data : value) : value :=
  VObj [(js "version", VNum STORAGE_VERSION); (js "data", data)].

Section Storage.
Context {zod : Zod}.
(** [setItem] succeeds when the new contents fit the quota. *)
Context (within_quota : store -> bool).

(** [None] when [setItem] throws. *)
Definition writeStoredValue (key : jsstr) (data : value) (st : store) : option store :=
  let st' := <[key := stringify (envelope data)]> st in
  if within_quota st' then Some st' else None.

(** [schema.parse(x) as T] *)
Definition parse_as {A} (s : schema) (c : codec A) (v : value) : option A :=
  match zparse s v with Some p => dec c p | None => None end.

Definition loadConfig (st : store) : PartialConfig :=
  match readStoredValue STORAGE_KEYS.CONFIG st with
  | Some (Some saved) =>
      if truthy saved
      then default no_config (parse_as playgroundConfigSchema c_config (unwrapStoredValue saved))
      else no_config
  | _ => no_config
  end.

Definition saveConfig (config : PartialConfig) (st : store) : store :=
  default st
    (match zparse playgroundConfigSchema (enc c_config config) with
     | Some parsed => writeStoredValue STORAGE_KEYS.CONFIG parsed st
     | None => None
     end).

Definition loadParameterEnabled (st : store) : PartialEnabled :=
  match readStoredValue STORAGE_KEYS.PARAMETER_ENABLED st with
  | Some (Some saved) =>
      if truthy saved
      then default no_enabled (parse_as parameterEnabledSchema c_enabled (unwrapStoredValue saved))
      else no_enabled
  | _ => no_enabled
  end.

Definition saveParameterEnabled (enabled : PartialEnabled) (st : store) : store :=
  default st
    (match zparse parameterEnabledSchema (enc c_enabled enabled) with
     | Some parsed => writeStoredValue STORAGE_KEYS.PARAMETER_ENABLED parsed st
     | None => None
     end).

Definition saveMessages (ms : list Message) (st : store) : store :=
  let trimmed := (trimMessages ms).1 in
  default st
    (match zparse messagesSchema (enc c_messages trimmed) with
     | Some parsed => writeStoredValue STORAGE_KEYS.MESSAGES parsed st
     | None => None
     end).

(** [t] translates the text of an interrupted generation; [clk] gives the
    successive readings of the clock, three for each message. *)
Definition loadMessages (t : jsstr -> jsstr) (clk : nat -> number) (st : store)
  : option (list Message) * store :=
  let '(read, st) := readStoredMessagesValue st in
  match read with
  | Some (Some saved) =>
      if negb (truthy saved) then (None, st)
      else match parse_as messagesSchema c_messages (unwrapStoredValue saved) with
      | None => (None, st)
      | Some parsed =>
          let normalizedF :=
            imap (fun i m => normalizeStoredMessageForLoad m
                               (clk (3 * i)) (clk (3 * i + 1)) (clk (3 * i + 2))) parsed in
          let normalized := normalizedF.*1 in
          let normalizedChanged := existsb snd normalizedF in
          let '(trimmed, trimChanged) := trimMessages normalized in
          let '(sizeTrimmed, sizeChanged) := trimMessagesByContentSize trimmed in
          let n := 3 * length parsed in
          let '(sanitized, sanitizeChanged) :=
            sanitizeMessagesOnLoad t sizeTrimmed (clk n) (clk (n + 1)) (clk (n + 2)) in
          (Some sanitized,
           if normalizedChanged || trimChanged || sizeChanged || sanitizeChanged
           then saveMessages sanitized st else st)
      end
  | _ => (None, st)
  end.

Definition clearPlaygroundData (st : store) : store :=
  delete STORAGE_KEYS.MESSAGES
    (delete STORAGE_KEYS.PARAMETER_ENABLED (delete STORAGE_KEYS.CONFIG st)).

(** ** [playground-state-utils.ts] *)

Definition getInitialPlaygroundConfig (st : store) : PlaygroundConfig :=
  let p := loadConfig st in
  mkConfig (default (model DEFAULT_CONFIG) (pc_model p))
    (default (group DEFAULT_CONFIG) (pc_group p))
    (default (temperature DEFAULT_CONFIG) (pc_temperature p))
    (default (top_p DEFAULT_CONFIG) (pc_top_p p))
    (default (max_tokens DEFAULT_CONFIG) (pc_max_tokens p))
    (default (frequency_penalty DEFAULT_CONFIG) (pc_frequency_penalty p))
    (default (presence_penalty DEFAULT_CONFIG) (pc_presence_penalty p))
    (default (seed DEFAULT_CONFIG) (pc_seed p))
    (default (stream DEFAULT_CONFIG) (pc_stream p)).

Definition getInitialParameterEnabled (st : store) : ParameterEnabled :=
  let p := loadParameterEnabled st in
  let d := DEFAULT_PARAMETER_ENABLED in
  mkEnabled (default (en_temperature d) (pe_temperature p))
    (default (en_top_p d) (pe_top_p p))
    (default (en_max_tokens d) (pe_max_tokens p))
    (default (en_frequency_penalty d) (pe_frequency_penalty p))
    (default (en_presence_penalty d) (pe_presence_penalty p))
    (default (en_seed d) (pe_seed p)).

(** [loadMessages() || []] *)
Definition getInitialMessages (t : jsstr -> jsstr) (clk : nat -> number) (st : store)
  : list Message * store :=
  let '(ms, st') := loadMessages t clk st in (default [] ms, st').
End Storage.

Inductive MessageStateUpdater :=
| SetMessages (ms : list Message)
| UpdateWith (f : list Message -> list Message).

Definition applyMessageStateUpdate (previous : list Message) (u : MessageStateUpdater)
  : list Message :=
  match u with SetMessages ms => ms | UpdateWith f => f previous end.
