(* ===== verification/PlaygroundStorageFacts.v ===== *)
(** * Theorems on the playground's storage

    The schemas describe the stored types, saving and loading are inverse on
    conversations within the limits, and loading keeps its bounds whatever the
    browser's storage contains. *)

From S2P Require Import Prelude JsNumber JsValue JsRegex ZodCodec.
From S2P Require Import PlaygroundMessage PlaygroundStream PlaygroundStorage.

(** ** The schemas fit the types *)

Definition opt_ok {A} (P : A -> Prop) (o : option A) : Prop := from_option P True o.

(** Every number in the record survives JSON. *)
Definition reasoning_ok (r : Reasoning) : Prop :=
  json_num_ok (r_duration r) /\ opt_ok json_num_ok (r_startedAt r)
  /\ opt_ok json_num_ok (r_completedAt r) /\ opt_ok json_num_ok (r_durationMs r).
Definition message_ok (m : Message) : Prop :=
  versions m <> [] /\ opt_ok json_num_ok (createdAt m) /\ opt_ok json_num_ok (startedAt m)
  /\ opt_ok json_num_ok (completedAt m) /\ opt_ok json_num_ok (durationMs m)
  /\ opt_ok reasoning_ok (reasoning m).
Definition config_ok (c : PartialConfig) : Prop :=
  opt_ok json_num_ok (pc_temperature c) /\ opt_ok json_num_ok (pc_top_p c)
  /\ opt_ok json_num_ok (pc_max_tokens c) /\ opt_ok json_num_ok (pc_frequency_penalty c)
  /\ opt_ok json_num_ok (pc_presence_penalty c) /\ opt_ok (opt_ok json_num_ok) (pc_seed c).

#[export] Instance opt_ok_dec {A} (P : A -> Prop) `{forall a, Decision (P a)} o :
  Decision (opt_ok P o).
Proof. destruct o; simpl; apply _. Defined.
#[export] Instance reasoning_ok_dec r : Decision (reasoning_ok r).
Proof. unfold reasoning_ok. apply _. Defined.
#[export] Instance message_ok_dec m : Decision (message_ok m).
Proof. unfold message_ok. apply _. Defined.
#[export] Instance config_ok_dec c : Decision (config_ok c).
Proof. unfold config_ok. apply _. Defined.

Ltac by_decision := apply (bool_decide_unpack _); vm_compute; exact I.
Create HintDb fit.

(** Builds a proof that an object schema fits, field by field. *)
Ltac fit_base :=
  first [ apply fits_str | apply fits_num | apply fits_bool
        | apply (fits_enum role_names); by intros []
        | apply (fits_enum status_names); by intros []
        | apply fits_nullable; fit_base
        | eapply fits_opt; fit_base
        | solve [eauto with fit]
        | apply fits_arr; fit_base ].
Ltac fit_fields :=
  first [ apply ff_nil | eapply ff_cons; [fit_base | fit_fields | by_decision] ].
Ltac fit_obj :=
  eapply fits_impl; [apply fits_obj; [fit_fields | by_decision | by_decision | by intros []] |].

Section Fit.
Context {zod : Zod}.

Lemma fits_version : fits false false messageVersionSchema c_version (fun _ => True).
Proof. fit_obj. done. Qed.
Hint Resolve fits_version : fit.

Lemma fits_source : fits false false sourceSchema c_source (fun _ => True).
Proof. fit_obj. done. Qed.
Hint Resolve fits_source : fit.

Lemma fits_reasoning : fits false false reasoningSchema c_reasoning reasoning_ok.
Proof. fit_obj. unfold reasoning_ok, opt_ok. simpl. tauto. Qed.
Hint Resolve fits_reasoning : fit.

Lemma fits_message : fits false false messageSchema c_message message_ok.
Proof.
  fit_obj. intros m (Hv & H). unfold opt_ok in H. simpl. intuition auto.
  - destruct (versions m); [done|simpl; lia].
  - by apply Forall_true.
  - destruct (sources m); simpl; [|done]. split; [lia|by apply Forall_true].
  - by destruct (isReasoningStreaming m).
  - by destruct (isReasoningComplete m).
  - by destruct (isContentComplete m).
  - by destruct (status m).
  - by destruct (errorCode m) as [[]|].
Qed.

Lemma fits_messages : fits false false messagesSchema c_messages (Forall message_ok).
Proof.
  eapply fits_impl; [apply fits_arr, fits_message|]. intros ms H. split; [lia|done].
Qed.

Lemma fits_config : fits false false playgroundConfigSchema c_config config_ok.
Proof.
  fit_obj. intros c H. unfold config_ok, opt_ok in H. simpl. intuition auto.
  - by destruct (pc_model c).
  - by destruct (pc_group c).
  - by destruct (pc_stream c).
Qed.

Lemma fits_enabled : fits false false parameterEnabledSchema c_enabled (fun _ => True).
Proof. fit_obj. intros [a b c d e f] _. simpl. destruct a, b, c, d, e, f; by auto 10. Qed.
End Fit.

(** ** Writing and reading one value *)

Section RoundTrip.
Context {zod : Zod}.

Lemma envelope_ok v : json_ok v -> json_ok (envelope v).
Proof.
  intros H. constructor; [done|]. apply Forall_cons_2; [|by apply Forall_cons_2].
  constructor. by_decision.
Qed.

Lemma json_parse_envelope v :
  json_ok v -> json_parse (stringify (envelope v)) = Some (envelope v).
Proof. intros H. by apply json_roundtrip, envelope_ok. Qed.

Lemma stringify_envelope_nonnil v : exists c w, stringify (envelope v) = c :: w.
Proof. by eexists _, _. Qed.

Lemma readStoredValue_saved (key : jsstr) (v : value) (st : store) :
  json_ok v -> readStoredValue key (<[key := stringify (envelope v)]> st) = Some (Some (envelope v)).
Proof.
  intros H. unfold readStoredValue. rewrite lookup_insert_eq, json_parse_envelope by done.
  by destruct (stringify_envelope_nonnil v) as (c & w & ->).
Qed.

Context {A : Type} (null : bool) (s : schema) (c : codec A) (ok : A -> Prop).
Context (F : fits false null s c ok).

Lemma fits_json_ok a : ok a -> json_ok (enc c a).
Proof. intros H. destruct (fits_json _ _ _ _ _ F a H) as [E|]; [|done]. by apply F in E. Qed.

Lemma parse_as_enc a : ok a -> parse_as s c (enc c a) = Some a.
Proof. intros H. unfold parse_as. by rewrite (fits_self _ _ _ _ _ F), (fits_back _ _ _ _ _ F). Qed.

Lemma parse_as_total v p : zparse s v = Some p -> is_Some (parse_as s c v).
Proof. intros H. unfold parse_as. rewrite H. by eapply fits_typed. Qed.
End RoundTrip.

(** ** Bounds *)

Lemma truncateText_short text n : (len text <= n)%Z -> truncateText text n = text.
Proof. intros H. unfold truncateText. by rewrite (proj2 (Z.leb_le _ _)). Qed.

Lemma truncateText_length text n : (0 <= n)%Z -> (len (truncateText text n) <= n)%Z.
Proof.
  intros Hn. unfold truncateText, len.
  destruct (Z.leb_spec (Z.of_nat (length text)) n); [done|].
  change (length TRUNCATED_CONTENT_SUFFIX) with 7.
  destruct (Z.leb_spec n (Z.of_nat 7)); rewrite ?length_app, !length_take; [lia|].
  change (length TRUNCATED_CONTENT_SUFFIX) with 7. lia.
Qed.

(** What is cut off is the end: the text kept is a prefix, then the mark. *)
Lemma truncateText_prefix text n :
  (7 < n)%Z -> (n < len text)%Z ->
  exists kept rest, text = kept ++ rest /\ truncateText text n = kept ++ TRUNCATED_CONTENT_SUFFIX
                    /\ len (truncateText text n) = n.
Proof.
  intros Hn Hl. unfold truncateText, len in *.
  rewrite (proj2 (Z.leb_gt _ _)) by done.
  change (length TRUNCATED_CONTENT_SUFFIX) with 7. rewrite (proj2 (Z.leb_gt _ _)) by lia.
  exists (take (Z.to_nat (n - Z.of_nat 7)) text), (drop (Z.to_nat (n - Z.of_nat 7)) text).
  rewrite take_drop. split_and!; [done..|]. rewrite length_app, length_take.
  change (length TRUNCATED_CONTENT_SUFFIX) with 7. lia.
Qed.

Lemma trimMessages_suffix ms : (trimMessages ms).1 `suffix_of` ms.
Proof.
  unfold trimMessages. case_match; simpl; [done|]. eexists. symmetry. apply take_drop.
Qed.

Lemma trimMessages_length ms : length (trimMessages ms).1 <= MAX_STORED_MESSAGES.
Proof.
  unfold trimMessages, MAX_STORED_MESSAGES. destruct (Nat.leb_spec (length ms) 100); simpl; [done|].
  rewrite length_drop. lia.
Qed.

Lemma trimMessages_all ms : length ms <= MAX_STORED_MESSAGES -> trimMessages ms = (ms, false).
Proof. intros H. unfold trimMessages. by rewrite (proj2 (Nat.leb_le _ _)). Qed.

Definition total_size (ms : list Message) : Z := fold_right (fun m n => getMessageSize m + n)%Z 0%Z ms.

Lemma total_size_app a b : total_size (a ++ b) = (total_size a + total_size b)%Z.
Proof. induction a as [|m a IH]; simpl; lia. Qed.

Lemma total_size_rev a : total_size (rev a) = total_size a.
Proof. induction a as [|m a IH]; simpl; [done|]. rewrite total_size_app, IH. simpl. lia. Qed.

Lemma size_fold_nonneg vs n :
  (0 <= n -> n <= fold_left (fun total v => total + len (v_content v)) vs n)%Z.
Proof.
  revert n. induction vs as [|v vs IH]; intros n Hn; simpl; [lia|].
  unfold len in *. specialize (IH (n + Z.of_nat (length (v_content v)))%Z ltac:(lia)). lia.
Qed.

Lemma getMessageSize_nonneg m : (0 <= getMessageSize m)%Z.
Proof.
  unfold getMessageSize. pose proof (size_fold_nonneg (versions m) 0 ltac:(lia)).
  unfold len in *. destruct (reasoning m); lia.
Qed.

Lemma total_size_nonneg ms : (0 <= total_size ms)%Z.
Proof. induction ms as [|m ms IH]; simpl; [lia|]. pose proof (getMessageSize_nonneg m). lia. Qed.

(** The loop keeps a prefix of the reversed list within the budget. *)
Lemma size_loop_spec rest total result :
  total = total_size result ->
  (total <= MAX_LOADED_MESSAGES_CHARS)%Z \/ length result <= 1 ->
  exists kept rest', size_loop rest total result = result ++ kept /\ rest = kept ++ rest'
    /\ ((total_size (result ++ kept) <= MAX_LOADED_MESSAGES_CHARS)%Z \/ length (result ++ kept) <= 1)
    /\ (match rest' with [] => True
        | m :: _ => result ++ kept <> [] /\
            MAX_LOADED_MESSAGES_CHARS < total_size (result ++ kept) + getMessageSize m end)%Z.
Proof.
  revert total result. induction rest as [|m rest IH]; intros total result -> Hb; simpl.
  - exists [], []. by rewrite !app_nil_r.
  - destruct (nonempty result && _)%bool eqn:E.
    + exists [], (m :: rest). rewrite !app_nil_r. apply andb_prop in E as [E1 E2].
      split_and!; try done; [by destruct result|]. rewrite Z.gtb_lt in E2. lia.
    + destruct (IH (total_size result + getMessageSize m)%Z (result ++ [m])) as (kept & rest' & -> & -> & H).
      * rewrite total_size_app. simpl. lia.
      * destruct result as [|x result]; [right; simpl; lia|left]. change (nonempty (x :: result)) with true in E. rewrite andb_true_l in E.
        rewrite Z.gtb_ltb, Z.ltb_ge in E. lia.
      * exists (m :: kept), rest'. rewrite <- app_assoc in *. done.
Qed.

Lemma trimMessagesByContentSize_spec ms :
  let kept := (trimMessagesByContentSize ms).1 in
  kept `suffix_of` ms
  /\ ((total_size kept <= MAX_LOADED_MESSAGES_CHARS)%Z \/ length kept <= 1)
  /\ (ms <> [] -> kept <> []).
Proof.
  unfold trimMessagesByContentSize. simpl.
  destruct (size_loop_spec (rev ms) 0 []) as (kept & rest & -> & E & Hb & Hr);
    [done|left; done|]. simpl in *.
  apply (f_equal (@rev Message)) in E. rewrite rev_involutive, rev_app_distr in E.
  rewrite total_size_rev, length_rev. split_and!; [by exists (rev rest)|done|].
  intros Hms Hk. apply (f_equal (@rev Message)) in Hk. rewrite rev_involutive in Hk. simpl in Hk.
  subst. destruct rest; [done|]. by destruct Hr.
Qed.

(** What may be loaded: at most 100 messages within the limit of characters,
    or a single message; the longest such end of a list. *)
Definition fitting (ms : list Message) : Prop :=
  length ms <= MAX_STORED_MESSAGES
  /\ ((total_size ms <= MAX_LOADED_MESSAGES_CHARS)%Z \/ length ms <= 1).
Definition longest_fitting (all kept : list Message) : Prop :=
  kept `suffix_of` all /\ fitting kept
  /\ forall k, k `suffix_of` all -> fitting k -> k `suffix_of` kept.

Lemma total_size_suffix a b : a `suffix_of` b -> (total_size a <= total_size b)%Z.
Proof. intros [p ->]. rewrite total_size_app. pose proof (total_size_nonneg p). lia. Qed.

(** The end kept is the longest one within the limit of characters. *)
Lemma trimMessagesByContentSize_longest ms k :
  k `suffix_of` ms -> (total_size k <= MAX_LOADED_MESSAGES_CHARS)%Z \/ length k <= 1 ->
  k `suffix_of` (trimMessagesByContentSize ms).1.
Proof.
  unfold trimMessagesByContentSize. simpl. intros Hk Hfit.
  destruct (size_loop_spec (rev ms) 0 []) as (kept & rest & -> & E & Hb & Hr);
    [done|left; done|]. simpl in *.
  apply (f_equal (@rev Message)) in E. rewrite rev_involutive, rev_app_distr in E.
  destruct (Nat.le_gt_cases (length k) (length (rev kept))) as [Hl|Hl].
  - apply (suffix_by_length _ _ ms); [done|by exists (rev rest)|done].
  - exfalso. destruct rest as [|m rest].
    { simpl in E. subst ms. apply suffix_length in Hk. lia. }
    destruct Hr as [Hne Hm]. simpl in E. rewrite <- app_assoc in E. simpl in E.
    assert (Hs : m :: rev kept `suffix_of` k).
    { apply (suffix_by_length _ _ ms); [by exists (rev rest)|done|simpl; lia]. }
    apply total_size_suffix in Hs as Ht. simpl in Ht. rewrite total_size_rev in Ht.
    rewrite length_rev in Hl. destruct kept; [done|]. simpl in Hl. lia.
Qed.

Lemma trimmed_longest ms :
  longest_fitting ms (trimMessagesByContentSize (trimMessages ms).1).1.
Proof.
  destruct (trimMessagesByContentSize_spec (trimMessages ms).1) as (Hs & Hb & _).
  pose proof (trimMessages_length ms) as Hl. pose proof (trimMessages_suffix ms) as Ht.
  split_and!; [by etrans|split; [|done]|].
  - apply suffix_length in Hs. lia.
  - intros k Hk [Hn Hfit]. apply trimMessagesByContentSize_longest; [|done].
    unfold trimMessages in *. destruct (Nat.leb_spec (length ms) MAX_STORED_MESSAGES) as [|Hlt]; simpl in *; [done|].
    apply (suffix_by_length _ _ ms); [done|done|]. rewrite length_drop. lia.
Qed.

Lemma trimMessagesByContentSize_all ms :
  (total_size ms <= MAX_LOADED_MESSAGES_CHARS)%Z -> (trimMessagesByContentSize ms).1 = ms.
Proof.
  intros Hs. unfold trimMessagesByContentSize. simpl.
  destruct (size_loop_spec (rev ms) 0 []) as (kept & rest & -> & E & Hb & Hr);
    [done|left; done|]. simpl in *.
  rewrite <- (total_size_rev ms), E, total_size_app in Hs.
  destruct rest as [|m rest].
  - rewrite app_nil_r in E. by rewrite <- E, rev_involutive.
  - simpl in Hs. pose proof (total_size_nonneg rest). lia.
Qed.

(** ** Repeated sections *)

Fixpoint count_heading (h : jsstr) (os : list SectionOccurrence) : nat :=
  match os with
  | [] => 0
  | o :: os' => (if decide (heading o = h) then 1 else 0) + count_heading h os'
  end.

Lemma getHeadingCounts_count os h :
  default 0 (getHeadingCounts os !! h) = count_heading h os.
Proof.
  unfold getHeadingCounts.
  assert (G : forall (m : gmap jsstr nat),
    default 0 (fold_left (fun counts o => <[heading o := S (default 0 (counts !! heading o))]> counts)
                 os m !! h) = default 0 (m !! h) + count_heading h os).
  { induction os as [|o os IH]; intros m; simpl; [lia|]. rewrite IH.
    destruct (decide (heading o = h)) as [<-|Hne].
    - rewrite lookup_insert_eq. simpl. lia.
    - rewrite lookup_insert_ne by done. lia. }
  by rewrite G, lookup_empty.
Qed.

Lemma count_heading_elem h os : 0 < count_heading h os -> exists o, o ∈ os /\ heading o = h.
Proof.
  induction os as [|o os IH]; simpl; [lia|]. case_decide as Hd; intros H.
  - exists o. split; [by left|done].
  - destruct IH as (o' & ? & ?); [lia|]. exists o'. split; [by right|done].
Qed.

Lemma elem_of_rev {A} (x : A) l : x ∈ rev l <-> x ∈ l.
Proof. by rewrite rev_alt, <- (elem_of_reverse x l). Qed.

(** The loop over the occurrences from the last one: it records the position
    of the first occurrence it meets of each repeated heading. *)
Record collect_inv (counts : gmap jsstr nat) (done_ : list SectionOccurrence)
    (st : gset jsstr * list nat) : Prop := {
  ci_seen h : h ∈ st.1 ->
    exists pre o post, done_ = pre ++ o :: post /\ heading o = h
      /\ ~ (h ∈ (heading <$> pre)) /\ o_index o ∈ st.2;
  ci_all o : o ∈ done_ -> 3 <= default 0 (counts !! heading o) -> heading o ∈ st.1;
  ci_idx i : i ∈ st.2 ->
    exists o, o ∈ done_ /\ o_index o = i /\ 3 <= default 0 (counts !! heading o) }.

Lemma collect_inv_step counts done_ st o :
  collect_inv counts done_ st -> collect_inv counts (done_ ++ [o]) (collect_step counts st o).
Proof.
  intros [S1 S2 S3]. destruct st as [seen idx]. unfold collect_step, MIN_REPEATED_SECTION_COUNT.
  simpl in *.
  assert (Hold : forall h (idx' : list nat), (forall i, i ∈ idx -> i ∈ idx') -> h ∈ seen ->
    exists pre o0 post, done_ ++ [o] = pre ++ o0 :: post /\ heading o0 = h
      /\ ~ (h ∈ (heading <$> pre)) /\ o_index o0 ∈ idx').
  { intros h idx' Hi Hh. destruct (S1 h Hh) as (pre & o0 & post & -> & ? & ? & ?).
    exists pre, o0, (post ++ [o]). rewrite <- app_assoc. by auto. }
  destruct (Nat.ltb_spec (default 0 (counts !! heading o)) 3) as [Hlt|Hge]; simpl.
  - split; simpl; [by auto|..].
    + intros o' [Ho| ->%list_elem_of_singleton]%elem_of_app H3; [auto|lia].
    + intros i Hi. destruct (S3 i Hi) as (o' & ? & ? & ?). exists o'. rewrite elem_of_app. auto.
  - case_bool_decide as Hs; split; simpl; [by auto|..].
    + intros o' [Ho| ->%list_elem_of_singleton]%elem_of_app H3; auto.
    + intros i Hi. destruct (S3 i Hi) as (o' & ? & ? & ?). exists o'. rewrite elem_of_app. auto.
    + intros h [->%elem_of_singleton|Hh]%elem_of_union.
      * exists done_, o, []. split_and!; [done|done| |apply elem_of_app; right; by left].
        intros (o' & E & Ho')%list_elem_of_fmap. apply Hs. rewrite E. apply S2; [done|].
        by rewrite <- E.
      * apply Hold; [|done]. intros i Hi. apply elem_of_app. auto.
    + intros o' [Ho| ->%list_elem_of_singleton]%elem_of_app H3; apply elem_of_union.
      * right. auto.
      * left. by apply elem_of_singleton.
    + intros i [Hi| ->%list_elem_of_singleton]%elem_of_app.
      * destruct (S3 i Hi) as (o' & ? & ? & ?). exists o'. rewrite elem_of_app. auto.
      * exists o. split_and!; [apply elem_of_app; right; by left|done|done].
Qed.

Lemma collect_inv_fold counts os :
  collect_inv counts os (fold_left (collect_step counts) os (∅, [])).
Proof.
  assert (G : forall rest done_ st, collect_inv counts done_ st ->
    collect_inv counts (done_ ++ rest) (fold_left (collect_step counts) rest st)).
  { induction rest as [|o rest IH]; intros done_ st H; simpl; [by rewrite app_nil_r|].
    replace (done_ ++ o :: rest) with ((done_ ++ [o]) ++ rest) by (by rewrite <- app_assoc).
    by apply IH, collect_inv_step. }
  apply (G os []). split; simpl; set_solver.
Qed.

Lemma fold_min_spec l i : let k := fold_left Nat.min l i in k ∈ i :: l /\ forall j, j ∈ i :: l -> k <= j.
Proof.
  revert i. induction l as [|x l IH]; intros i; simpl.
  - split; [by left|]. intros j ->%list_elem_of_singleton. lia.
  - destruct (IH (Nat.min i x)) as [H1 H2]. split.
    + apply elem_of_cons in H1 as [->|H1]; [|by right; right].
      destruct (Nat.min_spec i x) as [[_ ->]|[_ ->]]; [by left|right; by left].
    + intros j Hj. specialize (H2 (Nat.min i x)) as Hm. specialize (Hm ltac:(by left)).
      apply elem_of_cons in Hj as [->|Hj]; [lia|]. apply elem_of_cons in Hj as [->|Hj]; [lia|].
      apply H2. by right.
Qed.

(** Collapsing the snapshots of a repeated answer leaves short texts and
    texts without a heading repeated three times alone.  Otherwise it cuts the
    text at an occurrence of a heading repeated at least three times, and
    nothing of the last snapshot is lost: the last occurrence of every
    repeated heading is at or after the cut. *)
Theorem collapse_spec text :
  let os := getSectionOccurrences text in
  ((len text < MIN_PREFIX_COLLAPSE_LENGTH)%Z \/ (forall h, count_heading h os < 3)) /\
    collapseRepeatedSectionSnapshots text = text
  \/ exists o, o ∈ os /\ 3 <= count_heading (heading o) os
     /\ collapseRepeatedSectionSnapshots text = drop (o_index o) text
     /\ forall h, 3 <= count_heading h os ->
        exists pre o' post, os = pre ++ o' :: post /\ heading o' = h /\ ~ (h ∈ (heading <$> post))
          /\ o_index o <= o_index o'.
Proof.
  intros os. unfold collapseRepeatedSectionSnapshots.
  destruct (Z.ltb_spec (len text) MIN_PREFIX_COLLAPSE_LENGTH) as [Hs|Hs]; [by auto|].
  unfold findLastRepeatedSectionRunStart. fold os.
  destruct (collect_inv_fold (getHeadingCounts os) (rev os)) as [S1 S2 S3].
  destruct (fold_left (collect_step _) (rev os) _) as [seen idx]. cbn [fst snd] in *.
  assert (Hseen : forall h, 3 <= count_heading h os -> h ∈ seen).
  { intros h Hh. destruct (count_heading_elem h os) as (o & Ho & <-); [lia|].
    apply S2; [by apply elem_of_rev|].
    by rewrite getHeadingCounts_count. }
  destruct idx as [|i idx].
  - left. split; [right|done]. intros h. destruct (Nat.lt_ge_cases (count_heading h os) 3) as [|Hh]; [done|].
    destruct (S1 h (Hseen h Hh)) as (? & ? & ? & _ & _ & _ & H). by apply elem_of_nil in H.
  - right. destruct (fold_min_spec idx i) as [Hin Hmin]. set (start := fold_left Nat.min idx i) in *.
    destruct (S3 start Hin) as (o & Ho & Hi & Hc). rewrite getHeadingCounts_count in Hc.
    exists o. rewrite Hi. split_and!; [by apply elem_of_rev|done|done|].
    intros h Hh. destruct (S1 h (Hseen h Hh)) as (pre & o' & post & E & Ho' & Hpre & Hidx).
    exists (rev post), o', (rev pre). split_and!; [|done| |by apply Hmin].
    + apply (f_equal (@rev SectionOccurrence)) in E. rewrite rev_involutive, rev_app_distr in E.
      simpl in E. by rewrite <- app_assoc in E.
    + intros (x & -> & Hx)%list_elem_of_fmap. apply Hpre. apply list_elem_of_fmap. exists x.
      split; [done|]. by apply elem_of_rev.
Qed.

(** A text that is loaded as it was saved: a short one, or one in which no
    heading line with a number occurs three times. *)
Definition no_repeated_section (text : jsstr) : Prop :=
  (len text < MIN_PREFIX_COLLAPSE_LENGTH)%Z
  \/ Forall (fun o => count_heading (heading o) (getSectionOccurrences text) < 3)
       (getSectionOccurrences text).

Lemma collapse_unrepeated text :
  no_repeated_section text -> collapseRepeatedSectionSnapshots text = text.
Proof.
  intros H. destruct (collapse_spec text) as [[_ E]|(o & Ho & Hc & _)]; [done|].
  destruct H as [H|H].
  - unfold collapseRepeatedSectionSnapshots. by rewrite (proj2 (Z.ltb_lt _ _)).
  - rewrite Forall_forall in H. specialize (H o Ho). cbv beta in H. lia.
Qed.

(** ** Loading *)

(** A settled message whose texts are short enough and repeat no section. *)
Definition within_limits (m : Message) : Prop :=
  isAssistantMessagePending m = false
  /\ Forall (fun v => no_repeated_section (v_content v)
                      /\ (len (v_content v) <= MAX_LOADED_MESSAGE_CHARS)%Z) (versions m)
  /\ opt_ok (fun r => (len (r_content r) <= MAX_LOADED_MESSAGE_CHARS)%Z) (reasoning m).
#[export] Instance within_limits_dec m : Decision (within_limits m).
Proof. unfold within_limits, no_repeated_section. apply _. Defined.

Lemma normalize_id m a b c : within_limits m -> normalizeStoredMessageForLoad m a b c = (m, false).
Proof.
  intros (Hp & Hv & Hr). unfold normalizeStoredMessageForLoad.
  assert (existsb snd (List.map normalize_version (versions m)) = false) as ->.
  { clear -Hv. induction Hv as [|v vs [Hc Hl] _ IH]; simpl; [done|]. rewrite IH, orb_false_r.
    unfold normalize_version. rewrite collapse_unrepeated, truncateText_short by done.
    by rewrite bool_decide_true. }
  rewrite bool_decide_true; simpl; [by rewrite Hp|].
  destruct (reasoning m) as [r|]; simpl in *; [|done]. by rewrite truncateText_short.
Qed.

Lemma imap_normalize_id ms clk :
  Forall within_limits ms ->
  imap (fun i m => normalizeStoredMessageForLoad m
                     (clk (3 * i)) (clk (3 * i + 1)) (clk (3 * i + 2))) ms
  = List.map (fun m => (m, false)) ms.
Proof.
  intros H. apply list_eq. intros i. rewrite list_lookup_imap, list_lookup_fmap.
  destruct (ms !! i) as [m|] eqn:E; simpl; [|done].
  rewrite normalize_id; [done|]. by eapply Forall_lookup_1.
Qed.

Lemma last_pending_settled ms :
  Forall (fun m => isAssistantMessagePending m = false) ms -> last_pending ms = None.
Proof.
  induction 1 as [|m ms Hm _ IH]; simpl; [done|]. rewrite IH.
  unfold isPendingAssistantMessage. by rewrite Hm, andb_false_r.
Qed.

Lemma existsb_pair_false {A} (ms : list A) :
  existsb snd (List.map (fun m => (m, false)) ms) = false.
Proof. by induction ms. Qed.

Lemma fst_pair_map {A B} (b : B) (ms : list A) : (List.map (fun m => (m, b)) ms).*1 = ms.
Proof. induction ms as [|m ms IH]; simpl; [done|]. by f_equal. Qed.

Section Load.
Context {zod : Zod} (within_quota : store -> bool).

(** The text under the key of the messages after saving [ms]. *)
Definition messages_text (ms : list Message) : jsstr :=
  stringify (envelope (enc c_messages ms)).

Lemma saveMessages_ok ms st :
  Forall message_ok ms ->
  saveMessages within_quota ms st =
    let st' := <[STORAGE_KEYS.MESSAGES := messages_text (trimMessages ms).1]> st in
    if within_quota st' then st' else st.
Proof.
  intros H. unfold saveMessages, writeStoredValue.
  rewrite (fits_self _ _ _ _ _ fits_messages).
  - cbv zeta. unfold messages_text. by destruct (within_quota _).
  - destruct (trimMessages_suffix ms) as [p E]. rewrite E in H. by apply Forall_app in H as [_ H].
Qed.

Lemma readStoredMessagesValue_saved ms st :
  Forall message_ok ms -> (len (messages_text ms) <= MAX_STORED_MESSAGES_BYTES)%Z ->
  let st' := <[STORAGE_KEYS.MESSAGES := messages_text ms]> st in
  readStoredMessagesValue st' = (Some (Some (envelope (enc c_messages ms))), st').
Proof.
  intros Hok Hl. unfold readStoredMessagesValue. cbv zeta. rewrite lookup_insert_eq.
  destruct (stringify_envelope_nonnil (enc c_messages ms)) as (c & w & E).
  fold (messages_text ms) in E. rewrite E at 1. rewrite Z.gtb_ltb, (proj2 (Z.ltb_ge _ _)) by done.
  unfold messages_text at 1. rewrite json_parse_envelope; [done|].
  by eapply fits_json_ok; [apply fits_messages|].
Qed.

(** A stored text of a conversation within the limits is read as the
    conversation, which is written again. *)
Lemma load_text t clk ms st :
  Forall message_ok ms -> Forall within_limits ms ->
  length ms <= MAX_STORED_MESSAGES -> (total_size ms <= MAX_LOADED_MESSAGES_CHARS)%Z ->
  (len (messages_text ms) <= MAX_STORED_MESSAGES_BYTES)%Z ->
  st !! STORAGE_KEYS.MESSAGES = Some (messages_text ms) ->
  loadMessages within_quota t clk st = (Some ms, saveMessages within_quota ms st).
Proof.
  intros Hok Hlim Hn Hs Hl Hst. unfold loadMessages.
  rewrite <- (insert_id st _ _ Hst), readStoredMessagesValue_saved by done.
  rewrite (insert_id st _ _ Hst). cbn [truthy envelope negb].
  change (unwrapStoredValue _) with (enc c_messages ms).
  rewrite (parse_as_enc _ _ _ _ fits_messages) by done.
  rewrite imap_normalize_id, fst_pair_map, existsb_pair_false, trimMessages_all by done.
  rewrite (surjective_pairing (trimMessagesByContentSize ms)), trimMessagesByContentSize_all by done.
  unfold sanitizeMessagesOnLoad.
  rewrite last_pending_settled by (eapply Forall_impl; [done|]; by intros m [? _]).
  by rewrite orb_true_r.
Qed.

(** C4: Saving a conversation and loading it gives the same conversation
    back, and reading it does not change what is stored, for every
    conversation within the limits of the store: at most 100 messages and
    120000 characters in all; messages that are settled, have a version and
    numbers that JSON can carry, with texts of at most 40000 characters, each
    of them shorter than 2000 characters or without a numbered heading line
    that occurs three times; and a stored text within 1 MiB that the browser
    accepts. *)
Theorem load_after_save t clk ms st :
  Forall message_ok ms -> Forall within_limits ms ->
  length ms <= MAX_STORED_MESSAGES -> (total_size ms <= MAX_LOADED_MESSAGES_CHARS)%Z ->
  (len (messages_text ms) <= MAX_STORED_MESSAGES_BYTES)%Z ->
  within_quota (<[STORAGE_KEYS.MESSAGES := messages_text ms]> st) = true ->
  let st' := saveMessages within_quota ms st in
  st' !! STORAGE_KEYS.MESSAGES = Some (messages_text ms)
  /\ loadMessages within_quota t clk st' = (Some ms, st').
Proof.
  intros Hok Hlim Hn Hs Hl Hq. cbv zeta. rewrite saveMessages_ok by done.
  rewrite trimMessages_all by done. cbv zeta. cbn [fst]. rewrite Hq.
  split; [apply lookup_insert_eq|]. rewrite (load_text t clk ms) by (done || apply lookup_insert_eq).
  rewrite saveMessages_ok, trimMessages_all by done. cbv zeta. cbn [fst].
  by rewrite insert_insert_eq, Hq.
Qed.

Lemma parsed_versions v p m :
  zparse messageSchema v = Some p -> dec c_message p = Some m -> versions m <> [].
Proof.
  unfold messageSchema. rewrite zparse_object. destruct v as [| | | | | |o]; try done.
  destruct (parse_fields zparse _ o) as [p'|] eqn:E; [|done]. intros [= <-] Hd.
  eapply parse_fields_prop with (f := (js "versions", SArray 1 messageVersionSchema)) in E as Hv;
    [|by_decision|by right; right; left].
  cbn [fst snd] in Hv. rewrite zparse_array in Hv.
  destruct (prop_of o (js "versions")) as [| | | | |l|] eqn:El; try done.
  destruct (Nat.leb_spec 1 (length l)) as [Hl|]; [|done].
  destruct (mapM _ l) as [l'|] eqn:Em; [|done].
  change (Some (VArr l') = Some (prop_of p' (js "versions"))) in Hv.
  apply length_mapM in Em. unfold c_message, c_obj in Hd. cbn [dec] in Hd.
  apply fmap_Some in Hd as (x & Hx & ->).
  apply f_cons_dec in Hx as [_ Hx]. apply f_cons_dec in Hx as [_ Hx].
  apply f_cons_dec in Hx as [Hx _]. injection Hv as Hv. rewrite <- Hv in Hx.
  apply length_mapM in Hx. destruct x as (? & ? & vs & ? & ? & ? & ? & ? & ? & ? & ? & ? & ? & ? & ?).
  simpl in *. intros ->. simpl in Hx. lia.
Qed.

Lemma parsed_messages_versions v ms :
  parse_as messagesSchema c_messages v = Some ms -> Forall (fun m => versions m <> []) ms.
Proof.
  unfold parse_as, messagesSchema. rewrite zparse_array. destruct v; try done.
  simpl. destruct (mapM _ l) as [ps|] eqn:E; [|done]. simpl. intros Hd.
  apply mapM_Some in E, Hd. revert ms Hd. induction E as [|v p l ps Hp _ IH]; intros ms Hd.
  - by apply Forall2_nil_inv_l in Hd as ->.
  - apply Forall2_cons_inv_l in Hd as (m & ms' & Hm & Hd & ->). constructor; [|auto].
    by eapply parsed_versions.
Qed.

Lemma sanitize_flags t ms a b c :
  sanitizeMessagesOnLoad t ms a b c
  = ((sanitizeMessagesOnLoad t ms a b c).1, (sanitizeMessagesOnLoad t ms a b c).2).
Proof. apply surjective_pairing. Qed.

(** A load that succeeds writes its result back. *)
Lemma loadMessages_writes_back t clk st ms st' :
  loadMessages within_quota t clk st = (Some ms, st') -> st' = saveMessages within_quota ms st.
Proof.
  unfold loadMessages, readStoredMessagesValue.
  destruct (st !! STORAGE_KEYS.MESSAGES) as [[|c w]|]; try done.
  destruct (_ >? _)%Z; [done|]. destruct (json_parse _) as [v|]; [simpl|done].
  destruct (truthy v); [simpl|done]. destruct (parse_as _ _ _); [|done].
  destruct (trimMessages _) as [trimmed b]. simpl.
  destruct (sanitizeMessagesOnLoad _ _ _ _ _). rewrite orb_true_r. by intros [= <- <-].
Qed.

Lemma loaded_messages t clk st ms st' :
  loadMessages within_quota t clk st = (Some ms, st') ->
  exists text v parsed kept,
    st !! STORAGE_KEYS.MESSAGES = Some text
    /\ (len text <= MAX_STORED_MESSAGES_BYTES)%Z /\ json_parse text = Some v
    /\ parse_as messagesSchema c_messages (unwrapStoredValue v) = Some parsed
    /\ Forall (fun m => versions m <> []) parsed
    /\ longest_fitting
         (imap (fun i m => normalizeStoredMessageForLoad m
              (clk (3 * i)) (clk (3 * i + 1)) (clk (3 * i + 2))) parsed).*1 kept
    /\ let n := 3 * length parsed in
       ms = (sanitizeMessagesOnLoad t kept (clk n) (clk (n + 1)) (clk (n + 2))).1.
Proof.
  unfold loadMessages, readStoredMessagesValue.
  destruct (st !! STORAGE_KEYS.MESSAGES) as [[|c w]|]; try done. set (text := c :: w).
  destruct (Z.gtb_spec (len text) MAX_STORED_MESSAGES_BYTES) as [|Hl]; [done|].
  destruct (json_parse text) as [v|] eqn:Ej; [simpl|done].
  destruct (truthy v); [simpl|done].
  destruct (parse_as _ _ _) as [parsed|] eqn:Ep; [|done].
  set (norm := imap _ parsed). pose proof (trimmed_longest norm.*1) as Hk.
  destruct (trimMessages norm.*1) as [trimmed b1]. cbn [fst] in Hk.
  unfold trimMessagesByContentSize in *. cbn [fst] in *.
  rewrite sanitize_flags. intros [= <- _]. exists text, v, parsed.
  eexists. split_and!; [done..|by eapply parsed_messages_versions|exact Hk|done].
Qed.

Lemma load_failed t clk st st' :
  loadMessages within_quota t clk st = (None, st') ->
  match st !! STORAGE_KEYS.MESSAGES with
  | None => st' = st
  | Some text =>
      if (len text <=? MAX_STORED_MESSAGES_BYTES)%Z
      then st' = st /\ (text = [] \/ forall v, json_parse text = Some v ->
             truthy v = false \/ parse_as messagesSchema c_messages (unwrapStoredValue v) = None)
      else st' = delete STORAGE_KEYS.MESSAGES st
  end.
Proof.
  unfold loadMessages, readStoredMessagesValue.
  destruct (st !! STORAGE_KEYS.MESSAGES) as [[|c w]|]; [..|congruence].
  { intros [= <-]. by split; [|left]. }
  set (text := c :: w). rewrite Z.gtb_ltb, Z.ltb_antisym.
  destruct (len text <=? MAX_STORED_MESSAGES_BYTES)%Z; cbn [negb]; [|congruence].
  destruct (json_parse text) as [v|] eqn:Ej; simpl; [|intros [= <-]; split; [done|by right]].
  destruct (truthy v) eqn:Et; simpl; [|intros [= <-]; split; [done|right; intros ? [= <-]; by left]].
  destruct (parse_as _ _ _) as [parsed|] eqn:Ep; [|intros [= <-]; split; [done|right; intros ? [= <-]; by right]].
  destruct (trimMessages _) as [trimmed b]. simpl. by destruct (sanitizeMessagesOnLoad _ _ _ _ _).
Qed.

(** C26: What a load returns, whatever the browser has stored.  A result is the
    sanitized form of the longest run of the last stored messages, normalized,
    that has at most 100 messages and 120000 characters (the last message is
    kept whatever its size), where the stored messages are those of the text
    under the key of the messages, which is at most 1 MiB, parses and passes the
    schema, each message with a version; and the result is written back, also
    when it is what was stored.  Without a result nothing is stored under the
    key that a load could read, and only a text over 1 MiB is removed. *)
Theorem loadMessages_spec t clk st :
  let '(loaded, st') := loadMessages within_quota t clk st in
  match loaded with
  | Some ms =>
      st' = saveMessages within_quota ms st
      /\ exists text v parsed kept,
          st !! STORAGE_KEYS.MESSAGES = Some text
          /\ (len text <= MAX_STORED_MESSAGES_BYTES)%Z /\ json_parse text = Some v
          /\ parse_as messagesSchema c_messages (unwrapStoredValue v) = Some parsed
          /\ Forall (fun m => versions m <> []) parsed
          /\ longest_fitting
               (imap (fun i m => normalizeStoredMessageForLoad m
                    (clk (3 * i)) (clk (3 * i + 1)) (clk (3 * i + 2))) parsed).*1 kept
          /\ let n := 3 * length parsed in
             ms = (sanitizeMessagesOnLoad t kept (clk n) (clk (n + 1)) (clk (n + 2))).1
  | None =>
      match st !! STORAGE_KEYS.MESSAGES with
      | None => st' = st
      | Some text =>
          if (len text <=? MAX_STORED_MESSAGES_BYTES)%Z
          then st' = st /\ (text = [] \/ forall v, json_parse text = Some v ->
                 truthy v = false \/ parse_as messagesSchema c_messages (unwrapStoredValue v) = None)
          else st' = delete STORAGE_KEYS.MESSAGES st
      end
  end.
Proof.
  destruct (loadMessages within_quota t clk st) as [[ms|] st'] eqn:E.
  - split; [by eapply loadMessages_writes_back|]. by eapply loaded_messages.
  - by eapply load_failed.
Qed.
End Load.

(** ** Configuration *)

Section Config.
Context {zod : Zod} (within_quota : store -> bool).

Lemma saveConfig_ok c st :
  config_ok c ->
  saveConfig within_quota c st =
    let st' := <[STORAGE_KEYS.CONFIG := stringify (envelope (enc c_config c))]> st in
    if within_quota st' then st' else st.
Proof.
  intros H. unfold saveConfig, writeStoredValue. rewrite (fits_self _ _ _ _ _ fits_config) by done.
  cbv zeta. by destruct (within_quota _).
Qed.

Lemma saveParameterEnabled_ok e st :
  saveParameterEnabled within_quota e st =
    let st' := <[STORAGE_KEYS.PARAMETER_ENABLED := stringify (envelope (enc c_enabled e))]> st in
    if within_quota st' then st' else st.
Proof.
  unfold saveParameterEnabled, writeStoredValue.
  rewrite (fits_self _ _ _ _ _ fits_enabled) by done. cbv zeta. by destruct (within_quota _).
Qed.

Lemma loadConfig_saved c st :
  config_ok c -> loadConfig (<[STORAGE_KEYS.CONFIG := stringify (envelope (enc c_config c))]> st) = c.
Proof.
  intros H. unfold loadConfig.
  rewrite readStoredValue_saved by (by eapply fits_json_ok; [apply fits_config|]).
  cbn [truthy envelope]. change (unwrapStoredValue _) with (enc c_config c).
  by rewrite (parse_as_enc _ _ _ _ fits_config).
Qed.

Lemma loadParameterEnabled_saved e st :
  loadParameterEnabled
    (<[STORAGE_KEYS.PARAMETER_ENABLED := stringify (envelope (enc c_enabled e))]> st) = e.
Proof.
  unfold loadParameterEnabled.
  rewrite readStoredValue_saved by (by eapply fits_json_ok; [apply fits_enabled|]).
  cbn [truthy envelope]. change (unwrapStoredValue _) with (enc c_enabled e).
  by rewrite (parse_as_enc _ _ _ _ fits_enabled).
Qed.

(** A complete configuration that was saved, and then a complete set of
    enabled parameters, are what the playground starts with the next time,
    whatever else is stored; and with nothing stored it starts with the
    defaults. *)
Theorem config_roundtrip c e st :
  config_ok (full_config c) -> (forall st, within_quota st = true) ->
  let st' := saveParameterEnabled within_quota (full_enabled e)
               (saveConfig within_quota (full_config c) st) in
  getInitialPlaygroundConfig st' = c /\ getInitialParameterEnabled st' = e
  /\ getInitialPlaygroundConfig (clearPlaygroundData st') = DEFAULT_CONFIG
  /\ getInitialParameterEnabled (clearPlaygroundData st') = DEFAULT_PARAMETER_ENABLED.
Proof.
  intros Hc Hq. cbv zeta. rewrite saveConfig_ok, saveParameterEnabled_ok by done.
  cbv zeta. rewrite !Hq. split_and!.
  - unfold getInitialPlaygroundConfig. rewrite insert_insert_ne by done.
    rewrite loadConfig_saved by done. by destruct c.
  - unfold getInitialParameterEnabled. rewrite loadParameterEnabled_saved. by destruct e.
  - unfold getInitialPlaygroundConfig, loadConfig, readStoredValue, clearPlaygroundData.
    rewrite 2!lookup_delete_ne, lookup_delete_eq; done.
  - unfold getInitialParameterEnabled, loadParameterEnabled, readStoredValue, clearPlaygroundData.
    rewrite lookup_delete_ne, lookup_delete_eq; done.
Qed.
End Config.

(** ** Witnesses *)

Definition example_messages : list Message :=
  [createUserMessage (js "k1") (js "v1") (js "What is a monad?") (num_of_Z 1700000000000);
   completeAssistantTiming
     (set_status Complete
        (updateCurrentVersionContent
           (createLoadingAssistantMessage (js "k2") (js "v2") (num_of_Z 1700000000100))
           (js "A monoid in the category of endofunctors.")))
     (num_of_Z 1700000002000)].

Lemma load_after_save_witness :
  let st' := saveMessages (zod := reference_zod) (fun _ => true) example_messages ∅ in
  loadMessages (zod := reference_zod) (fun _ => true) id (fun _ => num_of_Z 0) st'
  = (Some example_messages, st').
Proof.
  refine (proj2 (load_after_save (zod := reference_zod) (fun _ => true) id (fun _ => num_of_Z 0)
                   example_messages ∅ _ _ _ _ _ eq_refl)); by_decision.
Defined.

Lemma config_roundtrip_witness :
  getInitialPlaygroundConfig (zod := reference_zod)
    (saveParameterEnabled (zod := reference_zod) (fun _ => true) (full_enabled DEFAULT_PARAMETER_ENABLED)
       (saveConfig (zod := reference_zod) (fun _ => true) (full_config DEFAULT_CONFIG) ∅))
  = DEFAULT_CONFIG.
Proof.
  refine (proj1 (config_roundtrip (zod := reference_zod) (fun _ => true) DEFAULT_CONFIG
                   DEFAULT_PARAMETER_ENABLED ∅ _ (fun _ => eq_refl))). by_decision.
Defined.

(** A conversation interrupted while streaming, read back. *)
Definition interrupted : list Message :=
  [createUserMessage (js "k1") (js "v1") (js "Hi") (num_of_Z 5);
   createLoadingAssistantMessage (js "k2") (js "v2") (num_of_Z 7)].

Example interrupted_loaded :
  length <$> (loadMessages (zod := reference_zod) (fun _ => true) id (fun _ => num_of_Z 9)
    (saveMessages (zod := reference_zod) (fun _ => true) interrupted ∅)).1 = Some 2.
Proof. vm_compute. reflexivity. Qed.
