(* ===== verification/PlaygroundHooks.v ===== *)
(** * The playground's state and its persistence
      ([hooks/use-playground-state.ts], [hooks/use-playground-conversation.ts],
       [hooks/use-playground-options.ts])

    The state hook as a state machine: the React state, the refs, the two
    timers (the first load and the debounced save) and the browser's storage.
    A step is a call of one of the hook's functions or the firing of a timer;
    the conversation hook turns the user's actions into such calls and into
    requests to the chat handler. *)

From S2P Require Import Prelude JsNumber JsValue JsRegex ZodCodec.
From S2P Require Import PlaygroundMessage PlaygroundStream PlaygroundStorage PlaygroundStorageFacts.

(** [updateConfig(key, value)] *)
Inductive ConfigUpdate :=
| SetModel (s : jsstr) | SetGroup (s : jsstr) | SetTemperature (x : number)
| SetTopP (x : number) | SetMaxTokens (x : number) | SetFrequencyPenalty (x : number)
| SetPresencePenalty (x : number) | SetSeed (x : option number) | SetStream (b : bool).

(** [{...prev, [key]: value}] *)
Definition update_config (u : ConfigUpdate) (c : PlaygroundConfig) : PlaygroundConfig :=
  let '(mkConfig m g t p mt fp pp s b) := c in
  match u with
  | SetModel x => mkConfig x g t p mt fp pp s b
  | SetGroup x => mkConfig m x t p mt fp pp s b
  | SetTemperature x => mkConfig m g x p mt fp pp s b
  | SetTopP x => mkConfig m g t x mt fp pp s b
  | SetMaxTokens x => mkConfig m g t p x fp pp s b
  | SetFrequencyPenalty x => mkConfig m g t p mt x pp s b
  | SetPresencePenalty x => mkConfig m g t p mt fp x s b
  | SetSeed x => mkConfig m g t p mt fp pp x b
  | SetStream x => mkConfig m g t p mt fp pp s x
  end.

Inductive ParameterKey :=
| KTemperature | KTopP | KMaxTokens | KFrequencyPenalty | KPresencePenalty | KSeed.

Definition update_enabled (k : ParameterKey) (v : bool) (e : ParameterEnabled) : ParameterEnabled :=
  let '(mkEnabled t p mt fp pp s) := e in
  match k with
  | KTemperature => mkEnabled v p mt fp pp s
  | KTopP => mkEnabled t v mt fp pp s
  | KMaxTokens => mkEnabled t p v fp pp s
  | KFrequencyPenalty => mkEnabled t p mt v pp s
  | KPresencePenalty => mkEnabled t p mt fp v s
  | KSeed => mkEnabled t p mt fp pp v
  end.

Record PgState := mkPg {
  pg_config : PlaygroundConfig;
  pg_enabled : ParameterEnabled;
  pg_messages : list Message;
  pg_isLoadingMessages : bool;
  (** [messagesSaveTimerRef.current !== null] *)
  pg_saveTimer : bool;
  pg_latest : list Message;
  pg_hasLoaded : bool;
  (** The timer of the first load has not fired; the cleanup has run. *)
  pg_loadTimer : bool;
  pg_unmounted : bool;
  pg_store : store }.

Section Hook.
Context {zod : Zod} (within_quota : store -> bool) (t : jsstr -> jsstr).

Definition pg_initial (st : store) : PgState :=
  mkPg (getInitialPlaygroundConfig st) (getInitialParameterEnabled st) [] true false [] false
    true false st.

Definition persistMessages (ms : list Message) (s : PgState) : PgState :=
  mkPg (pg_config s) (pg_enabled s) (pg_messages s) (pg_isLoadingMessages s)
    (if pg_hasLoaded s then true else pg_saveTimer s) ms (pg_hasLoaded s) (pg_loadTimer s)
    (pg_unmounted s) (pg_store s).

(** The callback of the save timer. *)
Definition save_timer (s : PgState) : PgState :=
  mkPg (pg_config s) (pg_enabled s) (pg_messages s) (pg_isLoadingMessages s) false (pg_latest s)
    (pg_hasLoaded s) (pg_loadTimer s) (pg_unmounted s)
    (saveMessages within_quota (pg_latest s) (pg_store s)).

(** The callback of the load timer; it reads the storage before it looks at
    [cancelled]. *)
Definition load_timer (clk : nat -> number) (s : PgState) : PgState :=
  let '(loaded, st) := loadMessages within_quota t clk (pg_store s) in
  let ms := default [] loaded in
  if pg_unmounted s then
    mkPg (pg_config s) (pg_enabled s) (pg_messages s) (pg_isLoadingMessages s) (pg_saveTimer s)
      (pg_latest s) (pg_hasLoaded s) false true st
  else mkPg (pg_config s) (pg_enabled s) ms false (pg_saveTimer s) ms true false false st.

(** The two cleanups. *)
Definition unmount (s : PgState) : PgState :=
  mkPg (pg_config s) (pg_enabled s) (pg_messages s) (pg_isLoadingMessages s) false (pg_latest s)
    (pg_hasLoaded s) (pg_loadTimer s) true
    (if pg_saveTimer s then saveMessages within_quota (pg_latest s) (pg_store s) else pg_store s).

Definition updateConfig (u : ConfigUpdate) (s : PgState) : PgState :=
  let updated := update_config u (pg_config s) in
  mkPg updated (pg_enabled s) (pg_messages s) (pg_isLoadingMessages s) (pg_saveTimer s)
    (pg_latest s) (pg_hasLoaded s) (pg_loadTimer s) (pg_unmounted s)
    (saveConfig within_quota (full_config updated) (pg_store s)).

Definition updateParameterEnabled (k : ParameterKey) (v : bool) (s : PgState) : PgState :=
  let updated := update_enabled k v (pg_enabled s) in
  mkPg (pg_config s) updated (pg_messages s) (pg_isLoadingMessages s) (pg_saveTimer s)
    (pg_latest s) (pg_hasLoaded s) (pg_loadTimer s) (pg_unmounted s)
    (saveParameterEnabled within_quota (full_enabled updated) (pg_store s)).

Definition updateMessages (u : MessageStateUpdater) (s : PgState) : PgState :=
  let newMessages := applyMessageStateUpdate (pg_messages s) u in
  let s := persistMessages newMessages s in
  mkPg (pg_config s) (pg_enabled s) newMessages (pg_isLoadingMessages s) (pg_saveTimer s)
    (pg_latest s) (pg_hasLoaded s) (pg_loadTimer s) (pg_unmounted s) (pg_store s).

Definition clearMessages (s : PgState) : PgState := updateMessages (SetMessages []) s.

Definition resetConfig (s : PgState) : PgState :=
  mkPg DEFAULT_CONFIG DEFAULT_PARAMETER_ENABLED (pg_messages s) (pg_isLoadingMessages s)
    (pg_saveTimer s) (pg_latest s) (pg_hasLoaded s) (pg_loadTimer s) (pg_unmounted s)
    (saveParameterEnabled within_quota (full_enabled DEFAULT_PARAMETER_ENABLED)
       (saveConfig within_quota (full_config DEFAULT_CONFIG) (pg_store s))).

(** A step of the hook; the functions are called while it is mounted. *)
Inductive pg_step : PgState -> PgState -> Prop :=
| step_load clk s : pg_loadTimer s = true -> pg_step s (load_timer clk s)
| step_save s : pg_saveTimer s = true -> pg_step s (save_timer s)
| step_config u s : pg_unmounted s = false -> pg_step s (updateConfig u s)
| step_enabled k v s : pg_unmounted s = false -> pg_step s (updateParameterEnabled k v s)
| step_messages u s : pg_unmounted s = false -> pg_step s (updateMessages u s)
| step_clear s : pg_unmounted s = false -> pg_step s (clearMessages s)
| step_reset s : pg_unmounted s = false -> pg_step s (resetConfig s)
| step_unmount s : pg_unmounted s = false -> pg_step s (unmount s).

Inductive pg_reachable (st : store) : PgState -> Prop :=
| pg_start : pg_reachable st (pg_initial st)
| pg_next s s' : pg_reachable st s -> pg_step s s' -> pg_reachable st s'.

End Hook.

(** ** [use-playground-conversation.ts]

    The state is the key of the message being edited; a handler's effects are
    the updates and the requests it issues, in order.  Identifiers from
    [nanoid] and the readings of the clock are arguments. *)

Inductive ConversationEffect :=
| UpdateMessages (u : MessageStateUpdater)
| SendChat (ms : list Message).

Definition handleSendMessage (ms : list Message) (text k1 v1 k2 v2 : jsstr) (now : number)
  : list ConversationEffect :=
  let next := appendUserMessagePair ms text k1 v1 k2 v2 now in
  [UpdateMessages (SetMessages next); SendChat next].

Definition handleRegenerateMessage (ms : list Message) (m : Message) (k v : jsstr) (now : number)
  : list ConversationEffect :=
  match createRegeneratedMessages ms (key m) k v now with
  | None => []
  | Some next => [UpdateMessages (SetMessages next); SendChat next]
  end.

Definition handleEditMessage (m : Message) : option jsstr := Some (key m).

Definition handleEditOpenChange (open : bool) (editing : option jsstr) : option jsstr :=
  if open then editing else None.

(** The new editing key and the effects. *)
Definition applyEdit (ms : list Message) (editing : option jsstr) (newContent : jsstr)
    (shouldSubmit : bool) (k v : jsstr) (now : number) : option jsstr * list ConversationEffect :=
  match editing with
  | None | Some [] => (editing, [])
  | Some editingKey =>
      match applyMessageEdit ms editingKey newContent shouldSubmit k v now with
      | None => (editing, [])
      | Some r =>
          (None, UpdateMessages (SetMessages (e_messages r))
                 :: if shouldSend r then [SendChat (e_messages r)] else [])
      end
  end.

Definition handleDeleteMessage (m : Message) : list ConversationEffect :=
  [UpdateMessages (UpdateWith (fun previous => removeMessageByKey previous (key m)))].

(** ** [use-playground-options.ts]: the effects that follow a reply *)

Definition models_effect (models : list ModelOption) (currentModel : jsstr) : list ConfigUpdate :=
  match getModelFallback models currentModel with
  | Some ((_ :: _) as fallback) => [SetModel fallback]
  | _ => if shouldClearModelForGroup models currentModel then [SetModel []] else []
  end.

Definition groups_effect (groups : list GroupOption) (currentGroup : jsstr) : list ConfigUpdate :=
  match getGroupFallback groups currentGroup with
  | Some ((_ :: _) as fallback) => [SetGroup fallback]
  | _ => []
  end.

(** ** Theorems *)

Section HookFacts.
Context {zod : Zod} (within_quota : store -> bool) (t : jsstr -> jsstr).

(** The text of the last 100 messages, which a save writes. *)
Definition kept_text (ms : list Message) : jsstr := messages_text (trimMessages ms).1.

Lemma saveConfig_messages c st :
  saveConfig within_quota c st !! STORAGE_KEYS.MESSAGES = st !! STORAGE_KEYS.MESSAGES.
Proof.
  unfold saveConfig, writeStoredValue. destruct (zparse _ _); simpl; [|done].
  destruct (within_quota _); simpl; [by rewrite lookup_insert_ne|done].
Qed.

Lemma saveParameterEnabled_messages e st :
  saveParameterEnabled within_quota e st !! STORAGE_KEYS.MESSAGES = st !! STORAGE_KEYS.MESSAGES.
Proof.
  unfold saveParameterEnabled, writeStoredValue. destruct (zparse _ _); simpl; [|done].
  destruct (within_quota _); simpl; [by rewrite lookup_insert_ne|done].
Qed.

(** Only the entry of the messages matters to a load. *)
Lemma loadMessages_result_ext clk st st' :
  st !! STORAGE_KEYS.MESSAGES = st' !! STORAGE_KEYS.MESSAGES ->
  (loadMessages within_quota t clk st).1 = (loadMessages within_quota t clk st').1.
Proof.
  intros H. unfold loadMessages, readStoredMessagesValue. rewrite <- H.
  destruct (st !! STORAGE_KEYS.MESSAGES) as [[|c w]|]; [done| |done].
  destruct (_ >? _)%Z; [done|]. destruct (json_parse _) as [v|]; [simpl|done].
  destruct (truthy v); [simpl|done]. destruct (parse_as _ _ _); [|done].
  destruct (trimMessages _) as [trimmed b]. simpl.
  by destruct (sanitizeMessagesOnLoad _ _ _ _ _).
Qed.

(** A failed load leaves nothing that a later load would find. *)
Lemma load_none_again clk st st' clk' :
  loadMessages within_quota t clk st = (None, st') ->
  (loadMessages within_quota t clk' st').1 = None.
Proof.
  unfold loadMessages, readStoredMessagesValue.
  destruct (st !! STORAGE_KEYS.MESSAGES) as [[|c w]|] eqn:E.
  - intros [= <-]. by rewrite E.
  - destruct (_ >? _)%Z eqn:El.
    + intros [= <-]. by rewrite lookup_delete_eq.
    + destruct (json_parse _) as [v|] eqn:Ej; simpl; [|intros [= <-]; by rewrite E, El, Ej].
      destruct (truthy v) eqn:Et; simpl; [|intros [= <-]; rewrite E, El, Ej; simpl; by rewrite Et].
      destruct (parse_as _ _ _) as [ps|] eqn:Ep;
        [|intros [= <-]; rewrite E, El, Ej; simpl; by rewrite Et, Ep].
      destruct (trimMessages _) as [trimmed b]. simpl.
      by destruct (sanitizeMessagesOnLoad _ _ _ _ _).
  - intros [= <-]. by rewrite E.
Qed.

Section Run.
Context (first : store).

(** What is stored for the messages [ms] at the state [s] of a run: their text;
    or what an earlier state of the run had stored, where the browser refused to
    write that text; or nothing that can be loaded, for no messages. *)
Definition persisted (s : PgState) (ms : list Message) (st : store) : Prop :=
  st !! STORAGE_KEYS.MESSAGES = Some (kept_text ms)
  \/ (exists s0, pg_reachable within_quota t first s0 /\ rtc (pg_step within_quota t) s0 s
        /\ within_quota (<[STORAGE_KEYS.MESSAGES := kept_text ms]> (pg_store s0)) = false
        /\ st !! STORAGE_KEYS.MESSAGES = pg_store s0 !! STORAGE_KEYS.MESSAGES)
  \/ ms = [] /\ forall clk, (loadMessages within_quota t clk st).1 = None.

Lemma save_persisted s0 s ms :
  pg_reachable within_quota t first s0 -> rtc (pg_step within_quota t) s0 s -> Forall message_ok ms ->
  persisted s ms (saveMessages within_quota ms (pg_store s0)).
Proof.
  intros H0 Hs Hok. rewrite saveMessages_ok by done. cbv zeta. fold (kept_text ms).
  destruct (within_quota _) eqn:Eq; [left; apply lookup_insert_eq|right; left].
  by exists s0.
Qed.

Lemma persisted_next s s' ms st st' :
  persisted s ms st -> pg_step within_quota t s s' ->
  st !! STORAGE_KEYS.MESSAGES = st' !! STORAGE_KEYS.MESSAGES -> persisted s' ms st'.
Proof.
  intros [H|[(s0 & H1 & H2 & H3 & H4)|[-> H]]] Hs E.
  - left. by rewrite <- E.
  - right. left. exists s0. split_and!; [done|by eapply rtc_r|done|by rewrite <- E].
  - right. right. split; [done|]. intros clk. by rewrite <- (loadMessages_result_ext clk st).
Qed.

Record pg_inv (s : PgState) : Prop := {
  inv_timer : pg_saveTimer s = true -> pg_hasLoaded s = true /\ pg_unmounted s = false;
  inv_load : pg_loadTimer s = negb (pg_hasLoaded s)
             \/ pg_unmounted s = true /\ pg_hasLoaded s = false;
  inv_latest : pg_hasLoaded s = true -> pg_latest s = pg_messages s;
  inv_sync : pg_hasLoaded s = true -> pg_saveTimer s = false ->
             Forall message_ok (pg_messages s) -> persisted s (pg_messages s) (pg_store s) }.

Lemma pg_inv_load clk s :
  pg_reachable within_quota t first s -> pg_inv s -> pg_loadTimer s = true ->
  pg_inv (load_timer within_quota t clk s).
Proof.
  intros Hr [I1 I2 I3 I4] Hl. pose proof (step_load within_quota t clk s Hl) as Hs. revert Hs. unfold load_timer.
  assert (Hn : pg_hasLoaded s = false) by (destruct I2 as [E|[_ E]]; [rewrite Hl in E|done]; by destruct (pg_hasLoaded s)).
  assert (Ht : pg_saveTimer s = false) by (destruct (pg_saveTimer s); [|done]; destruct I1; [done|congruence]).
  destruct (loadMessages within_quota t clk (pg_store s)) as [loaded st'] eqn:E.
  destruct (pg_unmounted s) eqn:Eu; intros Hs; split; simpl; rewrite ?Hn, ?Ht; try done; auto.
  intros _ _. destruct loaded as [ms|]; simpl in *.
  - apply loadMessages_writes_back in E as ->. apply save_persisted; [done|rewrite Ht in Hs; by apply rtc_once].
  - intros _. right. right. split; [done|]. intros clk'. by eapply load_none_again.
Qed.

Lemma pg_inv_update u s :
  pg_inv s -> pg_unmounted s = false -> pg_inv (updateMessages u s).
Proof.
  intros [I1 I2 I3 I4] Hu. split; simpl; auto.
  - destruct (pg_hasLoaded s); auto.
  - by intros ->.
Qed.

(** A step that leaves the messages and the stored entry of them. *)
Lemma persisted_kept s s' :
  pg_inv s -> pg_step within_quota t s s' -> pg_messages s' = pg_messages s ->
  pg_hasLoaded s' = pg_hasLoaded s -> pg_saveTimer s = false ->
  pg_store s !! STORAGE_KEYS.MESSAGES = pg_store s' !! STORAGE_KEYS.MESSAGES ->
  pg_hasLoaded s' = true -> Forall message_ok (pg_messages s') ->
  persisted s' (pg_messages s') (pg_store s').
Proof.
  intros [I1 I2 I3 I4] Hs -> Hl Ht E H Hok. rewrite Hl in H. eapply persisted_next; [by apply I4|done|done].
Qed.

Lemma pg_inv_step s s' :
  pg_reachable within_quota t first s -> pg_inv s -> pg_step within_quota t s s' -> pg_inv s'.
Proof.
  intros Hr Hi Hs. pose proof Hs as Hstep. pose proof Hi as [I1 I2 I3 I4].
  destruct Hs as [clk s Hl|s Ht|u s Hu|k v s Hu|u s Hu|s Hu|s Hu|s Hu];
    [by apply pg_inv_load| | | |by apply pg_inv_update|by apply pg_inv_update| |];
    split; simpl; auto; try done.
  - intros Hl _ Hok. rewrite <- I3 in * by done. apply save_persisted; [done|by apply rtc_once|done].
  - intros Hl Ht Hok. apply (persisted_kept _ _ Hi Hstep); try done. cbn. by rewrite saveConfig_messages.
  - intros Hl Ht Hok. apply (persisted_kept _ _ Hi Hstep); try done. cbn. by rewrite saveParameterEnabled_messages.
  - intros Hl Ht Hok. apply (persisted_kept _ _ Hi Hstep); try done. cbn.
    by rewrite saveParameterEnabled_messages, saveConfig_messages.
  - destruct I2 as [E|[E _]]; [|congruence]. destruct (pg_hasLoaded s) eqn:Eh; auto.
  - intros Hl _ Hok. destruct (pg_saveTimer s) eqn:Et.
    + rewrite <- I3 in * by done. apply save_persisted; [done|by apply rtc_once|done].
    + eapply persisted_next; [by apply I4|done|done].
Qed.

Lemma pg_inv_reachable s : pg_reachable within_quota t first s -> pg_inv s.
Proof. induction 1 as [|s s' Hr IH Hs]; [by split; simpl; auto|]. by eapply pg_inv_step. Qed.

(** C11: No edit of a loaded conversation is lost silently.  In every state the
    hook can reach, once the stored conversation has been read and as long as
    every message has a version and numbers that JSON can carry, so that the
    schema accepts it: either the debounced save is pending, or
    what is stored is the text of the last 100 messages, or the browser refused
    that very text earlier in the run and what it had stored then is still there
    (an empty conversation may also have nothing stored that can be loaded).
    The same holds after unmounting, with no save left pending; and when the
    browser refuses nothing and the conversation is within the limits of a load,
    the next visit loads what was on the screen. *)
Theorem persistence_invariant s :
  pg_reachable within_quota t first s -> pg_hasLoaded s = true -> Forall message_ok (pg_messages s) ->
  (pg_saveTimer s = true \/ persisted s (pg_messages s) (pg_store s))
  /\ pg_saveTimer (unmount within_quota s) = false
  /\ persisted s (pg_messages s) (pg_store (unmount within_quota s))
  /\ ((forall st, within_quota st = true) -> Forall within_limits (pg_messages s) ->
      length (pg_messages s) <= MAX_STORED_MESSAGES ->
      (total_size (pg_messages s) <= MAX_LOADED_MESSAGES_CHARS)%Z ->
      (len (messages_text (pg_messages s)) <= MAX_STORED_MESSAGES_BYTES)%Z ->
      forall clk, default [] (loadMessages within_quota t clk (pg_store (unmount within_quota s))).1
                  = pg_messages s).
Proof.
  intros Hr Hl Hok. destruct (pg_inv_reachable s Hr) as [I1 I2 I3 I4].
  assert (Hu : persisted s (pg_messages s) (pg_store (unmount within_quota s))).
  { simpl. destruct (pg_saveTimer s) eqn:Et; [|by apply I4].
    rewrite <- I3 in * by done. by apply save_persisted. }
  split_and!; [destruct (pg_saveTimer s); auto|done|done|].
  intros Hq Hlim Hn Hs Ht clk. destruct Hu as [E|[(s0 & _ & _ & E & _)|[-> E]]].
  - unfold kept_text in E. rewrite trimMessages_all in E by done. by rewrite (load_text within_quota t clk (pg_messages s)).
  - by rewrite Hq in E.
  - by rewrite E.
Qed.
End Run.
End HookFacts.

(** Example messages put in place of an empty store; the page is left. *)
Lemma persistence_invariant_witness :
  let s := updateMessages (SetMessages example_messages)
             (load_timer (zod := reference_zod) (fun _ => true) id (fun _ => num_of_Z 0)
                (pg_initial (zod := reference_zod) ∅)) in
  pg_saveTimer s = true
  /\ default [] (loadMessages (zod := reference_zod) (fun _ => true) id (fun _ => num_of_Z 9)
       (pg_store (unmount (zod := reference_zod) (fun _ => true) s))).1 = example_messages.
Proof.
  intros s. split; [reflexivity|].
  assert (Hr : pg_reachable (zod := reference_zod) (fun _ => true) id ∅ s).
  { eapply pg_next; [eapply pg_next; [apply pg_start|by apply step_load]|by apply step_messages]. }
  refine (proj2 (proj2 (proj2 (persistence_invariant (zod := reference_zod) (fun _ => true) id
    ∅ s Hr eq_refl _))) (fun _ => eq_refl) _ _ _ _ (fun _ => num_of_Z 9)); by_decision.
Defined.

Lemma existsb_offered {A} (f : A -> jsstr) (l : list A) x :
  existsb (fun o => bool_decide (f o = x)) l = true <-> x ∈ (f <$> l).
Proof.
  rewrite existsb_exists, list_elem_of_fmap. split.
  - intros (o & Ho & E). apply bool_decide_eq_true in E. exists o. split; [done|].
    by apply list_elem_of_In.
  - intros (o & -> & Ho). exists o. split; [by apply list_elem_of_In|]. by apply bool_decide_true.
Qed.

Lemma existsb_not_offered {A} (f : A -> jsstr) (l : list A) x :
  ~ x ∈ (f <$> l) -> existsb (fun o => bool_decide (f o = x)) l = false.
Proof. intros H. apply not_true_is_false. by rewrite existsb_offered. Qed.

Lemma models_effect_offered models x : x ∈ (m_value <$> models) -> models_effect models x = [].
Proof.
  intros H. unfold models_effect, getModelFallback, shouldClearModelForGroup.
  apply existsb_offered in H. rewrite H. by destruct (nonempty x).
Qed.

(** The possible outcomes of the effect on the models. *)
Lemma models_effect_cases models x :
  (models_effect models x = [] /\ (x ∈ (m_value <$> models) \/ x = []))
  \/ (exists o rest, models = o :: rest /\ m_value o <> []
      /\ models_effect models x = [SetModel (m_value o)])
  \/ (models_effect models x = [SetModel []]
      /\ match models with [] => True | o :: _ => m_value o = [] end).
Proof.
  destruct (decide (x ∈ (m_value <$> models))) as [Hx|Hx].
  { left. auto using models_effect_offered. }
  unfold models_effect, getModelFallback, shouldClearModelForGroup.
  rewrite existsb_not_offered by done. destruct models as [|o rest].
  - destruct x as [|c x]; simpl; auto.
  - destruct (m_value o) as [|c v] eqn:E.
    + destruct x as [|c x]; simpl; auto.
    + right. left. exists o, rest. rewrite E. auto.
Qed.

Lemma getGroupFallback_offered groups x y :
  getGroupFallback groups x = Some y -> y ∈ (g_value <$> groups).
Proof.
  unfold getGroupFallback. destruct (existsb _ _); [done|]. destruct groups as [|g0 groups]; [done|].
  destruct (List.find _ _) as [g|] eqn:E; intros [= <-]; apply list_elem_of_fmap.
  - apply List.find_some in E as [Hin _]. exists g. split; [done|]. by apply list_elem_of_In.
  - exists g0. split; [done|]. by left.
Qed.

Lemma groups_effect_offered groups x : x ∈ (g_value <$> groups) -> groups_effect groups x = [].
Proof.
  intros H. unfold groups_effect, getGroupFallback. apply existsb_offered in H. by rewrite H.
Qed.

Lemma groups_effect_cases groups x :
  (groups_effect groups x = []
     /\ (x ∈ (g_value <$> groups) \/ groups = [] \/ [] ∈ (g_value <$> groups)))
  \/ exists y, y ∈ (g_value <$> groups) /\ groups_effect groups x = [SetGroup y].
Proof.
  destruct (decide (x ∈ (g_value <$> groups))) as [Hx|Hx].
  { left. auto using groups_effect_offered. }
  unfold groups_effect. destruct (getGroupFallback groups x) as [y|] eqn:E.
  - apply getGroupFallback_offered in E. destruct y as [|c y]; [by auto|right; eauto].
  - left. split; [done|]. right. left. unfold getGroupFallback in E.
    rewrite existsb_not_offered in E by done. by destruct groups.
Qed.

(** The option effects settle: after the updates one of them makes to the
    configuration, running it again on the same reply makes none; the selected
    model is then an offered one or blank, and the selected group an offered
    one when the reply offers groups and all have names. *)
Theorem options_settle models groups c :
  let cm := fold_left (fun c u => update_config u c) (models_effect models (model c)) c in
  let cg := fold_left (fun c u => update_config u c) (groups_effect groups (group c)) c in
  (models_effect models (model cm) = []
     /\ (model cm ∈ (m_value <$> models) \/ model cm = []))
  /\ groups_effect groups (group cg) = []
  /\ (groups = [] \/ [] ∈ (g_value <$> groups) \/ group cg ∈ (g_value <$> groups)).
Proof.
  assert (Hm : forall m x, model (update_config (SetModel x) m) = x) by (by intros [] x).
  assert (Hg : forall m x, group (update_config (SetGroup x) m) = x) by (by intros [] x).
  cbv zeta. split.
  - destruct (models_effect_cases models (model c))
      as [[E Hx]|[(o & rest & -> & Ho & E)|[E Ho]]]; rewrite E; cbn [fold_left]; rewrite ?Hm.
    + by rewrite E.
    + assert (m_value o ∈ (m_value <$> o :: rest)) by (rewrite fmap_cons; by left).
      auto using models_effect_offered.
    + split; [|by right]. destruct models as [|o rest]; [done|].
      apply models_effect_offered. rewrite fmap_cons, Ho. by left.
  - destruct (groups_effect_cases groups (group c)) as [[E Hx]|(y & Hy & E)]; rewrite E;
      cbn [fold_left]; rewrite ?Hg; [rewrite E; naive_solver|].
    auto using groups_effect_offered.
Qed.
