(* ===== verification/PlaygroundRequest.v ===== *)
(** * What the playground sends

    The handlers of the conversation ([hooks/use-playground-conversation.ts])
    with the chat handler they call ([hooks/use-chat-handler.ts]): the requests
    that sending, regenerating and editing a message make, from the message the
    user acted on down to the body of the request. *)

From S2P Require Import Prelude JsNumber JsValue.
From S2P Require Import PlaygroundMessage PlaygroundMessageFacts PlaygroundStream PlaygroundChat PlaygroundHooks.

(** The chat handler on the effects of a handler, in order.  The updates of the
    messages go to the state hook and leave the requests alone. *)
Definition run_effect (t : jsstr -> jsstr) (cfg : PlaygroundConfig) (en : ParameterEnabled)
    (started : bool) (clk : clock) (c : Chat) (e : ConversationEffect) : Chat :=
  match e with
  | UpdateMessages _ => c
  | SendChat ms => sendChat t ms cfg en started clk c
  end.

(** ** The specification *)

(** What is sent of a message: its first version, unless it has none or is an
    answer without text. *)
Definition sent (m : Message) : option ChatCompletionMessage :=
  match versions m, from m with
  | [], _ => None
  | v :: _, Assistant =>
      if nonempty (trim (v_content v)) then Some (mkChatMessage Assistant (v_content v)) else None
  | v :: _, r => Some (mkChatMessage r (v_content v))
  end.

(** A parameter is in the body with the configured value, or is not in it. *)
Definition parameter (enabled : bool) (value : number) (field : option number) : Prop :=
  match field with Some x => enabled = true /\ x = value | None => enabled = false end.

Record request_for (cfg : PlaygroundConfig) (en : ParameterEnabled)
    (body : list ChatCompletionMessage) (q : ChatCompletionRequest) : Prop := {
  rf_messages : q_messages q = body;
  rf_model : q_model q = model cfg;
  rf_group : q_group q = group cfg;
  rf_stream : q_stream q = stream cfg;
  rf_temperature : parameter (en_temperature en) (temperature cfg) (q_temperature q);
  rf_top_p : parameter (en_top_p en) (top_p cfg) (q_top_p q);
  rf_max_tokens : parameter (en_max_tokens en) (max_tokens cfg) (q_max_tokens q);
  rf_frequency : parameter (en_frequency_penalty en) (frequency_penalty cfg) (q_frequency_penalty q);
  rf_presence : parameter (en_presence_penalty en) (presence_penalty cfg) (q_presence_penalty q);
  rf_seed : match q_seed q with
            | Some x => en_seed en = true /\ seed cfg = Some x
            | None => en_seed en = false \/ seed cfg = None
            end }.

(** ** The body of a request *)

Lemma sent_filter ms : List.map formatMessageForAPI (List.filter isValidMessage ms) = omap sent ms.
Proof.
  induction ms as [|m ms IH]; [done|]. cbn [List.filter omap list_omap].
  unfold isValidMessage, sent, formatMessageForAPI, hasMessageContent, getMessageContent, getCurrentVersion in *.
  destruct (versions m) as [|v vs] eqn:E; cbn [nonempty negb]; [exact IH|].
  destruct (from m) eqn:Ef.
  all: first [rewrite bool_decide_eq_false_2 by congruence|rewrite bool_decide_eq_true_2 by done]; cbn [andb].
  all: try (cbn [List.map]; rewrite IH; by rewrite E, Ef).
  destruct (nonempty (trim (v_content v))); cbn [negb List.map]; [|exact IH]. rewrite IH. by rewrite E, Ef.
Qed.

Lemma payload_request ms cfg en :
  request_for cfg en (omap sent ms) (buildChatCompletionPayload ms cfg en).
Proof.
  split; [apply sent_filter|done|done|done|..]; simpl; unfold when;
    match goal with
    | |- parameter (?f en) _ _ => by destruct (f en)
    | _ => destruct (en_seed en), (seed cfg); auto
    end.
Qed.

Lemma flush_payloads clk c : sentPayloads (flushStreamUpdates clk c) = sentPayloads c.
Proof. unfold flushStreamUpdates. by destruct (_ && _). Qed.

Lemma sendChat_payloads t ms cfg en started clk c :
  sentPayloads (sendChat t ms cfg en started clk c)
  = sentPayloads c ++ [buildChatCompletionPayload ms cfg en].
Proof.
  unfold sendChat. destruct (stream cfg); [|done]. unfold sendStreamingChat.
  destruct started; [done|]. cbn [on_stream handleStreamError on_messages add_toast set_requesting sentPayloads].
  by rewrite flush_payloads.
Qed.

(** The loading answer a handler appends is not sent. *)
Lemma sent_loading ms k v now :
  omap sent (ms ++ [createLoadingAssistantMessage k v now]) = omap sent ms.
Proof. by rewrite omap_app, app_nil_r. Qed.

Lemma find_key_first kept m rest :
  (forall m', m' ∈ kept -> key m' <> key m) -> find_key (kept ++ m :: rest) (key m) = Some (length kept).
Proof.
  induction kept as [|x kept IH]; intros H; simpl; [by rewrite decide_True|].
  rewrite decide_False by (apply H; by left). rewrite IH; [done|]. intros m' Hm. apply H. by right.
Qed.

Lemma edited_kept kept mk text b now :
  (forall m', m' ∈ kept -> key m' <> mk) -> List.map (edit_one mk text b now) kept = kept.
Proof.
  induction kept as [|x kept IH]; intros H; [done|]. cbn [List.map].
  rewrite IH by (intros m' Hm; apply H; by right). f_equal.
  apply (edit_one_frame mk text b now x). apply H. by left.
Qed.

(** ** The requests of the handlers *)

Section Requests.
Context (t : jsstr -> jsstr) (cfg : PlaygroundConfig) (en : ParameterEnabled) (started : bool)
  (clk : clock) (c : Chat).

(** The requests that the effects add to the ones already sent. *)
Definition one_request (body : list ChatCompletionMessage) (es : list ConversationEffect) : Prop :=
  exists q, request_for cfg en body q
    /\ sentPayloads (fold_left (run_effect t cfg en started clk) es c) = sentPayloads c ++ [q].
Definition no_request (es : list ConversationEffect) : Prop :=
  sentPayloads (fold_left (run_effect t cfg en started clk) es c) = sentPayloads c.

Lemma send_request u ms body : body = omap sent ms -> one_request body [UpdateMessages u; SendChat ms].
Proof.
  intros ->. exists (buildChatCompletionPayload ms cfg en). split; [apply payload_request|].
  apply sendChat_payloads.
Qed.

(** C27: What is sent to the model.  Sending a text makes one request with what
    is sent of the conversation so far, then the text as the user's message.
    Regenerating at a message makes one request with what comes before the
    message, and the message itself when the user wrote it; submitting an edit
    of a user's message one request with what comes before it and the new text.
    Saving an edit, and editing an answer, make none.  What is sent of a message
    is its role and its first version, nothing for an answer without text or a
    message without versions, so the answer in progress is not sent; the request
    has the configured model, group and stream flag, and each of the six
    parameters exactly when it is enabled (the seed also only when it is set),
    with its configured value. *)
Theorem request_spec ms text k1 v1 k2 v2 now :
  one_request (omap sent ms ++ [mkChatMessage User text]) (handleSendMessage ms text k1 v1 k2 v2 now)
  /\ forall kept m rest, ms = kept ++ m :: rest -> (forall m', m' ∈ kept -> key m' <> key m) ->
     one_request (omap sent kept ++ (if decide (from m = User) then omap sent [m] else []))
       (handleRegenerateMessage ms m k1 v1 now)
     /\ (key m <> [] ->
         no_request (applyEdit ms (Some (key m)) text false k1 v1 now).2
         /\ let es := (applyEdit ms (Some (key m)) text true k1 v1 now).2 in
            if decide (from m = User)
            then one_request (omap sent kept ++ [mkChatMessage User text]) es
            else no_request es).
Proof.
  split; [apply send_request; unfold appendUserMessagePair; rewrite omap_app; done|].
  intros kept m rest -> Hk. pose proof (find_key_first kept m rest Hk) as Hf.
  assert (Hl : (kept ++ m :: rest) !! length kept = Some m) by (by rewrite list_lookup_middle).
  split.
  - unfold handleRegenerateMessage, createRegeneratedMessages. rewrite Hf, Hl.
    destruct (decide (from m = User)) as [Hu|Hu];
      [rewrite bool_decide_eq_true_2 by done|rewrite bool_decide_eq_false_2 by done];
      apply send_request; rewrite sent_loading.
    + by rewrite Nat.add_1_r, (take_S_r _ _ _ Hl), take_app_length, omap_app.
    + by rewrite take_app_length, app_nil_r.
  - intros Hne. cbv zeta. unfold applyEdit, applyMessageEdit. destruct (key m) as [|ck sk] eqn:Ek; [done|].
    rewrite Hf, !map_app. cbn [List.map]. rewrite !(edited_kept kept) by done.
    destruct (edit_one_frame (ck :: sk) text false now m) as (_ & Hf0 & _ & _).
    destruct (edit_one_frame (ck :: sk) text true now m) as (_ & Hf1 & _ & Hc).
    rewrite !list_lookup_middle by done. cbn [negb orb]. split; [done|]. rewrite Hf1.
    destruct (decide (from m = User)) as [Hu|Hu];
      [rewrite bool_decide_eq_true_2 by done|by rewrite bool_decide_eq_false_2 by done].
    apply send_request. cbn [e_messages]. rewrite sent_loading.
    rewrite Nat.add_1_r, (take_S_r _ _ (edit_one (ck :: sk) text true now m)), take_app_length, omap_app
      by (by rewrite list_lookup_middle).
    f_equal. unfold edit_one. rewrite bool_decide_eq_true_2 by done. cbn. by rewrite Hu.
Qed.
End Requests.

(** An empty text is sent; an answer that is still empty, and one that failed
    before its text, are not. *)
Example requests_of_blank_messages :
  omap sent [createUserMessage (js "k") (js "v") [] (num_of_Z 0);
             createLoadingAssistantMessage (js "k2") (js "v2") (num_of_Z 0)]
  = [mkChatMessage User []].
Proof. reflexivity. Qed.

(** Regenerating the answer to a question: the question is sent. *)
Definition asked : Message := createUserMessage (js "k1") (js "v1") (js "Why?") (num_of_Z 1).
Definition answered : Message :=
  updateCurrentVersionContent (createLoadingAssistantMessage (js "k2") (js "v2") (num_of_Z 1)) (js "Because.").
Lemma request_spec_witness :
  one_request id DEFAULT_CONFIG DEFAULT_PARAMETER_ENABLED true (fun _ => num_of_Z 2) (initial [])
    [mkChatMessage User (js "Why?")]
    (handleRegenerateMessage [asked; answered] answered (js "k3") (js "v3") (num_of_Z 2)).
Proof.
  refine (proj1 (proj2 (request_spec id DEFAULT_CONFIG DEFAULT_PARAMETER_ENABLED true (fun _ => num_of_Z 2)
    (initial []) [asked; answered] (js "And?") (js "k3") (js "v3") (js "k4") (js "v4") (num_of_Z 2))
    [asked] answered [] eq_refl _)).
  intros m' ->%list_elem_of_singleton. discriminate.
Defined.
