(* ===== verification/JsRegexFacts.v ===== *)
(** * What a match means

    The relation [matches r st st'] says that [r] can match from the position
    [st] to the position [st'], by any choice of alternatives and of
    repetitions.  The backtracking matcher returns a position the relation
    allows ([m_sound]), and it returns one whenever the relation allows one
    its continuation accepts ([m_complete]); the order in which it tries the
    choices only matters where the relation leaves a choice. *)

From S2P Require Import Prelude JsRegex.

Definition set_cap (n : nat) (st y : mstate) : mstate :=
  mkSt (st_prev y) (st_idx y) (st_rest y)
    ((n, take (length (st_rest st) - length (st_rest y)) (st_rest st)) :: st_caps y).

#[warnings="-register-all"]
Inductive matches : regex -> mstate -> mstate -> Prop :=
| M_empty st : matches REmpty st st
| M_char p st c rest : st_rest st = c :: rest -> p c = true -> matches (RChar p) st (adv1 c rest st)
| M_seq r1 r2 st st1 st2 : matches r1 st st1 -> matches r2 st1 st2 -> matches (RSeq r1 r2) st st2
| M_altl r1 r2 st st' : matches r1 st st' -> matches (RAlt r1 r2) st st'
| M_altr r1 r2 st st' : matches r2 st st' -> matches (RAlt r1 r2) st st'
| M_star0 r st : matches (RStar r) st st
| M_star1 r st st1 st2 :
    matches r st st1 -> length (st_rest st1) < length (st_rest st) ->
    matches (RStar r) st1 st2 -> matches (RStar r) st st2
| M_group n r st st' : matches r st st' -> matches (RGroup n r) st (set_cap n st st')
| M_back n st t : strip_prefix (group n st) (st_rest st) = Some t ->
    matches (RBack n) st (adv (group n st) st)
| M_begin b st :
    match st_prev st with None => true | Some c => b && is_line_end c end = true ->
    matches (RBegin b) st st
| M_end b st :
    match st_rest st with [] => true | c :: _ => b && is_line_end c end = true ->
    matches (REnd b) st st
| M_wordb st :
    xorb (match st_prev st with Some c => is_word c | None => false end)
         (match st_rest st with c :: _ => is_word c | [] => false end) = true ->
    matches RWordB st st.

(** The loop of [RStar]. *)
Definition star_loop (mr : (mstate -> option mstate) -> mstate -> option mstate)
    (k : mstate -> option mstate) :=
  fix loop (fuel : nat) (st : mstate) : option mstate :=
    match fuel with
    | 0 => k st
    | S f =>
        match mr (fun y => if length (st_rest y) <? length (st_rest st) then loop f y else None) st with
        | Some y => Some y
        | None => k st
        end
    end.

Lemma m_star r k st : m (RStar r) k st = star_loop (m r) k (S (length (st_rest st))) st.
Proof. reflexivity. Qed.

Lemma star_sound r k :
  (forall k st y, m r k st = Some y -> exists st', matches r st st' /\ k st' = Some y) ->
  forall fuel st y, star_loop (m r) k fuel st = Some y ->
  exists st', matches (RStar r) st st' /\ k st' = Some y.
Proof.
  intros IH. induction fuel as [|f IHf]; intros st y H; simpl in H.
  - exists st. auto using M_star0.
  - destruct (m r _ st) as [y'|] eqn:E.
    + injection H as ->. apply IH in E as (st1 & H1 & H2).
      destruct (Nat.ltb_spec (length (st_rest st1)) (length (st_rest st))); [|done].
      apply IHf in H2 as (st2 & H2 & Hk). exists st2. eauto using M_star1.
    + exists st. auto using M_star0.
Qed.

Lemma m_sound r : forall k st y,
  m r k st = Some y -> exists st', matches r st st' /\ k st' = Some y.
Proof.
  induction r as [|p|r1 IH1 r2 IH2|r1 IH1 r2 IH2|r IH|n r IH|n|b|b|]; intros k st y H.
  - simpl in H. eauto using M_empty.
  - simpl in H. destruct (st_rest st) as [|c rest] eqn:E; [done|].
    destruct (p c) eqn:Ep; [|done]. eauto using M_char.
  - simpl in H. apply IH1 in H as (st1 & H1 & H). apply IH2 in H as (st2 & H2 & H).
    eauto using M_seq.
  - simpl in H. destruct (m r1 k st) as [z|] eqn:E.
    + injection H as ->. apply IH1 in E as (st1 & H1 & H). eauto using M_altl.
    + apply IH2 in H as (st1 & H1 & H). eauto using M_altr.
  - rewrite m_star in H. by eapply star_sound.
  - simpl in H. apply IH in H as (st1 & H1 & H). exists (set_cap n st st1).
    split; [by constructor|done].
  - simpl in H. destruct (strip_prefix _ _) eqn:E; [|done]. eauto using M_back.
  - simpl in H. exists st. destruct (st_prev st) as [c|] eqn:E.
    + destruct (b && is_line_end c) eqn:Eb; [|done]. split; [constructor; by rewrite E|done].
    + split; [constructor; by rewrite E|done].
  - simpl in H. exists st. destruct (st_rest st) as [|c rest] eqn:E.
    + split; [constructor; by rewrite E|done].
    + destruct (b && is_line_end c) eqn:Eb; [|done]. split; [constructor; by rewrite E|done].
  - simpl in H. destruct (xorb _ _) eqn:E; [|done]. eauto using M_wordb.
Qed.

Lemma star_loop_ext (mr : (mstate -> option mstate) -> mstate -> option mstate) k k' :
  (forall h h' st, (forall y, h y = h' y) -> mr h st = mr h' st) -> (forall y, k y = k' y) ->
  forall fuel st, star_loop mr k fuel st = star_loop mr k' fuel st.
Proof.
  intros Hm Hk. induction fuel as [|f IH]; intros st; simpl; [done|].
  rewrite (Hm _ (fun y => if length (st_rest y) <? length (st_rest st)
                          then star_loop mr k' f y else None) st), Hk; [done|].
  intros y. by rewrite IH.
Qed.

Lemma m_ext r : forall k k' st, (forall y, k y = k' y) -> m r k st = m r k' st.
Proof.
  induction r as [|p|r1 IH1 r2 IH2|r1 IH1 r2 IH2|r IH|n r IH|n|b|b|]; intros k k' st Hk;
    try (simpl; repeat case_match; by auto).
  - simpl. by rewrite (IH1 _ _ st Hk), (IH2 _ _ st Hk).
  - rewrite !m_star. by apply star_loop_ext.
Qed.

Lemma star_loop_fuel r k : forall f f' st,
  length (st_rest st) < f -> length (st_rest st) < f' ->
  star_loop (m r) k f st = star_loop (m r) k f' st.
Proof.
  induction f as [|f IH]; intros f' st Hf Hf'; [lia|]. destruct f' as [|f']; [lia|]. simpl.
  rewrite (m_ext r _ (fun y => if length (st_rest y) <? length (st_rest st)
                               then star_loop (m r) k f' y else None) st); [done|].
  intros y. destruct (Nat.ltb_spec (length (st_rest y)) (length (st_rest st))); [|done].
  apply IH; lia.
Qed.

Lemma m_complete r : forall st st', matches r st st' ->
  forall k, is_Some (k st') -> is_Some (m r k st).
Proof.
  intros st st' H.
  induction H as [st|p st c rest E Hp|r1 r2 st st1 st2 H1 IH1 H2 IH2|r1 r2 st st' H IH
    |r1 r2 st st' H IH|r st|r st st1 st2 H1 IH1 Hl H2 IH2|n r st st' H IH|n st t E|b st E|b st E|st E];
    intros k Hk.
  - done.
  - simpl. by rewrite E, Hp.
  - simpl. auto.
  - simpl. destruct (IH k Hk) as [y ->]. by eexists.
  - simpl. destruct (m r1 k st); [by eexists|auto].
  - rewrite m_star. simpl. destruct (m r _ st); [by eexists|done].
  - rewrite m_star. simpl. edestruct IH1 as [y ->]; [|by eexists].
    simpl. rewrite (proj2 (Nat.ltb_lt _ _)) by done.
    rewrite (star_loop_fuel r k _ (S (length (st_rest st1)))) by lia.
    rewrite <- m_star. auto.
  - simpl. apply IH. done.
  - simpl. by rewrite E.
  - simpl. destruct (st_prev st); [by rewrite E|done].
  - simpl. destruct (st_rest st); [done|by rewrite E].
  - simpl. by rewrite E.
Qed.

(** An anchored expression is only tried at the start. *)
Lemma search_anchored r fuel st :
  is_Some (st_prev st) -> search (RSeq (RBegin false) r) fuel st = None.
Proof.
  revert st. induction fuel as [|f IH]; intros st [c Hc]; simpl; rewrite Hc; simpl; [done|].
  destruct (st_rest st); [done|]. apply IH. by eexists.
Qed.

Lemma re_match_anchored r s : re_match (RSeq (RBegin false) r) s = m r Some (start s).
Proof.
  unfold re_match. destruct s as [|c s]; simpl.
  - by destruct (m r Some _).
  - destruct (m r Some _); [done|]. simpl. rewrite search_anchored; [done|by eexists].
Qed.

(** ** Text

    [reads st w st']: the position moves over the text [w], and only the
    captures may change otherwise. *)

Definition reads (st : mstate) (w : jsstr) (st' : mstate) : Prop :=
  st_rest st = w ++ st_rest st'.

Lemma matches_reads r st st' : matches r st st' -> exists w, reads st w st'.
Proof.
  unfold reads.
  induction 1 as [st|p st c rest E Hp|r1 r2 st st1 st2 H1 [w1 IH1] H2 [w2 IH2]|r1 r2 st st' H IH
    |r1 r2 st st' H IH|r st|r st st1 st2 H1 [w1 IH1] Hl H2 [w2 IH2]|n r st st' H IH|n st t E|b st E|b st E|st E];
    try done; try by exists [].
  - by exists [c].
  - exists (w1 ++ w2). by rewrite IH1, IH2, app_assoc.
  - exists (w1 ++ w2). by rewrite IH1, IH2, app_assoc.
  - clear E. generalize (group n st). intros w. revert st.
    induction w as [|c w IH]; intros st; [by exists []|]. simpl.
    destruct (st_rest st) as [|d r] eqn:Er; [exists []; by rewrite Er|].
    destruct (IH (adv1 d r st)) as [v Hv]. exists (d :: v). simpl in *. by f_equal.
Qed.

Lemma take_reads (w r : jsstr) : take (length (w ++ r) - length r) (w ++ r) = w.
Proof.
  rewrite length_app. replace (length w + length r - length r) with (length w) by lia.
  apply take_app_length.
Qed.

(** The capture of a group is the text it moved over. *)
Lemma set_cap_reads n st w st' :
  reads st w st' -> set_cap n st st' = mkSt (st_prev st') (st_idx st') (st_rest st') ((n, w) :: st_caps st').
Proof. unfold reads, set_cap. intros ->. by rewrite take_reads. Qed.

(** ** Denotation

    Away from [^] and [\b] a match only depends on the text to come and the
    captures; [denote] is the relation on these, by recursion on the
    expression, so that a fixed expression unfolds to a decomposition of the
    text. *)

Definition caps := list (nat * jsstr).
Definition cap_of (n : nat) (c : caps) : jsstr :=
  default [] (snd <$> List.find (fun x => Nat.eqb x.1 n) c).

Lemma group_cap_of n st : group n st = cap_of n (st_caps st).
Proof. done. Qed.

Fixpoint denote (r : regex) (s : jsstr) (c : caps) (s' : jsstr) (c' : caps) : Prop :=
  match r with
  | REmpty => s = s' /\ c' = c
  | RChar p => exists x, s = x :: s' /\ p x = true /\ c' = c
  | RSeq r1 r2 => exists s1 c1, denote r1 s c s1 c1 /\ denote r2 s1 c1 s' c'
  | RAlt r1 r2 => denote r1 s c s' c' \/ denote r2 s c s' c'
  | RStar r1 =>
      rtc (fun a b => denote r1 a.1 a.2 b.1 b.2 /\ length b.1 < length a.1) (s, c) (s', c')
  | RGroup n r1 => exists c1 w, denote r1 s c s' c1 /\ s = w ++ s' /\ c' = (n, w) :: c1
  | RBack n => s = cap_of n c ++ s' /\ c' = c
  | REnd false => s = [] /\ s' = [] /\ c' = c
  | RBegin _ | REnd true | RWordB => False
  end.

Fixpoint simple (r : regex) : bool :=
  match r with
  | RSeq r1 r2 | RAlt r1 r2 => simple r1 && simple r2
  | RStar r1 | RGroup _ r1 => simple r1
  | RBegin _ | REnd true | RWordB => false
  | _ => true
  end.

Lemma adv_reads w st t : st_rest st = w ++ t -> st_rest (adv w st) = t /\ st_caps (adv w st) = st_caps st.
Proof.
  revert st. induction w as [|c w IH]; intros st H; simpl; [done|]. rewrite H. simpl.
  destruct (IH (adv1 c (w ++ t) st)) as [H1 H2]; [done|]. by rewrite H1, H2.
Qed.

Lemma matches_denote r st st' :
  simple r = true -> matches r st st' ->
  denote r (st_rest st) (st_caps st) (st_rest st') (st_caps st').
Proof.
  intros Hs H.
  induction H as [st|p st c rest E Hp|r1 r2 st st1 st2 H1 IH1 H2 IH2|r1 r2 st st' H IH
    |r1 r2 st st' H IH|r st|r st st1 st2 H1 IH1 Hl H2 IH2|n r st st' H IH|n st t E|b st E|b st E|st E];
    simpl in *; try done; try apply andb_prop in Hs as [Hs1 Hs2].
  - exists c. by rewrite E.
  - eauto 10.
  - auto.
  - auto.
  - eapply rtc_l; [|by apply IH2]. simpl. auto.
  - destruct (matches_reads _ _ _ H) as [w Hw]. exists (st_caps st'), w.
    unfold reads in Hw. rewrite Hw at 2 3 4. rewrite take_reads. auto.
  - apply strip_prefix_spec in E. destruct (adv_reads _ _ _ E) as [-> ->]. auto.
  - destruct b; [done|]. destruct (st_rest st); [done|]. by rewrite andb_false_l in E.
Qed.

Lemma denote_matches r st s' c' :
  simple r = true -> denote r (st_rest st) (st_caps st) s' c' ->
  exists st', matches r st st' /\ st_rest st' = s' /\ st_caps st' = c'.
Proof.
  revert st s' c'.
  induction r as [|p|r1 IH1 r2 IH2|r1 IH1 r2 IH2|r IH|n r IH|n|b|b|]; intros st s' c' Hs H;
    simpl in *; try done; try apply andb_prop in Hs as [Hs1 Hs2].
  - destruct H as [H ->]. exists st. auto using M_empty.
  - destruct H as (x & E & Hp & ->). exists (adv1 x s' st). auto using M_char.
  - destruct H as (s1 & c1 & H1 & H2). apply IH1 in H1 as (st1 & H1 & <- & <-); [|done].
    apply IH2 in H2 as (st2 & H2 & <- & <-); [|done]. eauto using M_seq.
  - destruct H as [H|H]; [apply IH1 in H as (st1 & H & ?)|apply IH2 in H as (st1 & H & ?)]; try done;
      eauto using M_altl, M_altr.
  - match type of H with rtc _ ?x ?y => remember x as a eqn:Ea; remember y as b eqn:Eb end.
    revert st Ea. induction H as [a|a a1 b [H1 Hl] _ IHr]; intros st Ea; simplify_eq/=.
    + exists st. auto using M_star0.
    + apply IH in H1 as (st1 & H1 & E1 & E2); [|done].
      destruct (IHr eq_refl st1) as (st2 & H2 & ?); [by rewrite E1, E2; destruct a1|].
      exists st2. split; [|done]. eapply M_star1; [done| |done]. by rewrite E1.
  - destruct H as (c1 & w & H & E & ->). apply IH in H as (st1 & H & E1 & E2); [|done].
    exists (set_cap n st st1). split; [by constructor|].
    rewrite (set_cap_reads n st w) by (unfold reads; by rewrite E1). simpl. by rewrite E2.
  - destruct H as [E ->]. exists (adv (group n st) st).
    split; [apply (M_back n st s'); by apply strip_prefix_spec|].
    by apply adv_reads.
  - destruct b; [done|]. destruct H as (E & -> & ->). exists st. split; [|done].
    constructor. by rewrite E.
Qed.

(** The match of [/^r/] is a decomposition of the text, and there is one when
    the text can be decomposed. *)
Lemma re_match_spec r s :
  simple r = true ->
  match re_match (RSeq (RBegin false) r) s with
  | Some y => denote r s [] (st_rest y) (st_caps y)
  | None => forall s' c', ~ denote r s [] s' c'
  end.
Proof.
  intros Hs. rewrite re_match_anchored. destruct (m r Some (start s)) as [y|] eqn:E.
  - apply m_sound in E as (st' & H & [= ->]). by apply (matches_denote r (start s)).
  - intros s' c' H. apply (denote_matches r (start s)) in H as (st' & H & _); [|done].
    destruct (m_complete _ _ _ H Some) as [z Hz]; [by eexists|congruence].
Qed.

Lemma re_match_none r s :
  simple r = true -> (forall s' c', ~ denote r s [] s' c') ->
  re_match (RSeq (RBegin false) r) s = None.
Proof.
  intros Hs Hn. pose proof (re_match_spec r s Hs) as H. destruct (re_match _ s); [|done].
  by apply Hn in H.
Qed.

Lemma denote_lit w s c s' c' : denote (rlit w) s c s' c' <-> s = w ++ s' /\ c' = c.
Proof.
  revert s. induction w as [|x w IH]; intros s; [done|].
  cbn [rlit denote runit]. split.
  - intros (s1 & c1 & (y & -> & E & ->) & H). apply IH in H as [-> ->].
    apply N.eqb_eq in E as <-. done.
  - intros [-> ->]. exists (w ++ s'), c. split; [|by apply IH]. exists x. by rewrite N.eqb_refl.
Qed.

Lemma denote_star_class p s c s' c' :
  denote (RStar (RChar p)) s c s' c' <->
  exists w, s = w ++ s' /\ forallb p w = true /\ c' = c.
Proof.
  cbn [denote]. split.
  - intros H. match type of H with rtc _ ?x ?y => remember x as a eqn:Ea; remember y as b eqn:Eb end.
    revert s c Ea. induction H as [a|a a1 b [(x & E & Hp & E2) Hl] _ IH]; intros s c Ea; simplify_eq/=.
    + by exists [].
    + destruct (IH eq_refl a1.1 a1.2) as (w & Hw & Hf & Hc); [by destruct a1|].
      exists (x :: w). simpl. rewrite Hp, Hf. split_and!; [by rewrite Hw|done|congruence].
  - intros (w & -> & Hf & ->). induction w as [|x w IH]; [apply rtc_refl|].
    simpl in Hf. apply andb_prop in Hf as [Hx Hf].
    eapply rtc_l; [|by apply IH]. simpl. split; [|lia]. by exists x.
Qed.

Lemma denote_plus_class p s c s' c' :
  denote (rplus (RChar p)) s c s' c' <->
  exists w, s = w ++ s' /\ w <> [] /\ forallb p w = true /\ c' = c.
Proof.
  unfold rplus. split.
  - intros (s1 & c1 & (x & -> & Hx & ->) & H). apply denote_star_class in H as (w & -> & Hf & ->).
    exists (x :: w). simpl. by rewrite Hx, Hf.
  - intros ([|x w] & -> & Hw & Hf & ->); [done|]. simpl in Hf. apply andb_prop in Hf as [Hx Hf].
    exists (w ++ s'), c. split; [by exists x|]. apply denote_star_class. by exists w.
Qed.

Lemma denote_alts l s c s' c' :
  denote (ralts l) s c s' c' <-> exists w, w ∈ l /\ s = w ++ s' /\ c' = c.
Proof.
  induction l as [|w l IH].
  - simpl. split; [by intros (x & _ & ? & _)|by intros (w & H%elem_of_nil & _)].
  - destruct l as [|w' l].
    + cbn [ralts]. rewrite denote_lit. split.
      * intros [-> ->]. exists w. split; [by left|done].
      * by intros (v & ->%list_elem_of_singleton & -> & ->).
    + change (ralts (w :: w' :: l)) with (RAlt (rlit w) (ralts (w' :: l))). cbn [denote].
      rewrite IH, denote_lit. split.
      * intros [[-> ->]|(v & Hv & H)]; [exists w|exists v]; (split; [|done]); [by left|by right].
      * intros (v & [->|Hv]%elem_of_cons & H); [by left|right; by exists v].
Qed.

Lemma denote_seq r1 r2 s c s' c' :
  denote (RSeq r1 r2) s c s' c' <-> exists s1 c1, denote r1 s c s1 c1 /\ denote r2 s1 c1 s' c'.
Proof. done. Qed.

Lemma denote_rseq_cons r l s c s' c' :
  denote (rseq (r :: l)) s c s' c' <->
  exists s1 c1, denote r s c s1 c1 /\ denote (rseq l) s1 c1 s' c'.
Proof.
  destruct l as [|r' l]; [|done]. cbn [rseq denote]. split.
  - intros H. by exists s', c'.
  - by intros (s1 & c1 & H & -> & ->).
Qed.

Lemma denote_end s c s' c' : denote (REnd false) s c s' c' <-> s = [] /\ s' = [] /\ c' = c.
Proof. done. Qed.

(** A group whose text is what it moves over. *)
Lemma denote_group n r (P : jsstr -> Prop) s c s' c' :
  (forall s c s' c', denote r s c s' c' <-> exists w, s = w ++ s' /\ P w /\ c' = c) ->
  denote (RGroup n r) s c s' c' <-> exists w, s = w ++ s' /\ P w /\ c' = (n, w) :: c.
Proof.
  intros Hr. cbn [denote]. split.
  - intros (c1 & w & H & -> & ->). apply Hr in H as (w' & E & HP & ->).
    apply app_inv_tail in E as <-. by exists w.
  - intros (w & -> & HP & ->). exists c, w. split; [|done]. apply Hr. by exists w.
Qed.

Lemma denote_group_plus n p s c s' c' :
  denote (RGroup n (rplus (RChar p))) s c s' c' <->
  exists w, s = w ++ s' /\ (w <> [] /\ forallb p w = true) /\ c' = (n, w) :: c.
Proof.
  apply denote_group. intros. rewrite denote_plus_class. naive_solver.
Qed.

Lemma denote_group_alts n l s c s' c' :
  denote (RGroup n (ralts l)) s c s' c' <->
  exists w, s = w ++ s' /\ w ∈ l /\ c' = (n, w) :: c.
Proof. apply denote_group. intros. rewrite denote_alts. naive_solver. Qed.

(** ** Text that ends at the first unit outside a class *)

(** Two decompositions of a text agree when both first parts stay in a class
    that the unit after them is not in. *)
Lemma class_split (p : N -> bool) a a' b b' :
  forallb p a = true -> forallb p a' = true ->
  (match b with [] => True | x :: _ => p x = false end) ->
  (match b' with [] => True | x :: _ => p x = false end) ->
  a ++ b = a' ++ b' -> a = a' /\ b = b'.
Proof.
  revert a'. induction a as [|x a IH]; intros [|x' a'] Ha Ha' Hb Hb' E; simpl in *.
  - done.
  - subst b. apply andb_prop in Ha' as [Hx _]. congruence.
  - subst b'. apply andb_prop in Ha as [Hx _]. congruence.
  - injection E as -> E. apply andb_prop in Ha as [_ Ha]. apply andb_prop in Ha' as [_ Ha'].
    destruct (IH a') as [-> ->]; done.
Qed.

Lemma denote_unit x s c s' c' : denote (runit x) s c s' c' <-> s = x :: s' /\ c' = c.
Proof.
  cbn [runit denote]. split.
  - intros (y & -> & E & ->). by apply N.eqb_eq in E as <-.
  - intros [-> ->]. exists x. by rewrite N.eqb_refl.
Qed.

Lemma denote_back n s c s' c' : denote (RBack n) s c s' c' <-> s = cap_of n c ++ s' /\ c' = c.
Proof. done. Qed.

(** Every unit an expression can match is in a class. *)
Fixpoint over (p : N -> bool) (r : regex) : Prop :=
  match r with
  | RChar q => forall x, q x = true -> p x = true
  | RSeq r1 r2 | RAlt r1 r2 => over p r1 /\ over p r2
  | RStar r1 | RGroup _ r1 => over p r1
  | RBack _ => False
  | _ => True
  end.

Lemma denote_over p r s c s' c' :
  over p r -> denote r s c s' c' -> exists w, s = w ++ s' /\ forallb p w = true.
Proof.
  revert s c s' c'.
  induction r as [|q|r1 IH1 r2 IH2|r1 IH1 r2 IH2|r IH|n r IH|n|b|b|]; intros s c s' c' Ho H;
    simpl in *; try done.
  - destruct H as [-> _]. by exists [].
  - destruct H as (x & -> & Hx & _). exists [x]. simpl. by rewrite (Ho x Hx).
  - destruct H as (s1 & c1 & H1 & H2), Ho as [Ho1 Ho2].
    apply IH1 in H1 as (w1 & -> & F1); [|done]. apply IH2 in H2 as (w2 & -> & F2); [|done].
    exists (w1 ++ w2). by rewrite app_assoc, forallb_app, F1, F2.
  - destruct Ho as [Ho1 Ho2], H as [H|H]; [by eapply IH1|by eapply IH2].
  - match type of H with rtc _ ?x ?y => remember x as a eqn:Ea; remember y as b eqn:Eb end.
    revert s c Ea. induction H as [a|a a1 b [H1 _] _ IHr]; intros s c Ea; simplify_eq/=.
    + by exists [].
    + apply IH in H1 as (w1 & -> & F1); [|done].
      destruct (IHr eq_refl a1.1 a1.2) as (w2 & -> & F2); [by destruct a1|].
      exists (w1 ++ w2). by rewrite app_assoc, forallb_app, F1, F2.
  - destruct H as (c1 & w & H & _). by eapply IH.
  - destruct b; [done|]. destruct H as (-> & -> & _). by exists [].
Qed.

(** Captures only change in groups. *)
Fixpoint nocap (r : regex) : bool :=
  match r with
  | RSeq r1 r2 | RAlt r1 r2 => nocap r1 && nocap r2
  | RStar r1 => nocap r1
  | RGroup _ _ => false
  | _ => true
  end.

Lemma denote_nocap r s c s' c' : nocap r = true -> denote r s c s' c' -> c' = c.
Proof.
  revert s c s' c'.
  induction r as [|q|r1 IH1 r2 IH2|r1 IH1 r2 IH2|r IH|n r IH|n|b|b|]; intros s c s' c' Hn H;
    simpl in *; try done; try apply andb_prop in Hn as [Hn1 Hn2].
  - by destruct H.
  - by destruct H as (x & _ & _ & ->).
  - destruct H as (s1 & c1 & H1 & H2). apply IH1 in H1 as ->; [|done]. by eapply IH2.
  - destruct H as [H|H]; eauto.
  - match type of H with rtc _ ?x ?y => remember x as a eqn:Ea; remember y as b eqn:Eb end.
    revert s c Ea. induction H as [a|a a1 b [H1 _] _ IHr]; intros s c Ea; simplify_eq/=; [done|].
    apply IH in H1; [|done]. rewrite (IHr eq_refl a1.1 a1.2) by (by destruct a1). done.
  - by destruct H.
  - destruct b; [done|]. by destruct H as (_ & _ & ->).
Qed.

(** Turns a denotation of a concrete expression into a decomposition. *)
Ltac den_step :=
  match goal with
  | H : denote (RSeq _ _) _ _ _ _ |- _ => apply denote_seq in H as (? & ? & ? & H)
  | H : denote (rlit _) _ _ _ _ |- _ => apply denote_lit in H as [? ?]
  | H : denote (runit _) _ _ _ _ |- _ => apply denote_unit in H as [? ?]
  | H : denote (RGroup _ (rplus (RChar _))) _ _ _ _ |- _ =>
      apply denote_group_plus in H as (? & ? & [? ?] & ?)
  | H : denote (RGroup _ (ralts _)) _ _ _ _ |- _ => apply denote_group_alts in H as (? & ? & ? & ?)
  | H : denote (RBack _) _ _ _ _ |- _ => apply denote_back in H as [? ?]
  | H : denote (REnd false) _ _ _ _ |- _ => apply denote_end in H as (? & ? & ?)
  end.
Ltac den_inv := repeat den_step.

(** Builds one. *)
Ltac den_build_step :=
  match goal with
  | |- denote (RSeq _ _) _ _ _ _ => apply denote_seq; eexists _, _; split
  | |- denote (rlit _) _ _ _ _ => apply denote_lit; split; reflexivity
  | |- denote (runit _) _ _ _ _ => apply denote_unit; split; reflexivity
  | |- denote (RGroup _ (rplus (RChar _))) ?e _ [] _ =>
      apply denote_group_plus; exists e; split; [by rewrite app_nil_r|split; [split|reflexivity]; assumption]
  | |- denote (RGroup _ (rplus (RChar _))) _ _ _ _ =>
      apply denote_group_plus; eexists; split; [reflexivity|split; [split|reflexivity]; assumption]
  | |- denote (RGroup _ (ralts _)) _ _ _ _ =>
      apply denote_group_alts; eexists; split; [reflexivity|split; [assumption|reflexivity]]
  | |- denote (RBack _) _ _ _ _ => apply denote_back; split; reflexivity
  | |- denote (REnd false) _ _ _ _ => apply denote_end; split_and!; reflexivity
  end.
Ltac den_build := repeat den_build_step; repeat den_build_step.
