(* ===== verification/BillingExpr.v ===== *)
(** * Billing expressions ([features/pricing/lib/billing-expr.ts])

    The registry of price variables, the tier parser, the parser and the
    printer of request rules, and the composition of a base expression with
    its rules.  A regular expression literal of the source is a [regex]; a
    call that can throw returns [Throw]. *)

From S2P Require Import Prelude JsNumber JsValue JsRegex.

(** ** Variable registry *)

Inductive Side := SideInput | SideOutput | SideCondition.

Record BillingVar := mkVar {
  bv_key : jsstr; bv_field : option jsstr; bv_tierField : option jsstr;
  bv_label : jsstr; bv_shortLabel : jsstr; bv_side : Side;
  bv_isBase : bool; bv_isConditionOnly : bool; bv_group : option jsstr }.

Definition BILLING_VARS : list BillingVar := [
  mkVar (js "p") (Some (js "inputPrice")) (Some (js "input_unit_cost"))
    (js "Input price") (js "Input") SideInput true false None;
  mkVar (js "c") (Some (js "outputPrice")) (Some (js "output_unit_cost"))
    (js "Completion price") (js "Output") SideOutput true false None;
  mkVar (js "len") None None (js "Input length") (js "Length") SideCondition false true None;
  mkVar (js "cr") (Some (js "cacheReadPrice")) (Some (js "cache_read_unit_cost"))
    (js "Cache read price") (js "Cache Read") SideInput false false (Some (js "cache"));
  mkVar (js "cc") (Some (js "cacheCreatePrice")) (Some (js "cache_create_unit_cost"))
    (js "Cache create price") (js "Cache Write") SideInput false false (Some (js "cache"));
  mkVar (js "cc1h") (Some (js "cacheCreate1hPrice")) (Some (js "cache_create_1h_unit_cost"))
    (js "Cache create (1h) price") (js "Cache Write (1h)") SideInput false false (Some (js "cache"));
  mkVar (js "img") (Some (js "imagePrice")) (Some (js "image_unit_cost"))
    (js "Image input price") (js "Image In") SideInput false false (Some (js "media"));
  mkVar (js "img_o") (Some (js "imageOutputPrice")) (Some (js "image_output_unit_cost"))
    (js "Image output price") (js "Image Out") SideOutput false false (Some (js "media"));
  mkVar (js "ai") (Some (js "audioInputPrice")) (Some (js "audio_input_unit_cost"))
    (js "Audio input price") (js "Audio In") SideInput false false (Some (js "media"));
  mkVar (js "ao") (Some (js "audioOutputPrice")) (Some (js "audio_output_unit_cost"))
    (js "Audio output price") (js "Audio Out") SideOutput false false (Some (js "media"))].

Definition BILLING_PRICING_VARS : list BillingVar :=
  List.filter (fun v => negb (bv_isConditionOnly v)) BILLING_VARS.
Definition BILLING_CONDITION_VARS : list jsstr :=
  List.map bv_key (List.filter (fun v => bv_isBase v || bv_isConditionOnly v) BILLING_VARS).
Definition BILLING_VAR_KEY_TO_FIELD : list (jsstr * jsstr) :=
  List.map (fun v => (bv_key v, default [] (bv_field v))) BILLING_PRICING_VARS.
Definition BILLING_EXTRA_VARS : list BillingVar :=
  List.filter (fun v => negb (bv_isBase v) && negb (bv_isConditionOnly v)) BILLING_VARS.
(** Pairs of the tier field and the variable. *)
Definition BILLING_CACHE_VAR_MAP : list (jsstr * jsstr) :=
  List.map (fun v => (default [] (bv_tierField v), bv_key v)) BILLING_EXTRA_VARS.

(** [[\d.eE+-]] and [[\d.eE+]] *)
Definition is_num_unit (c : N) : bool :=
  is_digit c || existsb (N.eqb c) [ch "."; ch "e"; ch "E"; ch "+"; ch "-"].
Definition is_num_unit_plus (c : N) : bool :=
  is_digit c || existsb (N.eqb c) [ch "."; ch "e"; ch "E"; ch "+"].

(** [\b(p|c|...)\s*\*\s*([\d.eE+-]+)] *)
Definition BILLING_VAR_REGEX : regex :=
  rseq [RWordB; RGroup 1 (ralts (List.map bv_key BILLING_PRICING_VARS)); rspaces; runit (ch "*");
        rspaces; RGroup 2 (rplus (RChar is_num_unit))].

(** ** Request rule constants *)

Definition MATCH_EQ := js "eq".
Definition MATCH_CONTAINS := js "contains".
Definition MATCH_GT := js "gt".
Definition MATCH_GTE := js "gte".
Definition MATCH_LT := js "lt".
Definition MATCH_LTE := js "lte".
Definition MATCH_EXISTS := js "exists".
Definition MATCH_RANGE := js "range".
Definition TIME_FUNCS : list jsstr := [js "hour"; js "minute"; js "weekday"; js "month"; js "day"].

(** [/^-?(?:\d+\.?\d*|\.\d+)(?:[eE][+-]?\d+)?$/] *)
Definition NUMERIC_BODY : regex :=
  rseq [ropt (runit (ch "-"));
        RAlt (rseq [rplus (RChar is_digit); ropt (runit (ch ".")); RStar (RChar is_digit)])
             (rseq [runit (ch "."); rplus (RChar is_digit)]);
        ropt (rseq [RChar (fun c => (c =? ch "e") || (c =? ch "E"))%N;
                    ropt (RChar (fun c => (c =? ch "+") || (c =? ch "-"))%N);
                    rplus (RChar is_digit)]);
        REnd false].
Definition NUMERIC_LITERAL_REGEX : regex := RSeq (RBegin false) NUMERIC_BODY.
Definition is_numeric_literal (s : jsstr) : bool := re_test NUMERIC_LITERAL_REGEX s.

Inductive PHSource := SourceParam | SourceHeader.
#[export] Instance PHSource_eq_dec : EqDecision PHSource.
Proof. solve_decision. Defined.

Inductive RequestCondition :=
| ParamHeaderCondition (source : PHSource) (path mode value : jsstr)
| TimeCondition (timeFunc timezone mode value rangeStart rangeEnd : jsstr).
#[export] Instance RequestCondition_eq_dec : EqDecision RequestCondition.
Proof. solve_decision. Defined.

Record RequestRuleGroup := mkGroup { conditions : list RequestCondition; multiplier : jsstr }.
#[export] Instance RequestRuleGroup_eq_dec : EqDecision RequestRuleGroup.
Proof. solve_decision. Defined.

Record TierCondition := mkTierCondition { tc_var : jsstr; tc_op : jsstr; tc_value : number }.
Record ParsedTier := mkTier {
  tier_label : jsstr; tier_conditions : list TierCondition; tier_fields : list (jsstr * number) }.

(** ** Tier parser *)

(** A version prefix [v1:] and the body. *)
Definition VERSION_REGEX : regex :=
  rseq [RBegin false; runit (ch "v"); RGroup 1 (rplus (RChar is_digit)); runit (ch ":");
        RGroup 2 (RStar rany); REnd false].

Definition stripExprVersion (exprStr : jsstr) : number * jsstr :=
  if negb (nonempty exprStr) then (num_of_Z 1, [])
  else match re_match VERSION_REGEX exprStr with
       | Some y => (num_of_string (group 1 y), group 2 y)
       | None => (num_of_Z 1, exprStr)
       end.

(** The first coefficient of each variable. *)
Definition tier_coeffs (bodyStr : jsstr) : list (jsstr * number) :=
  fold_left (fun coeffs x =>
    let k := group 1 x.2 in
    match assoc k coeffs with
    | Some _ => coeffs
    | None => obj_set k (num_of_string (group 2 x.2)) coeffs
    end) (re_all BILLING_VAR_REGEX bodyStr) [].

Definition parseTierBody (bodyStr : jsstr) : list (jsstr * number) :=
  let coeffs := tier_coeffs bodyStr in
  List.map (fun kf => (kf.2, match assoc kf.1 coeffs with
                             | Some x => num_or x (num_of_Z 0)
                             | None => num_of_Z 0
                             end)) BILLING_VAR_KEY_TO_FIELD.

Definition COND_VAR : regex := ralts [js "p"; js "c"; js "len"].
Definition COND_OP : regex := ralts [js "<"; js "<="; js ">"; js ">="].
Definition COND_ATOM : regex :=
  rseq [COND_VAR; rspaces; COND_OP; rspaces; rplus (RChar is_num_unit_plus)].
Definition AND_SPACED : regex := rseq [rspaces; rlit (js "&&"); rspaces].
(** An optional guard [cond && cond ?], then [tier(label, body)] with a quoted
    label and a body without a closing parenthesis. *)
Definition TIER_REGEX : regex :=
  rseq [ropt (rseq [RGroup 1 (RSeq COND_ATOM (RStar (RSeq AND_SPACED COND_ATOM)));
                    rspaces; runit (ch "?"); rspaces]);
        rlit (jsq "tier('"); RGroup 2 (RStar (RChar (fun c => negb (c =? 34)%N)));
        rlit (jsq "',"); rspaces; RGroup 3 (rplus (RChar (fun c => negb (c =? ch ")")%N)));
        runit (ch ")")].
Definition TIER_COND_REGEX : regex :=
  rseq [RBegin false; RGroup 1 COND_VAR; rspaces; RGroup 2 COND_OP; rspaces;
        RGroup 3 (rplus (RChar is_num_unit_plus)); REnd false].

(** [s.split(r)] for an expression that does not match the empty text. *)
Fixpoint cut_at (s : jsstr) (pos : nat) (ms : list (nat * jsstr * mstate)) : list jsstr :=
  match ms with
  | [] => [drop pos s]
  | (i, w, _) :: ms' => slice pos i s :: cut_at s (i + length w) ms'
  end.
Definition re_split (r : regex) (s : jsstr) : list jsstr := cut_at s 0 (re_all r s).

Definition parse_tier_condition (cp : jsstr) : option TierCondition :=
  (fun y => mkTierCondition (group 1 y) (group 2 y) (num_of_string (group 3 y)))
    <$> re_match TIER_COND_REGEX (trim cp).

Definition parse_tier_match (y : mstate) : ParsedTier :=
  let condStr := group 1 y in
  mkTier (group 2 y)
    (if nonempty condStr then omap parse_tier_condition (re_split AND_SPACED condStr) else [])
    (parseTierBody (group 3 y)).

Definition parseTiersFromExpr (exprStr : jsstr) : list ParsedTier :=
  if negb (nonempty exprStr) then []
  else List.map (fun x => parse_tier_match x.2) (re_all TIER_REGEX (stripExprVersion exprStr).2).

(** ** Request rule parser *)

(** A result, a [null] result, or an exception. *)
Inductive res (A : Type) := Val (a : A) | Null | Throw.
Arguments Val {A} a.
Arguments Null {A}.
Arguments Throw {A}.

Definition depth_after (c : N) (depth : Z) : Z :=
  if (c =? ch "(")%N then (depth + 1)%Z else if (c =? ch ")")%N then (depth - 1)%Z else depth.

(** The loop of the two splitters: [cur] is the current part reversed, [skip]
    the units of a separator still to pass. *)
Fixpoint split_loop (sep : jsstr) (s : jsstr) (depth : Z) (skip : nat) (cur : jsstr) : list jsstr :=
  match s with
  | [] => [trim (rev cur)]
  | c :: s' =>
      match skip with
      | S k => split_loop sep s' depth k cur
      | 0 =>
          let depth := depth_after c depth in
          if (depth =? 0)%Z && starts_with sep s
          then trim (rev cur) :: split_loop sep s' depth (length sep - 1) []
          else split_loop sep s' depth 0 (c :: cur)
      end
  end.

Definition splitTopLevelMultiply (expr : jsstr) : list jsstr :=
  List.filter nonempty (split_loop (js " * ") expr 0 0 []).

Definition splitTopLevelAnd (expr : jsstr) : list jsstr :=
  List.filter nonempty (split_loop (js " && ") expr 0 0 []).

(** [JSON.parse] may give any value; [Null] stands for [null]. *)
Definition parseExprLiteral (raw : jsstr) : res value :=
  let text := trim raw in
  if bool_decide (text = js "true") || bool_decide (text = js "false") then Val (VStr text)
  else if is_numeric_literal text then Val (VStr text)
  else match json_parse text with
       | Some VNull | None => Null
       | Some v => Val v
       end.

Definition not_quote (c : N) : bool := negb (c =? 34)%N.
Definition NUM (n : nat) : regex := RGroup n (rplus (RChar is_num_unit)).
(** [f(tz) ] followed by more. *)
Definition TIME_CALL (more : list regex) : list regex :=
  RGroup 1 (ralts TIME_FUNCS) :: rlit (jsq "('") :: RGroup 2 (rplus (RChar not_quote))
  :: rlit (jsq "') ") :: more.
(** [f(tz) >= a || f(tz) < b], the second [f] and [tz] by back reference. *)
Definition RANGE_BODY (more : list regex) : list regex :=
  TIME_CALL (rlit (js ">= ") :: NUM 3 :: rlit (js " || ") :: RBack 1 :: rlit (jsq "('")
             :: RBack 2 :: rlit (jsq "') < ") :: NUM 4 :: more).
Definition RANGE_R : regex := rseq (RANGE_BODY [REnd false]).
Definition RANGE_PAREN_R : regex :=
  rseq (runit (ch "(") :: RANGE_BODY [runit (ch ")"); REnd false]).
Definition TIME_R : regex :=
  rseq (TIME_CALL [RGroup 3 (ralts [js "=="; js ">="; js "<"]); runit (ch " "); NUM 4; REnd false]).
Definition anchored (r : regex) : regex := RSeq (RBegin false) r.

Definition time_range (y : mstate) : RequestCondition :=
  TimeCondition (group 1 y) (group 2 y) MATCH_RANGE [] (group 3 y) (group 4 y).
Definition time_op_mode (op : jsstr) : jsstr :=
  if bool_decide (op = js "==") then MATCH_EQ
  else if bool_decide (op = js ">=") then MATCH_GTE
  else if bool_decide (op = js "<") then MATCH_LT else MATCH_EQ.

Definition tryParseTimeCondition (expr : jsstr) : option RequestCondition :=
  match re_match (anchored RANGE_R) expr with
  | Some y => Some (time_range y)
  | None =>
  match re_match (anchored RANGE_PAREN_R) expr with
  | Some y => Some (time_range y)
  | None =>
  match re_match (anchored TIME_R) expr with
  | Some y => Some (TimeCondition (group 1 y) (group 2 y) (time_op_mode (group 3 y)) (group 4 y) [] [])
  | None => None
  end end end.

Definition PATH (n : nat) : regex := RGroup n (rplus (RChar not_quote)).
(** A quoted string whose units are escaped or neither quote nor backslash. *)
Definition QUOTED (n : nat) : regex :=
  RGroup n (rseq [runit 34%N;
                  RStar (RAlt (RChar (fun c => negb (c =? 34)%N && negb (c =? 92)%N))
                              (RSeq (runit 92%N) rdot));
                  runit 34%N]).
Definition HEADER_EXISTS_R : regex :=
  rseq [rlit (jsq "header('"); PATH 1; rlit (jsq "') != ''"); REnd false].
Definition PARAM_EXISTS_R : regex :=
  rseq [rlit (jsq "param('"); PATH 1; rlit (jsq "') != nil"); REnd false].
Definition HEADER_HAS_R : regex :=
  rseq [rlit (jsq "has(header('"); PATH 1; rlit (jsq "'), "); QUOTED 2; runit (ch ")"); REnd false].
Definition PARAM_HAS_R : regex :=
  rseq [rlit (jsq "param('"); PATH 1; rlit (jsq "') != nil && has(param('"); PATH 2;
        rlit (jsq "'), "); QUOTED 3; runit (ch ")"); REnd false].
Definition PARAM_CMP_R : regex :=
  rseq [rlit (jsq "param('"); PATH 1; rlit (jsq "') != nil && param('"); PATH 2; rlit (jsq "') ");
        RGroup 3 (ralts [js ">"; js ">="; js "<"; js "<="]); runit (ch " "); NUM 4; REnd false].
Definition EQ_R : regex :=
  rseq [RGroup 1 (ralts [js "param"; js "header"]); rlit (jsq "('"); PATH 2; rlit (jsq "') == ");
        RGroup 3 (rplus rdot); REnd false].

Definition cmp_mode (op : jsstr) : jsstr :=
  if bool_decide (op = js ">") then MATCH_GT
  else if bool_decide (op = js ">=") then MATCH_GTE
  else if bool_decide (op = js "<") then MATCH_LT else MATCH_LTE.

(** [JSON.parse(text) as string] of a quoted text. *)
Definition parse_string (text : jsstr) (k : jsstr -> RequestCondition) : res RequestCondition :=
  match json_parse text with
  | Some (VStr v) => Val (k v)
  | _ => Throw
  end.

Definition tryParseRequestCondition (expr : jsstr) : res RequestCondition :=
  match tryParseTimeCondition expr with
  | Some tc => Val tc
  | None =>
  match re_match (anchored HEADER_EXISTS_R) expr with
  | Some y => Val (ParamHeaderCondition SourceHeader (group 1 y) MATCH_EXISTS [])
  | None =>
  match re_match (anchored PARAM_EXISTS_R) expr with
  | Some y => Val (ParamHeaderCondition SourceParam (group 1 y) MATCH_EXISTS [])
  | None =>
  match re_match (anchored HEADER_HAS_R) expr with
  | Some y =>
      parse_string (group 2 y) (ParamHeaderCondition SourceHeader (group 1 y) MATCH_CONTAINS)
  | None =>
  let param_has := match re_match (anchored PARAM_HAS_R) expr with
                   | Some y => if bool_decide (group 1 y = group 2 y) then Some y else None
                   | None => None
                   end in
  match param_has with
  | Some y =>
      parse_string (group 3 y) (ParamHeaderCondition SourceParam (group 1 y) MATCH_CONTAINS)
  | None =>
  let param_cmp := match re_match (anchored PARAM_CMP_R) expr with
                   | Some y => if bool_decide (group 1 y = group 2 y) then Some y else None
                   | None => None
                   end in
  match param_cmp with
  | Some y => Val (ParamHeaderCondition SourceParam (group 1 y) (cmp_mode (group 3 y)) (group 4 y))
  | None =>
  match re_match (anchored EQ_R) expr with
  | Some y =>
      match parseExprLiteral (group 3 y) with
      | Val v =>
          match to_string v with
          | Some s =>
              Val (ParamHeaderCondition
                     (if bool_decide (group 1 y = js "param") then SourceParam else SourceHeader)
                     (group 2 y) MATCH_EQ s)
          | None => Throw
          end
      | _ => Null
      end
  | None => Null
  end end end end end end end.

(** [/^\((.+) \? ([\d.eE+-]+) : 1\)$/s] *)
Definition FACTOR_R : regex :=
  rseq [runit (ch "("); RGroup 1 (rplus rany); rlit (js " ? "); NUM 2; rlit (js " : 1)"); REnd false].

Fixpoint parse_conditions (parts : list jsstr) : res (list RequestCondition) :=
  match parts with
  | [] => Val []
  | ap :: rest =>
      match tryParseRequestCondition (trim ap) with
      | Val c => match parse_conditions rest with Val cs => Val (c :: cs) | r => r end
      | Null => Null
      | Throw => Throw
      end
  end.

Definition tryParseRuleGroupFactor (part : jsstr) : res RequestRuleGroup :=
  match re_match (anchored FACTOR_R) part with
  | None => Null
  | Some y =>
      match parse_conditions (splitTopLevelAnd (group 1 y)) with
      | Val [] => Null
      | Val cs => Val (mkGroup cs (group 2 y))
      | Null => Null
      | Throw => Throw
      end
  end.

Fixpoint parse_groups (parts : list jsstr) : res (list RequestRuleGroup) :=
  match parts with
  | [] => Val []
  | part :: rest =>
      match tryParseRuleGroupFactor part with
      | Val g => match parse_groups rest with Val gs => Val (g :: gs) | r => r end
      | Null => Null
      | Throw => Throw
      end
  end.

Definition tryParseRequestRuleExpr (expr : jsstr) : res (list RequestRuleGroup) :=
  let trimmed := trim expr in
  if negb (nonempty trimmed) then Val [] else parse_groups (splitTopLevelMultiply trimmed).

(** ** Combine and split *)

Fixpoint outer_loop (s : jsstr) (depth : Z) : bool :=
  match s with
  | [] => (depth =? 0)%Z
  | c :: s' =>
      let depth := depth_after c depth in
      if (depth =? 0)%Z && nonempty s' then false else outer_loop s' depth
  end.

Definition hasFullOuterParens (expr : jsstr) : bool :=
  if negb (starts_with (js "(") expr) || negb (ends_with (js ")") expr) then false
  else outer_loop expr 0.

(** [expr.slice(1, -1)] *)
Definition inner (s : jsstr) : jsstr := slice 1 (length s - 1) s.

(** Each turn shortens the text, so its length is enough fuel. *)
Fixpoint unwrap_loop (fuel : nat) (current : jsstr) : jsstr :=
  match fuel with
  | 0 => current
  | S f => if hasFullOuterParens current then unwrap_loop f (trim (inner current)) else current
  end.

Definition unwrapOuterParens (expr : jsstr) : jsstr :=
  let current := trim expr in unwrap_loop (length current) current.

(** The parts that are rules and the others; [None] when the parser throws. *)
Fixpoint partition_parts (parts : list jsstr) : option (list jsstr * list jsstr) :=
  match parts with
  | [] => Some ([], [])
  | part :: rest =>
      match tryParseRequestRuleExpr part with
      | Throw => None
      | r =>
          match partition_parts rest with
          | None => None
          | Some (ruleParts, baseParts) =>
              match r with
              | Val (_ :: _) => Some (part :: ruleParts, baseParts)
              | _ => Some (ruleParts, part :: baseParts)
              end
          end
      end
  end.

Record SplitExpr := mkSplit { billingExpr : jsstr; requestRuleExpr : jsstr }.

Definition splitBillingExprAndRequestRules (expr : jsstr) : option SplitExpr :=
  let trimmed := trim expr in
  if negb (nonempty trimmed) then Some (mkSplit [] [])
  else
    let parts := splitTopLevelMultiply trimmed in
    if length parts <=? 1 then Some (mkSplit trimmed [])
    else match partition_parts parts with
         | None => None
         | Some (ruleParts, [base]) =>
             if nonempty ruleParts
             then Some (mkSplit (unwrapOuterParens base) (join (js " * ") ruleParts))
             else Some (mkSplit trimmed [])
         | Some _ => Some (mkSplit trimmed [])
         end.

Definition combineBillingExpr (baseExpr requestRuleExpr : jsstr) : jsstr :=
  let base := trim baseExpr in
  let rules := trim requestRuleExpr in
  if negb (nonempty base) then []
  else if negb (nonempty rules) then base
  else js "(" ++ base ++ js ") * " ++ rules.

(** ** Editor *)

Definition createEmptyCondition : RequestCondition :=
  ParamHeaderCondition SourceParam [] MATCH_EQ [].
Definition createEmptyTimeCondition : RequestCondition :=
  TimeCondition (js "hour") (js "Asia/Shanghai") MATCH_GTE [] [] [].
Definition createEmptyRuleGroup : RequestRuleGroup := mkGroup [createEmptyCondition] [].
Definition createEmptyTimeRuleGroup : RequestRuleGroup := mkGroup [createEmptyTimeCondition] [].

(** Values and label keys. *)
Definition getRequestRuleMatchOptions (source : jsstr) : list (jsstr * jsstr) :=
  if bool_decide (source = js "time") then
    [(MATCH_EQ, js "Equals"); (MATCH_GTE, js "Greater than or equal");
     (MATCH_LT, js "Less than"); (MATCH_RANGE, js "Overnight range")]
  else
    let base := [(MATCH_EQ, js "Equals"); (MATCH_CONTAINS, js "Contains");
                 (MATCH_EXISTS, js "Exists")] in
    if bool_decide (source = js "header") then base
    else base ++ [(MATCH_GT, js "Greater than"); (MATCH_GTE, js "Greater than or equal");
                  (MATCH_LT, js "Less than"); (MATCH_LTE, js "Less than or equal")].

Definition isTimeFunc (v : option jsstr) : bool :=
  match v with Some s => bool_decide (s ∈ TIME_FUNCS) | None => false end.

(** [Partial<RequestCondition> | null | undefined]: what is missing is [None]. *)
Record PartialCondition := mkPartial {
  pa_source : option jsstr; pa_path : option jsstr; pa_mode : option jsstr;
  pa_value : option jsstr; pa_timeFunc : option jsstr; pa_timezone : option jsstr;
  pa_rangeStart : option jsstr; pa_rangeEnd : option jsstr }.

Definition source_name (s : PHSource) : jsstr :=
  match s with SourceParam => js "param" | SourceHeader => js "header" end.

Definition partial_of (c : RequestCondition) : PartialCondition :=
  match c with
  | ParamHeaderCondition src path mode value =>
      mkPartial (Some (source_name src)) (Some path) (Some mode) (Some value) None None None None
  | TimeCondition f tz mode value s e =>
      mkPartial (Some (js "time")) None (Some mode) (Some value) (Some f) (Some tz) (Some s) (Some e)
  end.

(** The mode when the source offers it, else the default. *)
Definition offered_mode (source : jsstr) (mode : option jsstr) (fallback : jsstr) : jsstr :=
  match mode with
  | Some md => if existsb (fun o => bool_decide (o.1 = md)) (getRequestRuleMatchOptions source)
               then md else fallback
  | None => fallback
  end.

Definition normalizeCondition (cond : PartialCondition) : RequestCondition :=
  if bool_decide (pa_source cond = Some (js "time")) then
    TimeCondition
      (if isTimeFunc (pa_timeFunc cond) then default [] (pa_timeFunc cond) else js "hour")
      (str_or (default [] (pa_timezone cond)) (js "Asia/Shanghai"))
      (offered_mode (js "time") (pa_mode cond) MATCH_GTE)
      (default [] (pa_value cond)) (default [] (pa_rangeStart cond)) (default [] (pa_rangeEnd cond))
  else
    let source := if bool_decide (pa_source cond = Some (js "header"))
                  then SourceHeader else SourceParam in
    ParamHeaderCondition source (default [] (pa_path cond))
      (offered_mode (source_name source) (pa_mode cond) MATCH_EQ) (default [] (pa_value cond)).

Definition buildExprLiteral (mode value : jsstr) : jsstr :=
  let text := trim value in
  if bool_decide (mode = MATCH_CONTAINS) then quote text
  else if bool_decide (text = js "true") || bool_decide (text = js "false") then text
  else if is_numeric_literal text then text
  else quote text.

Definition time_op (mode : jsstr) : jsstr :=
  if bool_decide (mode = MATCH_EQ) then js "=="
  else if bool_decide (mode = MATCH_GTE) then js ">="
  else if bool_decide (mode = MATCH_LT) then js "<" else js "==".

Definition cmp_op (mode : jsstr) : option jsstr :=
  if bool_decide (mode = MATCH_GT) then Some (js ">")
  else if bool_decide (mode = MATCH_GTE) then Some (js ">=")
  else if bool_decide (mode = MATCH_LT) then Some (js "<")
  else if bool_decide (mode = MATCH_LTE) then Some (js "<=") else None.

(** After normalization. *)
Definition buildTimeConditionExpr (timeFunc timezone mode value rangeStart rangeEnd : jsstr) : jsstr :=
  let fn := timeFunc ++ js "(" ++ quote timezone ++ js ")" in
  if bool_decide (mode = MATCH_RANGE) then
    let s := trim rangeStart in
    let e := trim rangeEnd in
    if negb (is_numeric_literal s) || negb (is_numeric_literal e) then []
    else fn ++ js " >= " ++ s ++ js " || " ++ fn ++ js " < " ++ e
  else
    let v := trim value in
    if negb (is_numeric_literal v) then []
    else fn ++ js " " ++ time_op mode ++ js " " ++ v.

Definition buildParamHeaderExpr (source : PHSource) (rawPath mode value : jsstr) : jsstr :=
  let path := trim rawPath in
  if negb (nonempty path) then []
  else
    let sourceExpr := source_name source ++ js "(" ++ quote path ++ js ")" in
    if bool_decide (mode = MATCH_EXISTS) then
      match source with
      | SourceHeader => sourceExpr ++ jsq " != ''"
      | SourceParam => sourceExpr ++ js " != nil"
      end
    else if bool_decide (mode = MATCH_CONTAINS) then
      let has := js "has(" ++ sourceExpr ++ js ", " ++ buildExprLiteral mode value ++ js ")" in
      match source with
      | SourceHeader => has
      | SourceParam => sourceExpr ++ js " != nil && " ++ has
      end
    else match cmp_op mode with
    | Some op =>
        let numText := trim value in
        if negb (is_numeric_literal numText) then []
        else sourceExpr ++ js " != nil && " ++ sourceExpr ++ js " " ++ op ++ js " " ++ numText
    | None => sourceExpr ++ js " == " ++ buildExprLiteral mode value
    end.

Definition buildRequestConditionExpr (cond : RequestCondition) : jsstr :=
  match normalizeCondition (partial_of cond) with
  | TimeCondition f tz mode value s e => buildTimeConditionExpr f tz mode value s e
  | ParamHeaderCondition src path mode value => buildParamHeaderExpr src path mode value
  end.

Definition wrap_or (e : jsstr) : jsstr :=
  if includes (js " || ") e then js "(" ++ e ++ js ")" else e.

Definition combine_conditions (condExprs : list jsstr) : jsstr :=
  match condExprs with
  | [e] => e
  | _ => join (js " && ") (List.map wrap_or condExprs)
  end.

Definition buildRuleGroupFactor (group : RequestRuleGroup) : jsstr :=
  let mult := trim (multiplier group) in
  if negb (is_numeric_literal mult) then []
  else
    let condExprs := List.filter nonempty (List.map buildRequestConditionExpr (conditions group)) in
    if negb (nonempty condExprs) then []
    else js "(" ++ combine_conditions condExprs ++ js " ? " ++ mult ++ js " : 1)".

Definition buildRequestRuleExpr (groups : list RequestRuleGroup) : jsstr :=
  join (js " * ") (List.filter nonempty (List.map buildRuleGroupFactor groups)).
