(* ===== verification/BillingExprFacts.v ===== *)
(** * Theorems on billing expressions

    Printing request rules and parsing them back, splitting at the top level,
    and composing a base expression with its rules. *)

From S2P Require Import Prelude JsNumber JsValue JsRegex JsRegexFacts BillingExpr.

(** ** Numeric literals *)

Lemma numeric_units s :
  is_numeric_literal s = true -> s <> [] /\ forallb is_num_unit s = true.
Proof.
  intros H. unfold is_numeric_literal, re_test, NUMERIC_LITERAL_REGEX in H.
  pose proof (re_match_spec NUMERIC_BODY s ltac:(reflexivity)) as Hs.
  destruct (re_match _ s) as [y|] eqn:E; [|done]. clear H. split.
  - intros ->. vm_compute in E. discriminate E.
  - assert (Ho : over is_num_unit NUMERIC_BODY).
    { assert (Hd : forall x, is_digit x = true -> is_num_unit x = true).
      { intros x Hx. unfold is_num_unit. by rewrite Hx. }
      assert (Hu : forall c, is_num_unit c = true -> forall x, N.eqb c x = true -> is_num_unit x = true).
      { intros c Hc x Hx. by apply N.eqb_eq in Hx as <-. }
      cbn [over NUMERIC_BODY rseq ropt rplus runit].
      split_and!; try done; try exact Hd; try (apply Hu; reflexivity);
        intros x [Hx|Hx]%orb_prop; apply N.eqb_eq in Hx as ->; reflexivity. }
    destruct (denote_over _ _ _ _ _ _ Ho Hs) as (w & -> & Hw).
    assert (st_rest y = []) as ->; [|by rewrite app_nil_r].
    unfold NUMERIC_BODY in Hs. cbn [rseq] in Hs.
    do 3 apply denote_seq in Hs as (? & ? & _ & Hs). by apply denote_end in Hs as (_ & -> & _).
Qed.

(** ** The text of a condition *)

(** Units that stand for themselves in a quoted string and neither end a call
    nor look like an operator. *)
Definition plain_unit (c : N) : bool :=
  (32 <=? c)%N && negb (is_high c) && negb (is_low c) && negb (is_line_end c)
  && negb (existsb (N.eqb c) [34; 92; ch "("; ch ")"; ch "&"; ch "|"]%N).
(** Units of a literal: quoting takes care of the others. *)
Definition value_unit (c : N) : bool :=
  negb (existsb (N.eqb c) [ch "("; ch ")"; ch "&"; ch "|"; 8232; 8233]%N).

Lemma escape_plain p : forallb plain_unit p = true -> escape p = p.
Proof.
  intros H. assert (Hu : forall c, plain_unit c = true ->
    is_high c = false /\ is_low c = false /\ escape_unit c = [c]).
  { intros c Hc. unfold plain_unit in Hc. rewrite !andb_true_iff, !negb_true_iff in Hc.
    destruct Hc as ((((H1 & H2) & H3) & _) & H5). apply N.leb_le in H1. split_and!; [done|done|].
    simpl in H5. rewrite !orb_false_iff in H5. destruct H5 as (H34 & H92 & _).
    unfold escape_unit. rewrite H34, H92.
    repeat (rewrite (proj2 (N.eqb_neq c _)) by lia). rewrite (proj2 (N.ltb_ge c 32)) by done. done. }
  induction p as [|c p IH]; [done|]. simpl in H. apply andb_prop in H as [Hc Hp].
  destruct (Hu c Hc) as (E1 & E2 & E3). specialize (IH Hp).
  cbn [escape]. rewrite E1, E2, E3. destruct p; [done|]. cbn [orb andb]. by rewrite IH.
Qed.

Lemma quote_plain p : forallb plain_unit p = true -> quote p = 34%N :: p ++ [34%N].
Proof. intros H. unfold quote. by rewrite escape_plain. Qed.

Lemma plain_not_quote p : forallb plain_unit p = true -> forallb not_quote p = true.
Proof.
  apply forallb_impl. intros c Hc. unfold plain_unit in Hc. rewrite andb_true_iff in Hc.
  destruct Hc as [_ Hc]. simpl in Hc. unfold not_quote. by destruct (c =? 34)%N.
Qed.

Lemma num_unit_not_space c : is_num_unit c = true -> is_space c = false.
Proof.
  unfold is_num_unit. intros [Hd|Hc]%orb_prop.
  - unfold is_digit in Hd. apply andb_prop in Hd as [H1 H2]. apply N.leb_le in H1, H2.
    unfold is_space. simpl. repeat (rewrite (proj2 (N.eqb_neq c _)) by lia).
    by rewrite (proj2 (N.leb_gt 8192 c)) by lia.
  - simpl in Hc. rewrite !orb_true_iff in Hc.
    destruct Hc as [E|[E|[E|[E|[E|E]]]]]; try done; apply N.eqb_eq in E as ->; reflexivity.
Qed.

Lemma numeric_trim s : is_numeric_literal s = true -> trim s = s.
Proof.
  intros H. apply numeric_units in H as [_ H]. apply trim_no_space.
  rewrite forallb_forall in *. intros x Hx. by rewrite num_unit_not_space by auto.
Qed.

(** ** Parsing one condition *)

(** An expression that fails before the first unknown unit. *)
Ltac no_match :=
  unfold anchored; rewrite re_match_anchored; vm_compute; reflexivity.

(** The captures of a successful match. *)
Lemma group_caps n y c : st_caps y = c -> group n y = cap_of n c.
Proof. by intros <-. Qed.

Ltac unfold_regexes :=
  cbv [RANGE_R RANGE_PAREN_R RANGE_BODY TIME_CALL TIME_R NUM PATH rseq HEADER_EXISTS_R
       PARAM_EXISTS_R HEADER_HAS_R PARAM_HAS_R PARAM_CMP_R EQ_R FACTOR_R rdot rany] in *.

Lemma cons_tail {A} (x : A) a b : x :: a = x :: b -> a = b.
Proof. by intros [= ->]. Qed.

(** Compare two decompositions of a text up to the first unit outside [p],
    and past a literal both have there. *)
Ltac split_at p E :=
  let E1 := fresh "E" in
  apply (class_split p) in E as [E1 E];
  [try rewrite E1 in * | first [assumption | reflexivity] | first [assumption | reflexivity]
  | first [exact I | reflexivity] | first [exact I | reflexivity]].
Ltac past_lit E := apply app_inv_head in E.
Ltac eval_caps E :=
  cbn [cap_of default from_option id fmap option_fmap option_map List.find Nat.eqb fst snd] in E.

Lemma time_func_letters f : f ∈ TIME_FUNCS -> forallb is_word f = true /\ f <> [].
Proof.
  intros H. unfold TIME_FUNCS in H. rewrite !elem_of_cons in H.
  destruct H as [->|[->|[->|[->|[->|H]]]]]; try done. by apply elem_of_nil in H.
Qed.

Definition not_blank (c : N) : bool := negb (c =? ch " ")%N.
Lemma time_op_units op : op ∈ [js "=="; js ">="; js "<"] -> forallb not_blank op = true.
Proof.
  rewrite !elem_of_cons. intros [->|[->|[->|H]]]; try done. by apply elem_of_nil in H.
Qed.

Definition range_text (f tz s e : jsstr) : jsstr :=
  f ++ jsq "('" ++ tz ++ jsq "') " ++ js ">= " ++ s ++ js " || " ++ f ++ jsq "('" ++ tz
    ++ jsq "') < " ++ e.
Definition time_text (f tz op v : jsstr) : jsstr :=
  f ++ jsq "('" ++ tz ++ jsq "') " ++ op ++ [ch " "] ++ v.

(** The one match of an anchored expression: [inv] identifies the captures. *)
Ltac the_match R t :=
  let H := fresh "H" in
  pose proof (re_match_spec R t eq_refl) as H; unfold anchored;
  destruct (re_match _ _) as [y|];
  [exists y; split; [done|] | exfalso; eapply H; unfold_regexes; den_build].

Section Time.
Context (f tz : jsstr) (Hf : f ∈ TIME_FUNCS) (Htz : tz <> []) (Hq : forallb not_quote tz = true).

Lemma range_match s e :
  s <> [] -> forallb is_num_unit s = true -> e <> [] -> forallb is_num_unit e = true ->
  exists y, re_match (anchored RANGE_R) (range_text f tz s e) = Some y
    /\ st_caps y = [(4, e); (3, s); (2, tz); (1, f)].
Proof.
  intros Hs Hsn He Hen. destruct (time_func_letters f Hf) as [Hw Hfn].
  unfold range_text. the_match RANGE_R (range_text f tz s e).
  unfold_regexes. unfold range_text in H. den_inv. subst.
  match goal with E : f ++ _ = _, Hx : _ ∈ TIME_FUNCS |- _ => rename E into E0; rename Hx into Hx0 end.
  destruct (time_func_letters _ Hx0) as [Hw0 _]. eval_caps E0.
  split_at is_word E0. past_lit E0. split_at not_quote E0. do 2 past_lit E0.
  split_at is_num_unit E0. do 5 past_lit E0. rewrite app_nil_r in E0. by subst.
Qed.

Lemma range_paren_match s e :
  s <> [] -> forallb is_num_unit s = true -> e <> [] -> forallb is_num_unit e = true ->
  exists y, re_match (anchored RANGE_PAREN_R) (ch "(" :: range_text f tz s e ++ [ch ")"]) = Some y
    /\ st_caps y = [(4, e); (3, s); (2, tz); (1, f)].
Proof.
  intros Hs Hsn He Hen. destruct (time_func_letters f Hf) as [Hw Hfn].
  unfold range_text. rewrite <- !app_assoc.
  match goal with |- context [re_match _ ?t] => the_match RANGE_PAREN_R t end.
  unfold_regexes. den_inv. subst.
  match goal with E : _ :: f ++ _ = _, Hx : _ ∈ TIME_FUNCS |- _ =>
    apply cons_tail in E; rename E into E0; rename Hx into Hx0 end.
  destruct (time_func_letters _ Hx0) as [Hw0 _]. eval_caps E0.
  split_at is_word E0. past_lit E0. split_at not_quote E0. do 2 past_lit E0.
  split_at is_num_unit E0. do 5 past_lit E0. split_at is_num_unit E0. by subst.
Qed.

Lemma time_match op v :
  op ∈ [js "=="; js ">="; js "<"] -> v <> [] -> forallb is_num_unit v = true ->
  exists y, re_match (anchored TIME_R) (time_text f tz op v) = Some y
    /\ st_caps y = [(4, v); (3, op); (2, tz); (1, f)].
Proof.
  intros Ho Hv Hvn. destruct (time_func_letters f Hf) as [Hw Hfn].
  unfold time_text. match goal with |- context [re_match _ ?t] => the_match TIME_R t end.
  unfold_regexes. den_inv. subst.
  match goal with E : f ++ _ = _, Hx : _ ∈ TIME_FUNCS |- _ => rename E into E0; rename Hx into Hx0 end.
  destruct (time_func_letters _ Hx0) as [Hw0 _].
  split_at is_word E0. past_lit E0. split_at not_quote E0. past_lit E0.
  match goal with Hx : ?op' ∈ [js "=="; js ">="; js "<"], E : op ++ _ = ?op' ++ _ |- _ =>
    pose proof (time_op_units _ Ho); pose proof (time_op_units _ Hx) end.
  split_at not_blank E0. apply cons_tail in E0. rewrite app_nil_r in E0. by subst.
Qed.

(** A single comparison is not a range. *)
Lemma range_no_match op v :
  op ∈ [js "=="; js ">="; js "<"] -> v <> [] -> forallb is_num_unit v = true ->
  re_match (anchored RANGE_R) (time_text f tz op v) = None.
Proof.
  intros Ho Hv Hvn. destruct (time_func_letters f Hf) as [Hw Hfn]. unfold anchored.
  pose proof (re_match_spec RANGE_R (time_text f tz op v) eq_refl) as H.
  destruct (re_match _ _) as [y|]; [exfalso|done].
  unfold_regexes. unfold time_text in H. den_inv. subst.
  match goal with E : f ++ _ = _, Hx : _ ∈ TIME_FUNCS |- _ => rename E into E0; rename Hx into Hx0 end.
  destruct (time_func_letters _ Hx0) as [Hw0 _]. eval_caps E0.
  split_at is_word E0. past_lit E0. split_at not_quote E0. past_lit E0.
  pose proof (time_op_units _ Ho).
  change (js ">= " ++ ?t) with (js ">=" ++ [ch " "] ++ t) in E0.
  split_at not_blank E0. past_lit E0. rewrite <- (app_nil_r v) in E0.
  split_at is_num_unit E0. discriminate E0.
Qed.
End Time.

Definition exists_text (src : PHSource) (path : jsstr) : jsstr :=
  match src with
  | SourceHeader => jsq "header('" ++ path ++ jsq "') != ''"
  | SourceParam => jsq "param('" ++ path ++ jsq "') != nil"
  end.
Definition eq_text (src : PHSource) (path lit : jsstr) : jsstr :=
  source_name src ++ jsq "('" ++ path ++ jsq "') == " ++ lit.
Definition has_text (path lit : jsstr) : jsstr :=
  jsq "has(header('" ++ path ++ jsq "'), " ++ lit ++ [ch ")"].

Section ParamHeader.
Context (path : jsstr) (Hne : path <> []) (Hq : forallb not_quote path = true).

Lemma header_exists_match :
  exists y, re_match (anchored HEADER_EXISTS_R) (exists_text SourceHeader path) = Some y
    /\ st_caps y = [(1, path)].
Proof.
  unfold exists_text. rewrite <- (app_nil_r (jsq "') != ''")).
  match goal with |- context [re_match _ ?t] => the_match HEADER_EXISTS_R t end.
  unfold_regexes. den_inv. subst.
  match goal with E : _ ++ path ++ _ = _ |- _ => rename E into E0 end.
  past_lit E0. split_at not_quote E0. by subst.
Qed.

Lemma param_exists_match :
  exists y, re_match (anchored PARAM_EXISTS_R) (exists_text SourceParam path) = Some y
    /\ st_caps y = [(1, path)].
Proof.
  unfold exists_text. rewrite <- (app_nil_r (jsq "') != nil")).
  match goal with |- context [re_match _ ?t] => the_match PARAM_EXISTS_R t end.
  unfold_regexes. den_inv. subst.
  match goal with E : _ ++ path ++ _ = _ |- _ => rename E into E0 end.
  past_lit E0. split_at not_quote E0. by subst.
Qed.

(** The text after the path decides. *)
Ltac other_operator R t :=
  let H := fresh "H" in
  unfold anchored; pose proof (re_match_spec R t eq_refl) as H;
  destruct (re_match _ _) as [y|]; [exfalso|done]; unfold_regexes; den_inv; subst;
  match goal with E : _ ++ _ ++ path ++ _ = _ |- _ =>
    rewrite app_assoc in E; past_lit E; split_at not_quote E; discriminate E end.

Lemma eq_no_header_exists lit : re_match (anchored HEADER_EXISTS_R) (eq_text SourceHeader path lit) = None.
Proof. unfold eq_text. match goal with |- context [re_match _ ?t] => other_operator HEADER_EXISTS_R t end. Qed.
Lemma eq_no_param_exists lit : re_match (anchored PARAM_EXISTS_R) (eq_text SourceParam path lit) = None.
Proof. unfold eq_text. match goal with |- context [re_match _ ?t] => other_operator PARAM_EXISTS_R t end. Qed.
Lemma eq_no_param_has lit : re_match (anchored PARAM_HAS_R) (eq_text SourceParam path lit) = None.
Proof. unfold eq_text. match goal with |- context [re_match _ ?t] => other_operator PARAM_HAS_R t end. Qed.
Lemma eq_no_param_cmp lit : re_match (anchored PARAM_CMP_R) (eq_text SourceParam path lit) = None.
Proof. unfold eq_text. match goal with |- context [re_match _ ?t] => other_operator PARAM_CMP_R t end. Qed.

Lemma eq_match src lit :
  lit <> [] -> forallb (fun c => negb (is_line_end c)) lit = true ->
  exists y, re_match (anchored EQ_R) (eq_text src path lit) = Some y
    /\ st_caps y = [(3, lit); (2, path); (1, source_name src)].
Proof.
  intros Hl Hd. unfold eq_text.
  assert (Hw : forallb is_word (source_name src) = true) by (by destruct src).
  assert (Hin : source_name src ∈ [js "param"; js "header"]).
  { destruct src; [by left|by right; left]. }
  match goal with |- context [re_match _ ?t] => the_match EQ_R t end.
  unfold_regexes. den_inv. subst.
  match goal with E : source_name _ ++ _ = ?w ++ _, Hx : ?w ∈ _ |- _ =>
    rename E into E0; assert (Hw0 : forallb is_word w = true) end.
  { match goal with Hx : ?w ∈ [_; _] |- forallb is_word ?w = true =>
      rewrite !elem_of_cons in Hx; destruct Hx as [->|[->|Hx]]; try done; by apply elem_of_nil in Hx end. }
  split_at is_word E0. past_lit E0. split_at not_quote E0. past_lit E0.
  rewrite app_nil_r in E0. by subst.
Qed.

(** The units of an escaped string are escapes or plain. *)
Definition ESCAPED : regex :=
  RStar (RAlt (RChar (fun c => negb (c =? 34)%N && negb (c =? 92)%N)) (RSeq (runit 92%N) rdot)).

Lemma escaped_app a b s' c :
  denote ESCAPED (a ++ b) c b c -> denote ESCAPED b c s' c -> denote ESCAPED (a ++ b) c s' c.
Proof. intros H1 H2. unfold ESCAPED in *. simpl in *. by etrans. Qed.
End ParamHeader.

Section Escaped.
Context (cc : caps).

Lemma escaped_nil b : denote ESCAPED b cc b cc.
Proof. apply rtc_refl. Qed.

Lemma escaped_char x b : (x =? 34)%N = false -> (x =? 92)%N = false -> denote ESCAPED (x :: b) cc b cc.
Proof.
  intros H1 H2. unfold ESCAPED. cbn [denote]. apply rtc_once. cbn [fst snd]. split; [|simpl; lia].
  left. exists x. by rewrite H1, H2.
Qed.

Lemma escaped_esc x b : is_line_end x = false -> denote ESCAPED (92%N :: x :: b) cc b cc.
Proof.
  intros H. unfold ESCAPED. cbn [denote]. apply rtc_once. cbn [fst snd]. split; [|simpl; lia].
  right. exists (x :: b), cc. split; [exists 92%N; done|]. exists x. by rewrite H.
Qed.

Lemma escaped_chars w b :
  forallb (fun x => negb (x =? 34)%N && negb (x =? 92)%N) w = true -> denote ESCAPED (w ++ b) cc b cc.
Proof.
  induction w as [|x w IH]; intros H; [apply escaped_nil|]. simpl in H.
  rewrite !andb_true_iff, !negb_true_iff in H. destruct H as [[H1 H2] H].
  apply (escaped_app [x]); [by apply escaped_char|auto].
Qed.

Lemma hex_digit_plain n : negb (hex_digit n =? 34)%N && negb (hex_digit n =? 92)%N = true.
Proof.
  unfold hex_digit. destruct (N.ltb_spec n 10);
    rewrite !(proj2 (N.eqb_neq _ _)) by lia; done.
Qed.

Lemma escaped_u x b : denote ESCAPED (escape_u x ++ b) cc b cc.
Proof.
  unfold escape_u. rewrite <- app_assoc. apply (escaped_app (js "\u")).
  - by apply (escaped_esc (ch "u")).
  - apply escaped_chars. unfold hex4. cbn [forallb]. by rewrite !hex_digit_plain.
Qed.

Lemma escaped_unit x b : denote ESCAPED (escape_unit x ++ b) cc b cc.
Proof.
  unfold escape_unit.
  destruct (x =? 8)%N; [by apply (escaped_esc (ch "b"))|].
  destruct (x =? 9)%N; [by apply (escaped_esc (ch "t"))|].
  destruct (x =? 10)%N; [by apply (escaped_esc (ch "n"))|].
  destruct (x =? 12)%N; [by apply (escaped_esc (ch "f"))|].
  destruct (x =? 13)%N; [by apply (escaped_esc (ch "r"))|].
  destruct (x =? 34)%N eqn:E34; [by apply (escaped_esc 34%N)|].
  destruct (x =? 92)%N eqn:E92; [by apply (escaped_esc 92%N)|].
  destruct (x <? 32)%N; [apply escaped_u|by apply escaped_char].
Qed.

Lemma surrogate_unquoted x : is_high x || is_low x = true -> (x =? 34)%N = false /\ (x =? 92)%N = false.
Proof.
  intros H. split; apply N.eqb_neq; intros ->; vm_compute in H; discriminate H.
Qed.

Lemma escaped_escape v b : denote ESCAPED (escape v ++ b) cc b cc.
Proof.
  remember (length v) as n eqn:En. revert v En.
  induction n as [n IH] using lt_wf_ind. intros v En.
  destruct v as [|x [|d v]].
  - apply escaped_nil.
  - cbn [escape]. destruct (is_high x || is_low x); [apply escaped_u|apply escaped_unit].
  - cbn [escape]. destruct (is_high x && is_low d) eqn:Ep.
    + apply andb_prop in Ep as [Hh Hl].
      destruct (surrogate_unquoted x) as [? ?]; [by rewrite Hh|].
      destruct (surrogate_unquoted d) as [? ?]; [by rewrite Hl, orb_true_r|].
      apply (escaped_app [x]); [by apply escaped_char|].
      apply (escaped_app [d]); [by apply escaped_char|].
      eapply IH; [|done]. simpl in En. lia.
    + specialize (IH (length (d :: v)) ltac:(simpl in *; lia) (d :: v) eq_refl).
      destruct (is_high x || is_low x); rewrite <- app_assoc; eapply escaped_app;
        [apply escaped_u|done|apply escaped_unit|done].
Qed.
End Escaped.

Lemma quoted_denote n v b c : denote (QUOTED n) (quote v ++ b) c b ((n, quote v) :: c).
Proof.
  unfold QUOTED. cbn [denote]. exists c, (quote v). split; [|done]. cbn [rseq].
  change (quote v ++ b) with (34%N :: (escape v ++ [34%N]) ++ b). rewrite <- app_assoc.
  apply denote_seq. exists (escape v ++ [34%N] ++ b), c. split; [by apply denote_unit|].
  apply denote_seq. exists ([34%N] ++ b), c. split; [|by apply denote_unit].
  apply escaped_escape.
Qed.

Lemma quoted_inv n s c s' c' :
  denote (QUOTED n) s c s' c' -> exists w, s = w ++ s' /\ c' = (n, w) :: c.
Proof.
  unfold QUOTED. intros (c1 & w & H & -> & ->). apply denote_nocap in H as ->; [|done]. by exists w.
Qed.

Lemma has_match path v :
  path <> [] -> forallb not_quote path = true ->
  exists y, re_match (anchored HEADER_HAS_R) (has_text path (quote v)) = Some y
    /\ st_caps y = [(2, quote v); (1, path)].
Proof.
  intros Hne Hq. unfold has_text. unfold anchored.
  match goal with |- context [re_match _ ?t] => pose proof (re_match_spec HEADER_HAS_R t eq_refl) as H end.
  destruct (re_match _ _) as [y|].
  - exists y. split; [done|]. unfold_regexes. den_inv.
    match goal with Hx : denote (QUOTED 2) _ _ _ _ |- _ => apply quoted_inv in Hx as (w & ? & ?) end.
    subst. match goal with E : _ ++ path ++ _ = _ |- _ => rename E into E0 end.
    past_lit E0. split_at not_quote E0. past_lit E0. apply app_inv_tail in E0. by subst.
  - exfalso. eapply H. unfold_regexes. den_build. apply quoted_denote.
Qed.

(** ** Conditions that can be read back *)

Definition wf_name (p : jsstr) : Prop := p <> [] /\ forallb plain_unit p = true.
Definition wf_value (v : jsstr) : Prop := trim v = v /\ forallb value_unit v = true.

#[warnings="-register-all"]
Inductive wf_cond : RequestCondition -> Prop :=
| wf_exists src path : wf_name path -> trim path = path ->
    wf_cond (ParamHeaderCondition src path MATCH_EXISTS [])
| wf_contains path v : wf_name path -> trim path = path -> wf_value v ->
    wf_cond (ParamHeaderCondition SourceHeader path MATCH_CONTAINS v)
| wf_eq src path v : wf_name path -> trim path = path -> wf_value v ->
    wf_cond (ParamHeaderCondition src path MATCH_EQ v)
| wf_time f tz mode v : f ∈ TIME_FUNCS -> wf_name tz -> mode ∈ [MATCH_EQ; MATCH_GTE; MATCH_LT] ->
    is_numeric_literal v = true -> wf_cond (TimeCondition f tz mode v [] [])
| wf_range f tz s e : f ∈ TIME_FUNCS -> wf_name tz -> is_numeric_literal s = true ->
    is_numeric_literal e = true -> wf_cond (TimeCondition f tz MATCH_RANGE [] s e).

Definition cond_text (c : RequestCondition) : jsstr :=
  match c with
  | ParamHeaderCondition src path mode v =>
      if bool_decide (mode = MATCH_EXISTS) then exists_text src path
      else if bool_decide (mode = MATCH_CONTAINS) then has_text path (quote v)
      else eq_text src path (buildExprLiteral MATCH_EQ v)
  | TimeCondition f tz mode v s e =>
      if bool_decide (mode = MATCH_RANGE) then range_text f tz s e
      else time_text f tz (time_op mode) v
  end.

Lemma time_mode_op mode :
  mode ∈ [MATCH_EQ; MATCH_GTE; MATCH_LT] ->
  time_op mode ∈ [js "=="; js ">="; js "<"] /\ time_op_mode (time_op mode) = mode
  /\ bool_decide (mode = MATCH_RANGE) = false
  /\ offered_mode (js "time") (Some mode) MATCH_GTE = mode.
Proof.
  rewrite !elem_of_cons. intros [->|[->|[->|H]]]; [..|by apply elem_of_nil in H];
    (split; [apply (bool_decide_unpack _); vm_compute; exact I|done]).
Qed.

Lemma quote_call p : forallb plain_unit p = true -> js "(" ++ quote p ++ js ")" = jsq "('" ++ p ++ jsq "')".
Proof. intros H. rewrite quote_plain by done. simpl. by rewrite <- app_assoc. Qed.

Lemma build_time f tz mode v :
  f ∈ TIME_FUNCS -> wf_name tz -> mode ∈ [MATCH_EQ; MATCH_GTE; MATCH_LT] ->
  is_numeric_literal v = true ->
  buildRequestConditionExpr (TimeCondition f tz mode v [] []) = time_text f tz (time_op mode) v.
Proof.
  intros Hf [Hne Hp] Hm Hn. destruct (time_mode_op mode Hm) as (_ & _ & Hr & Ho).
  unfold buildRequestConditionExpr, normalizeCondition. cbn [partial_of pa_source].
  rewrite bool_decide_true by done. cbn [pa_timeFunc pa_timezone pa_mode pa_value pa_rangeStart pa_rangeEnd default from_option id].
  unfold isTimeFunc. rewrite bool_decide_true by done. rewrite Ho.
  assert (str_or tz (js "Asia/Shanghai") = tz) as -> by (by destruct tz).
  unfold buildTimeConditionExpr. rewrite Hr, numeric_trim, Hn by done. cbn [negb].
  rewrite quote_call by done. unfold time_text. by rewrite <- !app_assoc.
Qed.

Lemma build_range f tz s e :
  f ∈ TIME_FUNCS -> wf_name tz -> is_numeric_literal s = true -> is_numeric_literal e = true ->
  buildRequestConditionExpr (TimeCondition f tz MATCH_RANGE [] s e) = range_text f tz s e.
Proof.
  intros Hf [Hne Hp] Hs He.
  unfold buildRequestConditionExpr, normalizeCondition. cbn [partial_of pa_source].
  rewrite bool_decide_true by done. cbn [pa_timeFunc pa_timezone pa_mode pa_value pa_rangeStart pa_rangeEnd default from_option id].
  unfold isTimeFunc. rewrite bool_decide_true by done.
  change (offered_mode (js "time") (Some MATCH_RANGE) MATCH_GTE) with MATCH_RANGE.
  assert (str_or tz (js "Asia/Shanghai") = tz) as -> by (by destruct tz).
  unfold buildTimeConditionExpr. rewrite bool_decide_true by done.
  rewrite !numeric_trim, Hs, He by done. cbn [negb orb].
  rewrite quote_call by done. unfold range_text. by rewrite <- !app_assoc.
Qed.

Lemma normalize_ph src path mode v :
  mode ∈ [MATCH_EXISTS; MATCH_EQ; MATCH_CONTAINS] ->
  normalizeCondition (partial_of (ParamHeaderCondition src path mode v))
  = ParamHeaderCondition src path mode v.
Proof.
  rewrite !elem_of_cons. intros H.
  destruct src, H as [->|[->|[->|H]]]; try reflexivity; by apply elem_of_nil in H.
Qed.

Lemma build_cond c : wf_cond c -> buildRequestConditionExpr c = cond_text c.
Proof.
  destruct 1 as [src path [Hne Hp] Ht|path v [Hne Hp] Ht [Hv Hu]|src path v [Hne Hp] Ht [Hv Hu]
    |f tz mode v Hf Htz Hm Hn|f tz s e Hf Htz Hs He]; cbn [cond_text].
  4: { rewrite build_time by done. by destruct (time_mode_op mode Hm) as (_ & _ & -> & _). }
  4: { by rewrite build_range. }
  all: unfold buildRequestConditionExpr; rewrite normalize_ph by (rewrite !elem_of_cons; auto);
    unfold buildParamHeaderExpr; rewrite Ht; assert (nonempty path = true) as -> by (by destruct path);
    cbn [negb]; rewrite quote_call by done.
  - destruct src; simpl; by rewrite <- app_assoc.
  - change (bool_decide (MATCH_CONTAINS = MATCH_EXISTS)) with false.
    rewrite bool_decide_true by done. unfold has_text, buildExprLiteral.
    rewrite bool_decide_true, Hv by done. cbn [source_name]. by rewrite <- !app_assoc.
  - change (bool_decide (MATCH_EQ = MATCH_EXISTS)) with false.
    change (bool_decide (MATCH_EQ = MATCH_CONTAINS)) with false. cbv iota.
    unfold eq_text. by rewrite <- !app_assoc.
Qed.

(** ** Literals *)

Definition lit_unit (c : N) : bool := value_unit c && negb (is_line_end c).

Lemma hex_digit_lit n : lit_unit (hex_digit (n mod 16)) = true.
Proof.
  pose proof (N.mod_lt n 16 ltac:(done)) as H. generalize dependent (n mod 16)%N. intros k Hk.
  assert (E : k ∈ (List.map N.of_nat (seq 0 16))).
  { apply list_elem_of_In, in_map_iff. exists (N.to_nat k). rewrite in_seq. lia. }
  simpl in E. rewrite !elem_of_cons in E.
  repeat (destruct E as [->|E]; [reflexivity|]). by apply elem_of_nil in E.
Qed.

Lemma escape_u_lit c : forallb lit_unit (escape_u c) = true.
Proof.
  unfold escape_u, hex4. rewrite forallb_app. cbn [forallb]. by rewrite !hex_digit_lit.
Qed.

Lemma escape_unit_lit c : value_unit c = true -> forallb lit_unit (escape_unit c) = true.
Proof.
  intros Hc. unfold escape_unit. repeat (case_match; [try reflexivity; apply escape_u_lit|]).
  cbn [forallb]. rewrite andb_true_r. unfold lit_unit. rewrite Hc. simpl.
  match goal with H : (c <? 32)%N = false |- _ => apply N.ltb_ge in H end.
  unfold value_unit in Hc. simpl in Hc. apply negb_true_iff in Hc. rewrite !orb_false_iff in Hc.
  destruct Hc as (_ & _ & _ & _ & Ha & Hb & _). unfold is_line_end. simpl.
  rewrite Ha, Hb, !(proj2 (N.eqb_neq c _)) by lia. done.
Qed.

Lemma surrogate_lit c : is_high c || is_low c = true -> lit_unit c = true.
Proof.
  intros H. assert (55296 <= c <= 57343)%N.
  { unfold is_high, is_low in H. destruct (N.leb_spec 55296 c), (N.leb_spec c 56319),
      (N.leb_spec 56320 c), (N.leb_spec c 57343); simpl in H; try done; lia. }
  assert (Hk : forall k, (k < 55296)%N -> (c =? k)%N = false) by (intros; apply N.eqb_neq; lia).
  unfold lit_unit, value_unit, is_line_end. cbn [existsb]. by rewrite !Hk by reflexivity.
Qed.

Lemma escape_cons2 x d v :
  escape (x :: d :: v) =
  if is_high x && is_low d then x :: d :: escape v
  else if is_high x || is_low x then escape_u x ++ escape (d :: v)
  else escape_unit x ++ escape (d :: v).
Proof. reflexivity. Qed.

Lemma escape_lit v : forallb value_unit v = true -> forallb lit_unit (escape v) = true.
Proof.
  remember (length v) as n eqn:En. revert v En.
  induction n as [n IH] using lt_wf_ind. intros v En H.
  destruct v as [|x [|d v]]; [done|..].
  - simpl in H. rewrite andb_true_r in H. cbn [escape].
    destruct (is_high x || is_low x); [apply escape_u_lit|by apply escape_unit_lit].
  - simpl in H. apply andb_prop in H as [Hx H]. apply andb_prop in H as [Hd H].
    rewrite escape_cons2.
    destruct (is_high x && is_low d) eqn:Ep.
    + apply andb_prop in Ep as [Hh Hl]. cbn [forallb].
      rewrite (surrogate_lit x), (surrogate_lit d) by (by rewrite ?Hh, ?Hl, ?orb_true_r).
      simpl. eapply IH; [|done|done]. simpl in En. lia.
    + assert (forallb lit_unit (escape (d :: v)) = true) as Hr.
      { eapply IH; [|done|]; [simpl in *; lia|]. simpl. by rewrite Hd. }
      destruct (is_high x || is_low x); rewrite forallb_app, Hr, andb_true_r;
        [apply escape_u_lit|by apply escape_unit_lit].
Qed.

Lemma quote_lit v : forallb value_unit v = true -> forallb lit_unit (quote v) = true.
Proof.
  intros H. unfold quote. cbn [forallb]. rewrite forallb_app, escape_lit by done. done.
Qed.

Lemma num_unit_lit c : is_num_unit c = true -> lit_unit c = true.
Proof.
  unfold is_num_unit. intros [Hd|Hc]%orb_prop.
  - unfold is_digit in Hd. apply andb_prop in Hd as [H1 H2]. apply N.leb_le in H1, H2.
    assert (Hk : forall k, ((k <? 48) || (57 <? k) = true)%N -> (c =? k)%N = false).
    { intros k Hk. apply N.eqb_neq. intros ->. apply orb_prop in Hk as [Hk|Hk]; apply N.ltb_lt in Hk; lia. }
    unfold lit_unit, value_unit, is_line_end. cbn [existsb]. by rewrite !Hk by reflexivity.
  - simpl in Hc. rewrite !orb_true_iff in Hc.
    destruct Hc as [E|[E|[E|[E|[E|E]]]]]; try done; apply N.eqb_eq in E as ->; reflexivity.
Qed.

(** The literal of a comparison, and how it is read. *)
Lemma literal_cases v :
  trim v = v ->
  let lit := buildExprLiteral MATCH_EQ v in
  (lit = v /\ (v = js "true" \/ v = js "false" \/ is_numeric_literal v = true)) \/ lit = quote v.
Proof.
  intros Hv. unfold buildExprLiteral. change (bool_decide (MATCH_EQ = MATCH_CONTAINS)) with false.
  rewrite Hv. cbv iota zeta. destruct (bool_decide (v = js "true")) eqn:E1; [left|].
  - apply bool_decide_eq_true in E1. auto.
  - destruct (bool_decide (v = js "false")) eqn:E2; [left|].
    + apply bool_decide_eq_true in E2. auto.
    + cbn [orb]. destruct (is_numeric_literal v) eqn:E3; auto.
Qed.

Lemma trim_quote v : trim (quote v) = quote v.
Proof.
  apply trim_id. unfold quote. split; [done|].
  change (34%N :: escape v ++ [34%N]) with ((34%N :: escape v) ++ [34%N]).
  by rewrite rev_app_distr.
Qed.

Lemma parse_literal v :
  trim v = v -> parseExprLiteral (buildExprLiteral MATCH_EQ v) = Val (VStr v).
Proof.
  intros Hv. destruct (literal_cases v Hv) as [[-> Hc]| ->]; unfold parseExprLiteral.
  - rewrite Hv. destruct Hc as [->|[->|Hn]]; [done|done|]. rewrite Hn. by destruct (_ || _).
  - rewrite trim_quote. assert (is_numeric_literal (quote v) = false) as ->.
    { unfold is_numeric_literal, re_test, NUMERIC_LITERAL_REGEX.
      rewrite re_match_anchored. by vm_compute. }
    rewrite !bool_decide_false by done. cbn [orb].
    change (quote v) with (stringify (VStr v)). by rewrite json_roundtrip by constructor.
Qed.

Lemma literal_units v :
  wf_value v ->
  let lit := buildExprLiteral MATCH_EQ v in
  lit <> [] /\ trim lit = lit /\ forallb lit_unit lit = true.
Proof.
  intros [Hv Hu]. destruct (literal_cases v Hv) as [[-> Hc]| ->].
  - split_and!; [|done|].
    + destruct Hc as [->|[->|Hn]]; [done|done|]. by apply numeric_units in Hn as [? _].
    + destruct Hc as [->|[->|Hn]]; [done|done|]. apply numeric_units in Hn as [_ Hn].
      revert Hn. apply forallb_impl, num_unit_lit.
  - split_and!; [done|apply trim_quote|by apply quote_lit].
Qed.

(** ** Reading a condition back *)

(** Rewrites with the captures of a match. *)
Ltac use_caps H := rewrite !(group_caps _ _ _ H); cbn [cap_of default from_option id fmap option_fmap option_map List.find Nat.eqb fst snd].

Lemma parse_time_op f tz mode v :
  f ∈ TIME_FUNCS -> wf_name tz -> mode ∈ [MATCH_EQ; MATCH_GTE; MATCH_LT] ->
  is_numeric_literal v = true ->
  tryParseRequestCondition (time_text f tz (time_op mode) v) = Val (TimeCondition f tz mode v [] []).
Proof.
  intros Hf [Hne Hp%plain_not_quote] Hm Hn. destruct (time_mode_op mode Hm) as (Ho & Hmo & _).
  apply numeric_units in Hn as [Hv Hvn].
  unfold tryParseRequestCondition, tryParseTimeCondition.
  rewrite range_no_match by done.
  assert (re_match (anchored RANGE_PAREN_R) (time_text f tz (time_op mode) v) = None) as ->.
  { unfold TIME_FUNCS in Hf. rewrite !elem_of_cons in Hf.
    destruct Hf as [->|[->|[->|[->|[->|Hf]]]]]; [no_match..|by apply elem_of_nil in Hf]. }
  destruct (time_match f tz Hf Hne Hp (time_op mode) v Ho Hv Hvn) as (y & -> & Hc).
  use_caps Hc. by rewrite Hmo.
Qed.

Lemma parse_range f tz s e :
  f ∈ TIME_FUNCS -> wf_name tz -> is_numeric_literal s = true -> is_numeric_literal e = true ->
  tryParseRequestCondition (range_text f tz s e) = Val (TimeCondition f tz MATCH_RANGE [] s e)
  /\ tryParseRequestCondition (ch "(" :: range_text f tz s e ++ [ch ")"])
     = Val (TimeCondition f tz MATCH_RANGE [] s e).
Proof.
  intros Hf [Hne Hp%plain_not_quote] [Hs Hsn]%numeric_units [He Hen]%numeric_units.
  unfold tryParseRequestCondition, tryParseTimeCondition, time_range. split.
  - destruct (range_match f tz Hf Hne Hp s e) as (y & -> & Hc); [done..|]. by use_caps Hc.
  - assert (re_match (anchored RANGE_R) (ch "(" :: range_text f tz s e ++ [ch ")"]) = None) as -> by no_match.
    destruct (range_paren_match f tz Hf Hne Hp s e) as (y & -> & Hc); [done..|]. by use_caps Hc.
Qed.

(** The time patterns fail on the other conditions. *)
Ltac skip_regex R :=
  match goal with |- context [re_match (anchored R) ?t] =>
    assert (re_match (anchored R) t = None) as -> by no_match end.

Lemma not_time src r : tryParseTimeCondition (source_name src ++ jsq "('" ++ r) = None.
Proof.
  unfold tryParseTimeCondition.
  destruct src; skip_regex RANGE_R; skip_regex RANGE_PAREN_R; by skip_regex TIME_R.
Qed.

Lemma parse_exists src path :
  wf_name path -> tryParseRequestCondition (exists_text src path)
                  = Val (ParamHeaderCondition src path MATCH_EXISTS []).
Proof.
  intros [Hne Hp%plain_not_quote]. unfold tryParseRequestCondition.
  assert (tryParseTimeCondition (exists_text src path) = None) as ->.
  { destruct src; [apply (not_time SourceParam)|apply (not_time SourceHeader)]. }
  destruct src.
  - unfold exists_text at 1. skip_regex HEADER_EXISTS_R.
    destruct (param_exists_match path Hne Hp) as (y & -> & Hc). by use_caps Hc.
  - destruct (header_exists_match path Hne Hp) as (y & -> & Hc). by use_caps Hc.
Qed.

Lemma parse_contains path v :
  wf_name path -> tryParseRequestCondition (has_text path (quote v))
                  = Val (ParamHeaderCondition SourceHeader path MATCH_CONTAINS v).
Proof.
  intros [Hne Hp%plain_not_quote]. unfold tryParseRequestCondition, tryParseTimeCondition.
  unfold has_text at 1 2 3 4 5. skip_regex RANGE_R. skip_regex RANGE_PAREN_R. skip_regex TIME_R.
  skip_regex HEADER_EXISTS_R. skip_regex PARAM_EXISTS_R.
  destruct (has_match path v Hne Hp) as (y & -> & Hc). use_caps Hc. unfold parse_string.
  change (quote v) with (stringify (VStr v)). by rewrite json_roundtrip by constructor.
Qed.

Lemma parse_eq src path v :
  wf_name path -> wf_value v ->
  tryParseRequestCondition (eq_text src path (buildExprLiteral MATCH_EQ v))
  = Val (ParamHeaderCondition src path MATCH_EQ v).
Proof.
  intros [Hne Hp%plain_not_quote] Hv. destruct (literal_units v Hv) as (Hl & _ & Hu).
  unfold tryParseRequestCondition.
  assert (tryParseTimeCondition (eq_text src path (buildExprLiteral MATCH_EQ v)) = None) as ->
    by apply not_time.
  destruct (eq_match path Hne Hp src (buildExprLiteral MATCH_EQ v)) as (y & Hy & Hc); [done| |].
  { revert Hu. apply forallb_impl. intros x Hx. by apply andb_prop in Hx as [_ ?]. }
  assert (Hfin : match parseExprLiteral (group 3 y) with
     | Val v => match to_string v with
         | Some s => Val (ParamHeaderCondition
               (if bool_decide (group 1 y = js "param") then SourceParam else SourceHeader)
               (group 2 y) MATCH_EQ s)
         | None => Throw end
     | _ => Null end = Val (ParamHeaderCondition src path MATCH_EQ v)).
  { use_caps Hc. rewrite parse_literal by apply Hv. simpl. by destruct src. }
  destruct src.
  - unfold eq_text at 1. skip_regex HEADER_EXISTS_R. rewrite eq_no_param_exists by done.
    unfold eq_text at 1. skip_regex HEADER_HAS_R. rewrite eq_no_param_has, eq_no_param_cmp by done.
    by rewrite Hy.
  - rewrite eq_no_header_exists by done. unfold eq_text at 1 2 3 4.
    skip_regex PARAM_EXISTS_R. skip_regex HEADER_HAS_R. skip_regex PARAM_HAS_R. skip_regex PARAM_CMP_R.
    by rewrite Hy.
Qed.

Lemma parse_cond c : wf_cond c -> tryParseRequestCondition (cond_text c) = Val c.
Proof.
  destruct 1 as [src path Hp Ht|path v Hp Ht Hv|src path v Hp Ht Hv
    |f tz mode v Hf Htz Hm Hn|f tz s e Hf Htz Hs He]; cbn [cond_text].
  - by apply parse_exists.
  - by apply parse_contains.
  - by apply parse_eq.
  - destruct (time_mode_op mode Hm) as (_ & _ & -> & _). by apply parse_time_op.
  - by apply parse_range.
Qed.

(** ** Splitting at the top level *)

(** The change of depth over a text, and whether the depth stays positive. *)
Definition net (s : jsstr) : Z := fold_left (fun d c => depth_after c d) s 0%Z.
Fixpoint deep (d : Z) (s : jsstr) : bool :=
  match s with [] => true | c :: s' => (0 <? depth_after c d)%Z && deep (depth_after c d) s' end.

Lemma depth_after_shift c d k : depth_after c (d + k) = (depth_after c d + k)%Z.
Proof. unfold depth_after. repeat case_match; lia. Qed.

Lemma net_shift s d : fold_left (fun d c => depth_after c d) s d = (d + net s)%Z.
Proof.
  unfold net. revert d. induction s as [|c s IH]; intros d; simpl; [lia|].
  rewrite (IH (depth_after c d)), (IH (depth_after c 0)).
  replace d with (0 + d)%Z at 1 by lia. rewrite depth_after_shift. lia.
Qed.

Lemma net_app a b : net (a ++ b) = (net a + net b)%Z.
Proof. unfold net at 1. by rewrite fold_left_app, net_shift. Qed.

Lemma net_cons c s : net (c :: s) = (net [c] + net s)%Z.
Proof. apply (net_app [c] s). Qed.

Lemma deep_app d a b : deep d (a ++ b) = deep d a && deep (d + net a) b.
Proof.
  revert d. induction a as [|c a IH]; intros d; simpl.
  - unfold net. simpl. by rewrite Z.add_0_r.
  - rewrite IH, andb_assoc. do 2 f_equal. rewrite (net_cons c a). unfold net at 2. simpl.
    replace d with (0 + d)%Z at 1 by lia. rewrite depth_after_shift. lia.
Qed.

Definition no_paren (c : N) : bool := negb (c =? ch "(")%N && negb (c =? ch ")")%N.

Lemma no_paren_depth c d : no_paren c = true -> depth_after c d = d.
Proof.
  unfold no_paren, depth_after. rewrite andb_true_iff, !negb_true_iff. by intros [-> ->].
Qed.

Lemma net_flat s : forallb no_paren s = true -> net s = 0%Z.
Proof.
  unfold net. induction s as [|c s IH]; simpl; [done|]. intros [Hc Hs]%andb_prop.
  rewrite no_paren_depth by done. auto.
Qed.

Lemma deep_flat d s : forallb no_paren s = true -> (0 < d)%Z -> deep d s = true.
Proof.
  induction s as [|c s IH]; simpl; [done|]. intros [Hc Hs]%andb_prop Hd.
  rewrite no_paren_depth by done. rewrite (proj2 (Z.ltb_lt _ _)) by done. auto.
Qed.

Lemma split_skip sep s d w cur :
  split_loop sep (w ++ s) d (length w) cur = split_loop sep s d 0 cur.
Proof. induction w as [|c w IH]; [done|]. simpl. apply IH. Qed.

(** A part is passed over when no unit of it starts a separator at depth 0. *)
Lemma split_pass sep s d t cur :
  (forall a c b, s = a ++ c :: b -> (d + net (a ++ [c]) =? 0)%Z = true ->
     starts_with sep (c :: b ++ t) = false) ->
  split_loop sep (s ++ t) d 0 cur = split_loop sep t (d + net s) 0 (rev s ++ cur).
Proof.
  revert d cur. induction s as [|c s IH]; intros d cur H; simpl.
  - unfold net. simpl. by rewrite Z.add_0_r.
  - assert (Hd : depth_after c d = (d + net [c])%Z).
    { unfold net. simpl. replace d with (0 + d)%Z at 1 by lia. rewrite depth_after_shift. lia. }
    rewrite Hd. specialize (H [] c s eq_refl) as H0. simpl in H0.
    assert ((d + net [c] =? 0)%Z && starts_with sep (c :: s ++ t) = false) as ->.
    { destruct (d + net [c] =? 0)%Z; [simpl|done]. by apply H0. }
    rewrite IH.
    + rewrite (net_cons c s). by rewrite <- app_assoc, Z.add_assoc.
    + intros a x b -> Hz. apply (H (c :: a) x b eq_refl). rewrite <- Hz.
      simpl. rewrite (net_cons c (a ++ [x])). f_equal. lia.
Qed.

(** At the end, or at a separator. *)
Lemma split_end sep d cur : split_loop sep [] d 0 cur = [trim (rev cur)].
Proof. done. Qed.

Lemma split_sep sep s cur :
  sep <> [] -> forallb no_paren sep = true ->
  split_loop sep (sep ++ s) 0 0 cur = trim (rev cur) :: split_loop sep s 0 0 [].
Proof.
  intros Hne Hp. destruct sep as [|c sep]; [done|]. simpl in Hp. apply andb_prop in Hp as [Hc Hp].
  cbn [app split_loop]. rewrite no_paren_depth by done.
  assert (starts_with (c :: sep) (c :: sep ++ s) = true) as ->.
  { unfold starts_with. change (c :: sep ++ s) with ((c :: sep) ++ s).
    destruct (strip_prefix _ _) eqn:E; [done|].
    pose proof (proj2 (strip_prefix_spec (c :: sep) ((c :: sep) ++ s) s) eq_refl). congruence. }
  cbn [Z.eqb andb]. f_equal. replace (length (c :: sep) - 1) with (length sep) by (simpl; lia).
  apply split_skip.
Qed.

(** A list of parts is what splitting their concatenation gives. *)
Lemma split_top_join sep parts :
  sep <> [] -> forallb no_paren sep = true -> parts <> [] ->
  Forall (fun s => net s = 0%Z /\ trim s = s /\
    forall t, (t = [] \/ exists t', t = sep ++ t') -> forall a c b, s = a ++ c :: b ->
      net (a ++ [c]) = 0%Z -> starts_with sep (c :: b ++ t) = false) parts ->
  split_loop sep (join sep parts) 0 0 [] = parts.
Proof.
  intros Hne Hp Hparts H. induction H as [|s parts (Hn & Ht & Hs) H IH]; [done|].
  destruct parts as [|s' parts].
  - cbn [join]. rewrite <- (app_nil_r s) at 1. rewrite split_pass, app_nil_r.
    + simpl. by rewrite rev_involutive, Ht.
    + intros a c b -> Hz. apply (Hs [] (or_introl eq_refl) a c b eq_refl). apply Z.eqb_eq in Hz. lia.
  - change (join sep (s :: s' :: parts)) with (s ++ sep ++ join sep (s' :: parts)).
    rewrite split_pass; [rewrite app_nil_r, Hn; change (0 + 0)%Z with 0%Z;
      by rewrite split_sep, rev_involutive, Ht, IH by done|].
    intros a c b -> Hz. apply Z.eqb_eq in Hz.
    apply (Hs (sep ++ join sep (s' :: parts)) (or_intror (ex_intro _ _ eq_refl)) a c b eq_refl). lia.
Qed.

(** Splitting at a separator whose second unit does not occur in the parts. *)
Lemma split_at_rare x y rest parts :
  let sep := x :: y :: rest in
  forallb no_paren sep = true -> is_space x = true -> parts <> [] ->
  Forall (fun s => net s = 0%Z /\ s <> [] /\ trim s = s /\ forallb (fun c => negb (c =? y)%N) s = true) parts ->
  split_loop sep (join sep parts) 0 0 [] = parts.
Proof.
  intros sep Hp Hx Hne H. apply split_top_join; [done|done|done|].
  eapply Forall_impl; [done|]. intros s (Hn & Hs & Ht & Hy). split_and!; [done|done|].
  intros t Hte a c b -> _. unfold starts_with, sep. simpl.
  destruct (N.eqb_spec x c) as [->|]; [|done]. destruct b as [|c' b].
  - exfalso. pose proof (trim_trimmed (a ++ [c])) as [_ Hl]. rewrite Ht, rev_app_distr in Hl.
    simpl in Hl. congruence.
  - simpl. destruct (N.eqb_spec y c') as [->|]; [|done]. exfalso.
    rewrite forallb_app in Hy. simpl in Hy. rewrite N.eqb_refl, !andb_false_r in Hy. done.
Qed.

Lemma trim_ends a m b :
  trim a = a -> a <> [] -> trim b = b -> b <> [] -> trim (a ++ m ++ b) = a ++ m ++ b.
Proof.
  intros Ha Hna Hb Hnb. apply trim_id.
  pose proof (trim_trimmed a) as [H1 _]. pose proof (trim_trimmed b) as [_ H2]. rewrite Ha, Hb in *.
  split.
  - by destruct a.
  - rewrite !rev_app_distr. destruct (rev b) eqn:E; [|done].
    apply (f_equal (@rev N)) in E. rewrite rev_involutive in E. done.
Qed.

(** ** The texts of conditions are safe to split *)

Definition inert (c : N) : bool :=
  no_paren c && negb (c =? ch "&")%N && negb (c =? ch "|")%N.

Lemma value_inert c : value_unit c = true -> inert c = true.
Proof.
  unfold value_unit, inert, no_paren. simpl. rewrite negb_true_iff, !orb_false_iff.
  by intros (-> & -> & -> & -> & _).
Qed.
Lemma lit_inert s : forallb lit_unit s = true -> forallb inert s = true.
Proof. apply forallb_impl. intros c [Hc _]%andb_prop. by apply value_inert. Qed.
Lemma plain_inert s : forallb plain_unit s = true -> forallb inert s = true.
Proof.
  apply forallb_impl. intros c Hc. unfold plain_unit in Hc. apply andb_prop in Hc as [_ Hc].
  simpl in Hc. rewrite negb_true_iff, !orb_false_iff in Hc. unfold inert, no_paren.
  by destruct Hc as (_ & _ & -> & -> & -> & -> & _).
Qed.
Lemma num_inert s : forallb is_num_unit s = true -> forallb inert s = true.
Proof. intros H. apply lit_inert. revert H. apply forallb_impl, num_unit_lit. Qed.
Lemma time_func_inert f : f ∈ TIME_FUNCS -> forallb inert f = true /\ trim f = f.
Proof.
  intros H. unfold TIME_FUNCS in H. rewrite !elem_of_cons in H.
  destruct H as [->|[->|[->|[->|[->|H]]]]]; try done. by apply elem_of_nil in H.
Qed.
Lemma time_op_inert op : op ∈ [js "=="; js ">="; js "<"] -> forallb inert op = true.
Proof.
  rewrite !elem_of_cons. intros [->|[->|[->|H]]]; try done. by apply elem_of_nil in H.
Qed.
Lemma inert_flat s : forallb inert s = true -> forallb no_paren s = true.
Proof. apply forallb_impl. unfold inert. intros c H. by apply andb_prop in H as [[? _]%andb_prop _]. Qed.

Definition no_amp (c : N) : bool := negb (c =? ch "&")%N.
Definition no_bar (c : N) : bool := negb (c =? ch "|")%N.
Lemma inert_no_amp s : forallb inert s = true -> forallb no_amp s = true.
Proof. apply forallb_impl. unfold inert. intros c H. by apply andb_prop in H as [[_ ?]%andb_prop _]. Qed.
Lemma inert_no_bar s : forallb inert s = true -> forallb no_bar s = true.
Proof. apply forallb_impl. unfold inert. intros c H. by apply andb_prop in H as [_ ?]. Qed.

Record readable (t : jsstr) : Prop := {
  rd_net : net t = 0%Z;
  rd_deep : deep 1 t = true;
  rd_amp : forallb no_amp t = true;
  rd_trim : trim t = t;
  rd_ne : t <> [] }.

(** Computes [net], [deep] and classes over a text with known pieces. *)
Ltac over_text :=
  repeat first [ rewrite net_app | rewrite deep_app | rewrite forallb_app ];
  repeat match goal with
  | H : forallb inert ?p = true |- context [net ?p] => rewrite (net_flat p (inert_flat p H))
  | H : forallb inert ?p = true |- context [deep ?d ?p] =>
      rewrite (deep_flat d p (inert_flat p H)) by (vm_compute; reflexivity)
  | H : forallb inert ?p = true |- context [forallb no_amp ?p] => rewrite (inert_no_amp p H)
  | H : forallb inert ?p = true |- context [forallb no_bar ?p] => rewrite (inert_no_bar p H)
  end; vm_compute; reflexivity.

Lemma app_ne_l (a b : jsstr) : a <> [] -> a ++ b <> [].
Proof. by destruct a. Qed.

Lemma trim_by a m b t :
  t = a ++ m ++ b -> trim a = a -> a <> [] -> trim b = b -> b <> [] -> trim t = t.
Proof. intros ->. apply trim_ends. Qed.

Lemma readable_exists src path : forallb inert path = true -> readable (exists_text src path).
Proof.
  intros H. unfold exists_text. destruct src; split; try over_text; try by apply app_ne_l.
  - by apply trim_ends.
  - by apply trim_ends.
Qed.

Lemma readable_has path lit :
  forallb inert path = true -> forallb inert lit = true -> readable (has_text path lit).
Proof.
  intros H Hl. unfold has_text. split; try over_text; try by apply app_ne_l.
  eapply (trim_by (jsq "has(header('") (path ++ jsq "'), " ++ lit) [ch ")"]); try done.
  by rewrite <- !app_assoc.
Qed.

Lemma readable_eq src path lit :
  forallb inert path = true -> forallb inert lit = true -> lit <> [] -> trim lit = lit ->
  readable (eq_text src path lit).
Proof.
  intros H Hl Hne Ht. unfold eq_text. destruct src; split; try over_text; try by apply app_ne_l.
  - eapply (trim_by (js "param") (jsq "('" ++ path ++ jsq "') == ") lit); try done.
    by rewrite <- !app_assoc.
  - eapply (trim_by (js "header") (jsq "('" ++ path ++ jsq "') == ") lit); try done.
    by rewrite <- !app_assoc.
Qed.

Lemma readable_time f tz op v :
  f ∈ TIME_FUNCS -> forallb inert tz = true -> op ∈ [js "=="; js ">="; js "<"] ->
  is_numeric_literal v = true -> readable (time_text f tz op v).
Proof.
  intros Hf Htz Ho Hv. pose proof (numeric_trim v Hv) as Hvt. apply numeric_units in Hv as [Hvn Hv].
  apply num_inert in Hv. destruct (time_func_inert f Hf) as [Hfi Hft].
  destruct (time_func_letters f Hf) as [_ Hfn]. pose proof (time_op_inert op Ho).
  unfold time_text. split; try over_text; [|by apply app_ne_l].
  eapply (trim_by f (jsq "('" ++ tz ++ jsq "') " ++ op ++ [ch " "]) v); try done.
  by rewrite <- !app_assoc.
Qed.

Lemma readable_range f tz s e :
  f ∈ TIME_FUNCS -> forallb inert tz = true -> is_numeric_literal s = true ->
  is_numeric_literal e = true ->
  readable (range_text f tz s e) /\ readable (ch "(" :: range_text f tz s e ++ [ch ")"]).
Proof.
  intros Hf Htz Hs He. pose proof (numeric_trim e He) as Het. apply numeric_units in He as [Hen He].
  apply numeric_units in Hs as [_ Hs]. apply num_inert in He, Hs.
  destruct (time_func_inert f Hf) as [Hfi Hft]. destruct (time_func_letters f Hf) as [_ Hfn].
  unfold range_text. split; split; try over_text; try done.
  - eapply (trim_by f (jsq "('" ++ tz ++ jsq "') " ++ js ">= " ++ s ++ js " || " ++ f ++ jsq "('"
                       ++ tz ++ jsq "') < ") e); try done. by rewrite <- !app_assoc.
  - by apply app_ne_l.
  - change (net ([ch "("] ++ (f ++ jsq "('" ++ tz ++ jsq "') " ++ js ">= " ++ s ++ js " || " ++ f
      ++ jsq "('" ++ tz ++ jsq "') < " ++ e) ++ [ch ")"]) = 0%Z). over_text.
  - match goal with |- deep 1 (?x :: ?l) = true => change (deep 1 ([x] ++ l) = true) end. over_text.
  - match goal with |- forallb no_amp (?x :: ?l) = true => change (forallb no_amp ([x] ++ l) = true) end.
    over_text.
  - match goal with |- trim (?x :: ?l ++ _) = _ => by apply (trim_ends [x] l [ch ")"]) end.
Qed.

Definition is_range (c : RequestCondition) : bool :=
  match c with TimeCondition _ _ mode _ _ _ => bool_decide (mode = MATCH_RANGE) | _ => false end.

Lemma wrap_no_bar t : forallb no_bar t = true -> wrap_or t = t.
Proof.
  intros H. unfold wrap_or. destruct (includes _ t) eqn:E; [|done].
  apply includes_spec in E as (a & b & ->). rewrite !forallb_app in H.
  rewrite !andb_true_iff in H. destruct H as (_ & H & _). vm_compute in H. discriminate H.
Qed.

Lemma wrap_range f tz s e :
  wrap_or (range_text f tz s e) = ch "(" :: range_text f tz s e ++ [ch ")"].
Proof.
  unfold wrap_or. assert (includes (js " || ") (range_text f tz s e) = true) as ->; [|done].
  apply includes_spec. unfold range_text.
  exists (f ++ jsq "('" ++ tz ++ jsq "') " ++ js ">= " ++ s), (f ++ jsq "('" ++ tz ++ jsq "') < " ++ e).
  by rewrite <- !app_assoc.
Qed.

(** Both forms of the text of a condition are safe and read back. *)
Record reads_as (t : jsstr) (c : RequestCondition) : Prop := {
  ra_readable : readable t; ra_parse : tryParseRequestCondition t = Val c }.

Lemma cond_reads c :
  wf_cond c -> reads_as (cond_text c) c /\ reads_as (wrap_or (cond_text c)) c.
Proof.
  intros H. pose proof (parse_cond c H) as Hp.
  assert (Hsame : forall t, cond_text c = t -> readable t -> forallb no_bar t = true ->
    reads_as (cond_text c) c /\ reads_as (wrap_or (cond_text c)) c).
  { intros t E Hr Hb. rewrite E in *. by rewrite wrap_no_bar. }
  destruct H as [src path [Hne Hi%plain_inert] Ht|path v [Hne Hi%plain_inert] Ht Hv
    |src path v [Hne Hi%plain_inert] Ht Hv
    |f tz mode v Hf [Hne Hi%plain_inert] Hm Hn|f tz s e Hf [Hne Hi] Hs He].
  - apply (Hsame (exists_text src path)); [done|by apply readable_exists|].
    unfold exists_text. destruct src; over_text.
  - destruct Hv as [Hv Hu%quote_lit%lit_inert].
    apply (Hsame (has_text path (quote v))); [done|by apply readable_has|]. unfold has_text. over_text.
  - destruct (literal_units v Hv) as (Hl & Hlt & Hu%lit_inert).
    apply (Hsame (eq_text src path (buildExprLiteral MATCH_EQ v))); [done|by apply readable_eq|].
    unfold eq_text. destruct src; over_text.
  - destruct (time_mode_op mode Hm) as (Ho & _ & E & _).
    apply (Hsame (time_text f tz (time_op mode) v)); [by cbn [cond_text]; rewrite E|by apply readable_time|].
    destruct (time_func_inert f Hf) as [Hfi _]. pose proof (time_op_inert _ Ho).
    apply numeric_units in Hn as [_ Hn%num_inert]. unfold time_text. over_text.
  - clear Hsame. change (cond_text _) with (range_text f tz s e) in *.
    rewrite wrap_range. destruct (readable_range f tz s e Hf (plain_inert _ Hi) Hs He) as [R1 R2].
    by destruct (parse_range f tz s e) as [_ P2].
Qed.

(** ** Groups *)

Record wf_group (g : RequestRuleGroup) : Prop := {
  wfg_conditions : conditions g <> [];
  wfg_wf : Forall wf_cond (conditions g);
  wfg_multiplier : is_numeric_literal (multiplier g) = true }.

Lemma combine_as_join cs :
  cs <> [] -> Forall wf_cond cs ->
  exists parts, combine_conditions (List.map cond_text cs) = join (js " && ") parts
    /\ Forall2 reads_as parts cs.
Proof.
  intros Hne H. destruct cs as [|c [|c' cs]]; [done|..].
  - apply Forall_cons in H as [H _]. exists [cond_text c]. split; [done|].
    constructor; [exact (proj1 (cond_reads c H))|constructor].
  - exists (List.map wrap_or (List.map cond_text (c :: c' :: cs))). split; [done|].
    clear Hne. induction H as [|x l Hx _ IH]; simpl; [constructor|].
    constructor; [exact (proj2 (cond_reads x Hx))|done].
Qed.

Lemma parse_parts parts cs :
  Forall2 reads_as parts cs -> parse_conditions parts = Val cs.
Proof.
  induction 1 as [|t c parts cs [[_ _ _ Ht _] Hp] _ IH]; simpl; [done|]. by rewrite Ht, Hp, IH.
Qed.

Lemma split_and parts :
  parts <> [] -> Forall readable parts -> splitTopLevelAnd (join (js " && ") parts) = parts.
Proof.
  intros Hne Hr.
  unfold splitTopLevelAnd. change (js " && ") with (ch " " :: ch "&" :: js "& ").
  rewrite (split_at_rare (ch " ") (ch "&") (js "& ") parts); [|done..|].
  - clear -Hr. induction Hr as [|t parts [_ _ _ _ Hn] _ IH]; simpl; [done|].
    assert (nonempty t = true) as -> by (by destruct t). by f_equal.
  - eapply Forall_impl; [done|]. by intros t [? ? ? ? ?].
Qed.

Lemma join_deep parts :
  Forall readable parts -> parts <> [] ->
  net (join (js " && ") parts) = 0%Z /\ deep 1 (join (js " && ") parts) = true
  /\ join (js " && ") parts <> [].
Proof.
  intros H Hne. induction H as [|t parts [Hn Hd _ _ Ht] H IH]; [done|].
  destruct parts as [|t' parts]; [done|].
  destruct IH as (IH1 & IH2 & _); [done|].
  change (join (js " && ") (t :: t' :: parts)) with (t ++ js " && " ++ join (js " && ") (t' :: parts)).
  split_and!.
  - rewrite !net_app, IH1, Hn. done.
  - rewrite !deep_app, Hd, Hn. change (1 + 0)%Z with 1%Z. change (1 + net (js " && "))%Z with 1%Z.
    by rewrite IH2.
  - by apply app_ne_l.
Qed.

(** The text of a factor: everything between its parentheses is below the top
    level. *)
Definition factor_text (body mult : jsstr) : jsstr :=
  js "(" ++ body ++ js " ? " ++ mult ++ js " : 1)".

Lemma class_split_r (p : N -> bool) a a' x x' w w' :
  forallb p w = true -> forallb p w' = true -> p x = false -> p x' = false ->
  a ++ x :: w = a' ++ x' :: w' -> a = a' /\ x = x' /\ w = w'.
Proof.
  intros Hw Hw' Hx Hx' E. apply (f_equal (@rev N)) in E. rewrite !rev_app_distr in E. simpl in E.
  rewrite <- !app_assoc in E. simpl in E.
  destruct (class_split p (rev w) (rev w') (x :: rev a) (x' :: rev a')) as [E1 E2];
    try done; [by rewrite forallb_rev..|].
  injection E2 as -> E2. apply (f_equal (@rev N)) in E1, E2. by rewrite !rev_involutive in *.
Qed.

Lemma factor_match body mult :
  body <> [] -> mult <> [] -> forallb is_num_unit mult = true ->
  exists y, re_match (anchored FACTOR_R) (factor_text body mult) = Some y
    /\ st_caps y = [(2, mult); (1, body)].
Proof.
  intros Hb Hm Hn. unfold factor_text. change (js "(" ++ ?t) with (ch "(" :: t).
  assert (Hany : forallb (fun _ : N => true) body = true) by (by apply forallb_forall).
  rewrite <- (app_nil_r (js " : 1)")).
  match goal with |- context [re_match _ ?t] => the_match FACTOR_R t end.
  unfold_regexes. den_inv. subst.
  match goal with E : ch "(" :: body ++ _ = _ |- _ => apply cons_tail in E; rename E into E0 end.
  rewrite !app_nil_r in E0. rewrite !(app_assoc _ (js " ? ")), !(app_assoc _ _ (js " : 1)")) in E0.
  apply app_inv_tail in E0. change (js " ? ") with (js " ?" ++ [ch " "]) in E0.
  rewrite !app_assoc, <- !(app_assoc _ [ch " "]) in E0.
  apply (class_split_r is_num_unit) in E0 as (E0 & _ & E1); [|done..].
  apply app_inv_tail in E0. by subst.
Qed.

Lemma build_factor g :
  wf_group g ->
  buildRuleGroupFactor g = factor_text (combine_conditions (List.map cond_text (conditions g))) (multiplier g).
Proof.
  intros [Hc Hw Hm]. unfold buildRuleGroupFactor. rewrite numeric_trim, Hm by done. cbn [negb].
  assert (List.filter nonempty (List.map buildRequestConditionExpr (conditions g))
          = List.map cond_text (conditions g)) as ->.
  { clear Hc. induction Hw as [|c cs H _ IH]; simpl; [done|]. rewrite build_cond, IH by done.
    destruct (cond_reads c H) as [[[_ _ _ _ Hn] _] _]. by destruct (cond_text c). }
  by destruct (conditions g).
Qed.

Lemma factor_wrapped parts mult :
  Forall readable parts -> parts <> [] -> forallb is_num_unit mult = true ->
  exists inner, factor_text (join (js " && ") parts) mult = ch "(" :: inner ++ [ch ")"]
    /\ net inner = 0%Z /\ deep 1 inner = true.
Proof.
  intros Hr Hp Hmn. destruct (join_deep parts Hr Hp) as (Hn & Hd & _).
  pose proof (num_inert _ Hmn) as Hmi.
  exists (join (js " && ") parts ++ js " ? " ++ mult ++ js " : 1"). split_and!.
  - unfold factor_text. by rewrite <- !app_assoc.
  - rewrite !net_app, Hn, (net_flat mult (inert_flat _ Hmi)). done.
  - rewrite !deep_app, Hd, Hn. change (1 + 0 + net (js " ? "))%Z with 1%Z.
    rewrite (deep_flat _ mult (inert_flat _ Hmi)), (net_flat mult (inert_flat _ Hmi)) by done. done.
Qed.

Lemma factor_facts g :
  wf_group g ->
  let t := buildRuleGroupFactor g in
  (exists inner, t = ch "(" :: inner ++ [ch ")"] /\ net inner = 0%Z /\ deep 1 inner = true)
  /\ tryParseRuleGroupFactor t = Val g.
Proof.
  intros Hg. cbv zeta. rewrite build_factor by done. destruct g as [cs mult], Hg as [Hc Hw Hm]; simpl in *.
  destruct (combine_as_join cs Hc Hw) as (parts & E & H2). rewrite E.
  assert (Hr : Forall readable parts) by (clear -H2; induction H2 as [|? ? ? ? []]; by constructor).
  assert (Hp : parts <> []) by (intros ->; by apply Forall2_nil_inv_l in H2).
  destruct (join_deep parts Hr Hp) as (_ & _ & Hne). apply numeric_units in Hm as [Hm Hmn]. split.
  - by apply factor_wrapped.
  - unfold tryParseRuleGroupFactor.
    destruct (factor_match (join (js " && ") parts) mult Hne Hm Hmn) as (y & -> & Hcaps).
    use_caps Hcaps. rewrite (split_and parts), (parse_parts parts cs) by done. by destruct cs.
Qed.

(** ** Rules *)

Lemma deep_pos d s a c b :
  deep d s = true -> s = a ++ c :: b -> (0 < d + net (a ++ [c]))%Z.
Proof.
  intros H ->. replace (a ++ c :: b) with ((a ++ [c]) ++ b) in H by (by rewrite <- app_assoc).
  rewrite deep_app in H. apply andb_prop in H as [H _]. clear b.
  rewrite deep_app in H. apply andb_prop in H as [_ H]. simpl in H. rewrite andb_true_r in H.
  apply Z.ltb_lt in H. rewrite net_app. unfold net at 2. simpl.
  replace (d + net a)%Z with (0 + (d + net a))%Z in H by lia. rewrite depth_after_shift in H. lia.
Qed.

(** Inside parentheses nothing is at the top level; at the end there is a
    closing parenthesis. *)
Lemma wrapped_split inner x rest t :
  net inner = 0%Z -> deep 1 inner = true -> x <> ch ")" ->
  forall a c b, ch "(" :: inner ++ [ch ")"] = a ++ c :: b -> net (a ++ [c]) = 0%Z ->
  starts_with (x :: rest) (c :: b ++ t) = false.
Proof.
  intros Hn Hd Hx a c b E Hz.
  destruct a as [|a0 a]; simpl in E; injection E as <- E; [vm_compute in Hz; discriminate Hz|].
  destruct (exists_last (l := c :: b)) as (b' & z & Ez); [done|].
  rewrite Ez, app_assoc in E. apply app_inj_tail in E as [E <-].
  destruct b' as [|c' b']; simpl in Ez; injection Ez as -> Ez.
  - unfold starts_with. simpl. by destruct (N.eqb_spec x (ch ")")).
  - exfalso. pose proof (deep_pos 1 inner a c' b' Hd E) as Hp.
    change ((ch "(" :: a) ++ [c']) with ([ch "("] ++ (a ++ [c'])) in Hz. rewrite net_app in Hz.
    change (net [ch "("]) with 1%Z in Hz. lia.
Qed.

Lemma trim_wrapped inner : trim (ch "(" :: inner ++ [ch ")"]) = ch "(" :: inner ++ [ch ")"].
Proof. by apply (trim_ends [ch "("] inner [ch ")"]). Qed.

Definition wrapped (t : jsstr) : Prop :=
  exists inner, t = ch "(" :: inner ++ [ch ")"] /\ net inner = 0%Z /\ deep 1 inner = true.

Lemma split_multiply parts :
  parts <> [] -> Forall wrapped parts -> splitTopLevelMultiply (join (js " * ") parts) = parts.
Proof.
  intros Hne H. unfold splitTopLevelMultiply. rewrite split_top_join; [|done|done|done|].
  - clear Hne. induction H as [|t parts (i & -> & _) _ IH]; simpl; [done|]. by f_equal.
  - eapply Forall_impl; [done|]. intros t (i & -> & Hn & Hd). split_and!; [|apply trim_wrapped|].
    + rewrite net_cons, net_app, Hn. done.
    + intros t _ a c b E Hz. by eapply (wrapped_split i).
Qed.

Lemma build_rules gs :
  Forall wf_group gs -> buildRequestRuleExpr gs = join (js " * ") (List.map buildRuleGroupFactor gs)
  /\ Forall wrapped (List.map buildRuleGroupFactor gs).
Proof.
  intros H. unfold buildRequestRuleExpr.
  assert (Forall wrapped (List.map buildRuleGroupFactor gs)) as Hw.
  { induction H as [|g gs Hg _ IH]; simpl; [constructor|]. constructor; [|done].
    by destruct (factor_facts g Hg). }
  split; [|done]. f_equal. induction Hw as [|t l (i & -> & _) _ IH]; simpl; [done|]. by f_equal.
Qed.

Lemma parse_factors gs :
  Forall wf_group gs -> parse_groups (List.map buildRuleGroupFactor gs) = Val gs.
Proof.
  induction 1 as [|g gs Hg _ IH]; simpl; [done|]. destruct (factor_facts g Hg) as [_ ->].
  by rewrite IH.
Qed.

Lemma trim_join_wrapped parts :
  Forall wrapped parts -> parts <> [] ->
  trim (join (js " * ") parts) = join (js " * ") parts /\ join (js " * ") parts <> [].
Proof.
  intros H Hne. assert (Hj : exists m, join (js " * ") parts = ch "(" :: m ++ [ch ")"]).
  { induction H as [|t parts (i & -> & _) H IH]; [done|]. destruct parts as [|t' parts].
    - by exists i.
    - destruct IH as [m Hm]; [done|]. 
      exists (i ++ [ch ")"] ++ js " * " ++ [ch "("] ++ m).
      change (join (js " * ") (?a :: t' :: parts)) with (a ++ js " * " ++ join (js " * ") (t' :: parts)).
      rewrite Hm. simpl. by rewrite <- !app_assoc. }
  destruct Hj as [m ->]. split; [apply trim_wrapped|done].
Qed.

(** The parser returns the groups that were printed. *)
Lemma rules_read_back gs :
  Forall wf_group gs -> tryParseRequestRuleExpr (buildRequestRuleExpr gs) = Val gs.
Proof.
  intros H. destruct (build_rules gs H) as [-> Hw]. unfold tryParseRequestRuleExpr.
  destruct gs as [|g gs]; [done|].
  destruct (trim_join_wrapped _ Hw) as [-> Hne]; [done|].
  assert (nonempty (join (js " * ") (List.map buildRuleGroupFactor (g :: gs))) = true) as ->
    by (by destruct (join _ _)).
  cbn [negb]. rewrite split_multiply by done. by apply parse_factors.
Qed.

(** C3: Request rules survive being printed and parsed: for groups with a
    numeric multiplier and conditions of the kinds that can be read back
    (existence, equality, containment in a header, clock comparisons and
    overnight ranges) over texts without parentheses, ampersands and bars, the
    parser returns exactly the groups the editor printed. *)
Theorem rules_roundtrip gs :
  Forall wf_group gs -> tryParseRequestRuleExpr (buildRequestRuleExpr gs) = Val gs.
Proof. apply rules_read_back. Qed.

(** ** Conditions that are not read back *)

Definition cmp_text (path op v : jsstr) : jsstr :=
  jsq "param('" ++ path ++ jsq "') " ++ op ++ [ch " "] ++ v.

Lemma cmp_ops mode op :
  cmp_op mode = Some op -> op ∈ [js ">"; js ">="; js "<"; js "<="].
Proof.
  unfold cmp_op. intros H. repeat case_match; simplify_eq; apply (bool_decide_unpack _); vm_compute; exact I.
Qed.

Section NotReadBack.
Context (path : jsstr) (Hne : path <> []) (Hq : forallb not_quote path = true).

(** The operator after the path decides. *)
Lemma parse_cmp_null x w v :
  x = ch ">" \/ x = ch "<" -> tryParseRequestCondition (cmp_text path (x :: w) v) = Null.
Proof.
  intros Hx. unfold tryParseRequestCondition.
  assert (tryParseTimeCondition (cmp_text path (x :: w) v) = None) as -> by apply (not_time SourceParam).
  unfold cmp_text. skip_regex HEADER_EXISTS_R. skip_regex HEADER_HAS_R. unfold anchored.
  rewrite (re_match_none PARAM_EXISTS_R), (re_match_none PARAM_HAS_R), (re_match_none PARAM_CMP_R),
    (re_match_none EQ_R); try done; intros s' c' H; unfold_regexes; den_inv; subst.
  1: match goal with Hs : ?src ∈ [_; _], E : _ = ?src ++ _ |- _ =>
       rewrite !elem_of_cons in Hs; destruct Hs as [->|[->|Hs]];
       [change (js "param" ++ jsq "('" ++ ?r) with (jsq "param('" ++ r) in E
       |discriminate E|by apply elem_of_nil in Hs] end.
  all: match goal with E : _ ++ path ++ _ = _ |- _ =>
         past_lit E; split_at not_quote E; destruct Hx as [-> | ->]; discriminate E end.
Qed.

Lemma parse_param_has_null lit :
  tryParseRequestCondition (jsq "has(param('" ++ path ++ jsq "'), " ++ lit ++ [ch ")"]) = Null.
Proof.
  unfold tryParseRequestCondition, tryParseTimeCondition.
  skip_regex RANGE_R. skip_regex RANGE_PAREN_R. skip_regex TIME_R. skip_regex HEADER_EXISTS_R.
  skip_regex PARAM_EXISTS_R. skip_regex HEADER_HAS_R. skip_regex PARAM_HAS_R. skip_regex PARAM_CMP_R.
  by skip_regex EQ_R.
Qed.
End NotReadBack.

Lemma readable_cmp path op v :
  forallb inert path = true -> op ∈ [js ">"; js ">="; js "<"; js "<="] -> is_numeric_literal v = true ->
  readable (cmp_text path op v).
Proof.
  intros Hp Ho Hv. pose proof (numeric_trim v Hv) as Hvt. apply numeric_units in Hv as [Hvn Hv].
  apply num_inert in Hv.
  assert (forallb inert op = true).
  { rewrite !elem_of_cons in Ho. destruct Ho as [->|[->|[->|[->|Ho]]]]; try done. by apply elem_of_nil in Ho. }
  unfold cmp_text. split; try over_text; [|by apply app_ne_l].
  eapply (trim_by (jsq "param('") (path ++ jsq "') " ++ op ++ [ch " "]) v); try done.
  by rewrite <- !app_assoc.
Qed.

Lemma readable_param_has path lit :
  forallb inert path = true -> forallb inert lit = true ->
  readable (jsq "has(param('" ++ path ++ jsq "'), " ++ lit ++ [ch ")"]).
Proof.
  intros H Hl. split; try over_text; try by apply app_ne_l.
  eapply (trim_by (jsq "has(param('") (path ++ jsq "'), " ++ lit) [ch ")"]); try done.
  by rewrite <- !app_assoc.
Qed.

(** A rule with a part the parser does not know is not a rule to it. *)
Lemma parse_rule_null t1 c1 t2 mult :
  reads_as t1 c1 -> readable t2 -> tryParseRequestCondition t2 = Null ->
  is_numeric_literal mult = true ->
  tryParseRequestRuleExpr (factor_text (join (js " && ") [t1; t2]) mult) = Null.
Proof.
  intros [R1 P1] R2 P2 [Hm Hmn]%numeric_units.
  assert (Hr : Forall readable [t1; t2]) by (apply Forall_cons_2; [done|by apply Forall_cons_2]).
  assert (Hw : wrapped (factor_text (join (js " && ") [t1; t2]) mult)) by (by apply factor_wrapped).
  assert (Hs := split_multiply [factor_text (join (js " && ") [t1; t2]) mult] ltac:(done)
                  (Forall_cons_2 _ _ _ Hw (Forall_nil_2 _))). change (join (js " * ") [?t]) with t in Hs.
  destruct Hw as (i & E & _). unfold tryParseRequestRuleExpr.
  assert (trim (factor_text (join (js " && ") [t1; t2]) mult)
          = factor_text (join (js " && ") [t1; t2]) mult) as -> by (rewrite E; apply trim_wrapped).
  rewrite Hs. rewrite E at 1. cbn [nonempty negb parse_groups]. unfold tryParseRuleGroupFactor.
  destruct (join_deep [t1; t2] Hr ltac:(done)) as (_ & _ & Hne).
  destruct (factor_match _ mult Hne Hm Hmn) as (y & -> & Hc). use_caps Hc.
  rewrite split_and by done. cbn [parse_conditions].
  by rewrite (rd_trim _ R1), (rd_trim _ R2), P1, P2.
Qed.

Lemma build_param_cmp path mode op v :
  path <> [] -> forallb plain_unit path = true -> trim path = path ->
  cmp_op mode = Some op -> is_numeric_literal v = true ->
  buildRequestConditionExpr (ParamHeaderCondition SourceParam path mode v)
  = join (js " && ") [exists_text SourceParam path; cmp_text path op v].
Proof.
  intros Hne Hp Ht Hop Hv. unfold buildRequestConditionExpr.
  assert (Hmode : mode ∈ [MATCH_GT; MATCH_GTE; MATCH_LT; MATCH_LTE]).
  { unfold cmp_op in Hop. rewrite !elem_of_cons. repeat case_bool_decide; naive_solver. }
  assert (normalizeCondition (partial_of (ParamHeaderCondition SourceParam path mode v))
          = ParamHeaderCondition SourceParam path mode v) as ->.
  { rewrite !elem_of_cons in Hmode.
    destruct Hmode as [->|[->|[->|[->|H]]]]; try reflexivity. by apply elem_of_nil in H. }
  unfold buildParamHeaderExpr. rewrite Ht, Hop.
  assert (nonempty path = true) as -> by (by destruct path).
  rewrite numeric_trim, Hv, quote_call by done. cbn [negb].
  assert (bool_decide (mode = MATCH_EXISTS) = false /\ bool_decide (mode = MATCH_CONTAINS) = false) as [-> ->].
  { rewrite !elem_of_cons in Hmode.
    destruct Hmode as [->|[->|[->|[->|H]]]]; try done. by apply elem_of_nil in H. }
  unfold exists_text, cmp_text. cbn [join source_name].
  change (jsq "param('") with (js "param" ++ jsq "('").
  change (jsq "') != nil") with (jsq "')" ++ js " != nil").
  change (js " != nil && ") with (js " != nil" ++ js " && ").
  change (jsq "') ") with (jsq "')" ++ js " "). change [ch " "] with (js " ").
  by rewrite <- !app_assoc.
Qed.

Lemma build_param_contains path v :
  path <> [] -> forallb plain_unit path = true -> trim path = path -> trim v = v ->
  buildRequestConditionExpr (ParamHeaderCondition SourceParam path MATCH_CONTAINS v)
  = join (js " && ") [exists_text SourceParam path;
                      jsq "has(param('" ++ path ++ jsq "'), " ++ quote v ++ [ch ")"]].
Proof.
  intros Hne Hp Ht Hv. unfold buildRequestConditionExpr.
  rewrite normalize_ph by (rewrite !elem_of_cons; auto). unfold buildParamHeaderExpr. rewrite Ht.
  assert (nonempty path = true) as -> by (by destruct path). cbn [negb].
  change (bool_decide (MATCH_CONTAINS = MATCH_EXISTS)) with false. rewrite bool_decide_true by done.
  rewrite quote_call by done. unfold buildExprLiteral. rewrite bool_decide_true, Hv by done.
  unfold exists_text. cbn [join source_name].
  change (jsq "param('") with (js "param" ++ jsq "('").
  change (jsq "has(param('") with (js "has(" ++ js "param" ++ jsq "('").
  change (jsq "') != nil") with (jsq "')" ++ js " != nil").
  change (js " != nil && ") with (js " != nil" ++ js " && ").
  change (jsq "'), ") with (jsq "')" ++ js ", "). change [ch ")"] with (js ")").
  by rewrite <- !app_assoc.
Qed.

(** A rule with a numeric comparison of a parameter, or a containment
    test of a parameter, is printed with a guard [param(..) != nil && ..], and
    the parser, which splits at every top-level [&&] before it looks at a
    condition, rejects what was printed: its patterns for guarded conditions
    can never match a part. *)
Theorem param_rules_not_read_back path mode v mult :
  wf_name path -> trim path = path -> is_numeric_literal mult = true ->
  (is_Some (cmp_op mode) /\ is_numeric_literal v = true) \/ (mode = MATCH_CONTAINS /\ wf_value v) ->
  let expr := buildRequestRuleExpr [mkGroup [ParamHeaderCondition SourceParam path mode v] mult] in
  expr <> [] /\ tryParseRequestRuleExpr expr = Null.
Proof.
  intros Hp Ht Hm Hmode. destruct Hp as [Hne Hpl].
  assert (Hex : reads_as (exists_text SourceParam path) (ParamHeaderCondition SourceParam path MATCH_EXISTS [])).
  { apply (cond_reads _ (wf_exists SourceParam path (conj Hne Hpl) Ht)). }
  set (c := ParamHeaderCondition SourceParam path mode v).
  assert (Hc : exists t2, buildRequestConditionExpr c = join (js " && ") [exists_text SourceParam path; t2]
    /\ readable t2 /\ tryParseRequestCondition t2 = Null).
  { pose proof (plain_inert _ Hpl) as Hpi. pose proof (plain_not_quote _ Hpl) as Hpq.
    destruct Hmode as [[[op Hop] Hv]|[-> [Hvt Hvu]]].
    - pose proof (cmp_ops _ _ Hop) as Hin. exists (cmp_text path op v). split_and!.
      + by apply build_param_cmp.
      + by apply readable_cmp.
      + rewrite !elem_of_cons in Hin.
        destruct Hin as [->|[->|[->|[->|Hin]]]]; [apply parse_cmp_null; auto..|by apply elem_of_nil in Hin].
    - exists (jsq "has(param('" ++ path ++ jsq "'), " ++ quote v ++ [ch ")"]). split_and!.
      + by apply build_param_contains.
      + apply readable_param_has; [done|]. by apply lit_inert, quote_lit.
      + apply parse_param_has_null. }
  destruct Hc as (t2 & Hc & R2 & P2).
  assert (Hb : buildRequestRuleExpr [mkGroup [c] mult]
               = factor_text (join (js " && ") [exists_text SourceParam path; t2]) mult).
  { unfold buildRequestRuleExpr, buildRuleGroupFactor. simpl. rewrite numeric_trim, Hm by done. simpl.
    by rewrite Hc. }
  cbv zeta. rewrite Hb. split; [done|]. by eapply parse_rule_null.
Qed.

(** ** Composition with a base expression *)

Lemma outer_loop_wrapped inner d :
  deep d inner = true -> (d + net inner = 1)%Z -> outer_loop (inner ++ [ch ")"]) d = true.
Proof.
  revert d. induction inner as [|c inner IH]; intros d Hd Hn; simpl in *.
  - assert (d = 1%Z) as -> by (unfold net in Hn; simpl in Hn; lia). done.
  - apply andb_prop in Hd as [Hp Hd]. apply Z.ltb_lt in Hp.
    rewrite (proj2 (Z.eqb_neq _ _)) by lia. cbn [andb]. apply IH; [done|].
    rewrite net_cons in Hn. unfold net at 1 in Hn. simpl in Hn.
    replace d with (0 + d)%Z by lia. rewrite depth_after_shift. lia.
Qed.

Lemma hasFullOuterParens_wrapped t : wrapped t -> hasFullOuterParens t = true.
Proof.
  intros (i & -> & Hn & Hd). unfold hasFullOuterParens.
  assert (ends_with (js ")") (ch "(" :: i ++ [ch ")"]) = true) as ->.
  { unfold ends_with. change (ch "(" :: i ++ [ch ")"]) with ((ch "(" :: i) ++ [ch ")"]).
    by rewrite rev_app_distr. }
  cbn [starts_with strip_prefix negb orb]. apply (outer_loop_wrapped i 1); [done|lia].
Qed.

Lemma inner_wrapped i : inner (ch "(" :: i ++ [ch ")"]) = i.
Proof.
  unfold inner, slice. simpl. rewrite length_app. simpl.
  replace (length i + 1 - 0 - 1) with (length i) by lia. rewrite drop_0. apply take_app_length.
Qed.

Lemma unwrap_once i :
  wrapped (ch "(" :: i ++ [ch ")"]) -> trim i = i -> hasFullOuterParens i = false ->
  unwrapOuterParens (ch "(" :: i ++ [ch ")"]) = i.
Proof.
  intros Hw Ht Hi. unfold unwrapOuterParens. rewrite trim_wrapped. cbn [length].
  rewrite length_app. cbn [length]. replace (length i + 1) with (S (length i)) by lia.
  cbn [unwrap_loop]. rewrite hasFullOuterParens_wrapped, inner_wrapped, Ht, Hi by done.
  done.
Qed.

Lemma trim_length s : length (trim s) <= length s.
Proof.
  unfold trim, trim_end, trim_start. rewrite length_rev.
  assert (G : forall l, length (drop_while is_space l) <= length l).
  { induction l as [|c l IH]; simpl; [done|]. case_match; simpl; lia. }
  etrans; [apply G|]. rewrite length_rev. apply G.
Qed.

Lemma unwrap_loop_done fuel s : length s <= fuel -> hasFullOuterParens (unwrap_loop fuel s) = false.
Proof.
  revert s. induction fuel as [|f IH]; intros s Hl; simpl.
  - by destruct s; [|simpl in Hl; lia].
  - destruct (hasFullOuterParens s) eqn:E; [|done]. apply IH.
    destruct s as [|c s]; [done|]. etrans; [apply trim_length|]. unfold inner, slice.
    rewrite length_take, length_drop. simpl in *. lia.
Qed.

(** Unwrapping ends: its loop stops within as many turns as the text is
    long, at a text that is not wrapped in parentheses any more. *)
Theorem unwrapOuterParens_done expr : hasFullOuterParens (unwrapOuterParens expr) = false.
Proof. unfold unwrapOuterParens. by apply unwrap_loop_done. Qed.

Lemma partition_rules gs :
  Forall wf_group gs ->
  partition_parts (List.map buildRuleGroupFactor gs) = Some (List.map buildRuleGroupFactor gs, []).
Proof.
  induction 1 as [|g gs Hg _ IH]; [done|]. cbn [List.map partition_parts].
  destruct (factor_facts g Hg) as [Hw Hp].
  assert (tryParseRequestRuleExpr (buildRuleGroupFactor g) = Val [g]) as ->.
  { unfold tryParseRequestRuleExpr.
    assert (Hs := split_multiply [buildRuleGroupFactor g] ltac:(done)
                    (Forall_cons_2 _ _ _ Hw (Forall_nil_2 _))). cbn [join] in Hs.
    destruct Hw as (i & E & _). rewrite E in *. rewrite trim_wrapped, Hs. cbn [nonempty negb parse_groups].
    by rewrite Hp. }
  by rewrite IH.
Qed.

(** Splitting a combination at its rules. *)
Lemma split_combined base gs :
  trim base = base -> base <> [] -> net base = 0%Z -> deep 1 base = true ->
  hasFullOuterParens base = false -> tryParseRequestRuleExpr (js "(" ++ base ++ js ")") = Null ->
  gs <> [] -> Forall wf_group gs ->
  splitBillingExprAndRequestRules (combineBillingExpr base (buildRequestRuleExpr gs))
  = Some (mkSplit base (buildRequestRuleExpr gs)).
Proof.
  intros Ht Hne Hn Hd Hf Hbase Hgs H. destruct (build_rules gs H) as [-> Hw].
  set (fs := List.map buildRuleGroupFactor gs) in *.
  assert (Hfs : fs <> []) by (by destruct gs).
  destruct (trim_join_wrapped fs Hw Hfs) as [Htj Hnj].
  assert (Hwb : wrapped (js "(" ++ base ++ js ")")) by (by exists base).
  assert (Hc : combineBillingExpr base (join (js " * ") fs) = join (js " * ") ((js "(" ++ base ++ js ")") :: fs)).
  { unfold combineBillingExpr. rewrite Ht, Htj. assert (nonempty base = true) as -> by (by destruct base).
    assert (nonempty (join (js " * ") fs) = true) as -> by (by destruct (join _ _)). cbn [negb].
    destruct fs as [|f fs]; [done|].
    change (join (js " * ") (?a :: f :: fs)) with (a ++ js " * " ++ join (js " * ") (f :: fs)).
    change (js ") * ") with (js ")" ++ js " * "). by rewrite <- !app_assoc. }
  rewrite Hc. unfold splitBillingExprAndRequestRules.
  assert (Hall : Forall wrapped ((js "(" ++ base ++ js ")") :: fs)) by (by constructor).
  destruct (trim_join_wrapped _ Hall) as [-> Hnj']; [done|].
  assert (nonempty (join (js " * ") ((js "(" ++ base ++ js ")") :: fs)) = true) as ->
    by (by destruct (join (js " * ") (_ :: fs))).
  cbn [negb]. rewrite split_multiply by done.
  assert ((length ((js "(" ++ base ++ js ")") :: fs) <=? 1) = false) as ->
    by (destruct fs; [done|reflexivity]).
  cbn [partition_parts]. rewrite Hbase. unfold fs at 1. rewrite partition_rules by done. fold fs.
  assert (nonempty fs = true) as -> by (by destruct fs).
  change (js "(" ++ base ++ js ")") with (ch "(" :: base ++ [ch ")"]) in *.
  by rewrite unwrap_once.
Qed.

(** C24: Splitting undoes combining: a base expression with balanced
    parentheses that is not itself wrapped or a request rule, combined with
    the printed form of readable rules, is split into the same base and the
    same rules. *)
Theorem combine_split base gs :
  trim base = base -> base <> [] -> net base = 0%Z -> deep 1 base = true ->
  hasFullOuterParens base = false -> tryParseRequestRuleExpr (js "(" ++ base ++ js ")") = Null ->
  gs <> [] -> Forall wf_group gs ->
  splitBillingExprAndRequestRules (combineBillingExpr base (buildRequestRuleExpr gs))
  = Some (mkSplit base (buildRequestRuleExpr gs)).
Proof. apply split_combined. Qed.

(** ** Witnesses *)

Definition example_groups : list RequestRuleGroup :=
  [mkGroup [ParamHeaderCondition SourceParam (js "service_tier") MATCH_EQ (js "priority");
            TimeCondition (js "hour") (js "Asia/Shanghai") MATCH_RANGE [] (js "21") (js "6")]
     (js "1.5");
   mkGroup [ParamHeaderCondition SourceHeader (js "x-speed") MATCH_CONTAINS (jsq "fa'st")] (js "2")].

Lemma example_groups_wf : Forall wf_group example_groups.
Proof.
  assert (D : forall P `{Decision P}, bool_decide P = true -> P) by (intros P ? E; by apply bool_decide_eq_true in E).
  repeat constructor; simpl; try done; try (apply D with (P := _ ∈ _); [apply _|reflexivity]);
    try (by vm_compute).
Qed.

Lemma rules_roundtrip_witness :
  tryParseRequestRuleExpr (buildRequestRuleExpr example_groups) = Val example_groups.
Proof. apply (rules_roundtrip example_groups). exact example_groups_wf. Defined.

Lemma param_rules_not_read_back_witness :
  let expr := buildRequestRuleExpr
    [mkGroup [ParamHeaderCondition SourceParam (js "max_tokens") MATCH_GT (js "4096")] (js "2")] in
  expr <> [] /\ tryParseRequestRuleExpr expr = Null.
Proof.
  apply (param_rules_not_read_back (js "max_tokens") MATCH_GT (js "4096") (js "2"));
    [split; [done|reflexivity]|reflexivity|reflexivity|left; split; [by eexists|reflexivity]].
Defined.

Lemma combine_split_witness :
  let base := jsq "tier('base', p * 3 + c * 15)" in
  splitBillingExprAndRequestRules (combineBillingExpr base (buildRequestRuleExpr example_groups))
  = Some (mkSplit base (buildRequestRuleExpr example_groups)).
Proof.
  apply (combine_split (jsq "tier('base', p * 3 + c * 15)") example_groups);
    [reflexivity|done|reflexivity|reflexivity|reflexivity|vm_compute; reflexivity|done|exact example_groups_wf].
Defined.
