(* ===== verification/JsScanFacts.v ===== *)
(** * Scanning a text

    What [re_all] and [re_split] return when the matches of an expression at
    each position are known: the expression matches nowhere in a gap
    ([re_all_gap]), and where it matches there is one match
    ([re_all_found]). *)

From S2P Require Import Prelude JsRegex JsRegexFacts BillingExpr.

Lemma matches_idx r st st' :
  matches r st st' -> st_idx st' + length (st_rest st') = st_idx st + length (st_rest st).
Proof.
  induction 1 as [st|p st c rest E Hp| | | | | | |n st t E| | |]; try done; try (simpl in *; lia).
  - rewrite E. simpl. lia.
  - apply strip_prefix_spec in E. generalize dependent (group n st). intros w. revert st.
    induction w as [|c w IH]; intros st E; [done|]. simpl. rewrite E. simpl.
    rewrite IH by done. simpl. lia.
Qed.

(** Induction over the iterations of a repetition. *)
Lemma denote_star_ind r (P : jsstr -> caps -> Prop) s' c' :
  P s' c' -> (forall s c s1 c1, denote r s c s1 c1 -> P s1 c1 -> P s c) ->
  forall s c, denote (RStar r) s c s' c' -> P s c.
Proof.
  intros H0 H1 s c H. cbn [denote] in H.
  match type of H with rtc _ ?x ?y => remember x as a eqn:Ea; remember y as b eqn:Eb end.
  revert s c Ea. induction H as [a|a a1 b [Hd _] _ IH]; intros s c Ea; [by simplify_eq|].
  subst a. eapply H1; [exact Hd|]. apply IH; [done|]. by destruct a1.
Qed.

(** ** The match at a position *)

Definition no_match (r : regex) (s : jsstr) : Prop := forall s' c', ~ denote r s [] s' c'.
(** There is a match, and every match leaves the text [s'] and captures that
    satisfy [P]. *)
Definition one_match (r : regex) (s s' : jsstr) (P : caps -> Prop) : Prop :=
  (exists t k, denote r s [] t k) /\ forall t k, denote r s [] t k -> t = s' /\ P k.

Definition reset (st : mstate) : mstate := mkSt (st_prev st) (st_idx st) (st_rest st) [].

Lemma m_none r st : simple r = true -> no_match r (st_rest st) -> m r Some (reset st) = None.
Proof.
  intros Hs Hn. destruct (m r Some (reset st)) as [y|] eqn:E; [|done].
  apply m_sound in E as (st' & H & _). apply matches_denote in H; [|done]. by apply Hn in H.
Qed.

Lemma m_one r st s' P :
  simple r = true -> one_match r (st_rest st) s' P ->
  exists y, m r Some (reset st) = Some y /\ st_rest y = s' /\ P (st_caps y)
    /\ st_idx y + length s' = st_idx st + length (st_rest st).
Proof.
  intros Hs [(t & k & Hd) Ho]. destruct (m r Some (reset st)) as [y|] eqn:E.
  - apply m_sound in E as (st' & H & [= ->]). exists y. split; [done|].
    pose proof (matches_idx _ _ _ H) as Hi. apply matches_denote in H; [|done].
    apply Ho in H as [<- HP]. done.
  - destruct (denote_matches r (reset st) t k Hs Hd) as (st' & H & _).
    destruct (m_complete _ _ _ H Some) as [z Hz]; [by eexists|congruence].
Qed.

Lemma star_loop_S mr k f st :
  star_loop mr k (S f) st
  = match mr (fun y => if length (st_rest y) <? length (st_rest st)
                       then star_loop mr k f y else None) st with
    | Some y => Some y
    | None => k st
    end.
Proof. done. Qed.

Lemma m_char p k st :
  m (RChar p) k st
  = match st_rest st with c :: rest => if p c then k (adv1 c rest st) else None | [] => None end.
Proof. done. Qed.

(** A repetition of a class takes all it can when the rest then succeeds. *)
Lemma star_class_greedy p k w r y fuel st :
  st_rest st = w ++ r -> length w < fuel -> forallb p w = true ->
  match r with [] => True | x :: _ => p x = false end ->
  k (adv w st) = Some y -> star_loop (m (RChar p)) k fuel st = Some y.
Proof.
  revert fuel st. induction w as [|c w IH]; intros [|f] st E Hf Hw Hr Hk; simpl in Hf; try lia.
  - rewrite star_loop_S, m_char. rewrite E. destruct r as [|x r]; [done|]. simpl. by rewrite Hr.
  - simpl in Hw. apply andb_prop in Hw as [Hc Hw]. rewrite star_loop_S, m_char. rewrite E.
    cbn [app adv1 st_rest]. rewrite Hc, (proj2 (Nat.ltb_lt _ _)) by (simpl; lia).
    cbn [adv] in Hk. rewrite E in Hk. cbn [app] in Hk.
    rewrite (IH f (adv1 c (w ++ r) st)); done || lia.
Qed.

Lemma m_star_greedy p k w r y st :
  st_rest st = w ++ r -> forallb p w = true ->
  match r with [] => True | x :: _ => p x = false end ->
  k (adv w st) = Some y -> m (RStar (RChar p)) k st = Some y.
Proof.
  intros E Hw Hr Hk. rewrite m_star. eapply star_class_greedy; try done.
  rewrite E, length_app. lia.
Qed.

Lemma m_lit w k s st : st_rest st = w ++ s -> m (rlit w) k st = k (adv w st).
Proof.
  revert st. induction w as [|c w IH]; intros st E; [done|].
  cbn [rlit]. change (m (RSeq ?a ?b) k st) with (m a (m b k) st). unfold runit.
  rewrite m_char, E. cbn [app]. rewrite N.eqb_refl, IH by done. cbn [adv]. by rewrite E.
Qed.

Lemma adv_app v w st : adv (v ++ w) st = adv w (adv v st).
Proof.
  revert st. induction v as [|c v IH]; intros st; [done|]. cbn [app adv].
  destruct (st_rest st) eqn:E; [|apply IH]. destruct w; cbn [adv]; by rewrite ?E.
Qed.

(** ** All matches *)

Lemma search_idx r fuel st i y : search r fuel st = Some (i, y) -> st_idx st <= i.
Proof.
  revert st. induction fuel as [|f IH]; intros st H; simpl in H;
    destruct (m r Some _); simplify_eq; try done; destruct (st_rest st); try done.
   apply IH in H. simpl in H. lia.
Qed.

Lemma search_reset r fuel st : search r fuel (reset st) = search r fuel st.
Proof.
  revert st. induction fuel as [|f IH]; intros st; cbn [search reset st_prev st_idx st_rest]; [done|].
  destruct (m r Some _); [done|]. destruct (st_rest st) as [|c rest]; [done|].
  rewrite <- IH. symmetry. by rewrite <- IH.
Qed.
Lemma re_all_reset r f st : re_all_from r f (reset st) = re_all_from r f st.
Proof. destruct f; [done|]. cbn [re_all_from]. by rewrite search_reset. Qed.

Lemma re_all_skip r f st c rest :
  m r Some (reset st) = None -> st_rest st = c :: rest ->
  re_all_from r f st = re_all_from r f (adv1 c rest st).
Proof.
  intros Hn E. destruct f as [|f]; [done|]. cbn [re_all_from].
  assert (Hse : search r (length (st_rest st)) st = search r (length rest) (adv1 c rest st)).
  { rewrite E. cbn [search length]. fold (reset st). by rewrite Hn, E. }
  rewrite Hse. cbn [adv1 st_rest st_idx]. destruct (search r (length rest) _) as [[i y]|] eqn:Ei; [|done].
  apply search_idx in Ei. cbn [adv1 st_idx] in Ei. rewrite E.
  replace (i - st_idx st) with (S (i - S (st_idx st))) by lia. done.
Qed.

(** Moving over a gap in which nothing matches. *)
Lemma re_all_gap r f w s st :
  simple r = true -> st_rest st = w ++ s ->
  (forall a b, w = a ++ b -> b <> [] -> no_match r (b ++ s)) ->
  re_all_from r f st = re_all_from r f (adv w st).
Proof.
  intros Hs. revert st. induction w as [|c w IH]; intros st E Hn; [done|].
  rewrite (re_all_skip r f st c (w ++ s)); [|apply m_none; [done|]; rewrite E; by apply (Hn [] (c :: w))|done].
  cbn [adv]. rewrite E. cbn [app]. apply IH; [done|]. intros a b -> Hb. by apply (Hn (c :: a) b).
Qed.

Lemma adv_idx w s st : st_rest st = w ++ s -> st_idx (adv w st) = st_idx st + length w.
Proof.
  revert st. induction w as [|c w IH]; intros st E; simpl; [lia|]. rewrite E. simpl.
  rewrite IH by done. simpl. lia.
Qed.

Lemma re_all_done r f st :
  simple r = true -> (forall a b, st_rest st = a ++ b -> no_match r b) -> re_all_from r f st = [].
Proof.
  intros Hs Hn. destruct f as [|f]; [done|].
  rewrite (re_all_gap r _ (st_rest st) [] st Hs); [|by rewrite app_nil_r|].
  - cbn [re_all_from]. assert (Hr : st_rest (adv (st_rest st) st) = []).
    { by apply adv_reads; rewrite app_nil_r. }
    rewrite Hr. cbn [search length]. fold (reset (adv (st_rest st) st)).
    rewrite m_none; [done|done|]. rewrite Hr. apply (Hn (st_rest st) []). by rewrite app_nil_r.
  - intros a b E _. rewrite app_nil_r. by apply (Hn a b).
Qed.

(** A match that moves on. *)
Lemma re_all_match r f st y :
  m r Some (reset st) = Some y -> st_idx st < st_idx y ->
  re_all_from r (S f) st
  = (st_idx st, take (st_idx y - st_idx st) (st_rest st), y) :: re_all_from r f y.
Proof.
  intros Hm Hi. cbn [re_all_from].
  assert (Hse : search r (length (st_rest st)) st = Some (st_idx st, y)).
  { destruct (length (st_rest st)); cbn [search]; fold (reset st); by rewrite Hm. }
  rewrite Hse, Nat.sub_diag, drop_0, (proj2 (Nat.ltb_lt _ _)) by done.
  cbv zeta. f_equal. apply (re_all_reset r f y).
Qed.

(** The captures of all matches. *)
Definition found (r : regex) (f : nat) (st : mstate) : list caps :=
  List.map (fun x => st_caps x.2) (re_all_from r f st).

Lemma re_all_found r f st w s P :
  simple r = true -> w <> [] -> st_rest st = w ++ s -> one_match r (w ++ s) s P ->
  exists y, st_rest y = s /\ P (st_caps y) /\ found r (S f) st = st_caps y :: found r f y.
Proof.
  intros Hs Hw E Ho. rewrite <- E in Ho. destruct (m_one r st s P Hs Ho) as (y & Hm & Hr & Hc & Hi).
  exists y. split_and!; [done|done|]. unfold found. rewrite (re_all_match r f st y Hm); [done|].
  rewrite E, length_app in Hi. destruct w; [done|]. simpl in Hi. lia.
Qed.

(** ** Pieces with a separator *)

Lemma join_concat (sep w : jsstr) l :
  join sep (w :: l) = w ++ concat (List.map (fun x => sep ++ x) l).
Proof.
  revert w. induction l as [|v l IH]; intros w; [simpl; by rewrite app_nil_r|].
  change (join sep (w :: v :: l)) with (w ++ sep ++ join sep (v :: l)).
  rewrite IH. cbn [List.map concat]. by rewrite <- app_assoc.
Qed.

Section Pieces.
Context (r : regex) (sep last : jsstr) (pieces : list (jsstr * (caps -> Prop))).
Context (Hs : simple r = true)
  (Hone : forall w P s, (w, P) ∈ pieces -> w <> [] /\ one_match r (w ++ s) s P)
  (Hgap : forall a b s, sep = a ++ b -> b <> [] -> no_match r (b ++ s))
  (Hlast : forall a b, last = a ++ b -> no_match r b).

(** The text of the pieces from one on: a separator before each. *)
Lemma found_pieces l f st :
  (forall x, x ∈ l -> x ∈ pieces) -> length l < f ->
  st_rest st = concat (List.map (fun x => sep ++ x.1) l) ++ last ->
  Forall2 (fun x c => x.2 c) l (found r f st).
Proof.
  revert f st. induction l as [|[w P] l IH]; intros f st Hin Hf E; cbn [List.map concat] in E.
  - unfold found. rewrite re_all_done; [constructor|done|]. by rewrite E.
  - destruct f as [|f]; [simpl in Hf; lia|]. unfold found. simpl in E. rewrite <- !app_assoc in E.
    rewrite (re_all_gap r _ sep _ st Hs E) by (intros; by eapply Hgap).
    destruct (adv_reads _ _ _ E) as [Er _].
    destruct (Hone w P (concat (List.map (fun x => sep ++ x.1) l) ++ last)) as [Hw Ho];
      [apply Hin; by left|].
    destruct (re_all_found r f (adv sep st) w _ P Hs Hw Er Ho) as (y & Ey & HP & Hy).
    unfold found in Hy. rewrite Hy. constructor; [done|]. apply IH; [|simpl in Hf; lia|done].
    intros x Hx. apply Hin. by right.
Qed.

Lemma pieces_length l :
  (forall x, x ∈ l -> x ∈ pieces) -> length l <= length (concat (List.map (fun x => sep ++ x.1) l)).
Proof.
  induction l as [|[w P] l IH]; intros Hin; cbn [List.map concat length]; [lia|]. rewrite !length_app.
  destruct (Hone w P []) as [Hw _]; [apply Hin; by left|]. cbn [fst].
  assert (length w > 0) by (destruct w; [done|simpl; lia]).
  assert (length l <= length (concat (List.map (fun x => sep ++ x.1) l)))
    by (apply IH; intros x Hi; apply Hin; by right). lia.
Qed.

Lemma found_joined w P l :
  pieces = (w, P) :: l ->
  Forall2 (fun x c => x.2 c) pieces
    (List.map (fun x => st_caps x.2) (re_all r (join sep pieces.*1 ++ last))).
Proof.
  intros E0.
  assert (Et : join sep pieces.*1 = w ++ concat (List.map (fun x => sep ++ x.1) l)).
  { rewrite E0. change ((w, P) :: l).*1 with (w :: l.*1). rewrite join_concat.
    change l.*1 with (List.map fst l). by rewrite map_map. }
  rewrite Et. pose proof (pieces_length l) as Hl. set (s := concat _) in *.
  destruct (Hone w P (s ++ last)) as [Hw Ho]; [rewrite E0; by left|].
  unfold re_all. rewrite <- app_assoc.
  destruct (re_all_found r (length (w ++ s ++ last)) (start (w ++ s ++ last)) w _ P Hs Hw eq_refl Ho)
    as (y & Ey & HP & Hy). unfold found in Hy. rewrite Hy, E0.
  assert (Hin : forall x, x ∈ l -> x ∈ pieces) by (intros x Hx; rewrite E0; by right).
  constructor; [done|]. apply found_pieces; [done| |exact Ey].
  specialize (Hl Hin). rewrite !length_app. destruct w; [done|]. simpl. lia.
Qed.
End Pieces.

(** ** Splitting at [&&] *)

(** A part with no ampersand and no white space at its ends. *)
Definition and_part (w : jsstr) : Prop :=
  (ch "&" ∉ w) /\ (match w with x :: _ => is_space x = false | [] => False end)
  /\ (match rev w with x :: _ => is_space x = false | [] => False end).

Lemma and_denote s s' c' :
  denote AND_SPACED s [] s' c' -> exists a b, forallb is_space a = true /\ s = a ++ ch "&" :: b.
Proof.
  intros (s1 & c1 & H & s2 & c2 & H2 & _). apply denote_star_class in H as (a & -> & Ha & ->).
  apply denote_lit in H2 as [-> ->]. by exists a, (ch "&" :: s2).
Qed.

(** Nothing matches inside a part. *)
Lemma and_part_gap w s a b :
  and_part w -> w = a ++ b -> b <> [] -> no_match AND_SPACED (b ++ s).
Proof.
  intros (Hamp & _ & Hl) -> Hb s' c' H. apply and_denote in H as (sp & t & Hsp & E).
  assert (Hr : match rev b with x :: _ => is_space x = false | [] => False end).
  { rewrite rev_app_distr in Hl. destruct (rev b) eqn:Er; [|done].
    apply (f_equal (@rev N)) in Er. by rewrite rev_involutive in Er. }
  assert (Hb' : ch "&" ∉ b). { intros ?. apply Hamp. apply elem_of_app. by right. }
  clear Hl Hamp Hb a. revert sp Hsp E. induction b as [|x b IH]; intros [|y sp] Hsp E; simplify_eq/=; try done.
  - apply Hb'. by left.
  - apply andb_prop in Hsp as [Hy Hsp]. apply (IH) with sp; try done.
    + destruct b; [simpl in Hr; congruence|]. simpl in *.
      destruct (rev b ++ [n]) eqn:Er; [by destruct (rev b)|]. done.
    + intros ?. apply Hb'. by right.
Qed.

Lemma and_match st s :
  st_rest st = js " && " ++ s -> match s with [] => True | x :: _ => is_space x = false end ->
  m AND_SPACED Some st = Some (adv (js " && ") st).
Proof.
  intros E Hs. unfold AND_SPACED. cbn [rseq].
  change (m (RSeq ?a ?b) Some st) with (m a (m b Some) st).
  apply (m_star_greedy is_space _ (js " ") (js "&& " ++ s)); [done|done|done|].
  destruct (adv_reads (js " ") st (js "&& " ++ s) E) as [E1 _].
  change (m (RSeq ?a ?b) Some ?x) with (m a (m b Some) x).
  rewrite (m_lit (js "&&") _ (js " " ++ s)) by done.
  destruct (adv_reads (js "&&") _ (js " " ++ s) E1) as [E2 _].
  apply (m_star_greedy is_space _ (js " ") s); [done|done|done|].
  rewrite <- (adv_app (js "&&") (js " ")), <- (adv_app (js " ")); done.
Qed.

Lemma cut_and_parts s w l pre f st :
  Forall and_part (w :: l) -> s = pre ++ st_rest st -> st_idx st = length pre -> st_caps st = [] ->
  st_rest st = w ++ concat (List.map (fun x => js " && " ++ x) l) -> length l < f ->
  cut_at s (st_idx st) (re_all_from AND_SPACED f st) = w :: l.
Proof.
  intros Hl. revert w Hl pre f st. induction l as [|v l IH]; intros w Hl pre f st Es Hi Hc E Hf;
    apply Forall_cons in Hl as [Hw Hl]; (destruct f as [|f]; [simpl in Hf; lia|]).
  - cbn [List.map concat] in E. rewrite app_nil_r in E. rewrite re_all_done.
    + cbn [cut_at]. by rewrite Es, Hi, drop_app_length, E.
    + done.
    + intros a b Eb s' c' H. destruct (decide (b = [])) as [->|Hb].
      * apply and_denote in H as ([] & ? & _ & ?); done.
      * revert H. rewrite <- (app_nil_r b). eapply and_part_gap; [done| |done]. by rewrite <- E.
  - cbn [List.map concat] in E. rewrite <- !app_assoc in E.
    set (rest := v ++ concat _) in E.
    rewrite (re_all_gap AND_SPACED _ w _ st eq_refl E) by (intros; by eapply and_part_gap).
    destruct (adv_reads _ _ _ E) as [Er Ec]. pose proof (adv_idx _ _ _ E) as Ei.
    assert (Hv : and_part v) by (by apply Forall_cons in Hl as [? _]).
    assert (Hm : m AND_SPACED Some (reset (adv w st)) = Some (adv (js " && ") (reset (adv w st)))).
    { apply (and_match _ rest); [exact Er|]. destruct Hv as (_ & Hv & _). by destruct v. }
    assert (Er2 : st_rest (reset (adv w st)) = js " && " ++ rest) by exact Er.
    destruct (adv_reads _ _ _ Er2) as [Er3 Ec3]. pose proof (adv_idx _ _ _ Er2) as Ei3.
    rewrite (re_all_match _ f _ _ Hm) by (rewrite Ei3; simpl; lia).
    set (y := adv (js " && ") (reset (adv w st))) in *. cbn [cut_at].
    change (st_idx (reset (adv w st))) with (st_idx (adv w st)) in Ei3.
    rewrite Ei3, Er, Ei.
    replace (st_idx st + length w + length (js " && ") - (st_idx st + length w)) with 4 by (simpl; lia).
    rewrite Hi. f_equal.
    + rewrite Es, E. unfold slice. replace (length pre + length w - length pre) with (length w) by lia.
      by rewrite drop_app_length, take_app_length.
    + replace (length pre + length w + length (take 4 (js " && " ++ rest))) with (st_idx y)
        by (rewrite Ei3, Ei, Hi; simpl; lia).
      apply (IH v Hl (pre ++ w ++ js " && ")); [|rewrite Ei3, Ei, Hi, !length_app; simpl; lia|by rewrite Ec3|done|simpl in Hf; lia].
      rewrite Es, E, Er3. by rewrite <- !app_assoc.
Qed.

(** Parts joined with [ && ] are found again. *)
Lemma split_and_parts w l :
  Forall and_part (w :: l) -> re_split AND_SPACED (join (js " && ") (w :: l)) = w :: l.
Proof.
  intros Hl. rewrite join_concat. unfold re_split, re_all.
  apply (cut_and_parts _ w l [] _ (start _)); try done.
  apply Forall_cons in Hl as [Hw Hl]. rewrite length_app.
  enough (length l <= length (concat (List.map (fun x => js " && " ++ x) l))) by lia.
  clear. induction l as [|v l IH]; cbn [List.map concat length]; [lia|].
  rewrite !length_app. change (length (js " && ")) with 4. lia.
Qed.
