(* ===== verification/TierExpr.v ===== *)
(** * The visual tier editor ([features/pricing/lib/tier-expr.ts])

    A tier's cost fields are kept by name; the fields of a tier that the code
    neither reads nor writes are left out.  A value that is absent, [null] or
    [undefined] is [None]. *)

From S2P Require Import Prelude JsNumber JsValue JsRegex BillingExpr.

Inductive CacheMode := CACHE_MODE_TIMED | CACHE_MODE_GENERIC.
#[export] Instance CacheMode_eq_dec : EqDecision CacheMode.
Proof. solve_decision. Defined.

Inductive CondValue := CondNum (x : number) | CondText (s : jsstr).
Record TierConditionInput := mkCond { ci_var : jsstr; ci_op : jsstr; ci_value : option CondValue }.

Record VisualTier := mkVisual {
  vt_label : jsstr; vt_conditions : list TierConditionInput; vt_cache_mode : CacheMode;
  vt_costs : gmap jsstr number }.
(** [Partial<VisualTier>] *)
Record PartialTier := mkPartialTier {
  pt_label : option jsstr; pt_conditions : option (list TierConditionInput);
  pt_cache_mode : option CacheMode; pt_costs : gmap jsstr number }.
Definition partial_tier (t : VisualTier) : PartialTier :=
  mkPartialTier (Some (vt_label t)) (Some (vt_conditions t)) (Some (vt_cache_mode t)) (vt_costs t).

Definition VisualConfig := list VisualTier.

(** [Number(tier.field)] and [Number(tier.field) || 0] *)
Definition cost (costs : gmap jsstr number) (field : jsstr) : number := default NaN (costs !! field).
Definition cost_or_0 (costs : gmap jsstr number) (field : jsstr) : number :=
  num_or (cost costs field) (num_of_Z 0).

Definition getTierCacheMode (tier : PartialTier) : CacheMode :=
  match pt_cache_mode tier with
  | Some mode => mode
  | None => if num_ltb (num_of_Z 0) (cost (pt_costs tier) (js "cache_create_1h_unit_cost"))
            then CACHE_MODE_TIMED else CACHE_MODE_GENERIC
  end.

Definition EXTRA_COST_FIELDS : list jsstr :=
  [js "cache_read_unit_cost"; js "cache_create_unit_cost"; js "cache_create_1h_unit_cost";
   js "image_unit_cost"; js "image_output_unit_cost"; js "audio_input_unit_cost";
   js "audio_output_unit_cost"].

(** The properties before [...tier], the properties of [tier], and the ones
    after it. *)
Definition normalizeVisualTier (tier : PartialTier) : VisualTier :=
  let costs := pt_costs tier in
  let defaults : gmap jsstr number :=
    <[js "output_unit_cost" := cost_or_0 costs (js "output_unit_cost")]>
    (<[js "input_unit_cost" := cost_or_0 costs (js "input_unit_cost")]> ∅) in
  mkVisual (default [] (pt_label tier)) (default [] (pt_conditions tier)) (getTierCacheMode tier)
    (foldl (fun acc f => <[f := cost_or_0 costs f]> acc) (costs ∪ defaults) EXTRA_COST_FIELDS).

Definition createDefaultVisualConfig : VisualConfig :=
  [normalizeVisualTier (mkPartialTier (Some (js "base")) (Some []) (Some CACHE_MODE_GENERIC)
     (<[js "input_unit_cost" := num_of_Z 0]> (<[js "output_unit_cost" := num_of_Z 0]> ∅)))].

Definition normalizeVisualConfig (config : option VisualConfig) : VisualConfig :=
  match config with
  | None | Some [] => createDefaultVisualConfig
  | Some tiers => List.map (fun t => normalizeVisualTier (partial_tier t)) tiers
  end.

(** ** Generating the expression *)

Definition cond_value_text (v : CondValue) : jsstr :=
  match v with CondNum x => num_to_string x | CondText s => s end.

Definition cond_complete (c : TierConditionInput) : bool :=
  nonempty (ci_var c) && nonempty (ci_op c)
  && match ci_value c with
     | None => false
     | Some (CondNum _) => true
     | Some (CondText s) => nonempty s
     end.

Definition buildConditionStr (conditions : list TierConditionInput) : jsstr :=
  join (js " && ")
    (List.map (fun c => ci_var c ++ js " " ++ ci_op c ++ js " "
                        ++ default [] (cond_value_text <$> ci_value c))
       (List.filter cond_complete conditions)).

Definition cost_term (v : jsstr) (x : number) : jsstr := v ++ js " * " ++ num_to_string x.

Definition buildTierBodyExpr (tier : VisualTier) : jsstr :=
  let costs := vt_costs tier in
  join (js " + ")
    (cost_term (js "p") (cost_or_0 costs (js "input_unit_cost"))
     :: cost_term (js "c") (cost_or_0 costs (js "output_unit_cost"))
     :: List.map (fun cv => cost_term cv.2 (cost_or_0 costs cv.1))
          (List.filter (fun cv => negb (num_eqb (cost_or_0 costs cv.1) (num_of_Z 0)))
             BILLING_CACHE_VAR_MAP)).

Definition tier_call (label : jsstr) (tier : VisualTier) : jsstr :=
  jsq "tier('" ++ label ++ jsq "', " ++ buildTierBodyExpr tier ++ js ")".

Definition tier_part (n i : nat) (tier : VisualTier) : jsstr :=
  let label := str_or (vt_label tier) (js "tier_" ++ dec_of_N (N.of_nat (i + 1))) in
  let body := tier_call label tier in
  let cond := buildConditionStr (vt_conditions tier) in
  if (i <? n - 1) && nonempty cond then cond ++ js " ? " ++ body else body.

Definition generateExprFromVisualConfig (config : option VisualConfig) : jsstr :=
  match config with
  | None | Some [] => js "p * 0 + c * 0"
  | Some [tier] =>
      let body := tier_call (str_or (vt_label tier) (js "default")) tier in
      let cond := buildConditionStr (vt_conditions tier) in
      if nonempty cond then cond ++ js " ? " ++ body ++ js " : p * 0 + c * 0" else body
  | Some tiers => join (js " : ") (imap (tier_part (length tiers)) tiers)
  end.

(** ** Parsing it *)

Definition VERSION_BODY_REGEX : regex :=
  rseq [RBegin false; runit (ch "v"); rplus (RChar is_digit); runit (ch ":");
        RGroup 1 (RStar rany); REnd false].

(** A piece with blanks around it; a variable, a star and a number. *)
Definition spaced (w : jsstr) (next : list regex) : list regex :=
  rspaces :: rlit w :: rspaces :: next.
Definition COST_TERM (v : jsstr) (n : nat) (next : list regex) : list regex :=
  rlit v :: spaced (js "*") (NUM n :: next).
(** An optional [+ v * number] for each variable, the groups numbered from
    [n]. *)
Fixpoint optCacheStr (n : nat) (vars : list jsstr) (next : list regex) : list regex :=
  match vars with
  | [] => next
  | v :: vars' =>
      ropt (rseq (spaced (js "+") (COST_TERM v n []))) :: optCacheStr (S n) vars' next
  end.
Definition cacheVarNames : list jsstr := BILLING_CACHE_VAR_MAP.*2.
Definition bodyPat (n : nat) (next : list regex) : list regex :=
  COST_TERM (js "p") n (spaced (js "+") (COST_TERM (js "c") (S n)
    (optCacheStr (S (S n)) cacheVarNames next))).
(** The call up to its second argument; the label has no quotes. *)
Definition tierPat (n : nat) (next : list regex) : list regex :=
  rlit (jsq "tier('") :: RGroup n (RStar (RChar not_quote)) :: rlit (jsq "',") :: rspaces :: next.

Definition SINGLE_TIER : regex := rseq (tierPat 1 (bodyPat 2 [runit (ch ")"); REnd false])).
Definition singleRe : regex := RSeq (RBegin false) SINGLE_TIER.
Definition tierRe : regex :=
  rseq (ropt (rseq [RGroup 1 (RSeq COND_ATOM (RStar (RSeq AND_SPACED COND_ATOM)));
                    rspaces; runit (ch "?"); rspaces])
        :: tierPat 2 (bodyPat 3 [runit (ch ")")])).

(** The costs of a match: [p] and [c] in the groups [n] and [n + 1], then the
    others where they took part. *)
Definition match_costs (n : nat) (y : mstate) : gmap jsstr number :=
  let base : gmap jsstr number :=
    <[js "output_unit_cost" := num_of_string (group (S n) y)]>
    (<[js "input_unit_cost" := num_of_string (group n y)]> ∅) in
  foldl (fun acc icv =>
    match capture (S (S n) + icv.1) y with
    | Some val => <[icv.2.1 := num_of_string val]> acc
    | None => acc
    end) base (imap pair BILLING_CACHE_VAR_MAP).

Definition parse_condition_input (cp : jsstr) : option TierConditionInput :=
  (fun y => mkCond (group 1 y) (group 2 y) (Some (CondNum (num_of_string (group 3 y)))))
    <$> re_match TIER_COND_REGEX (trim cp).

Definition tier_of_match (y : mstate) : VisualTier :=
  let condStr := group 1 y in
  normalizeVisualTier
    (mkPartialTier (Some (group 2 y))
       (Some (if nonempty condStr
              then omap parse_condition_input (re_split AND_SPACED condStr) else []))
       None (match_costs 3 y)).

(** [replace(/\s+/g, '')] *)
Definition without_spaces (s : jsstr) : jsstr := List.filter (fun c => negb (is_space c)) s.

Definition tryParseVisualConfig (exprStr : jsstr) : option VisualConfig :=
  if negb (nonempty exprStr) then None
  else
    let body := match re_match VERSION_BODY_REGEX exprStr with
                | Some y => group 1 y
                | None => exprStr
                end in
    match re_match singleRe body with
    | Some y =>
        Some (normalizeVisualConfig
          (Some [normalizeVisualTier
                   (mkPartialTier (Some (group 1 y)) (Some []) None (match_costs 2 y))]))
    | None =>
        match List.map (fun x => tier_of_match x.2) (re_all tierRe body) with
        | [] => None
        | tiers =>
            let cfg := normalizeVisualConfig (Some tiers) in
            let regenerated := generateExprFromVisualConfig (Some cfg) in
            if bool_decide (without_spaces regenerated = without_spaces body) then Some cfg else None
        end
    end.

(** ** The variables of the estimator *)

Definition ESTIMATOR_VARS : list (jsstr * jsstr) :=
  [(js "cr", js "cacheReadTokens"); (js "cc", js "cacheCreateTokens");
   (js "cc1h", js "cacheCreate1hTokens"); (js "img", js "imageTokens");
   (js "img_o", js "imageOutputTokens"); (js "ai", js "audioInputTokens");
   (js "ao", js "audioOutputTokens")].

Definition exprUsesExtraVars (exprStr : jsstr) : bool :=
  if negb (nonempty exprStr) then false
  else re_test (rseq [RWordB; RGroup 1 (ralts ESTIMATOR_VARS.*1); RWordB]) exprStr.

Example tiered_expr_read :
  let text := jsq "v1:len <= 200000 ? tier('small', p * 1.5 + c * 6 + cr * 0.3) : tier('large', p * 3 + c * 12)" in
  (fun cfg => generateExprFromVisualConfig (Some cfg)) <$> tryParseVisualConfig text
  = Some (drop 3 text).
Proof. vm_compute. reflexivity. Qed.
