(* ===== verification/TierExprFacts.v ===== *)
(** * Theorems on the visual tier editor

    What the expressions of the editor read in the text of one tier, the costs
    such a match stands for, and that normalizing a configuration does not
    change the expression it stands for. *)

From S2P Require Import Prelude JsNumber JsValue JsRegex.
From S2P Require Import JsRegexFacts JsScanFacts BillingExpr BillingExprFacts TierExpr.

(** ** Reading the terms of a body *)

Definition var_name (v : jsstr) : Prop :=
  forallb is_word v = true /\ match v with x :: _ => is_num_unit x = false | [] => False end.
(** A printed number: the units the expressions accept, a digit at the end. *)
Definition number_text (t : jsstr) : Prop :=
  forallb is_num_unit t = true /\ match rev t with x :: _ => is_digit x = true | [] => False end.
#[export] Instance var_name_dec v : Decision (var_name v).
Proof. unfold var_name. destruct v; apply _. Defined.
#[export] Instance number_text_dec t : Decision (number_text t).
Proof. unfold number_text. destruct (rev t); apply _. Defined.

Lemma number_text_nonnil t : number_text t -> t <> [].
Proof. by intros [_ H] ->. Qed.

Lemma ascii_not_space c : (33 <= c <= 122)%N -> is_space c = false.
Proof.
  intros Hc. unfold is_space. simpl. repeat (rewrite (proj2 (N.eqb_neq c _)) by lia).
  by rewrite (proj2 (N.leb_gt 8192 c)) by lia.
Qed.

Lemma word_not_space c : is_word c = true -> is_space c = false.
Proof.
  unfold is_word, is_digit. rewrite !orb_true_iff, !andb_true_iff, !N.leb_le, N.eqb_eq.
  intros H. apply ascii_not_space. lia.
Qed.

Lemma spaces_app a b x y :
  forallb is_space a = true -> forallb is_space b = true -> is_space x = false -> is_space y = false ->
  forall s t, a ++ x :: s = b ++ y :: t -> a = b /\ x = y /\ s = t.
Proof.
  intros Ha Hb Hx Hy s t E. apply (class_split is_space) in E as [-> E]; [|done..]. by injection E.
Qed.

Lemma cost_term_denote v n next s c s' c' :
  denote (rseq (COST_TERM v n next)) s c s' c' <->
  exists a b t s1, forallb is_space a = true /\ forallb is_space b = true /\ t <> []
    /\ forallb is_num_unit t = true /\ s = v ++ a ++ ch "*" :: b ++ t ++ s1
    /\ denote (rseq next) s1 ((n, t) :: c) s' c'.
Proof.
  unfold COST_TERM, spaced, NUM. rewrite denote_rseq_cons. setoid_rewrite denote_lit. split.
  - intros (s1 & c1 & [-> ->] & H). repeat (apply denote_rseq_cons in H as (? & ? & ? & H)).
    den_inv. repeat match goal with H : denote rspaces _ _ _ _ |- _ =>
      apply denote_star_class in H as (? & ? & ? & ?) end.
    simplify_eq. match goal with |- context [v ++ ?a ++ js "*" ++ ?b ++ ?t ++ ?s1] =>
      exists a, b, t, s1 end. done.
  - intros (a & b & t & s1 & Ha & Hb & Ht & Hn & -> & H).
    eexists _, _. split; [done|].
    apply denote_rseq_cons; eexists _, _; split; [apply denote_star_class; by exists a|].
    apply denote_rseq_cons; eexists _, _; split; [apply (denote_lit (js "*")); done|].
    apply denote_rseq_cons; eexists _, _; split; [apply denote_star_class; by exists b|].
    apply denote_rseq_cons; eexists _, _; split; [apply denote_group_plus; by exists t|done].
Qed.

Lemma head_not_space_app (u : jsstr) x s a y t :
  is_space x = false -> is_space y = false -> forallb is_space a = true ->
  (x :: u) ++ s = a ++ y :: t -> a = [] /\ x = y /\ u ++ s = t.
Proof.
  intros Hx Hy Ha E. destruct (spaces_app [] a x y eq_refl Ha Hx Hy (u ++ s) t) as (<- & <- & <-); done.
Qed.

(** The longest part of a text in a class: any other is a prefix of it. *)
Lemma class_prefix (p : N -> bool) t s u r :
  forallb p t = true -> match r with [] => True | x :: _ => p x = false end ->
  t ++ s = u ++ r -> exists u', u = t ++ u' /\ s = u' ++ r.
Proof.
  revert t. induction u as [|x u IH]; intros [|y t] Ht Hr E; simpl in *; simplify_eq.
  - by exists [].
  - apply andb_prop in Ht as [Hy _]. simpl in Hr. congruence.
  - by exists (x :: u).
  - apply andb_prop in Ht as [_ Ht]. destruct (IH t) as (u' & -> & ->); [done..|]. by exists u'.
Qed.

(** A number that is not read to its end leaves a number. *)
Lemma number_leftover t u : number_text (t ++ u) -> u = [] \/ number_text u.
Proof.
  intros [Hu Hd]. destruct u as [|x u]; [by left|right].
  rewrite forallb_app in Hu. apply andb_prop in Hu as [_ Hu]. split; [done|].
  rewrite rev_app_distr in Hd. destruct (rev (x :: u)) eqn:Er; [|done].
  apply (f_equal (@rev N)) in Er. by rewrite rev_involutive in Er.
Qed.

(** A number is not the start of [+ v]. *)
Lemma number_not_plus u rest v a b s :
  number_text u -> var_name v -> forallb is_space a = true -> forallb is_space b = true ->
  u ++ rest <> a ++ ch "+" :: b ++ v ++ s.
Proof.
  intros [Hu Hd] Hv Ha Hb E. destruct u as [|x u]; [done|]. simpl in Hu. apply andb_prop in Hu as [Hx Hu].
  apply head_not_space_app in E as (-> & -> & E); [|by apply num_unit_not_space|done..].
  destruct u as [|x u]; [done|]. simpl in Hu. apply andb_prop in Hu as [Hy Hu].
  destruct v as [|y v]; [by destruct Hv|]. destruct Hv as [Hw Hv].
  simpl in Hw. apply andb_prop in Hw as [Hw _].
  apply head_not_space_app in E as (-> & -> & _); [congruence|by apply num_unit_not_space| |done].
  by apply word_not_space.
Qed.

Lemma denote_plus next s c s' c' :
  denote (rseq (spaced (js "+") next)) s c s' c' <->
  exists a b s1, forallb is_space a = true /\ forallb is_space b = true
    /\ s = a ++ ch "+" :: b ++ s1 /\ denote (rseq next) s1 c s' c'.
Proof.
  unfold spaced. rewrite !denote_rseq_cons. split.
  - intros (? & ? & Ha & H). apply denote_rseq_cons in H as (? & ? & Hp & H).
    apply denote_rseq_cons in H as (s1 & ? & Hb & H).
    apply denote_star_class in Ha as (a & -> & Ha & ->). apply denote_lit in Hp as [-> ->].
    apply denote_star_class in Hb as (b & -> & Hb & ->). by exists a, b, s1.
  - intros (a & b & s1 & Ha & Hb & -> & H). eexists _, _. split; [apply denote_star_class; by exists a|].
    apply denote_rseq_cons; eexists _, _; split; [apply (denote_lit (js "+")); done|].
    apply denote_rseq_cons; eexists _, _; split; [apply denote_star_class; by exists b|done].
Qed.

(** A number is read to its end, or a number is left. *)
Lemma number_read u r t s :
  number_text u -> match r with [] => True | x :: _ => is_num_unit x = false end ->
  forallb is_num_unit t = true -> u ++ r = t ++ s ->
  (t = u /\ s = r) \/ exists u', number_text u' /\ s = u' ++ r.
Proof.
  intros Hu Hr Ht E. destruct (class_prefix is_num_unit t s u r Ht Hr) as (u' & -> & ->); [done|].
  destruct (number_leftover _ _ Hu) as [->|Hu']; [left|right].
  - by rewrite app_nil_r.
  - by exists u'.
Qed.

Lemma plus_term v w u rest a b s1 n next c s' c' :
  var_name v -> var_name w -> number_text u -> forallb is_space a = true -> forallb is_space b = true ->
  js " + " ++ w ++ js " * " ++ u ++ rest = a ++ ch "+" :: b ++ s1 ->
  denote (rseq (COST_TERM v n next)) s1 c s' c' ->
  v = w /\ exists t s2, forallb is_num_unit t = true /\ u ++ rest = t ++ s2
    /\ denote (rseq next) s2 ((n, t) :: c) s' c'.
Proof.
  intros Hv Hw Hu Ha Hb E H.
  apply cost_term_denote in H as (a' & b' & t & s3 & Ha' & Hb' & Ht & Htn & -> & H).
  destruct (spaces_app (js " ") a (ch "+") (ch "+") eq_refl Ha eq_refl eq_refl _ _ E) as (_ & _ & E1).
  destruct w as [|x w]; [by destruct Hw|]. destruct v as [|y v]; [by destruct Hv|].
  destruct Hw as [Hw _], Hv as [Hv _]. simpl in Hw, Hv.
  apply andb_prop in Hw as [Hx Hw], Hv as [Hy Hv].
  destruct (spaces_app (js " ") b x y eq_refl Hb (word_not_space _ Hx) (word_not_space _ Hy) _ _ E1)
    as (_ & <- & E2).
  apply (class_split is_word) in E2 as [-> E2]; [|done|done|done|]; cycle 1.
  { destruct a' as [|z a']; [done|]. simpl in Ha'. apply andb_prop in Ha' as [Hz _].
    simpl. destruct (is_word z) eqn:Ez; [|done]. by rewrite (word_not_space z Ez) in Hz. }
  destruct (spaces_app (js " ") a' (ch "*") (ch "*") eq_refl Ha' eq_refl eq_refl _ _ E2) as (_ & _ & E3).
  split; [done|]. exists t, s3. split_and!; [done| |done].
  destruct u as [|d u]; [by destruct Hu|]. destruct Hu as [Hu _]. simpl in Hu.
  apply andb_prop in Hu as [Hd _]. destruct t as [|e t]; [done|]. simpl in Htn.
  apply andb_prop in Htn as [He _].
  destruct (spaces_app (js " ") b' d e eq_refl Hb' (num_unit_not_space _ Hd)
    (num_unit_not_space _ He) _ _ E3) as (_ & -> & E4).
  exact (f_equal (cons e) E4).
Qed.

(** The terms present, and the captures they leave. *)
Definition tail_text (items : list (jsstr * option jsstr)) : jsstr :=
  concat (List.map (fun it => match it.2 with
                              | Some t => js " + " ++ it.1 ++ js " * " ++ t
                              | None => []
                              end) items).
Fixpoint tail_caps (n : nat) (items : list (jsstr * option jsstr)) (c : caps) : caps :=
  match items with
  | [] => c
  | (_, Some t) :: items' => tail_caps (S n) items' ((n, t) :: c)
  | (_, None) :: items' => tail_caps (S n) items' c
  end.
Definition items_ok (items : list (jsstr * option jsstr)) : Prop :=
  Forall var_name items.*1 /\ Forall (fun it => match it.2 with Some t => number_text t | None => True end) items.

Lemma tail_text_head items :
  items_ok items ->
  tail_text items = [] \/
  exists w u r, w ∈ items.*1 /\ var_name w /\ number_text u
    /\ tail_text items = js " + " ++ w ++ js " * " ++ u ++ r.
Proof.
  intros [Hv Ht]. induction items as [|[v [u|]] items IH]; [by left|right|].
  - apply Forall_cons in Hv as [Hv _], Ht as [Hu _]. exists v, u, (tail_text items).
    split_and!; [by left|done|done|]. unfold tail_text. simpl. by rewrite <- !app_assoc.
  - apply Forall_cons in Hv as [_ Hv], Ht as [_ Ht].
    destruct (IH Hv Ht) as [E|(w & u & r & Hw & ? & ? & E)]; [by left|right].
    exists w, u, r. split_and!; [by right|done..].
Qed.

Lemma tail_head items z :
  items_ok items ->
  match tail_text items ++ ch ")" :: z with [] => True | x :: _ => is_num_unit x = false end.
Proof. intros H. by destruct (tail_text_head items H) as [->|(? & ? & ? & _ & _ & _ & ->)]. Qed.

Section Terms.
Context (more : list regex).
Abbreviation terms n vars := (rseq (optCacheStr n vars (runit (ch ")") :: more))).

Lemma terms_nil_head n x s c s' c' : denote (terms n []) (x :: s) c s' c' -> x = ch ")".
Proof.
  cbn [optCacheStr]. intros H. apply denote_rseq_cons in H as (? & ? & H & _). by den_inv; simplify_eq.
Qed.

Lemma terms_cons n v vars s c s' c' :
  denote (terms n (v :: vars)) s c s' c' <->
  denote (terms (S n) vars) s c s' c'
  \/ exists a b s1, forallb is_space a = true /\ forallb is_space b = true
       /\ s = a ++ ch "+" :: b ++ s1
       /\ exists s2 c2, denote (rseq (COST_TERM v n [])) s1 c s2 c2
            /\ denote (terms (S n) vars) s2 c2 s' c'.
Proof.
  cbn [optCacheStr]. rewrite denote_rseq_cons. split.
  - intros (s2 & c2 & [H|[-> ->]] & Ht); [right|by left].
    apply denote_plus in H as (a & b & s1 & Ha & Hb & -> & H). exists a, b, s1. eauto 10.
  - intros [H|(a & b & s1 & Ha & Hb & -> & s2 & c2 & H & Ht)]; [exists s, c; split; [by right|done]|].
    exists s2, c2. split; [left|done]. apply denote_plus. by exists a, b, s1.
Qed.

(** What is left of a number is not the start of a term. *)
Lemma terms_number n vars u rest c s' c' :
  Forall var_name vars -> number_text u -> ~ denote (terms n vars) (u ++ rest) c s' c'.
Proof.
  intros Hv Hu. revert n. induction Hv as [|v vars Hv _ IH]; intros n H.
  - destruct Hu as [Hu Hd], u as [|x u]; [done|]. apply terms_nil_head in H as ->. done.
  - apply terms_cons in H as [H|(a & b & s1 & Ha & Hb & E & s2 & c2 & H & _)]; [by eapply IH|].
    apply cost_term_denote in H as (a' & b' & t & s3 & _ & _ & _ & _ & -> & _).
    by apply number_not_plus in E.
Qed.

(** A term of another variable is not skipped. *)
Lemma terms_other n vars w u rest c s' c' :
  Forall var_name vars -> var_name w -> number_text u -> w ∉ vars ->
  ~ denote (terms n vars) (js " + " ++ w ++ js " * " ++ u ++ rest) c s' c'.
Proof.
  intros Hv Hw Hu. revert n. induction Hv as [|v vars Hv _ IH]; intros n Hin H.
  - by apply terms_nil_head in H.
  - rewrite elem_of_cons in Hin. apply Decidable.not_or in Hin as [Hne Hin].
    apply terms_cons in H as [H|(a & b & s1 & Ha & Hb & E & s2 & c2 & H & _)]; [by eapply IH|].
    by destruct (plus_term v w u rest a b s1 n [] c s2 c2) as [-> _].
Qed.

(** The terms of a text are read one by one. *)
Lemma terms_read n items z c s' c' :
  items_ok items -> NoDup items.*1 ->
  denote (terms n items.*1) (tail_text items ++ ch ")" :: z) c s' c' <->
  denote (rseq (runit (ch ")") :: more)) (ch ")" :: z) (tail_caps n items c) s' c'.
Proof.
  revert n c. induction items as [|[v o] items IH]; intros n c Hok Hn; [done|].
  assert (Hok' : items_ok items).
  { destruct Hok as [Hv Ht]. apply Forall_cons in Hv as [_ Hv], Ht as [_ Ht]. done. }
  destruct Hok as [Hv Ht]. apply Forall_cons in Hv as [Hv _], Ht as [Hu _].
  cbn [fmap list_fmap fst snd] in *. apply NoDup_cons in Hn as [Hin Hn].
  specialize (IH (S n)). destruct o as [u|]; rewrite terms_cons; cbn [tail_caps].
  - change (tail_text ((v, Some u) :: items)) with ((js " + " ++ v ++ js " * " ++ u) ++ tail_text items).
    rewrite <- !app_assoc. rewrite <- (IH _ Hok' Hn). split.
    + intros [H|(a & b & s1 & Ha & Hb & E & s2 & c2 & H & H2)].
      { exfalso. revert H. apply terms_other; try done. by destruct Hok'. }
      destruct (plus_term v v u _ a b s1 n [] c s2 c2 Hv Hv Hu Ha Hb E H)
        as (_ & t & s3 & Ht & E2 & -> & ->).
      destruct (number_read u _ t s2 Hu (tail_head items z Hok') Ht E2) as [[-> ->]|(u' & Hu' & ->)];
        [done|]. exfalso. revert H2. apply terms_number; [by destruct Hok'|done].
    + intros H. right. exists (js " "), (js " "), (v ++ js " * " ++ u ++ tail_text items ++ ch ")" :: z).
      split_and!; [done..|]. eexists _, _. split; [|exact H]. apply cost_term_denote.
      exists (js " "), (js " "), u, (tail_text items ++ ch ")" :: z).
      split_and!; [done|done|by apply number_text_nonnil|by destruct Hu|done|done].
  - change (tail_text ((v, None) :: items)) with (tail_text items). rewrite <- (IH _ Hok' Hn).
    split; [|by left]. intros [H|(a & b & s1 & Ha & Hb & E & s2 & c2 & H & H2)]; [done|exfalso].
    destruct (tail_text_head items Hok') as [E0|(w & u & r & Hw & Hwv & Hu' & E0)]; rewrite E0 in E.
    + by apply (spaces_app [] a (ch ")") (ch "+")) in E as (_ & ? & _).
    + rewrite <- !app_assoc in E.
      by destruct (plus_term v w u (r ++ ch ")" :: z) a b s1 n [] c s2 c2) as [-> _].
Qed.
End Terms.

(** ** One tier *)

Lemma var_p : var_name (js "p").
Proof. by apply (bool_decide_unpack _). Qed.
Lemma var_c : var_name (js "c").
Proof. by apply (bool_decide_unpack _). Qed.

Lemma denote_group_star n p s c s' c' :
  denote (RGroup n (RStar (RChar p))) s c s' c' <->
  exists w, s = w ++ s' /\ forallb p w = true /\ c' = (n, w) :: c.
Proof. apply denote_group. intros. apply denote_star_class. Qed.

Definition single_text (label ic oc : jsstr) (items : list (jsstr * option jsstr)) : jsstr :=
  jsq "tier('" ++ label ++ jsq "'," ++ js " " ++ js "p" ++ js " * " ++ ic
    ++ js " + " ++ js "c" ++ js " * " ++ oc ++ tail_text items ++ [ch ")"].

(** The text after a call: what the expression asks for after the parenthesis. *)
Lemma call_denote n label ic oc items z more c s' c' :
  forallb not_quote label = true -> number_text ic -> number_text oc ->
  items_ok items -> NoDup items.*1 -> items.*1 = cacheVarNames ->
  denote (rseq (tierPat n (bodyPat (S n) (runit (ch ")") :: more))))
    (single_text label ic oc items ++ z) c s' c' <->
  denote (rseq (runit (ch ")") :: more)) (ch ")" :: z)
    (tail_caps (3 + n) items ((2 + n, oc) :: (S n, ic) :: (n, label) :: c)) s' c'.
Proof.
  intros Hl Hi Ho Hok Hn Hv. unfold tierPat, bodyPat. rewrite <- Hv.
  rewrite <- (terms_read more (3 + n) items z _ s' c' Hok Hn).
  unfold single_text. rewrite <- !app_assoc. split.
  - intros H. apply denote_rseq_cons in H as (? & ? & H1 & H). apply denote_lit in H1 as [E ->].
    apply denote_rseq_cons in H as (? & ? & H1 & H). apply denote_group_star in H1 as (l & -> & Hl' & ->).
    apply denote_rseq_cons in H as (? & ? & H1 & H). apply denote_lit in H1 as [-> ->].
    apply denote_rseq_cons in H as (s1 & ? & H1 & H). apply denote_star_class in H1 as (b & -> & Hb & ->).
    past_lit E. split_at not_quote E. past_lit E. subst l.
    destruct (plus_term (js "p") (js "p") ic _ (js " ") b s1 (S n) _ _ _ _ var_p var_p Hi eq_refl Hb
      (f_equal (app (js " +")) E) H) as (_ & t & s2 & Ht & E2 & H2).
    apply denote_plus in H2 as (a' & b' & s3 & Ha' & Hb' & -> & H2).
    destruct (number_read ic (js " + " ++ _) t _ Hi eq_refl Ht E2) as [[-> E3]|(u' & Hu' & E3)]; cycle 1.
    { exfalso. apply cost_term_denote in H2 as (? & ? & ? & ? & _ & _ & _ & _ & -> & _).
      symmetry in E3. revert E3. by apply number_not_plus. }
    destruct (plus_term (js "c") (js "c") oc _ a' b' s3 (2 + n) _ _ _ _ var_c var_c Ho Ha' Hb' (eq_sym E3) H2)
      as (_ & t & s4 & Ht' & E4 & H3).
    destruct (number_read oc _ t s4 Ho (tail_head items z Hok) Ht' E4) as [[-> ->]|(u' & Hu' & ->)];
      [done|]. exfalso. revert H3. apply terms_number; [by destruct Hok|done].
  - intros H.
    apply denote_rseq_cons; eexists _, _; split; [by apply denote_lit|].
    apply denote_rseq_cons; eexists _, _; split; [apply denote_group_star; by exists label|].
    apply denote_rseq_cons; eexists _, _; split; [by apply denote_lit|].
    apply denote_rseq_cons; eexists _, _; split; [apply denote_star_class; by exists (js " ")|].
    apply cost_term_denote. eexists (js " "), (js " "), ic, _.
    split_and!; [done|done|by apply number_text_nonnil|by destruct Hi|reflexivity|].
    apply denote_plus. eexists (js " "), (js " "), _. split_and!; [done|done|reflexivity|].
    apply cost_term_denote. eexists (js " "), (js " "), oc, _.
    split_and!; [done|done|by apply number_text_nonnil|by destruct Ho|reflexivity|done].
Qed.

Lemma single_denote label ic oc items z s' c' :
  forallb not_quote label = true -> number_text ic -> number_text oc ->
  items_ok items -> NoDup items.*1 -> items.*1 = cacheVarNames ->
  denote SINGLE_TIER (single_text label ic oc items ++ z) [] s' c' <->
  z = [] /\ s' = [] /\ c' = tail_caps 4 items [(3, oc); (2, ic); (1, label)].
Proof.
  intros Hl Hi Ho Hok Hn Hv. unfold SINGLE_TIER. rewrite call_denote by done. cbn [rseq]. split.
  - intros H. den_inv. simplify_eq. done.
  - intros (-> & -> & ->). den_build.
Qed.

Lemma single_match label ic oc items :
  forallb not_quote label = true -> number_text ic -> number_text oc ->
  items_ok items -> NoDup items.*1 -> items.*1 = cacheVarNames ->
  exists y, re_match singleRe (single_text label ic oc items) = Some y
    /\ st_caps y = tail_caps 4 items [(3, oc); (2, ic); (1, label)].
Proof.
  intros Hl Hi Ho Hok Hn Hv. pose proof (single_denote label ic oc items []) as Hd.
  rewrite app_nil_r in Hd.
  pose proof (re_match_spec SINGLE_TIER (single_text label ic oc items) eq_refl) as H.
  unfold singleRe. destruct (re_match _ _) as [y|].
  - exists y. split; [done|]. by apply Hd in H as (_ & _ & ?).
  - exfalso. eapply H. by apply Hd.
Qed.

(** ** The captures of a tier *)

Lemma tail_caps_low k n items c :
  k < n -> List.find (fun x => x.1 =? k) (tail_caps n items c) = List.find (fun x => x.1 =? k) c.
Proof.
  revert n c. induction items as [|[v [t|]] items IH]; intros n c Hk; cbn [tail_caps]; [done| |].
  - rewrite IH by lia. simpl. by rewrite (proj2 (Nat.eqb_neq n k)) by lia.
  - apply IH. lia.
Qed.

Lemma tail_caps_at n items c i it :
  (forall k, n <= k -> List.find (fun x => x.1 =? k) c = None) -> items !! i = Some it ->
  snd <$> List.find (fun x => x.1 =? n + i) (tail_caps n items c) = it.2.
Proof.
  revert n c i. induction items as [|[v o] items IH]; intros n c i Hc Hi; [done|].
  destruct i as [|i]; simpl in Hi.
  - injection Hi as <-. rewrite Nat.add_0_r. destruct o as [t|]; cbn [tail_caps].
    + rewrite tail_caps_low by lia. simpl. by rewrite Nat.eqb_refl.
    + rewrite tail_caps_low by lia. by rewrite Hc.
  - rewrite Nat.add_succ_r, <- Nat.add_succ_l.
    destruct o as [t|]; cbn [tail_caps]; apply IH; try done; intros k Hk; simpl.
    + rewrite (proj2 (Nat.eqb_neq n k)) by lia. apply Hc. lia.
    + apply Hc. lia.
Qed.

(** ** Costs *)

Definition COST_FIELDS : list jsstr :=
  js "input_unit_cost" :: js "output_unit_cost" :: EXTRA_COST_FIELDS.
(** A cost that its printed text stands for. *)
Definition printable (x : number) : Prop :=
  number_text (num_to_string x) /\ num_of_string (num_to_string x) = x.
#[export] Instance printable_dec x : Decision (printable x).
Proof. apply _. Defined.

Definition has_cost (costs : gmap jsstr number) (f : jsstr) : bool :=
  negb (num_eqb (cost_or_0 costs f) (num_of_Z 0)).
Definition cost_items (costs : gmap jsstr number) : list (jsstr * option jsstr) :=
  List.map (fun cv => (cv.2, if has_cost costs cv.1
                             then Some (num_to_string (cost_or_0 costs cv.1)) else None))
    BILLING_CACHE_VAR_MAP.

Lemma num_or_0_idemp x : num_or (num_or x (num_of_Z 0)) (num_of_Z 0) = num_or x (num_of_Z 0).
Proof. unfold num_or. destruct (num_truthy x) eqn:E; [by rewrite E|done]. Qed.

Lemma num_or_0_positive x :
  num_ltb (num_of_Z 0) (num_or x (num_of_Z 0)) = num_ltb (num_of_Z 0) x.
Proof. by destruct x as [[]|[]| |[] ? ?]. Qed.

Lemma no_cost costs f : has_cost costs f = false -> cost_or_0 costs f = num_of_Z 0.
Proof.
  unfold has_cost, cost_or_0. rewrite negb_false_iff. unfold num_or.
  destruct (cost costs f) as [b|b| |b m e]; simpl; try done; by destruct b.
Qed.

Lemma tail_text_filter costs l :
  tail_text (List.map (fun cv : jsstr * jsstr => (cv.2, if has_cost costs cv.1
                             then Some (num_to_string (cost_or_0 costs cv.1)) else None)) l)
  = concat (List.map (fun t => js " + " ++ t)
      (List.map (fun cv => cost_term cv.2 (cost_or_0 costs cv.1))
         (List.filter (fun cv => has_cost costs cv.1) l))).
Proof.
  unfold tail_text. induction l as [|cv l IH]; [done|]. cbn [List.map List.filter concat fst snd].
  rewrite IH. by destruct (has_cost costs cv.1).
Qed.

Lemma body_text t :
  buildTierBodyExpr t = js "p" ++ js " * " ++ num_to_string (cost_or_0 (vt_costs t) (js "input_unit_cost"))
    ++ js " + " ++ js "c" ++ js " * " ++ num_to_string (cost_or_0 (vt_costs t) (js "output_unit_cost"))
    ++ tail_text (cost_items (vt_costs t)).
Proof.
  unfold buildTierBodyExpr, cost_items. rewrite join_concat, tail_text_filter.
  cbn [List.map concat]. unfold cost_term at 1 2. by rewrite <- !app_assoc.
Qed.

Lemma call_text label t :
  tier_call label t
  = single_text label (num_to_string (cost_or_0 (vt_costs t) (js "input_unit_cost")))
      (num_to_string (cost_or_0 (vt_costs t) (js "output_unit_cost"))) (cost_items (vt_costs t)).
Proof.
  unfold tier_call, single_text. rewrite body_text. rewrite <- !app_assoc.
  change (jsq "', ") with (jsq "'," ++ js " "). by rewrite <- !app_assoc.
Qed.

Lemma cost_items_ok costs :
  Forall (fun f => printable (cost_or_0 costs f)) COST_FIELDS -> items_ok (cost_items costs).
Proof.
  intros H. unfold items_ok. split; [by apply (bool_decide_unpack _)|].
  assert (Hf : Forall (fun cv => cv.1 ∈ COST_FIELDS) BILLING_CACHE_VAR_MAP)
    by (by apply (bool_decide_unpack _)).
  unfold cost_items. rewrite Forall_map. eapply Forall_impl; [exact Hf|]. intros cv Hcv. simpl.
  destruct (has_cost costs cv.1); [|done]. rewrite Forall_forall in H. by apply H.
Qed.

Lemma fold_costs_lookup (costs acc : gmap jsstr number) fields f :
  foldl (fun acc f => <[f := cost_or_0 costs f]> acc) acc fields !! f
  = if decide (f ∈ fields) then Some (cost_or_0 costs f) else acc !! f.
Proof.
  revert acc. induction fields as [|g fields IH]; intros acc; simpl; [done|]. rewrite IH.
  destruct (decide (f ∈ fields)) as [Hf|Hf].
  { by rewrite decide_True by (by right). }
  destruct (decide (f = g)) as [->|Hg].
  - by rewrite lookup_insert_eq, decide_True by (by left).
  - rewrite lookup_insert_ne by done. rewrite decide_False; [done|].
    by intros [?|?]%elem_of_cons.
Qed.

Lemma normalized_cost p f :
  vt_costs (normalizeVisualTier p) !! f
  = if decide (f ∈ EXTRA_COST_FIELDS) then Some (cost_or_0 (pt_costs p) f)
    else match pt_costs p !! f with
         | Some x => Some x
         | None => if decide (f ∈ COST_FIELDS) then Some (num_of_Z 0) else None
         end.
Proof.
  cbn [vt_costs normalizeVisualTier]. rewrite fold_costs_lookup. case_decide as Hf; [done|].
  destruct (pt_costs p !! f) as [x|] eqn:E; [by apply lookup_union_Some_l|].
  rewrite lookup_union_r by done. unfold cost_or_0, cost.
  destruct (decide (f = js "output_unit_cost")) as [->|Ho].
  { rewrite lookup_insert_eq, E, decide_True; [done|]. by right; left. }
  rewrite lookup_insert_ne by done. destruct (decide (f = js "input_unit_cost")) as [->|Hi].
  { rewrite lookup_insert_eq, E, decide_True; [done|]. by left. }
  rewrite lookup_insert_ne, lookup_empty, decide_False; [done| |done].
  unfold COST_FIELDS. rewrite !elem_of_cons. naive_solver.
Qed.

Lemma normalized_cost_or_0 p f : f ∈ COST_FIELDS ->
  cost_or_0 (vt_costs (normalizeVisualTier p)) f = cost_or_0 (pt_costs p) f.
Proof.
  intros Hf. unfold cost_or_0 at 1, cost. rewrite normalized_cost. case_decide as He.
  - apply num_or_0_idemp.
  - unfold cost_or_0, cost. destruct (pt_costs p !! f); [done|]. by rewrite decide_True.
Qed.

Lemma normalize_idemp p :
  normalizeVisualTier (partial_tier (normalizeVisualTier p)) = normalizeVisualTier p.
Proof.
  destruct (normalizeVisualTier p) as [l c m k] eqn:E. unfold partial_tier. cbn [vt_label vt_conditions vt_cache_mode vt_costs].
  assert (Hk : k = vt_costs (normalizeVisualTier p)) by (by rewrite E).
  match goal with |- normalizeVisualTier ?q = _ => set (q' := q) end.
  assert (vt_costs (normalizeVisualTier q') = k) as Hc.
  { apply map_eq. intros f. rewrite normalized_cost. cbn [q' pt_costs].
    destruct (decide (f ∈ EXTRA_COST_FIELDS)) as [Hf|Hf].
    - rewrite Hk at 1. rewrite normalized_cost_or_0 by (by do 2 right).
      rewrite Hk, normalized_cost. by rewrite decide_True.
    - destruct (k !! f) as [x|] eqn:Ek; [done|]. case_decide as Hc; [|done].
      rewrite Hk, normalized_cost, decide_False in Ek by done.
      destruct (pt_costs p !! f); [done|]. by rewrite decide_True in Ek. }
  destruct (normalizeVisualTier q') as [l' c' m' k'] eqn:Eq. simpl in Hc. subst k'.
  by injection Eq as <- <- <- _.
Qed.

(** The costs a match gives: a captured text where the tier has the cost. *)
Lemma captured_costs costs (o : nat -> option jsstr) l base f :
  Forall (fun x : nat * (jsstr * jsstr) =>
    o x.1 = (if has_cost costs x.2.1 then Some (num_to_string (cost_or_0 costs x.2.1)) else None)
    /\ num_of_string (num_to_string (cost_or_0 costs x.2.1)) = cost_or_0 costs x.2.1) l ->
  foldl (fun (acc : gmap jsstr number) x => match o x.1 with
                       | Some val => <[x.2.1 := num_of_string val]> acc
                       | None => acc
                       end) base l !! f
  = if decide (f ∈ List.map (fun x => x.2.1) l /\ has_cost costs f = true)
    then Some (cost_or_0 costs f) else base !! f.
Proof.
  intros H. revert base. induction H as [|x l [Ho Hx] _ IH]; intros base; cbn [foldl List.map].
  { rewrite decide_False; [done|]. by intros [?%elem_of_nil _]. }
  rewrite IH, Ho. clear IH Ho. destruct (decide (f ∈ _ /\ _)) as [[Hf Hb]|Hn].
  { rewrite decide_True; [done|]. split; [by right|done]. }
  destruct (decide (f = x.2.1)) as [->|Hne].
  - destruct (has_cost costs x.2.1) eqn:Hb.
    + rewrite lookup_insert_eq, Hx, decide_True; [done|]. split; [by left|done].
    + rewrite decide_False; [done|]. by intros [_ ?].
  - rewrite decide_False.
    + destruct (has_cost costs x.2.1); [|done]. by rewrite lookup_insert_ne.
    + intros [[?|?]%elem_of_cons ?]; [done|]. by apply Hn.
Qed.

Lemma find_high (base : caps) n k :
  Forall (fun x => x.1 < n) base -> n <= k -> List.find (fun x => x.1 =? k) base = None.
Proof.
  intros Hb Hk. induction Hb as [|x l Hx _ IH]; [done|]. cbn [List.find].
  by rewrite (proj2 (Nat.eqb_neq _ k)) by lia.
Qed.

(** A match whose groups from [n] on hold the costs of a tier. *)
Section TierCosts.
Context (costs : gmap jsstr number) (n : nat) (y : mstate) (base : caps).
Let ic := num_to_string (cost_or_0 costs (js "input_unit_cost")).
Let oc := num_to_string (cost_or_0 costs (js "output_unit_cost")).
Context (Hp : Forall (fun f => printable (cost_or_0 costs f)) COST_FIELDS)
  (Hb : Forall (fun x : nat * jsstr => x.1 < n) base)
  (Hy : st_caps y = tail_caps (2 + n) (cost_items costs) ((S n, oc) :: (n, ic) :: base)).

Lemma read_low k : k < n -> group k y = cap_of k base.
Proof.
  intros Hk. unfold group, capture. rewrite Hy, tail_caps_low by lia. cbn [List.find fst].
  by rewrite !(proj2 (Nat.eqb_neq _ k)) by lia.
Qed.

Lemma read_costs f : f ∈ COST_FIELDS -> cost_or_0 (match_costs n y) f = cost_or_0 costs f.
Proof.
  intros Hf. rewrite Forall_forall in Hp. unfold match_costs.
  unfold cost_or_0 at 1, cost. rewrite (captured_costs costs (fun i => capture (2 + n + i) y)).
  - case_decide as Hd; [apply num_or_0_idemp|].
    assert (Hg : group n y = ic /\ group (S n) y = oc).
    { unfold group, capture. rewrite Hy, !tail_caps_low by lia. cbn [List.find fst].
      by rewrite !Nat.eqb_refl, (proj2 (Nat.eqb_neq (S n) n)) by lia. }
    destruct Hg as [-> ->].
    destruct (decide (f = js "output_unit_cost")) as [->|Ho].
    { rewrite lookup_insert_eq. simpl. unfold oc. rewrite (proj2 (Hp _ Hf)). apply num_or_0_idemp. }
    rewrite lookup_insert_ne by done. destruct (decide (f = js "input_unit_cost")) as [->|Hi].
    { rewrite lookup_insert_eq. simpl. unfold ic. rewrite (proj2 (Hp _ Hf)). apply num_or_0_idemp. }
    rewrite lookup_insert_ne, lookup_empty by done. symmetry. apply no_cost.
    destruct (has_cost costs f) eqn:Hbc; [|done]. exfalso. apply Hd. split; [|done].
    do 2 (apply elem_of_cons in Hf as [?|Hf]; [done|]). exact Hf.
  - apply Forall_lookup_2. intros i x Hx. rewrite list_lookup_imap in Hx.
    destruct (BILLING_CACHE_VAR_MAP !! i) as [cv|] eqn:Ecv; [|done]. injection Hx as <-. simpl. split.
    + unfold capture. rewrite Hy. change (S (S (n + i))) with (2 + n + i).
      rewrite (tail_caps_at (2 + n) (cost_items costs) _ i
        (cv.2, if has_cost costs cv.1
               then Some (num_to_string (cost_or_0 costs cv.1)) else None)); [done| |].
      * intros k Hk. cbn [List.find fst]. rewrite !(proj2 (Nat.eqb_neq _ k)) by lia.
        apply (find_high _ n); [done|lia].
      * unfold cost_items. change (List.map ?g ?l) with (g <$> l). by rewrite list_lookup_fmap, Ecv.
    + apply Hp. assert (Hall : Forall (fun cv => cv.1 ∈ COST_FIELDS) BILLING_CACHE_VAR_MAP)
        by (by apply (bool_decide_unpack _)).
      by eapply Forall_lookup_1 in Hall.
Qed.
End TierCosts.

Lemma body_cong t t' :
  (forall f, f ∈ COST_FIELDS -> cost_or_0 (vt_costs t) f = cost_or_0 (vt_costs t') f) ->
  buildTierBodyExpr t = buildTierBodyExpr t'.
Proof.
  intros H. assert (Hi : cost_items (vt_costs t) = cost_items (vt_costs t')).
  { apply map_ext_in. intros cv Hcv. unfold has_cost. rewrite H; [done|].
    assert (Hall : Forall (fun cv => cv.1 ∈ COST_FIELDS) BILLING_CACHE_VAR_MAP)
      by (by apply (bool_decide_unpack _)).
    rewrite Forall_forall in Hall. by apply Hall, list_elem_of_In. }
  rewrite !body_text, Hi, !H; [done| |]; by apply (bool_decide_unpack _).
Qed.

Lemma re_match_tier_call l ic oc items :
  re_match VERSION_BODY_REGEX (single_text l ic oc items) = None.
Proof. unfold VERSION_BODY_REGEX. cbn [rseq]. rewrite re_match_anchored. vm_compute. reflexivity. Qed.

Lemma tier_part_cong n i t :
  tier_part n i (normalizeVisualTier (partial_tier t)) = tier_part n i t.
Proof.
  unfold tier_part, tier_call.
  rewrite (body_cong (normalizeVisualTier (partial_tier t)) t); [done|]. apply normalized_cost_or_0.
Qed.

(** Normalizing a configuration, which the editor does on every change,
    keeps the expression it stands for, and doing it twice changes nothing. *)
Theorem normalize_keeps_expr config t ts :
  normalizeVisualConfig (Some (normalizeVisualConfig config)) = normalizeVisualConfig config
  /\ generateExprFromVisualConfig (Some (normalizeVisualConfig (Some (t :: ts))))
     = generateExprFromVisualConfig (Some (t :: ts)).
Proof.
  split.
  - destruct config as [[|t' ts']|]; cbn [normalizeVisualConfig createDefaultVisualConfig List.map];
      rewrite ?normalize_idemp; [done| |done].
    f_equal. rewrite map_map. apply map_ext. intros x. apply normalize_idemp.
  - destruct ts as [|t' ts].
    { cbn [normalizeVisualConfig List.map generateExprFromVisualConfig]. unfold tier_call.
      rewrite (body_cong (normalizeVisualTier (partial_tier t)) t); [done|]. apply normalized_cost_or_0. }
    cbn [normalizeVisualConfig List.map generateExprFromVisualConfig].
    change (normalizeVisualTier (partial_tier t) :: normalizeVisualTier (partial_tier t') :: ?l)
      with (List.map (fun t => normalizeVisualTier (partial_tier t)) (t :: t' :: ts)).
    rewrite length_map. f_equal. generalize (length (t :: t' :: ts)) as n, (t :: t' :: ts) as l.
    intros n l. change (List.map ?g l) with (g <$> l). rewrite imap_fmap. apply imap_ext.
    intros i x _. apply tier_part_cong.
Qed.

(** A cost that is not one number is read as no cost. *)
Example difference_read_as_zero :
  (fun cfg => generateExprFromVisualConfig (Some cfg))
    <$> tryParseVisualConfig (jsq "tier('base', p * 1-2 + c * 3)")
  = Some (jsq "tier('base', p * 0 + c * 3)").
Proof. vm_compute. reflexivity. Qed.
