(* ===== verification/TierConfigFacts.v ===== *)
(** * Configurations of several tiers

    The expression the editor writes for a list of tiers is read back by the
    editor as those tiers, and by the parser of the pricing page as the same
    labels, conditions and prices. *)

From S2P Require Import Prelude JsNumber JsValue JsRegex.
From S2P Require Import JsRegexFacts JsScanFacts BillingExpr BillingExprFacts TierExpr TierExprFacts.

(** ** Conditions *)

Definition COND_VARS : list jsstr := [js "p"; js "c"; js "len"].
Definition COND_OPS : list jsstr := [js "<"; js "<="; js ">"; js ">="].

Definition cond_value (c : TierConditionInput) : jsstr := default [] (cond_value_text <$> ci_value c).
Definition cond_text (c : TierConditionInput) : jsstr :=
  ci_var c ++ js " " ++ ci_op c ++ js " " ++ cond_value c.
(** A condition of the editor's menus whose value is printed as a number
    without a minus sign. *)
Definition cond_readable (c : TierConditionInput) : Prop :=
  ci_var c ∈ COND_VARS /\ ci_op c ∈ COND_OPS /\ cond_value c <> []
  /\ forallb is_num_unit_plus (cond_value c) = true
  /\ num_to_string (num_of_string (cond_value c)) = cond_value c.
#[export] Instance cond_readable_dec c : Decision (cond_readable c).
Proof. apply _. Defined.
(** The condition that is read back. *)
Definition cond_read (c : TierConditionInput) : TierConditionInput :=
  mkCond (ci_var c) (ci_op c) (Some (CondNum (num_of_string (cond_value c)))).

Lemma plus_unit_not_space c : is_num_unit_plus c = true -> is_space c = false.
Proof.
  intros H. apply num_unit_not_space. unfold is_num_unit_plus, is_num_unit in *.
  rewrite orb_true_iff in *. destruct H as [H|H]; [by left|right].
  revert H. simpl. rewrite !orb_false_r, !orb_true_iff. tauto.
Qed.

Lemma cond_var_head v : v ∈ COND_VARS -> exists x v', v = x :: v' /\ x ∈ [ch "p"; ch "c"; ch "l"].
Proof.
  unfold COND_VARS. rewrite !elem_of_cons, elem_of_nil.
  intros [->|[->|[->|[]]]]; eexists _, _; (split; [reflexivity|]); by apply (bool_decide_unpack _).
Qed.
Lemma cond_var_word v : v ∈ COND_VARS -> forallb is_word v = true.
Proof.
  unfold COND_VARS. rewrite !elem_of_cons, elem_of_nil. by intros [->|[->|[->|[]]]].
Qed.
Definition is_op_unit (c : N) : bool := existsb (N.eqb c) [ch "<"; ch "="; ch ">"].
Lemma cond_op_units o : o ∈ COND_OPS -> forallb is_op_unit o = true /\ o <> [].
Proof.
  unfold COND_OPS. rewrite !elem_of_cons, elem_of_nil. by intros [->|[->|[->|[->|[]]]]].
Qed.

(** ** What the expression of a condition matches *)

Lemma cond_atom_denote s c s' c' :
  denote COND_ATOM s c s' c' <->
  exists v a o b t, v ∈ COND_VARS /\ forallb is_space a = true /\ o ∈ COND_OPS
    /\ forallb is_space b = true /\ t <> [] /\ forallb is_num_unit_plus t = true
    /\ s = v ++ a ++ o ++ b ++ t ++ s' /\ c' = c.
Proof.
  unfold COND_ATOM, COND_VAR, COND_OP. split.
  - intros H. apply denote_rseq_cons in H as (? & ? & (v & Hv & -> & ->)%denote_alts & H).
    apply denote_rseq_cons in H as (? & ? & (a & -> & Ha & ->)%denote_star_class & H).
    apply denote_rseq_cons in H as (? & ? & (o & Ho & -> & ->)%denote_alts & H).
    apply denote_rseq_cons in H as (? & ? & (b & -> & Hb & ->)%denote_star_class & H).
    apply denote_plus_class in H as (t & -> & Ht & Hn & ->). by exists v, a, o, b, t.
  - intros (v & a & o & b & t & Hv & Ha & Ho & Hb & Ht & Hn & -> & ->).
    apply denote_rseq_cons; eexists _, _; split; [apply denote_alts; by exists v|].
    apply denote_rseq_cons; eexists _, _; split; [apply denote_star_class; by exists a|].
    apply denote_rseq_cons; eexists _, _; split; [apply denote_alts; by exists o|].
    apply denote_rseq_cons; eexists _, _; split; [apply denote_star_class; by exists b|].
    apply denote_plus_class. by exists t.
Qed.

(** It ends in a unit of a number. *)
Definition ends_number (s s' : jsstr) : Prop :=
  exists u x, s = u ++ x :: s' /\ is_num_unit_plus x = true.

Lemma class_last (p : N -> bool) (t : jsstr) :
  t <> [] -> forallb p t = true -> exists u x, t = u ++ [x] /\ p x = true.
Proof.
  intros Ht Hp. destruct t as [|x u] using rev_ind; [done|]. exists u, x. split; [done|].
  rewrite forallb_app in Hp. apply andb_prop in Hp as [_ Hp]. simpl in Hp. by rewrite andb_true_r in Hp.
Qed.

Lemma atom_ends s c s' c' : denote COND_ATOM s c s' c' -> ends_number s s' /\ c' = c.
Proof.
  intros (v & a & o & b & t & _ & _ & _ & _ & Ht & Hn & -> & ->)%cond_atom_denote. split; [|done].
  destruct (class_last _ t Ht Hn) as (u & x & -> & Hx). exists (v ++ a ++ o ++ b ++ u), x.
  split; [|done]. by rewrite <- !app_assoc.
Qed.

Definition CONDS : regex := RSeq COND_ATOM (RStar (RSeq AND_SPACED COND_ATOM)).

Lemma and_over s c s' c' : denote AND_SPACED s c s' c' -> exists w, s = w ++ s' /\ c' = c.
Proof.
  intros H. destruct (denote_over (fun _ => true) AND_SPACED s c s' c') as (w & -> & _);
    [by repeat split|done|].
  exists w. split; [done|]. by eapply denote_nocap in H.
Qed.

Lemma conds_end s c s' c' : denote CONDS s c s' c' -> ends_number s s' /\ c' = c.
Proof.
  intros (s1 & c1 & H & Hs). apply atom_ends in H as [He ->].
  cut ((forall s, ends_number s s1 -> ends_number s s') /\ c' = c); [by intros [Hf ->]; auto|].
  clear s He. revert s1 c Hs. apply (denote_star_ind _ (fun s1 c =>
    (forall s, ends_number s s1 -> ends_number s s') /\ c' = c)); [done|].
  intros s0 c0 s1 c1 (s2 & c2 & Ha & Hb) [IH ->].
  apply and_over in Ha as (w & -> & ->). apply atom_ends in Hb as [(u & x & -> & Hx) ->].
  split; [|done]. intros t (u' & x' & -> & _). apply IH. exists (u' ++ x' :: w ++ u), x.
  split; [|done]. by rewrite <- !app_assoc; simpl; rewrite <- app_assoc.
Qed.

(** ** The guard of a tier *)

Definition not_question (c : N) : bool := negb (c =? ch "?")%N.
Lemma conds_over : over not_question CONDS.
Proof.
  assert (Hu : forall (q : N -> bool), q (ch "?") = false -> forall x, q x = true -> not_question x = true).
  { intros q Hq x Hx. unfold not_question. destruct (N.eqb_spec x (ch "?")); [congruence|done]. }
  unfold CONDS, COND_ATOM, COND_VAR, COND_OP, AND_SPACED.
  repeat match goal with
    | |- over _ (runit ?c) => exact (Hu (N.eqb c) eq_refl)
    | |- over _ (RChar ?q) => exact (Hu q eq_refl)
    | |- over _ (RStar (RChar ?q)) => exact (Hu q eq_refl)
    | |- over _ rspaces => exact (Hu is_space eq_refl)
    | |- over _ (rseq [rspaces]) => exact (Hu is_space eq_refl)
    | |- _ => split
    end.
Qed.

Lemma conds_head s c s' c' : denote CONDS s c s' c' ->
  exists x t, s = x :: t /\ x ∈ [ch "p"; ch "c"; ch "l"].
Proof.
  intros (s1 & c1 & H & _). apply cond_atom_denote in H as (v & a & o & b & t & Hv & _ & _ & _ & _ & _ & -> & _).
  destruct (cond_var_head v Hv) as (x & v' & -> & Hx). by eexists x, _.
Qed.

Definition guard_text (cs : list TierConditionInput) : jsstr := join (js " && ") (List.map cond_text cs).

Lemma cond_text_denote c s k : cond_readable c -> denote COND_ATOM (cond_text c ++ s) k s k.
Proof.
  intros (Hv & Ho & Ht & Hn & _). apply cond_atom_denote.
  exists (ci_var c), (js " "), (ci_op c), (js " "), (cond_value c). split_and!; try done.
  unfold cond_text. by rewrite <- !app_assoc.
Qed.

Lemma guard_text_denote c cs s k :
  Forall cond_readable (c :: cs) -> denote CONDS (guard_text (c :: cs) ++ s) k s k.
Proof.
  intros H. apply Forall_cons in H as [Hc Hcs]. unfold guard_text. cbn [List.map]. rewrite join_concat.
  rewrite <- app_assoc. exists (concat (List.map (fun x => js " && " ++ x) (List.map cond_text cs)) ++ s), k.
  split; [by apply cond_text_denote|]. induction Hcs as [|c' cs Hc' _ IH]; [apply rtc_refl|].
  cbn [List.map concat]. eapply rtc_l; [|exact IH]. cbn [fst snd]. split.
  - rewrite <- !app_assoc. eexists _, _. split; [|by apply cond_text_denote].
    exists (js "&& " ++ cond_text c' ++ concat (List.map (fun x => js " && " ++ x) (List.map cond_text cs)) ++ s), k.
    split; [apply denote_star_class; by exists (js " ")|].
    eexists (js " " ++ _), k. split; [by apply (denote_lit (js "&&"))|]. apply denote_star_class. by exists (js " ").
  - rewrite !length_app. simpl. lia.
Qed.

Definition guarded (next : list regex) : regex :=
  rseq (ropt (rseq [RGroup 1 CONDS; rspaces; runit (ch "?"); rspaces]) :: tierPat 2 next).

(** The last unit of a guard. *)
Lemma guard_last c cs :
  Forall cond_readable (c :: cs) -> exists u x, guard_text (c :: cs) = u ++ [x] /\ is_num_unit_plus x = true.
Proof.
  intros H. pose proof (guard_text_denote c cs [] [] H) as Hd. rewrite app_nil_r in Hd.
  apply conds_end in Hd as [(u & x & E & Hx) _]. by exists u, x.
Qed.

Lemma last_unit (u u' a a' : jsstr) x x' :
  forallb is_space a = true -> forallb is_space a' = true -> is_space x = false -> is_space x' = false ->
  u ++ x :: a = u' ++ x' :: a' -> u ++ [x] = u' ++ [x'] /\ a = a'.
Proof.
  intros Ha Ha' Hx Hx' E. apply (f_equal (@rev N)) in E. rewrite !rev_app_distr in E. simpl in E.
  rewrite <- !app_assoc in E. simpl in E.
  apply (spaces_app (rev a) (rev a') x x') in E as (E1 & -> & E2); try done.
  - apply (f_equal (@rev N)) in E1, E2. rewrite !rev_involutive in E1, E2. by subst.
  - by rewrite forallb_rev.
  - by rewrite forallb_rev.
Qed.

Section Guard.
Context (next : list regex).
Abbreviation call := (jsq "tier('").

Lemma tierPat_call n s c s' c' :
  denote (rseq (tierPat n next)) s c s' c' -> exists t, s = call ++ t.
Proof. intros H. apply denote_rseq_cons in H as (t & ? & [-> _]%denote_lit & _). by exists t. Qed.

Lemma guard_read c cs z k s' c' :
  Forall cond_readable (c :: cs) ->
  denote (guarded next) (guard_text (c :: cs) ++ js " ? " ++ call ++ z) k s' c' <->
  denote (rseq (tierPat 2 next)) (call ++ z) ((1, guard_text (c :: cs)) :: k) s' c'.
Proof.
  intros Hr. pose proof (guard_text_denote c cs (js " ? " ++ call ++ z) k Hr) as Hg.
  destruct (guard_last c cs Hr) as (u & x & Eg & Hx). set (g := guard_text (c :: cs)) in *.
  unfold guarded. rewrite denote_rseq_cons. split.
  - intros (s1 & c1 & [H|[<- ->]] & H2); cycle 1.
    { apply tierPat_call in H2 as [t E]. apply conds_head in Hg as (y & t' & E' & Hy). rewrite E' in E.
      exfalso. injection E as -> _. revert Hy. by apply (bool_decide_unpack _). }
    apply denote_rseq_cons in H as (? & ? & (k1 & w & Hd & E & ->) & H).
    apply denote_rseq_cons in H as (? & ? & (a & -> & Ha & ->)%denote_star_class & H).
    apply denote_rseq_cons in H as (? & ? & [-> ->]%denote_unit & H).
    apply denote_star_class in H as (b & -> & Hb & ->).
    pose proof (denote_over _ _ _ _ _ _ conds_over Hd) as (w' & Ew & Hw).
    rewrite E in Ew. apply app_inv_tail in Ew as <-.
    rewrite E in Hd. apply conds_end in Hd as [(u' & x' & Ew & Hx') ->].
    assert (Ew' : w = u' ++ [x']).
    { change (x' :: ?l) with ([x'] ++ l) in Ew. rewrite (app_assoc u') in Ew. by apply app_inv_tail in Ew. }
    change (js " ? " ++ call ++ z) with (js " " ++ ch "?" :: js " " ++ call ++ z) in E.
    rewrite !app_assoc in E. apply (class_split not_question) in E as [E1 E2]; [| | |done|done].
    + rewrite Eg, Ew', <- !app_assoc in E1.
      apply last_unit in E1 as [E1 _]; try done; [|by apply plus_unit_not_space..].
      destruct (tierPat_call _ _ _ _ _ H2) as [t ->]. injection E2 as E2.
      destruct (spaces_app (js " ") b (ch "t") (ch "t") eq_refl Hb eq_refl eq_refl
        (jsq "ier('" ++ z) (jsq "ier('" ++ t) E2) as (_ & _ & E3).
      apply app_inv_head in E3 as ->. by rewrite Ew', <- E1, <- Eg in H2.
    + rewrite forallb_app. apply andb_true_iff. split; [|done].
      pose proof (denote_over _ _ _ _ _ _ conds_over Hg) as (w' & Ew2 & Hw').
      by apply app_inv_tail in Ew2 as <-.
    + rewrite forallb_app, Hw. simpl. eapply forallb_impl; [|exact Ha]. intros y Hy. unfold not_question.
      destruct (N.eqb_spec y (ch "?")) as [->|]; done.
  - intros H. eexists _, _. split; [left|exact H].
    apply denote_rseq_cons; eexists _, _; split; [exists k, g; split; [exact Hg|done]|].
    apply denote_rseq_cons; eexists _, _; split; [apply denote_star_class; by exists (js " ")|].
    apply denote_rseq_cons; eexists _, _; split; [by apply denote_unit|].
    apply denote_star_class. by exists (js " ").
Qed.

Lemma guard_absent z k s' c' :
  denote (guarded next) (call ++ z) k s' c' <-> denote (rseq (tierPat 2 next)) (call ++ z) k s' c'.
Proof.
  unfold guarded. rewrite denote_rseq_cons. split.
  - intros (s1 & c1 & [H|[<- ->]] & H2); [|done]. exfalso.
    apply denote_rseq_cons in H as (? & ? & (k1 & w & Hd & _) & _).
    apply conds_head in Hd as (y & t' & E & Hy). injection E as <- _. revert Hy. by apply (bool_decide_unpack _).
  - intros H. eexists _, _. split; [by right|exact H].
Qed.

(** A match starts with a variable or a call, and has a quote. *)
Lemma guarded_head s k s' c' : denote (guarded next) s k s' c' ->
  exists x t, s = x :: t /\ x ∈ [ch "p"; ch "c"; ch "l"; ch "t"].
Proof.
  unfold guarded. rewrite denote_rseq_cons. intros (s1 & c1 & [H|[<- ->]] & H2).
  - apply denote_rseq_cons in H as (? & ? & (k1 & w & Hd & _) & _).
    apply conds_head in Hd as (y & t' & -> & Hy). exists y, t'. split; [done|].
    revert Hy. rewrite !elem_of_cons. tauto.
  - apply tierPat_call in H2 as [t ->]. eexists _, _. split; [reflexivity|]. by apply (bool_decide_unpack _).
Qed.

Lemma guarded_quote s k s' c' : denote (guarded next) s k s' c' -> 34%N ∈ s.
Proof.
  unfold guarded. rewrite denote_rseq_cons. intros (s1 & c1 & H & H2).
  apply tierPat_call in H2 as [t ->].
  assert (exists w, s = w ++ call ++ t) as [w ->].
  { destruct (denote_over (fun _ => true) (ropt (rseq [RGroup 1 CONDS; rspaces; runit (ch "?"); rspaces]))
      s k (call ++ t) c1) as (w & -> & _); [by repeat split|done|]. by exists w. }
  rewrite !elem_of_app. right. left. by apply (bool_decide_unpack _).
Qed.

Lemma guarded_gap a b s : js " : " = a ++ b -> b <> [] -> no_match (guarded next) (b ++ s).
Proof.
  intros E Hb s' c' H. apply guarded_head in H as (x & t & E2 & Hx).
  destruct b as [|y b]; [done|]. injection E2 as <- _.
  assert (Hy : y ∈ js " : ") by (rewrite E; apply elem_of_app; right; by left).
  unfold js in Hy. simpl in Hy. rewrite !elem_of_cons, elem_of_nil in Hy.
  destruct Hy as [->|[->|[->|[]]]]; revert Hx; by apply (bool_decide_unpack _).
Qed.
End Guard.

(** ** Reading the conditions of a guard *)

Lemma cond_text_ends c : cond_readable c ->
  exists x u w y, cond_text c = x :: u /\ cond_text c = w ++ [y]
    /\ is_space x = false /\ is_space y = false.
Proof.
  intros (Hv & _ & Ht & Hn & _). destruct (cond_var_head _ Hv) as (x & v & Ev & Hx).
  destruct (class_last _ _ Ht Hn) as (w & y & Ew & Hy).
  exists x, (v ++ js " " ++ ci_op c ++ js " " ++ cond_value c),
    (ci_var c ++ js " " ++ ci_op c ++ js " " ++ w), y.
  unfold cond_text. rewrite Ev, Ew. split_and!.
  - done.
  - by rewrite <- !app_assoc.
  - revert Hx. rewrite !elem_of_cons, elem_of_nil. by intros [->|[->|[->|[]]]].
  - by apply plus_unit_not_space.
Qed.

Lemma cond_text_part c : cond_readable c -> and_part (cond_text c).
Proof.
  intros Hc. destruct (cond_text_ends c Hc) as (x & u & w & y & E1 & E2 & Hx & Hy). split_and!.
  - destruct Hc as (Hv & Ho & _ & Hn & _). clear E1 E2. unfold cond_text.
    assert (Hc : forall p (t : jsstr), forallb p t = true -> p (ch "&") = false -> ch "&" ∉ t).
    { intros p t Ht Hp Hin. rewrite forallb_forall in Ht. apply list_elem_of_In, Ht in Hin. congruence. }
    rewrite !not_elem_of_app. split_and!.
    + eapply Hc; [by apply cond_var_word|done].
    + by apply (bool_decide_unpack _).
    + eapply Hc; [by apply cond_op_units|done].
    + by apply (bool_decide_unpack _).
    + by eapply Hc.
  - by rewrite E1.
  - rewrite E2, rev_app_distr. done.
Qed.

Definition COND_TEXT : regex :=
  rseq [RGroup 1 COND_VAR; rspaces; RGroup 2 COND_OP; rspaces;
        RGroup 3 (rplus (RChar is_num_unit_plus)); REnd false].

Lemma cond_op_head o : o ∈ COND_OPS ->
  exists x o', o = x :: o' /\ is_space x = false /\ is_word x = false.
Proof.
  unfold COND_OPS. rewrite !elem_of_cons, elem_of_nil.
  intros [->|[->|[->|[->|[]]]]]; by eexists _, _.
Qed.

Lemma op_unit_space_or_number x :
  is_op_unit x = true -> is_space x = false /\ is_num_unit_plus x = false.
Proof.
  unfold is_op_unit. simpl. rewrite !orb_true_iff, !N.eqb_eq.
  by intros [->|[->|[->|?]]].
Qed.

Lemma cond_value_head (t : jsstr) : t <> [] -> forallb is_num_unit_plus t = true ->
  exists y t', t = y :: t' /\ is_space y = false /\ is_op_unit y = false.
Proof.
  intros Ht Hn. destruct t as [|y t]; [done|]. simpl in Hn. apply andb_prop in Hn as [Hy _].
  exists y, t. split_and!; [done|by apply plus_unit_not_space|].
  destruct (is_op_unit y) eqn:E; [|done]. apply op_unit_space_or_number in E as [_ E]. congruence.
Qed.

(** White space, then a unit outside a class: not a unit of the class. *)
Lemma after_spaces (p : N -> bool) a y s :
  forallb is_space a = true -> (forall x, p x = true -> is_space x = false) -> p y = false ->
  match a ++ y :: s with [] => True | x :: _ => p x = false end.
Proof.
  intros Ha Hp Hy. destruct a as [|z a]; [done|]. simpl in *. apply andb_prop in Ha as [Hz _].
  destruct (p z) eqn:E; [|done]. by rewrite (Hp z E) in Hz.
Qed.

(** A condition is decomposed in one way. *)
Lemma cond_text_unique v o t v' a o' b t' :
  v ∈ COND_VARS -> v' ∈ COND_VARS -> o ∈ COND_OPS -> o' ∈ COND_OPS ->
  t <> [] -> t' <> [] -> forallb is_num_unit_plus t = true -> forallb is_num_unit_plus t' = true ->
  forallb is_space a = true -> forallb is_space b = true ->
  v ++ js " " ++ o ++ js " " ++ t = v' ++ a ++ o' ++ b ++ t' -> v = v' /\ o = o' /\ t = t'.
Proof.
  intros Hv Hv' Ho Ho' Ht Ht' Hn Hn' Ha Hb E.
  destruct (cond_op_units _ Ho) as [Hou _], (cond_op_units _ Ho') as [Hou' _].
  destruct (cond_op_head _ Ho) as (x & o1 & -> & Hx & Hxw), (cond_op_head _ Ho') as (x' & o1' & -> & Hx' & Hxw').
  destruct (cond_value_head _ Ht Hn) as (y & t1 & -> & Hy & Hyo).
  destruct (cond_value_head _ Ht' Hn') as (y' & t1' & -> & Hy' & Hyo').
  apply (class_split is_word) in E as [-> E]; [|by apply cond_var_word|by apply cond_var_word|done|].
  - apply (spaces_app (js " ") a x x') in E as (_ & -> & E); [|done..].
    assert (E2 : (x' :: o1) ++ js " " ++ y :: t1 = (x' :: o1') ++ b ++ y' :: t1')
      by exact (f_equal (cons x') E).
    apply (class_split is_op_unit) in E2 as [-> E2]; [|done|done|done|].
    + by apply (spaces_app (js " ") b y y') in E2 as (_ & -> & ->).
    + apply after_spaces; [done|by intros ? [? _]%op_unit_space_or_number|done].
  - apply after_spaces; [done|apply word_not_space|done].
Qed.

Lemma cond_text_match c s' c' : cond_readable c ->
  denote COND_TEXT (cond_text c) [] s' c' <->
  s' = [] /\ c' = [(3, cond_value c); (2, ci_op c); (1, ci_var c)].
Proof.
  intros (Hv & Ho & Ht & Hn & _). unfold COND_TEXT, COND_VAR, COND_OP, cond_text. split.
  - intros H. apply denote_rseq_cons in H as (? & ? & (v & E & Hv' & ->)%denote_group_alts & H).
    apply denote_rseq_cons in H as (? & ? & (a & -> & Ha & ->)%denote_star_class & H).
    apply denote_rseq_cons in H as (? & ? & (o & -> & Ho' & ->)%denote_group_alts & H).
    apply denote_rseq_cons in H as (? & ? & (b & -> & Hb & ->)%denote_star_class & H).
    apply denote_rseq_cons in H as (? & ? & (t & -> & [Ht' Hn'] & ->)%denote_group_plus & H).
    destruct H as (-> & -> & ->). rewrite app_nil_r in E. split; [done|].
    by apply cond_text_unique in E as (-> & -> & ->).
  - intros [-> ->].
    apply denote_rseq_cons; eexists _, _; split; [apply denote_group_alts; by exists (ci_var c)|].
    apply denote_rseq_cons; eexists _, _; split; [apply denote_star_class; by exists (js " ")|].
    apply denote_rseq_cons; eexists _, _; split; [apply denote_group_alts; by exists (ci_op c)|].
    apply denote_rseq_cons; eexists _, _; split; [apply denote_star_class; by exists (js " ")|].
    apply denote_rseq_cons; eexists _, _; split; [|done].
    apply denote_group_plus. exists (cond_value c). by rewrite app_nil_r.
Qed.

Lemma cond_match c : cond_readable c -> exists y,
  re_match TIER_COND_REGEX (trim (cond_text c)) = Some y
  /\ st_caps y = [(3, cond_value c); (2, ci_op c); (1, ci_var c)].
Proof.
  intros Hc. destruct (cond_text_ends c Hc) as (x & u & w & y & E1 & E2 & Hx & Hy).
  assert (Et : trim (cond_text c) = cond_text c).
  { apply trim_id. split; [by rewrite E1|by rewrite E2, rev_app_distr]. }
  rewrite Et. change TIER_COND_REGEX with (RSeq (RBegin false) COND_TEXT).
  pose proof (re_match_spec COND_TEXT (cond_text c) eq_refl) as H.
  destruct (re_match _ _) as [z|].
  - exists z. split; [done|]. by apply cond_text_match in H as [_ ?].
  - exfalso. eapply H. by apply cond_text_match.
Qed.

Lemma split_guard c cs :
  Forall cond_readable (c :: cs) ->
  re_split AND_SPACED (guard_text (c :: cs)) = List.map cond_text (c :: cs).
Proof.
  intros H. apply split_and_parts. change (Forall and_part (cond_text <$> (c :: cs))).
  rewrite Forall_fmap. eapply Forall_impl; [exact H|]. apply cond_text_part.
Qed.

(** The conditions a guard stands for, whatever is built from each. *)
Lemma guard_conditions {A} (f : jsstr -> jsstr -> number -> A) cs :
  Forall cond_readable cs ->
  (if nonempty (guard_text cs)
   then omap (fun cp => (fun y => f (group 1 y) (group 2 y) (num_of_string (group 3 y)))
                <$> re_match TIER_COND_REGEX (trim cp)) (re_split AND_SPACED (guard_text cs))
   else [])
  = List.map (fun c => f (ci_var c) (ci_op c) (num_of_string (cond_value c))) cs.
Proof.
  intros H. destruct cs as [|c cs]; [done|].
  destruct (guard_last c cs H) as (u & x & E & _).
  replace (nonempty (guard_text (c :: cs))) with true by (rewrite E; by destruct u).
  rewrite split_guard by done. clear E u x. induction H as [|d ds Hd _ IH]; [done|].
  cbn [List.map omap list_omap]. destruct (cond_match d Hd) as (y & -> & Hy). cbn [fmap option_fmap option_map].
  unfold group, capture. rewrite Hy. cbn. f_equal. exact IH.
Qed.

(** ** A tier in the text *)

Definition guard_caps (cs : list TierConditionInput) : caps :=
  match cs with [] => [] | _ => [(1, guard_text cs)] end.
Definition part_text (cs : list TierConditionInput) (label : jsstr) (t : VisualTier) : jsstr :=
  match cs with [] => [] | _ => guard_text cs ++ js " ? " end ++ tier_call label t.

Lemma cap_guard cs : cap_of 1 (guard_caps cs) = guard_text cs.
Proof. by destruct cs. Qed.

(** What the editor's expression captures. *)
Definition part_caps (cs : list TierConditionInput) (label : jsstr) (costs : gmap jsstr number) : caps :=
  tail_caps 5 (cost_items costs)
    ((4, num_to_string (cost_or_0 costs (js "output_unit_cost")))
     :: (3, num_to_string (cost_or_0 costs (js "input_unit_cost"))) :: (2, label) :: guard_caps cs).

Definition costs_printable (costs : gmap jsstr number) : Prop :=
  Forall (fun f => printable (cost_or_0 costs f)) COST_FIELDS.

Lemma call_head label t : exists z, tier_call label t = jsq "tier('" ++ z.
Proof. by eexists. Qed.

Lemma guarded_part next cs label t z s' c' :
  Forall cond_readable cs ->
  denote (guarded next) (part_text cs label t ++ z) [] s' c' <->
  denote (rseq (tierPat 2 next)) (tier_call label t ++ z) (guard_caps cs) s' c'.
Proof.
  intros Hc. destruct (call_head label t) as [w Ew]. unfold part_text. rewrite Ew, <- !app_assoc.
  destruct cs as [|c cs]; [apply guard_absent|]. rewrite <- !app_assoc. by apply guard_read.
Qed.

Lemma editor_part cs label t z :
  Forall cond_readable cs -> forallb not_quote label = true -> costs_printable (vt_costs t) ->
  part_text cs label t <> []
  /\ one_match tierRe (part_text cs label t ++ z) z (eq (part_caps cs label (vt_costs t))).
Proof.
  intros Hc Hl Hp.
  assert (Hd : forall s' c', denote tierRe (part_text cs label t ++ z) [] s' c' <->
    s' = z /\ c' = part_caps cs label (vt_costs t)).
  { intros s' c'. change tierRe with (guarded (bodyPat 3 [runit (ch ")")])).
    rewrite guarded_part, call_text by done. unfold costs_printable in Hp. rewrite Forall_forall in Hp.
    rewrite call_denote; [|done|apply Hp; by left|apply Hp; by right; left
      |by apply cost_items_ok, Forall_forall|by apply (bool_decide_unpack _)|done].
    cbn [rseq]. rewrite denote_unit. unfold part_caps. simpl. naive_solver. }
  split; [by intros [_ ?]%app_eq_nil|]. split.
  - eexists _, _. by apply Hd.
  - intros s' c' [-> ->]%Hd. done.
Qed.

(** The tier that is read: the label, the conditions as numbers, the costs
    with zero for those that are absent. *)
Definition read_tier (cs : list TierConditionInput) (label : jsstr) (t t' : VisualTier) : Prop :=
  vt_label t' = label /\ vt_conditions t' = List.map cond_read cs
  /\ Forall (fun f => cost_or_0 (vt_costs t') f = cost_or_0 (vt_costs t) f) COST_FIELDS
  /\ vt_cache_mode t'
     = (if num_ltb (num_of_Z 0) (cost_or_0 (vt_costs t) (js "cache_create_1h_unit_cost"))
        then CACHE_MODE_TIMED else CACHE_MODE_GENERIC)
  /\ normalizeVisualTier (partial_tier t') = t'.

Lemma read_tier_costs cs label t costs :
  (forall f, f ∈ COST_FIELDS -> cost_or_0 costs f = cost_or_0 (vt_costs t) f) ->
  read_tier cs label t
    (normalizeVisualTier (mkPartialTier (Some label) (Some (List.map cond_read cs)) None costs)).
Proof.
  intros H. set (p := mkPartialTier _ _ _ _). split_and!; [done|done| | |apply normalize_idemp].
  - apply Forall_forall. intros f Hf. rewrite normalized_cost_or_0 by done. by apply H.
  - cbn [vt_cache_mode normalizeVisualTier getTierCacheMode pt_cache_mode pt_costs p].
    rewrite <- num_or_0_positive. change (num_or (cost ?c ?f) _) with (cost_or_0 c f).
    rewrite H; [done|]. by apply (bool_decide_unpack _).
Qed.

Lemma tier_of_caps cs label t y :
  Forall cond_readable cs -> costs_printable (vt_costs t) ->
  part_caps cs label (vt_costs t) = st_caps y -> read_tier cs label t (tier_of_match y).
Proof.
  intros Hc Hp Hy. symmetry in Hy. unfold part_caps in Hy. set (base := (2, label) :: guard_caps cs) in Hy.
  assert (Hb : Forall (fun x : nat * jsstr => x.1 < 3) base).
  { unfold base. destruct cs; repeat constructor. }
  unfold tier_of_match, parse_condition_input.
  rewrite (read_low (vt_costs t) 3 y base Hy 1), (read_low (vt_costs t) 3 y base Hy 2) by lia.
  change (cap_of 2 base) with label. change (cap_of 1 base) with (cap_of 1 (guard_caps cs)).
  rewrite cap_guard. cbv zeta. rewrite (guard_conditions (fun v o x => mkCond v o (Some (CondNum x)))) by done.
  apply read_tier_costs. intros f Hf. by apply (read_costs _ _ _ base).
Qed.

(** ** The whole expression *)

Definition part := (list TierConditionInput * jsstr * VisualTier)%type.
(** The conditions, the label and the tier that are printed at position [i] of
    [n]: incomplete conditions are left out, the last of several tiers has no
    guard, and an empty label gets a default. *)
Definition part_of (n i : nat) (t : VisualTier) : part :=
  (if (n =? 1) || (i <? n - 1) then List.filter cond_complete (vt_conditions t) else [],
   str_or (vt_label t) (if n =? 1 then js "default" else js "tier_" ++ dec_of_N (N.of_nat (i + 1))), t).
Definition parts (ts : VisualConfig) : list part := imap (part_of (length ts)) ts.
Definition text_of (p : part) : jsstr := part_text p.1.1 p.1.2 p.2.
(** The price of a request that the only tier does not cover. *)
Definition rest_text (ps : list part) : jsstr :=
  match ps with [(_ :: _, _, _)] => js " : p * 0 + c * 0" | _ => [] end.

Definition tier_readable (t : VisualTier) : Prop :=
  forallb not_quote (vt_label t) = true
  /\ Forall cond_readable (List.filter cond_complete (vt_conditions t))
  /\ costs_printable (vt_costs t).
#[export] Instance tier_readable_dec t : Decision (tier_readable t).
Proof. apply _. Defined.

Lemma complete_guard c cs :
  cond_complete c = true -> nonempty (guard_text (c :: cs)) = true.
Proof.
  intros H. unfold cond_complete in H. apply andb_prop in H as [[H _]%andb_prop _].
  unfold guard_text. cbn [List.map]. rewrite join_concat. unfold cond_text.
  by destruct (ci_var c).
Qed.

Lemma filter_head {A} (p : A -> bool) l x l' : List.filter p l = x :: l' -> p x = true.
Proof. intros E. apply (filter_In p x l). rewrite E. by left. Qed.

(** The two tests of the code: a guard is printed when a condition is. *)
Lemma guard_printed cs (a b : jsstr) :
  (if nonempty (buildConditionStr cs) then buildConditionStr cs ++ js " ? " ++ a else b)
  = match List.filter cond_complete cs with
    | [] => b
    | _ => guard_text (List.filter cond_complete cs) ++ js " ? " ++ a
    end.
Proof.
  change (buildConditionStr cs) with (guard_text (List.filter cond_complete cs)).
  destruct (List.filter cond_complete cs) as [|c l] eqn:E; [done|].
  by rewrite complete_guard by (by eapply filter_head).
Qed.

Lemma tier_part_text n i t : n <> 1 -> tier_part n i t = text_of (part_of n i t).
Proof.
  intros Hn. unfold tier_part, part_of, text_of, part_text. cbn [fst snd]. rewrite (proj2 (Nat.eqb_neq n 1) Hn).
  cbn [orb]. destruct (i <? n - 1); cbn [andb]; [|done]. rewrite guard_printed.
  destruct (List.filter cond_complete (vt_conditions t)); [done|]. by rewrite <- app_assoc.
Qed.

Lemma generate_text ts : ts <> [] ->
  generateExprFromVisualConfig (Some ts) = join (js " : ") (List.map text_of (parts ts)) ++ rest_text (parts ts).
Proof.
  intros Hts. destruct ts as [|t [|t2 ts]]; [done| |].
  - cbn [generateExprFromVisualConfig]. rewrite guard_printed. unfold parts. cbn [imap length].
    unfold part_of, text_of, part_text. cbn [fst snd Nat.eqb orb List.map join rest_text].
    destruct (List.filter cond_complete (vt_conditions t)) as [|c cs]; [by rewrite app_nil_r|].
    by rewrite <- !app_assoc.
  - assert (Hr : rest_text (parts (t :: t2 :: ts)) = []).
    { unfold parts. cbn [imap]. by destruct (part_of _ 0 t) as [[[|] ?] ?]. }
    rewrite Hr, app_nil_r. cbn [generateExprFromVisualConfig]. f_equal. unfold parts.
    change (List.map text_of ?l) with (text_of <$> l). rewrite fmap_imap. apply imap_ext.
    intros i x _. by apply tier_part_text.
Qed.

Lemma rest_no_match next ps a b : rest_text ps = a ++ b -> no_match (guarded next) b.
Proof.
  intros E s' c' H. apply guarded_quote in H.
  assert (Hq : 34%N ∉ rest_text ps).
  { unfold rest_text. destruct ps as [|[[[|] ?] ?] [|]]; by apply (bool_decide_unpack _). }
  apply Hq. rewrite E. apply elem_of_app. by right.
Qed.

Lemma part_readable n i t : tier_readable t ->
  Forall cond_readable (part_of n i t).1.1 /\ forallb not_quote (part_of n i t).1.2 = true
  /\ costs_printable (vt_costs (part_of n i t).2).
Proof.
  intros (Hl & Hc & Hp). unfold part_of. cbn [fst snd]. split_and!; [by destruct (_ || _)| |done].
  unfold str_or. destruct (nonempty (vt_label t)); [done|]. destruct (n =? 1); [done|].
  rewrite forallb_app. apply andb_true_iff. split; [done|].
  eapply forallb_impl; [|apply dec_of_N_digits]. intros x Hx. unfold not_quote.
  by destruct (N.eqb_spec x 34) as [->|].
Qed.

Lemma parts_readable ts p : Forall tier_readable ts -> p ∈ parts ts ->
  Forall cond_readable p.1.1 /\ forallb not_quote p.1.2 = true /\ costs_printable (vt_costs p.2).
Proof.
  intros H Hp. apply elem_of_lookup_imap in Hp as (i & t & -> & Ht).
  apply part_readable. by eapply Forall_lookup_1 in H.
Qed.

(** The matches of either expression in the text of a configuration. *)
Section Found.
Context (next : list regex) (P : part -> caps -> Prop) (ts : VisualConfig).
Context (Hs : simple (guarded next) = true) (Hts : ts <> []).
Context (Hone : forall p z, p ∈ parts ts ->
  text_of p <> [] /\ one_match (guarded next) (text_of p ++ z) z (P p)).

Lemma found_parts :
  Forall2 (fun p x => P p (st_caps x.2)) (parts ts)
    (re_all (guarded next) (generateExprFromVisualConfig (Some ts))).
Proof.
  rewrite generate_text by done.
  set (pieces := (fun p => (text_of p, P p)) <$> parts ts).
  assert (Ep : pieces.*1 = List.map text_of (parts ts)) by (by unfold pieces; rewrite <- list_fmap_compose).
  rewrite <- Ep. destruct ts as [|t ts'] eqn:Et; [done|].
  assert (H : Forall2 (fun (x : jsstr * (caps -> Prop)) c => x.2 c) pieces
    (List.map (fun x => st_caps x.2)
       (re_all (guarded next) (join (js " : ") pieces.*1 ++ rest_text (parts (t :: ts')))))).
  { eapply found_joined; [done| |apply guarded_gap|apply rest_no_match|reflexivity].
    intros w Q s Hin. unfold pieces in Hin. apply list_elem_of_fmap in Hin as (p & [= -> ->] & Hp).
    by apply Hone. }
  unfold pieces in H at 1. change (List.map ?f ?l) with (f <$> l) in H.
  rewrite Forall2_fmap in H. exact H.
Qed.
End Found.

(** ** Round trip *)

Lemma version_none x s : x <> ch "v" -> re_match VERSION_BODY_REGEX (x :: s) = None.
Proof.
  intros Hx. unfold VERSION_BODY_REGEX. cbn [rseq]. rewrite re_match_anchored.
  change (m (RSeq (runit (ch "v")) ?r) Some ?st) with (m (runit (ch "v")) (m r Some) st).
  unfold runit at 1. rewrite m_char. cbn [start st_rest]. by rewrite (proj2 (N.eqb_neq _ x)).
Qed.

Lemma text_head p : exists x s, text_of p = x :: s
  /\ match p.1.1 with [] => x = ch "t" | _ => Forall cond_readable p.1.1 -> x ∈ [ch "p"; ch "c"; ch "l"] end.
Proof.
  destruct p as [[[|c cs] l] t]; unfold text_of, part_text; cbn [fst snd].
  - by eexists _, _.
  - destruct (guard_text (c :: cs) ++ js " ? ") as [|x s] eqn:E; [by apply app_eq_nil in E as [_ E]|].
    exists x, (s ++ tier_call l t). split; [done|]. intros H.
    pose proof (guard_text_denote c cs (js " ? ") [] H) as Hd. rewrite E in Hd.
    by apply conds_head in Hd as (y & z & [= -> ->] & Hy).
Qed.

Lemma single_none p z :
  Forall cond_readable p.1.1 -> forallb not_quote p.1.2 = true -> costs_printable (vt_costs p.2) ->
  p.1.1 <> [] \/ z <> [] -> no_match SINGLE_TIER (text_of p ++ z).
Proof.
  intros Hc Hl Hp Hz s' c' H. destruct (text_head p) as (x & s & E & Hx).
  destruct p as [[[|c cs] l] t]; cbn [fst snd] in *.
  - unfold text_of, part_text in H. cbn [fst snd app] in H. rewrite call_text in H.
    unfold costs_printable in Hp. rewrite Forall_forall in Hp.
    apply single_denote in H as (-> & _ & _); [by destruct Hz|done|apply Hp; by left|apply Hp; by right; left
      |by apply cost_items_ok, Forall_forall|by apply (bool_decide_unpack _)|done].
  - rewrite E in H. specialize (Hx Hc). apply tierPat_call in H as [w [= -> _]].
    revert Hx. by apply (bool_decide_unpack _).
Qed.

Lemma cond_read_text c : cond_readable c -> cond_text (cond_read c) = cond_text c.
Proof.
  intros (_ & _ & _ & _ & E). unfold cond_text. cbn [cond_read ci_var ci_op].
  change (cond_value (cond_read c)) with (num_to_string (num_of_string (cond_value c))). by rewrite E.
Qed.

Lemma cond_read_complete cs : Forall cond_readable cs ->
  List.filter cond_complete (List.map cond_read cs) = List.map cond_read cs.
Proof.
  induction 1 as [|c cs (Hv & Ho & _) _ IH]; [done|]. cbn [List.map List.filter]. rewrite IH.
  destruct (cond_var_head _ Hv) as (x & v & Ev & _), (cond_op_head _ Ho) as (y & o & Eo & _).
  unfold cond_complete at 1. cbn [cond_read ci_var ci_op ci_value]. by rewrite Ev, Eo.
Qed.

Lemma str_or_again a b c : b <> [] -> str_or (str_or a b) c = str_or a b.
Proof. intros Hb. unfold str_or. destruct a as [|x a]; [by destruct b|done]. Qed.

Lemma part_of_read n i t t' :
  Forall cond_readable (part_of n i t).1.1 ->
  read_tier (part_of n i t).1.1 (part_of n i t).1.2 t t' ->
  part_of n i t' = (List.map cond_read (part_of n i t).1.1, (part_of n i t).1.2, t')
  /\ text_of (part_of n i t') = text_of (part_of n i t).
Proof.
  intros Hr (El & Ec & Hf & _).
  assert (E : part_of n i t' = (List.map cond_read (part_of n i t).1.1, (part_of n i t).1.2, t')).
  { unfold part_of at 1. rewrite Ec, El. do 2 f_equal.
    - rewrite cond_read_complete by done. unfold part_of. cbn [fst snd]. by destruct (_ || _).
    - unfold part_of. cbn [fst snd]. apply str_or_again. by destruct (n =? 1). }
  split; [done|]. rewrite E. unfold text_of, part_text. cbn [fst snd].
  set (p := part_of n i t) in *. change p.2 with t. unfold tier_call.
  rewrite (body_cong t' t) by (rewrite Forall_forall in Hf; apply Hf). f_equal.
  destruct p.1.1 as [|c cs]; [done|]. f_equal. cbn [List.map]. unfold guard_text.
  change (cond_read c :: List.map cond_read cs) with (List.map cond_read (c :: cs)). rewrite map_map.
  f_equal. apply map_ext_Forall. eapply Forall_impl; [exact Hr|]. apply cond_read_text.
Qed.

Lemma regenerated ts ts' :
  Forall tier_readable ts -> ts <> [] ->
  Forall2 (fun p t' => read_tier p.1.1 p.1.2 p.2 t') (parts ts) ts' ->
  generateExprFromVisualConfig (Some ts') = generateExprFromVisualConfig (Some ts).
Proof.
  intros Hr Hts H.
  assert (Hlen : length ts' = length ts).
  { apply Forall2_length in H. unfold parts in H. by rewrite length_imap in H. }
  assert (H2 : Forall2 (fun p p' => text_of p' = text_of p
    /\ p'.1.1 = List.map cond_read p.1.1) (parts ts) (parts ts')).
  { apply Forall2_same_length_lookup_2; [unfold parts; rewrite !length_imap; by rewrite Hlen|].
    unfold parts. rewrite Hlen. intros i p p' Hp Hp'.
    assert (Hp2 := Hp). rewrite list_lookup_imap in Hp2, Hp'.
    apply fmap_Some in Hp2 as (t & Ht & ->), Hp' as (t' & Ht' & ->).
    pose proof (Forall2_lookup_lr _ _ _ _ _ _ H Hp Ht') as Hrd.
    destruct (part_readable (length ts) i t) as (Hc & _); [by eapply Forall_lookup_1 in Hr|].
    destruct (part_of_read (length ts) i t t' Hc Hrd) as [-> ->]. done. }
  rewrite !generate_text by (done || intros ->; by destruct ts).
  assert (Et : List.map text_of (parts ts') = List.map text_of (parts ts)).
  { clear -H2. induction H2 as [|p p' l l' [E _] _ IH]; [done|]. cbn [List.map]. by rewrite E, IH. }
  rewrite Et. f_equal. destruct H2 as [|[[cs l] t] [[cs' l'] t'] ps ps' [_ E] Hps]; [done|].
  simpl in E. subst cs'. destruct cs; [done|]. by destruct Hps.
Qed.

Lemma read_normalized (ps : list part) ts' :
  ts' <> [] -> Forall2 (fun p t' => read_tier p.1.1 p.1.2 p.2 t') ps ts' ->
  normalizeVisualConfig (Some ts') = ts'.
Proof.
  intros Hn H. destruct ts' as [|t ts']; [done|]. cbn [normalizeVisualConfig].
  change (List.map ?f (t :: ts')) with (f <$> (t :: ts')). revert H. generalize (t :: ts'). clear.
  intros l H. induction H as [|p t ps l (_ & _ & _ & _ & E) _ IH]; [done|]. rewrite fmap_cons, E. by f_equal.
Qed.

Definition same_tiers (ts ts' : VisualConfig) : Prop :=
  Forall2 (fun p t' => read_tier p.1.1 p.1.2 p.2 t') (parts ts) ts'.

(** One tier without conditions. *)
Lemma single_read t :
  tier_readable t -> List.filter cond_complete (vt_conditions t) = [] ->
  exists t', tryParseVisualConfig (generateExprFromVisualConfig (Some [t])) = Some [t']
    /\ same_tiers [t] [t'].
Proof.
  intros (Hl & _ & Hp) Hc. set (label := str_or (vt_label t) (js "default")).
  assert (Hq : forallb not_quote label = true) by (unfold label, str_or; by destruct (nonempty _)).
  assert (Hs : generateExprFromVisualConfig (Some [t]) = tier_call label t).
  { cbn [generateExprFromVisualConfig]. by rewrite guard_printed, Hc. }
  rewrite Hs, call_text. unfold costs_printable in Hp. assert (Hp' := Hp). rewrite Forall_forall in Hp'.
  destruct (single_match label (num_to_string (cost_or_0 (vt_costs t) (js "input_unit_cost")))
    (num_to_string (cost_or_0 (vt_costs t) (js "output_unit_cost"))) (cost_items (vt_costs t)))
    as (y & Hm & Hy); [done|apply Hp'; by left|apply Hp'; by right; left
      |by apply cost_items_ok|by apply (bool_decide_unpack _)|done|].
  eexists. split.
  - unfold tryParseVisualConfig. rewrite re_match_tier_call, Hm. cbn [nonempty negb].
    cbn [normalizeVisualConfig List.map]. rewrite normalize_idemp. reflexivity.
  - unfold same_tiers, parts, part_of. cbn [imap length Nat.eqb orb]. rewrite Hc. constructor; [|constructor].
    cbn [fst snd]. rewrite (read_low (vt_costs t) 2 y [(1, label)] Hy 1) by lia.
    apply (read_tier_costs [] label t). intros f Hf.
    apply (read_costs _ _ _ [(1, label)]); [done|repeat constructor|done|done].
Qed.

(** The other cases: the expression with the whole text does not match. *)
Lemma several_not_single ts :
  Forall tier_readable ts -> ts <> [] ->
  (forall t, ts = [t] -> List.filter cond_complete (vt_conditions t) <> []) ->
  re_match singleRe (generateExprFromVisualConfig (Some ts)) = None.
Proof.
  intros Hr Hts Hone. rewrite generate_text by done. unfold singleRe. apply re_match_none; [done|].
  destruct ts as [|t ts]; [done|]. assert (Ht := Hr). apply Forall_cons in Ht as [Ht _].
  unfold parts. rewrite imap_cons. set (p := part_of _ 0 t). set (ps := imap _ ts).
  destruct (part_readable (length (t :: ts)) 0 t Ht) as (H1 & H2 & H3). fold p in H1, H2, H3.
  cbn [List.map]. rewrite join_concat, <- app_assoc. apply single_none; [done..|].
  destruct ts as [|t2 ts].
  - left. unfold p, part_of. cbn [fst snd length Nat.eqb orb]. by apply Hone.
  - right. unfold ps. by rewrite imap_cons.
Qed.

Lemma generated_head ts : Forall tier_readable ts -> ts <> [] ->
  exists x s, generateExprFromVisualConfig (Some ts) = x :: s /\ x <> ch "v".
Proof.
  intros Hr Hts. rewrite generate_text by done. destruct ts as [|t ts]; [done|].
  unfold parts. rewrite imap_cons. set (p := part_of _ 0 t). cbn [List.map]. rewrite join_concat.
  destruct (text_head p) as (x & s & E & Hx). rewrite E. eexists x, _. split; [reflexivity|].
  apply Forall_cons in Hr as [Ht _]. destruct (part_readable (length (t :: ts)) 0 t Ht) as (Hc & _).
  fold p in Hc. intros ->. destruct p.1.1; [done|]. specialize (Hx Hc). revert Hx. by apply (bool_decide_unpack _).
Qed.

Lemma Forall2_impl_elem {A B} (P Q : A -> B -> Prop) l k :
  Forall2 P l k -> (forall x y, x ∈ l -> P x y -> Q x y) -> Forall2 Q l k.
Proof.
  induction 1 as [|x y l k Hxy _ IH]; intros H; constructor.
  - apply H; [by left|done].
  - apply IH. intros x' y' Hx. apply H. by right.
Qed.

Lemma several_read ts :
  Forall tier_readable ts -> ts <> [] ->
  same_tiers ts (List.map (fun x => tier_of_match x.2)
                   (re_all tierRe (generateExprFromVisualConfig (Some ts)))).
Proof.
  intros Hr Hts. unfold same_tiers. change (List.map ?f ?l) with (f <$> l). apply Forall2_fmap_r.
  change tierRe with (guarded (bodyPat 3 [runit (ch ")")])).
  pose proof (found_parts (bodyPat 3 [runit (ch ")")])
    (fun p c => part_caps p.1.1 p.1.2 (vt_costs p.2) = c) ts) as H.
  eapply Forall2_impl_elem; [apply H; [done|done|]|].
  - intros p z Hp. destruct (parts_readable ts p Hr Hp) as (H1 & H2 & H3). by apply editor_part.
  - intros p x Hp E. destruct (parts_readable ts p Hr Hp) as (H1 & H2 & H3). by apply tier_of_caps.
Qed.

(** The tiers of a printed configuration, and their text again. *)
Lemma visual_read_back ts :
  ts <> [] -> Forall tier_readable ts ->
  exists ts', tryParseVisualConfig (generateExprFromVisualConfig (Some ts)) = Some ts'
    /\ same_tiers ts ts'
    /\ generateExprFromVisualConfig (Some ts') = generateExprFromVisualConfig (Some ts).
Proof.
  intros Hts Hr.
  enough (exists ts', tryParseVisualConfig (generateExprFromVisualConfig (Some ts)) = Some ts'
    /\ same_tiers ts ts') as (ts' & ? & ?) by (exists ts'; split_and!; try done; by apply regenerated).
  assert (Hd : (exists t, ts = [t] /\ List.filter cond_complete (vt_conditions t) = [])
    \/ forall t, ts = [t] -> List.filter cond_complete (vt_conditions t) <> []).
  { destruct ts as [|t [|]]; [by right| |by right].
    destruct (List.filter cond_complete (vt_conditions t)) eqn:Ef; [left; eauto|right].
    intros ? [= <-]. by rewrite Ef. }
  destruct Hd as [(t & -> & Hc)|Hn].
  { apply Forall_cons in Hr as [Hr _]. destruct (single_read t Hr Hc) as (t' & ? & ?). by exists [t']. }
  destruct (generated_head ts Hr Hts) as (x & s & E & Hx).
  pose proof (several_read ts Hr Hts) as Hread. set (ts' := List.map _ _) in Hread.
  assert (Hts' : ts' <> []).
  { intros E'. rewrite E' in Hread. apply Forall2_nil_inv_r in Hread. unfold parts in Hread. by destruct ts. }
  assert (Hne : nonempty (generateExprFromVisualConfig (Some ts)) = true) by (by rewrite E).
  assert (Hv : re_match VERSION_BODY_REGEX (generateExprFromVisualConfig (Some ts)) = None)
    by (rewrite E; by apply version_none).
  exists ts'. split; [|done]. unfold tryParseVisualConfig. rewrite Hne, Hv. cbn [negb]. cbv zeta.
  rewrite several_not_single by done. fold ts'. destruct ts' as [|t' l] eqn:Et; [done|].
  rewrite (read_normalized (parts ts) (t' :: l)) by done.
  rewrite bool_decide_true; [done|]. f_equal. by apply regenerated.
Qed.

(** C14: The expression the editor writes for a price with one or more tiers is
    read back by the editor as the same tiers: the label each tier is
    printed with, its complete conditions in order, every cost, and the cache
    mode its one-hour price implies (the last of several tiers is printed
    without a guard); and the tiers that were read are written as the same
    expression.  It is so for readable tiers: a label without a double quote
    (labels are printed without escaping), complete conditions with the
    variables and operators of the menus and a threshold that is printed without
    a minus sign, and thresholds and costs that are read back from their text. *)
Theorem visual_roundtrip ts :
  ts <> [] -> Forall tier_readable ts ->
  exists ts', tryParseVisualConfig (generateExprFromVisualConfig (Some ts)) = Some ts'
    /\ same_tiers ts ts'
    /\ generateExprFromVisualConfig (Some ts') = generateExprFromVisualConfig (Some ts).
Proof. apply visual_read_back. Qed.

Definition tier_at (label : jsstr) (conds : list TierConditionInput) (i o : jsstr) : VisualTier :=
  mkVisual label conds CACHE_MODE_GENERIC
    (<[js "input_unit_cost" := num_of_string i]> (<[js "output_unit_cost" := num_of_string o]>
     (<[js "cache_read_unit_cost" := num_of_string (js "1e-7")]> ∅))).
Definition example_config : VisualConfig :=
  [tier_at (js "small") [mkCond (js "len") (js "<=") (Some (CondText (js "200000")));
                         mkCond (js "p") (js ">") None;
                         mkCond (js "c") (js "<") (Some (CondNum (num_of_Z 1000)))] (js "1.5") (js "6");
   tier_at [] [] (js "3") (js "12"); tier_at (js "large") [] (js "5") (js "20")].

Lemma visual_roundtrip_witness :
  exists ts', tryParseVisualConfig (generateExprFromVisualConfig (Some example_config)) = Some ts'
    /\ same_tiers example_config ts'
    /\ generateExprFromVisualConfig (Some ts') = generateExprFromVisualConfig (Some example_config).
Proof.
  apply (visual_roundtrip example_config); [done|].
  apply (bool_decide_unpack _). vm_compute. exact I.
Defined.

(** The units of a condition's number have no minus sign, those of a cost do:
    a threshold printed with a negative exponent is not read back. *)
Example small_threshold_not_read :
  tryParseVisualConfig (generateExprFromVisualConfig (Some
    [tier_at (js "a") [mkCond (js "p") (js "<") (Some (CondText (js "1e-7")))] (js "1") (js "2");
     tier_at (js "b") [] (js "3") (js "4")])) = None.
Proof. vm_compute. reflexivity. Qed.

(** A label with a quote is printed as it is, and ends where its quote is. *)
Example quoted_label_not_read :
  tryParseVisualConfig (generateExprFromVisualConfig (Some
    [tier_at (jsq "a'b") [] (js "1") (js "2")])) = None.
Proof. vm_compute. reflexivity. Qed.
