(* ===== verification/TierShownFacts.v ===== *)
(** * The pricing page and the editor

    The parser of the pricing page ([parseTiersFromExpr] of billing-expr.ts)
    reads what the editor (tier-expr.ts) writes: the two readers of a tiered
    expression agree on labels, conditions and prices. *)

From S2P Require Import Prelude JsNumber JsValue JsRegex.
From S2P Require Import JsRegexFacts JsScanFacts BillingExpr BillingExprFacts TierExpr TierExprFacts.
From S2P Require Import TierConfigFacts.

(** ** The terms of a body *)

Definition terms_text (l : list (jsstr * jsstr)) : jsstr :=
  concat (List.map (fun vu => js " + " ++ vu.1 ++ js " * " ++ vu.2) l).
Definition PRICE_KEYS : list jsstr := List.map bv_key BILLING_PRICING_VARS.
Definition term_ok (vu : jsstr * jsstr) : Prop := vu.1 ∈ PRICE_KEYS /\ number_text vu.2.

Lemma price_keys_named : Forall var_name PRICE_KEYS.
Proof. by apply (bool_decide_unpack _). Qed.
Lemma price_key_name v : v ∈ PRICE_KEYS -> var_name v.
Proof. intros Hv. pose proof price_keys_named as H. rewrite Forall_forall in H. by apply H. Qed.

Definition VAR_TERM : regex :=
  rseq [RGroup 1 (ralts PRICE_KEYS); rspaces; runit (ch "*"); rspaces; RGroup 2 (rplus (RChar is_num_unit))].

(** A variable is only looked for at a word boundary. *)
Lemma var_regex_at st :
  m BILLING_VAR_REGEX Some st
  = if xorb (match st_prev st with Some c => is_word c | None => false end)
            (match st_rest st with c :: _ => is_word c | [] => false end)
    then m VAR_TERM Some st else None.
Proof. reflexivity. Qed.

Lemma var_no_match st :
  match st_rest st with x :: _ => is_word x = false | [] => True end ->
  m BILLING_VAR_REGEX Some (reset st) = None.
Proof.
  intros Hx. rewrite var_regex_at. destruct (xorb _ _); [|done]. apply m_none; [done|].
  intros s' c' H. apply denote_rseq_cons in H as (? & ? & (v & E & Hv & _)%denote_group_alts & _).
  rewrite E in Hx. apply price_key_name in Hv as [Hw Hv]. destruct v as [|y v]; [done|].
  simpl in Hw. apply andb_prop in Hw as [Hy _]. simpl in Hx. congruence.
Qed.

Lemma m_group_plus_greedy n p st w r :
  st_rest st = w ++ r -> w <> [] -> forallb p w = true ->
  match r with [] => True | x :: _ => p x = false end ->
  exists y, m (RGroup n (rplus (RChar p))) Some st = Some y
    /\ st_rest y = r /\ st_caps y = (n, w) :: st_caps st /\ st_idx y = st_idx st + length w.
Proof.
  intros E Hw Hp Hr. destruct w as [|d w]; [done|]. simpl in Hp. apply andb_prop in Hp as [Hd Hp].
  set (st1 := adv1 d (w ++ r) st). destruct (adv_reads w st1 r eq_refl) as [E1 E2].
  exists (mkSt (st_prev (adv w st1)) (st_idx (adv w st1)) r ((n, d :: w) :: st_caps st)). split_and!.
  - change (m (RGroup n (rplus (RChar p))) Some st) with
      (m (RChar p) (m (RStar (RChar p)) (fun y =>
         Some (mkSt (st_prev y) (st_idx y) (st_rest y)
           ((n, take (length (st_rest st) - length (st_rest y)) (st_rest st)) :: st_caps y)))) st).
    rewrite m_char, E. cbn [app]. rewrite Hd. fold st1. apply (m_star_greedy p _ w r); [done..|].
    pose proof (take_reads (d :: w) r) as Ht. cbn [app] in Ht. by rewrite E1, E2, Ht.
  - done.
  - done.
  - cbn [st_idx]. rewrite (adv_idx w r st1 eq_refl). unfold st1. simpl. lia.
Qed.

Lemma group_plus_head n p st y :
  m (RGroup n (rplus (RChar p))) Some st = Some y -> exists d s, st_rest st = d :: s /\ p d = true.
Proof.
  intros (st' & H & _)%m_sound. inversion_clear H as [| | | | | | |? ? ? ? H'| | | |].
  inversion_clear H' as [| |? ? ? ? ? H1 _| | | | | | | | |]. inversion_clear H1 as [|? ? c rest E Hp| | | | | | | | | |].
  by exists c, rest.
Qed.

(** The repetition of a number is the longest one. *)
Lemma var_term_at st v u rest :
  st_caps st = [] -> st_rest st = v ++ js " * " ++ u ++ rest -> term_ok (v, u) ->
  match rest with [] => True | x :: _ => is_num_unit x = false end ->
  exists y, m VAR_TERM Some st = Some y /\ st_rest y = rest /\ st_caps y = [(2, u); (1, v)].
Proof.
  intros Hc E [Hk Hu] Hr. cbn [fst snd] in *. destruct (price_key_name _ Hk) as [Hvw Hvn].
  assert (Hnu : forallb is_num_unit u = true) by (by destruct Hu).
  destruct (m VAR_TERM Some st) as [y|] eqn:Em.
  - exists y. split; [done|].
    change (m VAR_TERM Some st) with (m (rseq [RGroup 1 (ralts PRICE_KEYS); rspaces; runit (ch "*"); rspaces])
      (m (RGroup 2 (rplus (RChar is_num_unit))) Some) st) in Em.
    apply m_sound in Em as (st4 & H & Em). apply matches_denote in H; [|done].
    apply denote_rseq_cons in H as (? & ? & (v' & E1 & Hk' & E2)%denote_group_alts & H).
    apply denote_rseq_cons in H as (? & ? & (a & -> & Ha & ->)%denote_star_class & H).
    apply denote_rseq_cons in H as (? & ? & [-> ->]%denote_unit & H).
    apply denote_star_class in H as (b & -> & Hb & E3).
    destruct (group_plus_head _ _ _ _ Em) as (d & s4 & E4 & Hd). rewrite E4 in E1.
    destruct (price_key_name _ Hk') as [Hvw' _]. rewrite E in E1.
    apply (class_split is_word) in E1 as [-> E1]; [|done|done|done|apply after_spaces; [done|apply word_not_space|done]].
    apply (spaces_app (js " ") a (ch "*") (ch "*")) in E1 as (_ & _ & E1); [|done..].
    destruct u as [|e u]; [by destruct Hu|]. assert (He : is_num_unit e = true) by (simpl in Hnu; by destruct (is_num_unit e)).
    apply (spaces_app (js " ") b e d) in E1 as (_ & -> & E1); [|done|done|by apply num_unit_not_space..].
    rewrite <- E1 in E4.
    destruct (m_group_plus_greedy 2 is_num_unit st4 (d :: u) rest) as (y' & Ey & Hy1 & Hy2 & _); [done..|].
    rewrite Ey in Em. injection Em as ->. split; [done|]. by rewrite Hy2, E3, E2, Hc.
  - exfalso. destruct (denote_matches VAR_TERM st rest [(2, u); (1, v)] eq_refl) as (st' & H & _).
    { rewrite E, Hc. apply denote_rseq_cons; eexists _, _; split; [apply denote_group_alts; by exists v|].
      apply denote_rseq_cons; eexists _, _; split; [apply denote_star_class; by exists (js " ")|].
      apply denote_rseq_cons; eexists _, _; split; [by apply denote_unit|].
      apply denote_rseq_cons; eexists _, _; split; [apply denote_star_class; by exists (js " ")|].
      apply denote_group_plus. exists u. split_and!; try done. by apply number_text_nonnil. }
    destruct (m_complete _ _ _ H Some) as [z Hz]; [by eexists|congruence].
Qed.

Definition term_caps (vu : jsstr * jsstr) : caps := [(2, vu.2); (1, vu.1)].

Lemma terms_head l : match terms_text l with [] => True | x :: _ => is_num_unit x = false end.
Proof. by destruct l. Qed.

Lemma var_found f st v u l :
  term_ok (v, u) -> match st_prev st with Some c => is_word c = false | None => True end ->
  st_rest st = v ++ js " * " ++ u ++ terms_text l ->
  exists y, st_rest y = terms_text l /\
    found BILLING_VAR_REGEX (S f) st = term_caps (v, u) :: found BILLING_VAR_REGEX f y.
Proof.
  intros Hok Hprev E.
  destruct (var_term_at (reset st) v u (terms_text l) eq_refl E Hok (terms_head l)) as (y & Hm & Hr & Hc).
  assert (Hb : m BILLING_VAR_REGEX Some (reset st) = Some y).
  { rewrite var_regex_at. cbn [reset st_prev st_rest]. rewrite E.
    destruct Hok as [Hk _]. cbn [fst] in Hk. apply price_key_name in Hk as [Hw Hv].
    destruct v as [|x v]; [done|]. simpl in Hw. apply andb_prop in Hw as [Hx _]. cbn [app]. rewrite Hx.
    replace (match st_prev st with Some c => is_word c | None => false end) with false; [done|].
    by destruct (st_prev st). }
  exists y. split; [done|]. unfold found. rewrite (re_all_match _ f st y Hb); [cbn [List.map snd]; by rewrite Hc|].
  apply m_sound in Hm as (st' & H & [= ->]). apply matches_idx in H. cbn [reset st_idx st_rest] in H.
  rewrite Hr, E, !length_app in H. simpl in H. lia.
Qed.

Lemma vars_found l f st :
  Forall term_ok l -> length l < f -> st_rest st = terms_text l ->
  found BILLING_VAR_REGEX f st = List.map term_caps l.
Proof.
  intros Hl. revert f st. induction Hl as [|[v u] l Hok _ IH]; intros f st Hf E.
  - destruct f as [|f]; [simpl in Hf; lia|]. unfold found. cbn [re_all_from]. rewrite E. cbn [length terms_text List.map concat search].
    fold (reset st). rewrite var_no_match by (by rewrite E). done.
  - destruct f as [|f]; [simpl in Hf; lia|]. unfold terms_text in E. cbn [List.map concat fst snd] in E.
    rewrite <- !app_assoc in E. fold (terms_text l) in E. unfold found.
    rewrite (re_all_skip _ _ st (ch " ") (js "+ " ++ v ++ js " * " ++ u ++ terms_text l)) by (done || by apply var_no_match; rewrite E).
    set (st1 := adv1 _ _ st).
    rewrite (re_all_skip _ _ st1 (ch "+") (js " " ++ v ++ js " * " ++ u ++ terms_text l)) by (done || by apply var_no_match).
    set (st2 := adv1 _ _ st1).
    rewrite (re_all_skip _ _ st2 (ch " ") (v ++ js " * " ++ u ++ terms_text l)) by (done || by apply var_no_match).
    destruct (var_found f (adv1 (ch " ") (v ++ js " * " ++ u ++ terms_text l) st2) v u l Hok) as (y & Ey & Hy); [done|done|].
    unfold found in Hy. rewrite Hy. cbn [List.map]. f_equal. apply IH; [simpl in Hf; lia|done].
Qed.

Lemma terms_length l : Forall term_ok l -> length l <= length (terms_text l).
Proof.
  induction 1 as [|vu l _ _ IH]; [done|]. unfold terms_text in *. cbn [List.map concat length]. rewrite !length_app.
  change (length (js " + ")) with 3. lia.
Qed.

(** The terms of a body, after white space. *)
Lemma body_vars b v u l :
  forallb is_space b = true -> Forall term_ok ((v, u) :: l) ->
  List.map (fun x => st_caps x.2) (re_all BILLING_VAR_REGEX (b ++ v ++ js " * " ++ u ++ terms_text l))
  = List.map term_caps ((v, u) :: l).
Proof.
  intros Hb Hl. apply Forall_cons in Hl as [Hok Hl]. set (s := v ++ js " * " ++ u ++ terms_text l).
  assert (Hgen : forall f st, length l < f -> st_rest st = b ++ s ->
    match st_prev st with Some c => is_word c = false | None => True end ->
    found BILLING_VAR_REGEX (S f) st = List.map term_caps ((v, u) :: l)).
  { intros f st Hf. revert st. induction b as [|x b IH]; intros st E Hp.
    - destruct (var_found f st v u l Hok Hp E) as (y & Ey & ->). cbn [List.map]. f_equal. by apply vars_found.
    - simpl in Hb. apply andb_prop in Hb as [Hx Hb]. unfold found.
      assert (Hw : is_word x = false).
      { destruct (is_word x) eqn:Ew; [|done]. by rewrite (word_not_space x Ew) in Hx. }
      rewrite (re_all_skip _ _ st x (b ++ s)) by (done || by apply var_no_match; rewrite E).
      by apply (IH Hb). }
  unfold re_all. apply Hgen; [|done|done]. unfold s. rewrite !length_app. change (length (js " * ")) with 3.
  pose proof (terms_length l Hl). lia.
Qed.

(** ** The prices of a body *)

Lemma coeffs_fold l coeffs k :
  assoc k (fold_left (fun coeffs (c : caps) =>
    match assoc (cap_of 1 c) coeffs with
    | Some _ => coeffs
    | None => obj_set (cap_of 1 c) (num_of_string (cap_of 2 c)) coeffs
    end) (List.map term_caps l) coeffs)
  = match assoc k coeffs with Some x => Some x | None => num_of_string <$> assoc k l end.
Proof.
  revert coeffs. induction l as [|[v u] l IH]; intros coeffs; cbn [List.map fold_left].
  { by destruct (assoc k coeffs). }
  rewrite IH. change (cap_of 1 (term_caps (v, u))) with v. change (cap_of 2 (term_caps (v, u))) with u.
  cbn [assoc]. destruct (assoc v coeffs) as [x|] eqn:Ev.
  - by destruct (decide (k = v)) as [->|Hk]; [rewrite Ev|].
  - rewrite assoc_obj_set. destruct (decide (k = v)) as [->|Hk]; [by rewrite Ev|done].
Qed.

Lemma fold_left_caps {A} (f : A -> caps -> A) (l : list (nat * jsstr * mstate)) a :
  fold_left (fun a x => f a (st_caps x.2)) l a = fold_left f (List.map (fun x => st_caps x.2) l) a.
Proof. revert a. induction l as [|x l IH]; intros a; [done|]. apply IH. Qed.

Lemma tier_coeffs_terms b v u l k :
  forallb is_space b = true -> Forall term_ok ((v, u) :: l) ->
  assoc k (tier_coeffs (b ++ v ++ js " * " ++ u ++ terms_text l)) = num_of_string <$> assoc k ((v, u) :: l).
Proof.
  intros Hb Hl. unfold tier_coeffs.
  rewrite (fold_left_caps (fun coeffs (c : caps) =>
    match assoc (cap_of 1 c) coeffs with
    | Some _ => coeffs
    | None => obj_set (cap_of 1 c) (num_of_string (cap_of 2 c)) coeffs
    end)), body_vars by done.
  by rewrite coeffs_fold.
Qed.

Definition present (items : list (jsstr * option jsstr)) : list (jsstr * jsstr) :=
  omap (fun it => (fun t => (it.1, t)) <$> it.2) items.

Lemma tail_text_present items : tail_text items = terms_text (present items).
Proof.
  unfold tail_text, terms_text. induction items as [|[v [u|]] items IH]; [done| |done].
  cbn [List.map concat present omap list_omap fst snd fmap option_fmap option_map]. by rewrite IH.
Qed.

Lemma assoc_present items v o :
  NoDup items.*1 -> (v, o) ∈ items -> assoc v (present items) = o.
Proof.
  induction items as [|[w q] items IH]; intros Hn Hin; [by apply elem_of_nil in Hin|].
  rewrite fmap_cons in Hn. apply NoDup_cons in Hn as [Hw Hn]. cbn [fst] in Hw.
  apply elem_of_cons in Hin as [[= <- <-]|Hin].
  - cbn [present omap list_omap fst snd]. destruct o as [u|]; cbn [fmap option_fmap option_map assoc].
    + by rewrite decide_True.
    + fold (present items). apply assoc_None. intros H. apply Hw. unfold keys in H.
      apply list_elem_of_fmap in H as ([v' u] & -> & H).
      apply list_elem_of_omap in H as ([w' q] & Hi & Hq). destruct q; simplify_eq/=.
      apply list_elem_of_fmap. eexists (_, _). split; [|exact Hi]. done.
  - assert (v <> w). { intros ->. apply Hw. apply list_elem_of_fmap. by eexists (_, _). }
    cbn [present omap list_omap fst snd]. destruct q as [u|]; cbn [fmap option_fmap option_map assoc].
    + rewrite decide_False by done. by apply IH.
    + by apply IH.
Qed.

Definition tier_terms (costs : gmap jsstr number) : list (jsstr * jsstr) :=
  (js "p", num_to_string (cost_or_0 costs (js "input_unit_cost")))
  :: (js "c", num_to_string (cost_or_0 costs (js "output_unit_cost"))) :: present (cost_items costs).

Lemma body_terms t :
  buildTierBodyExpr t = js "p" ++ js " * " ++ num_to_string (cost_or_0 (vt_costs t) (js "input_unit_cost"))
    ++ terms_text (List.tl (tier_terms (vt_costs t))).
Proof.
  rewrite body_text, tail_text_present. unfold tier_terms, terms_text. cbn [List.tl List.map concat fst snd].
  by rewrite <- !app_assoc.
Qed.

Lemma tier_terms_ok costs : costs_printable costs -> Forall term_ok (tier_terms costs).
Proof.
  intros H. assert (Hp := H). unfold costs_printable in Hp. rewrite Forall_forall in Hp. unfold tier_terms.
  constructor; [split; [by apply (bool_decide_unpack _)|apply Hp; by left]|].
  constructor; [split; [by apply (bool_decide_unpack _)|apply Hp; by right; left]|].
  apply Forall_forall. intros [v u] Hin. unfold present in Hin.
  apply list_elem_of_omap in Hin as ([w q] & Hi & Hq). destruct q as [u'|]; simplify_eq/=.
  destruct (cost_items_ok costs H) as [_ Hok]. rewrite Forall_forall in Hok. specialize (Hok _ Hi).
  split; [|done]. cbn [fst]. unfold cost_items in Hi. apply list_elem_of_In, in_map_iff in Hi as (cv & [= <- _] & Hcv).
  assert (Hall : Forall (fun cv => cv.2 ∈ PRICE_KEYS) BILLING_CACHE_VAR_MAP) by (by apply (bool_decide_unpack _)).
  rewrite Forall_forall in Hall. by apply Hall, list_elem_of_In.
Qed.

(** The price the terms give a variable is the cost of its field. *)
Lemma term_price costs v :
  costs_printable costs -> v ∈ BILLING_PRICING_VARS ->
  match num_of_string <$> assoc (bv_key v) (tier_terms costs) with
  | Some x => num_or x (num_of_Z 0)
  | None => num_of_Z 0
  end = cost_or_0 costs (default [] (bv_tierField v)).
Proof.
  intros Hp Hv. unfold costs_printable in Hp. rewrite Forall_forall in Hp.
  assert (Hr : forall f, f ∈ COST_FIELDS ->
    num_or (num_of_string (num_to_string (cost_or_0 costs f))) (num_of_Z 0) = cost_or_0 costs f).
  { intros f Hf. rewrite (proj2 (Hp f Hf)). apply num_or_0_idemp. }
  change BILLING_PRICING_VARS with (take 2 BILLING_PRICING_VARS ++ BILLING_EXTRA_VARS) in Hv.
  apply elem_of_app in Hv as [Hv|Hv].
  - cbn in Hv. rewrite !elem_of_cons, elem_of_nil in Hv. destruct Hv as [->|[->|[]]];
      apply Hr; by apply (bool_decide_unpack _).
  - assert (Hk : bv_key v <> js "p" /\ bv_key v <> js "c" /\ default [] (bv_tierField v) ∈ COST_FIELDS).
    { revert v Hv. apply Forall_forall. by apply (bool_decide_unpack _). }
    destruct Hk as (H1 & H2 & Hf). unfold tier_terms. cbn [assoc]. rewrite !decide_False by done.
    set (f := default [] (bv_tierField v)) in *.
    rewrite (assoc_present _ _ (if has_cost costs f then Some (num_to_string (cost_or_0 costs f)) else None)).
    + destruct (has_cost costs f) eqn:Eh; cbn [fmap option_fmap option_map].
      * by apply Hr.
      * by rewrite no_cost.
    + by apply (bool_decide_unpack _).
    + unfold cost_items, BILLING_CACHE_VAR_MAP. rewrite map_map. apply list_elem_of_In, in_map_iff.
      exists v. split; [done|]. by apply list_elem_of_In.
Qed.

Lemma shown_prices b t :
  forallb is_space b = true -> costs_printable (vt_costs t) ->
  parseTierBody (b ++ buildTierBodyExpr t)
  = List.map (fun v => (default [] (bv_field v), cost_or_0 (vt_costs t) (default [] (bv_tierField v))))
      BILLING_PRICING_VARS.
Proof.
  intros Hb Hp. unfold parseTierBody, BILLING_VAR_KEY_TO_FIELD. rewrite map_map. apply map_ext_in.
  intros v Hv%list_elem_of_In. cbn [fst snd]. f_equal. rewrite <- term_price by done.
  rewrite body_terms, tier_coeffs_terms; [done|done|]. by apply tier_terms_ok in Hp.
Qed.

(** ** The calls of the text *)

Definition not_paren (c : N) : bool := negb (c =? ch ")")%N.
Definition SHOWN_BODY : list regex := [RGroup 3 (rplus (RChar not_paren)); runit (ch ")")].

Lemma not_paren_class (p : N -> bool) (s : jsstr) :
  p (ch ")") = false -> forallb p s = true -> forallb not_paren s = true.
Proof.
  intros Hp. apply forallb_impl. intros x Hx. unfold not_paren.
  destruct (N.eqb_spec x (ch ")")); [congruence|done].
Qed.

Lemma term_no_paren vu : term_ok vu -> forallb not_paren (vu.1 ++ js " * " ++ vu.2) = true.
Proof.
  intros [Hk [Hu _]]. apply price_key_name in Hk as [Hw _]. rewrite !forallb_app, !andb_true_iff. split_and!.
  - by apply (not_paren_class is_word).
  - done.
  - by apply (not_paren_class is_num_unit).
Qed.

Lemma body_no_paren t : costs_printable (vt_costs t) -> forallb not_paren (buildTierBodyExpr t) = true.
Proof.
  intros Hp. apply tier_terms_ok in Hp. rewrite body_terms.
  apply Forall_cons in Hp as [H1 Hl]. apply term_no_paren in H1. cbn [fst snd] in H1.
  rewrite !app_assoc, forallb_app. rewrite app_assoc in H1. rewrite H1. cbn [andb].
  unfold tier_terms. cbn [List.tl]. induction Hl as [|vu l Hvu _ IH]; [done|].
  unfold terms_text in *. cbn [List.map concat]. rewrite forallb_app, IH, andb_true_r.
  rewrite forallb_app. by rewrite term_no_paren.
Qed.

Definition shown_caps (p : part) (c : caps) : Prop :=
  exists b, forallb is_space b = true
    /\ c = (3, b ++ buildTierBodyExpr p.2) :: (2, p.1.2) :: guard_caps p.1.1.

Lemma shown_call label t z k s' c' :
  forallb not_quote label = true -> costs_printable (vt_costs t) ->
  denote (rseq (tierPat 2 SHOWN_BODY)) (tier_call label t ++ z) k s' c' ->
  s' = z /\ exists b, forallb is_space b = true /\ c' = (3, b ++ buildTierBodyExpr t) :: (2, label) :: k.
Proof.
  intros Hl Hp H. unfold tierPat, SHOWN_BODY in H.
  apply denote_rseq_cons in H as (? & ? & [E ->]%denote_lit & H).
  apply denote_rseq_cons in H as (? & ? & (l & -> & Hl' & ->)%denote_group_star & H).
  apply denote_rseq_cons in H as (? & ? & [-> ->]%denote_lit & H).
  apply denote_rseq_cons in H as (? & ? & (a & -> & Ha & ->)%denote_star_class & H).
  apply denote_rseq_cons in H as (? & ? & (w & -> & [Hw Hwn] & ->)%denote_group_plus & H).
  apply denote_unit in H as [-> ->]. unfold tier_call in E. rewrite <- !app_assoc in E.
  past_lit E. change (jsq "', ") with (jsq "'," ++ js " ") in E. rewrite <- !app_assoc in E.
  split_at not_quote E. past_lit E. subst l.
  change (js ")" ++ z) with (ch ")" :: z) in E. rewrite !app_assoc in E.
  apply (class_split not_paren) in E as [E1 E2]; [| | |done|done].
  - injection E2 as ->. split; [done|].
    destruct (class_prefix is_space a w (js " ") (buildTierBodyExpr t)) as (b & Eb & ->); [done| |done|].
    { by rewrite body_terms. }
    exists b. split; [|done]. assert (Hb : forallb is_space (a ++ b) = true) by (by rewrite <- Eb).
    rewrite forallb_app in Hb. by apply andb_prop in Hb as [_ ?].
  - rewrite forallb_app. apply andb_true_iff. split; [done|by apply body_no_paren].
  - rewrite forallb_app, Hwn, andb_true_r. by apply (not_paren_class is_space).
Qed.

Lemma shown_call_matches label t z k :
  forallb not_quote label = true -> costs_printable (vt_costs t) ->
  exists s' c', denote (rseq (tierPat 2 SHOWN_BODY)) (tier_call label t ++ z) k s' c'.
Proof.
  intros Hl Hp. eexists _, _. unfold tierPat, SHOWN_BODY, tier_call. rewrite <- !app_assoc.
  change (jsq "', ") with (jsq "'," ++ js " "). rewrite <- !app_assoc.
  apply denote_rseq_cons; eexists _, _; split; [by apply denote_lit|].
  apply denote_rseq_cons; eexists _, _; split; [apply denote_group_star; by exists label|].
  apply denote_rseq_cons; eexists _, _; split; [by apply denote_lit|].
  apply denote_rseq_cons; eexists _, _; split; [apply denote_star_class; by exists (js " ")|].
  apply denote_rseq_cons; eexists _, _; split; [apply denote_group_plus; exists (buildTierBodyExpr t)|].
  - split_and!; [done|by rewrite body_terms|by apply body_no_paren|reflexivity].
  - by apply denote_unit.
Qed.

Lemma shown_part p z :
  Forall cond_readable p.1.1 -> forallb not_quote p.1.2 = true -> costs_printable (vt_costs p.2) ->
  text_of p <> [] /\ one_match (guarded SHOWN_BODY) (text_of p ++ z) z (shown_caps p).
Proof.
  intros Hc Hl Hp. split; [by intros [_ ?]%app_eq_nil|]. unfold text_of. split.
  - destruct (shown_call_matches p.1.2 p.2 z (guard_caps p.1.1) Hl Hp) as (s' & c' & H).
    exists s', c'. by apply guarded_part.
  - intros s' c' H%guarded_part; [|done]. by apply shown_call in H.
Qed.

Definition shown_tier (p : part) : ParsedTier :=
  mkTier p.1.2
    (List.map (fun c => mkTierCondition (ci_var c) (ci_op c) (num_of_string (cond_value c))) p.1.1)
    (List.map (fun v => (default [] (bv_field v), cost_or_0 (vt_costs p.2) (default [] (bv_tierField v))))
       BILLING_PRICING_VARS).

Lemma shown_match p y :
  Forall cond_readable p.1.1 -> costs_printable (vt_costs p.2) -> shown_caps p (st_caps y) ->
  parse_tier_match y = shown_tier p.
Proof.
  intros Hc Hp (b & Hb & Hy). unfold parse_tier_match, parse_tier_condition, shown_tier.
  rewrite !group_cap_of, Hy. cbv zeta.
  change (cap_of 1 ((3, ?s) :: (2, ?l) :: ?k)) with (cap_of 1 k).
  rewrite cap_guard. change (cap_of 2 ((3, ?s) :: (2, ?l) :: ?k)) with l.
  change (cap_of 3 ((3, ?s) :: ?k)) with s. rewrite shown_prices by done.
  rewrite (guard_conditions mkTierCondition) by done. done.
Qed.

Lemma strip_version_none x s : x <> ch "v" -> (stripExprVersion (x :: s)).2 = x :: s.
Proof.
  intros Hx. unfold stripExprVersion. cbn [nonempty negb]. unfold VERSION_REGEX. cbn [rseq].
  rewrite re_match_anchored.
  change (m (RSeq (runit (ch "v")) ?r) Some ?st) with (m (runit (ch "v")) (m r Some) st).
  unfold runit at 1. rewrite m_char. cbn [start st_rest]. by rewrite (proj2 (N.eqb_neq _ x)).
Qed.

(** C15: The pricing page shows what the editor wrote: its parser reads the
    expression the editor generates for readable tiers as one entry per tier, in
    order, with the label the tier is printed with, its complete conditions, and
    for each price variable the cost of the field it stands for.  Readable tiers
    are those of the round trip of the editor: labels without a double quote,
    conditions with the variables and operators of the menus and thresholds
    printed without a minus sign, numbers that are read back from their text. *)
Theorem tiers_shown ts :
  ts <> [] -> Forall tier_readable ts ->
  parseTiersFromExpr (generateExprFromVisualConfig (Some ts)) = List.map shown_tier (parts ts).
Proof.
  intros Hts Hr. destruct (generated_head ts Hr Hts) as (x & s & E & Hx).
  unfold parseTiersFromExpr. rewrite E at 1. cbn [nonempty negb].
  replace (stripExprVersion (generateExprFromVisualConfig (Some ts))).2
    with (generateExprFromVisualConfig (Some ts)) by (rewrite E; symmetry; by apply strip_version_none).
  change TIER_REGEX with (guarded SHOWN_BODY).
  assert (H : Forall2 (fun p x => shown_caps p (st_caps x.2)) (parts ts)
    (re_all (guarded SHOWN_BODY) (generateExprFromVisualConfig (Some ts)))).
  { apply found_parts; [done|done|]. intros p z Hp.
    destruct (parts_readable ts p Hr Hp) as (H1 & H2 & H3). by apply shown_part. }
  assert (H2 : Forall (fun p => Forall cond_readable p.1.1 /\ forallb not_quote p.1.2 = true
    /\ costs_printable (vt_costs p.2)) (parts ts)).
  { apply Forall_forall. intros p Hp. by apply (parts_readable ts). }
  revert H2. induction H as [|p y ps ys Hy _ IH]; intros H2; [done|].
  apply Forall_cons in H2 as [(H2 & _ & H3) Hps]. cbn [List.map]. rewrite (shown_match p y.2) by done.
  f_equal. by apply IH.
Qed.

Lemma tiers_shown_witness :
  parseTiersFromExpr (generateExprFromVisualConfig (Some example_config))
  = List.map shown_tier (parts example_config).
Proof.
  apply (tiers_shown example_config); [done|]. apply (bool_decide_unpack _). vm_compute. exact I.
Defined.
