(* ===== verification/ChannelMapping.v ===== *)
(** * Model mappings and status code redirects of a channel
      ([features/channels/lib/model-mapping-validation.ts],
       [features/channels/lib/status-code-risk-guard.ts],
       [features/channels/lib/upstream-update-utils.ts])

    A mapping is the text of a JSON object; a set of names is the list of its
    members in insertion order, as [Array.from] enumerates it. *)

From S2P Require Import Prelude JsNumber JsValue JsRegex.


(** ** [model-mapping-validation.ts] *)

Definition parseModelsString (modelsStr : jsstr) : list jsstr :=
  if nonempty modelsStr
  then List.filter nonempty (List.map trim (split_char (ch ",") modelsStr)) else [].

Definition formatModelsArray (models : list jsstr) : jsstr := join (js ",") (js_set models).

Definition normalizeModelName (model : jsstr) : jsstr := trim model.

(** [JSON.parse(text)] when the result is an object that is not an array. *)
Definition parse_object (text : jsstr) : option (list (jsstr * value)) :=
  match json_parse text with Some (VObj fs) => Some fs | _ => None end.

Definition extractMappingSourceModels (modelMapping : jsstr) : list jsstr :=
  let trimmed := trim modelMapping in
  if negb (nonempty trimmed) then []
  else match parse_object trimmed with
       | None => []
       | Some fs => js_set (List.filter nonempty (List.map trim (keys fs)))
       end.

Definition string_value (v : value) : option jsstr :=
  match v with VStr s => Some (trim s) | _ => None end.

Definition extractRedirectModels (mapping : jsstr) : list jsstr :=
  let trimmed := trim mapping in
  if negb (nonempty trimmed) then []
  else match parse_object trimmed with
       | None => []
       | Some fs => js_set (List.filter nonempty (omap string_value fs.*2))
       end.

Fixpoint lists_differ (a b : list jsstr) : bool :=
  match a, b with
  | x :: a', y :: b' => if bool_decide (x = y) then lists_differ a' b' else true
  | _, _ => false
  end.

Definition hasModelConfigChanged (currentModels : list jsstr) (currentModelMapping : jsstr)
    (initialModels : list jsstr) (initialModelMapping : jsstr) : bool :=
  if (length initialModels =? 0) && negb (nonempty initialModelMapping) then true
  else if negb (length currentModels =? length initialModels) then true
  else if lists_differ currentModels initialModels then true
  else negb (bool_decide (trim currentModelMapping = trim initialModelMapping)).

Definition findMissingModelsInMapping (modelMapping : jsstr) (currentModels : list jsstr)
  : list jsstr :=
  if negb (nonempty modelMapping) || bool_decide (trim modelMapping = []) then []
  else match parse_object modelMapping with
       | None => []
       | Some fs =>
           let modelSet := js_set (List.map normalizeModelName currentModels) in
           js_set (List.filter (fun k => nonempty k && negb (set_has modelSet k))
                     (List.map normalizeModelName (keys fs)))
       end.

Inductive MappingError := NotAnObject | ValuesNotStrings | NotJson.

(** [None] for [{ valid: true }]. *)
Definition validateModelMappingJson (modelMapping : jsstr) : option MappingError :=
  if negb (nonempty modelMapping) || bool_decide (trim modelMapping = []) then None
  else match json_parse modelMapping with
       | None => Some NotJson
       | Some (VObj fs) =>
           if existsb (fun v => match v with VStr _ => false | _ => true end) fs.*2
           then Some ValuesNotStrings else None
       | Some _ => Some NotAnObject
       end.

Definition findExposedTargetModels (modelMapping : jsstr) (currentModels : list jsstr)
  : list jsstr :=
  let redirectModels := extractRedirectModels modelMapping in
  if length redirectModels =? 0 then []
  else
    let modelSet := js_set (List.map normalizeModelName currentModels) in
    List.filter (fun m => set_has modelSet (normalizeModelName m)) redirectModels.

Record Categories := mkCategories {
  normalizedCurrentModels : list jsstr; normalizedRedirectModels : list jsstr;
  classificationSet : list jsstr; redirectOnlySet : list jsstr }.

Definition categorizeModelsWithRedirect (currentModels redirectModels : list jsstr) : Categories :=
  let current := js_set (List.filter nonempty (List.map normalizeModelName currentModels)) in
  let redirect := js_set (List.filter nonempty (List.map normalizeModelName redirectModels)) in
  mkCategories current redirect (js_set (current ++ redirect))
    (js_set (List.filter (fun m => negb (set_has current m)) redirect)).

(** ** [status-code-risk-guard.ts] *)

Definition NON_REDIRECTABLE_STATUS_CODES : list Z := [504; 524]%Z.

(** [/^[1-5]\d{2}$/] *)
Definition is_status_text (s : jsstr) : bool :=
  match s with
  | [a; b; c] => ((49 <=? a) && (a <=? 53))%N && is_digit b && is_digit c
  | _ => false
  end.

Definition parseStatusCodeKey (rawKey : jsstr) : option Z :=
  let normalized := trim rawKey in
  if is_status_text normalized then Some (Z.of_N (N_of_dec normalized)) else None.

Definition parseStatusCodeMappingTarget (rawValue : value) : option Z :=
  match rawValue with
  | VNum x =>
      if is_integer x
      then if num_leb (num_of_Z 100) x && num_leb x (num_of_Z 599) then num_to_Z x else None
      else None
  | VStr s =>
      let normalized := trim s in
      if is_status_text normalized then
        let code := Z.of_N (N_of_dec normalized) in
        if (100 <=? code)%Z && (code <=? 599)%Z then Some code else None
      else None
  | _ => None
  end.

(** The text of an entry, [None] when converting the value throws. *)
Definition invalid_entry (f : jsstr * value) : option (list jsstr) :=
  match parseStatusCodeKey f.1, parseStatusCodeMappingTarget f.2 with
  | Some _, Some _ => Some []
  | _, _ => (fun s => [f.1 ++ js " " ++ [8594%N] ++ js " " ++ s]) <$> to_string f.2
  end.

Definition collectInvalidStatusCodeEntries (statusCodeMappingStr : jsstr) : option (list jsstr) :=
  if negb (nonempty (trim statusCodeMappingStr)) then Some []
  else match parse_object statusCodeMappingStr with
       | None => Some []
       | Some fs => (@concat jsstr) <$> mapM invalid_entry fs
       end.

Definition risky_entry (f : jsstr * value) : list jsstr :=
  match parseStatusCodeKey f.1, parseStatusCodeMappingTarget f.2 with
  | Some fromCode, Some toCode =>
      if negb (bool_decide (fromCode ∈ NON_REDIRECTABLE_STATUS_CODES)) then []
      else if (fromCode =? toCode)%Z then []
      else [dec_of_N (Z.to_N fromCode) ++ js " -> " ++ dec_of_N (Z.to_N toCode)]
  | _, _ => []
  end.

Definition collectDisallowedStatusCodeRedirects (statusCodeMappingStr : jsstr) : list jsstr :=
  if negb (nonempty (trim statusCodeMappingStr)) then []
  else match parse_object statusCodeMappingStr with
       | None => []
       | Some fs => js_sort str_compare (js_set (concat (List.map risky_entry fs)))
       end.

Definition collectNewDisallowedStatusCodeRedirects (originalStr currentStr : jsstr) : list jsstr :=
  let currentRisky := collectDisallowedStatusCodeRedirects currentStr in
  if length currentRisky =? 0 then []
  else
    let originalRiskySet := js_set (collectDisallowedStatusCodeRedirects originalStr) in
    List.filter (fun m => negb (set_has originalRiskySet m)) currentRisky.

(** ** [upstream-update-utils.ts] *)

(** [None] when the call throws: [models] has no [map], or a model has no
    text. *)
Definition normalizeModelList (models : value) : option (list jsstr) :=
  match (if truthy models then models else VArr []) with
  | VArr l => (fun ss => js_set (List.filter nonempty (List.map trim ss)))
                <$> mapM (fun v => to_string (if truthy v then v else VStr [])) l
  | _ => None
  end.

Record UpstreamUpdateMeta := mkMeta {
  um_enabled : bool; pendingAddModels : list jsstr; pendingRemoveModels : list jsstr }.

(** The settings of a channel, [VNull] for [null]. *)
Definition settings_object (settings : value) : value :=
  match settings with
  | VObj _ => settings
  | VStr s => default VNull (json_parse s)
  | _ => VNull
  end.

Definition parseUpstreamUpdateMeta (settings : value) : option UpstreamUpdateMeta :=
  let parsed := settings_object settings in
  if negb (truthy parsed) || negb (is_object parsed) then Some (mkMeta false [] [])
  else
    let field k := get_prop parsed (js k) in
    add ← normalizeModelList (field "upstream_model_update_last_detected_models");
    remove ← normalizeModelList (field "upstream_model_update_last_removed_models");
    Some (mkMeta (match field "upstream_model_update_check_enabled" with VBool b => b | _ => false end) add remove).

(** ** Theorems *)

Definition model_name (w : jsstr) : Prop := w <> [] /\ trim w = w /\ ch "," ∉ w.

Lemma parse_models_names s : Forall model_name (parseModelsString s).
Proof.
  unfold parseModelsString. destruct (nonempty s); [|constructor].
  pose proof (split_char_pieces (ch ",") s) as H. apply Forall_forall. intros w Hw.
  apply list_elem_of_In, filter_In in Hw as [Hw Hn]. apply in_map_iff in Hw as (v & <- & Hv).
  rewrite Forall_forall in H. apply list_elem_of_In, H in Hv. split_and!.
  - by destruct (trim v).
  - apply trim_idemp.
  - intros Hin. apply Hv. by apply elem_of_trim in Hin.
Qed.

Lemma parse_format ms : Forall model_name ms -> parseModelsString (formatModelsArray ms) = js_set ms.
Proof.
  intros H. unfold parseModelsString, formatModelsArray.
  assert (Hs : Forall model_name (js_set ms)).
  { rewrite Forall_forall in *. intros w Hw. apply H. by rewrite elem_of_js_set in Hw. }
  destruct (js_set ms) as [|w ws] eqn:E; [done|].
  assert (nonempty (join (js ",") (w :: ws)) = true) as ->.
  { apply Forall_cons in Hs as [[Hw _] _]. destruct w; [done|]. by destruct ws. }
  change (js ",") with [ch ","]. rewrite split_join; [|done|].
  - clear -Hs. induction Hs as [|x l (Hx & Ht & _) _ IH]; simpl; [done|].
    rewrite Ht, IH. by destruct x.
  - eapply Forall_impl; [done|]. by intros x (_ & _ & ?).
Qed.

(** The models field is stable under editing: writing the models read
    from any text and reading them again gives the same models, each once, in
    order of first occurrence, none blank and none with surrounding blanks. *)
Theorem models_string_roundtrip s :
  let ms := parseModelsString s in
  parseModelsString (formatModelsArray ms) = js_set ms
  /\ formatModelsArray (parseModelsString (formatModelsArray ms)) = formatModelsArray ms
  /\ Forall model_name ms.
Proof.
  cbv zeta. pose proof (parse_models_names s) as H. rewrite parse_format by done.
  split_and!; [done| |done]. unfold formatModelsArray. by rewrite js_set_idemp.
Qed.

Lemma missing_elem mapping models x :
  x ∈ findMissingModelsInMapping mapping models <->
  exists fs, trim mapping <> [] /\ parse_object mapping = Some fs /\ x <> []
    /\ x ∈ (trim <$> keys fs) /\ ~ x ∈ (trim <$> models).
Proof.
  unfold findMissingModelsInMapping.
  destruct (negb (nonempty mapping) || bool_decide (trim mapping = [])) eqn:E.
  { split; [by intros ?%elem_of_nil|]. intros (fs & Ht & _). exfalso.
    apply orb_prop in E as [E|E]; [by destruct mapping|]. by apply bool_decide_eq_true in E. }
  apply orb_false_iff in E as [_ E]. apply bool_decide_eq_false in E.
  destruct (parse_object mapping) as [fs|]; [|split; [by intros ?%elem_of_nil|naive_solver]].
  rewrite elem_of_js_set, list_elem_of_In, filter_In, <- list_elem_of_In, andb_true_iff, negb_true_iff.
  assert (Hh : forall k, set_has (js_set (List.map normalizeModelName models)) k = false
                         <-> ~ k ∈ (trim <$> models)).
  { intros k. rewrite <- not_true_iff_false, set_has_spec, elem_of_js_set. done. }
  rewrite Hh. split.
  - intros (Hk & Hn & Hm). exists fs. split_and!; try done. by destruct x.
  - intros (fs' & _ & [= <-] & Hx & Hk & Hm). split_and!; try done. by destruct x.
Qed.

(** The models reported missing from a channel are exactly the non-blank
    source names of its mapping that its list does not have, each once; adding
    the report to the list leaves none missing. *)
Theorem missing_models_spec mapping models :
  let missing := findMissingModelsInMapping mapping models in
  NoDup missing
  /\ (forall x, x ∈ missing <->
        exists fs, trim mapping <> [] /\ parse_object mapping = Some fs /\ x <> []
          /\ x ∈ (trim <$> keys fs) /\ ~ x ∈ (trim <$> models))
  /\ findMissingModelsInMapping mapping (models ++ missing) = [].
Proof.
  cbv zeta. split_and!.
  - unfold findMissingModelsInMapping. repeat case_match; auto using NoDup_nil_2 with js.
  - apply missing_elem.
  - destruct (findMissingModelsInMapping mapping (models ++ _)) as [|x l] eqn:E; [done|].
    assert (Hx : x ∈ findMissingModelsInMapping mapping
                   (models ++ findMissingModelsInMapping mapping models)) by (rewrite E; by left).
    exfalso. apply missing_elem in Hx as (fs & Ht & Hp & Hx & Hk & Hm).
    rewrite fmap_app, elem_of_app in Hm. apply Hm. right.
    apply list_elem_of_fmap. exists x. split.
    + apply list_elem_of_fmap in Hk as (k & -> & _). by rewrite trim_idemp.
    + apply missing_elem. exists fs. split_and!; try done. intros H. apply Hm. by left.
Qed.

Lemma redirect_trimmed mapping x : x ∈ extractRedirectModels mapping -> trim x = x /\ x <> [].
Proof.
  unfold extractRedirectModels. destruct (negb _); [by intros ?%elem_of_nil|].
  destruct (parse_object _); [|by intros ?%elem_of_nil].
  rewrite elem_of_js_set, list_elem_of_In, filter_In, <- list_elem_of_In.
  intros [Hx Hn]. split; [|by destruct x].
  apply list_elem_of_omap in Hx as (v & _ & Hv). destruct v; try done. injection Hv as <-.
  apply trim_idemp.
Qed.

Lemma exposed_elem mapping models x :
  x ∈ findExposedTargetModels mapping models <->
  x ∈ extractRedirectModels mapping /\ x ∈ (trim <$> models).
Proof.
  unfold findExposedTargetModels. destruct (Nat.eqb_spec (length (extractRedirectModels mapping)) 0) as [E|E].
  { destruct (extractRedirectModels mapping); [|done]. split; [by intros ?%elem_of_nil|].
    by intros [?%elem_of_nil _]. }
  rewrite list_elem_of_In, filter_In, <- list_elem_of_In, set_has_spec, elem_of_js_set.
  unfold normalizeModelName. split; intros [Hx Hm]; (split; [done|]);
    destruct (redirect_trimmed mapping x Hx) as [Ht _]; by rewrite Ht in *.
Qed.

(** The exposed targets of a mapping are exactly its redirect targets
    that the list of models also has, and removing them from the list leaves
    none exposed. *)
Theorem exposed_targets_spec mapping models :
  let exposed := findExposedTargetModels mapping models in
  (forall x, x ∈ exposed <-> x ∈ extractRedirectModels mapping /\ x ∈ (trim <$> models))
  /\ findExposedTargetModels mapping
       (List.filter (fun m => negb (set_has exposed (normalizeModelName m))) models) = [].
Proof.
  cbv zeta. split; [apply exposed_elem|].
  destruct (findExposedTargetModels mapping (List.filter _ _)) as [|x l] eqn:E; [done|].
  exfalso. match type of E with ?f = _ => assert (Hx : x ∈ f) by (rewrite E; by left) end.
  apply exposed_elem in Hx as [Hr Hx].
  apply list_elem_of_fmap in Hx as (m & -> & Hm).
  apply list_elem_of_In, filter_In in Hm as [Hm Hn]. apply negb_true_iff, not_true_iff_false in Hn.
  apply Hn, set_has_spec, exposed_elem. split; [done|]. apply list_elem_of_fmap. exists m.
  split; [done|]. by apply list_elem_of_In.
Qed.

Definition codes_text (a b : Z) : jsstr := dec_of_N (Z.to_N a) ++ js " -> " ++ dec_of_N (Z.to_N b).

Lemma risky_entry_elem f x :
  x ∈ risky_entry f <->
  exists a b, parseStatusCodeKey f.1 = Some a /\ parseStatusCodeMappingTarget f.2 = Some b
    /\ a ∈ NON_REDIRECTABLE_STATUS_CODES /\ a <> b /\ x = codes_text a b.
Proof.
  unfold risky_entry, codes_text.
  destruct (parseStatusCodeKey f.1) as [a|], (parseStatusCodeMappingTarget f.2) as [b|];
    try (split; [by intros ?%elem_of_nil|naive_solver]).
  destruct (bool_decide (a ∈ NON_REDIRECTABLE_STATUS_CODES)) eqn:E; simpl.
  - apply bool_decide_eq_true in E. destruct (Z.eqb_spec a b) as [->|Hab].
    + split; [by intros ?%elem_of_nil|naive_solver].
    + rewrite list_elem_of_singleton. split; [intros ->; eauto 10|naive_solver].
  - apply bool_decide_eq_false in E. split; [by intros ?%elem_of_nil|naive_solver].
Qed.

Lemma disallowed_elem text x :
  x ∈ collectDisallowedStatusCodeRedirects text <->
  exists fs f, trim text <> [] /\ parse_object text = Some fs /\ f ∈ fs /\ x ∈ risky_entry f.
Proof.
  unfold collectDisallowedStatusCodeRedirects.
  destruct (trim text) as [|c t] eqn:E; simpl.
  { split; [by intros ?%elem_of_nil|naive_solver]. }
  destruct (parse_object text) as [fs|]; [|split; [by intros ?%elem_of_nil|naive_solver]].
  rewrite elem_of_js_sort, elem_of_js_set, list_elem_of_In, in_concat. split.
  - intros (l & Hl & Hx). apply in_map_iff in Hl as (f & <- & Hf).
    exists fs, f. split_and!; try done; by apply list_elem_of_In.
  - intros (fs' & f & _ & [= <-] & Hf & Hx). exists (risky_entry f).
    split; [|by apply list_elem_of_In]. apply in_map. by apply list_elem_of_In.
Qed.

(** C29: The redirects an edit is warned about are exactly the ones it
    introduces: entries of the new mapping from 504 or 524 to another valid
    code whose codes the old mapping did not have.  An edit that changes
    nothing is never warned about, and the list of risky redirects of a
    mapping has no duplicates. *)
Theorem new_redirects_spec original current :
  (forall x, x ∈ collectNewDisallowedStatusCodeRedirects original current <->
     (exists fs f a b, trim current <> [] /\ parse_object current = Some fs /\ f ∈ fs
        /\ parseStatusCodeKey f.1 = Some a /\ parseStatusCodeMappingTarget f.2 = Some b
        /\ a ∈ NON_REDIRECTABLE_STATUS_CODES /\ a <> b /\ x = codes_text a b)
     /\ ~ x ∈ collectDisallowedStatusCodeRedirects original)
  /\ collectNewDisallowedStatusCodeRedirects original original = []
  /\ NoDup (collectDisallowedStatusCodeRedirects current).
Proof.
  assert (Hnew : forall o c x, x ∈ collectNewDisallowedStatusCodeRedirects o c <->
    x ∈ collectDisallowedStatusCodeRedirects c /\ ~ x ∈ collectDisallowedStatusCodeRedirects o).
  { intros o c x. unfold collectNewDisallowedStatusCodeRedirects.
    destruct (Nat.eqb_spec (length (collectDisallowedStatusCodeRedirects c)) 0) as [E|E].
    - destruct (collectDisallowedStatusCodeRedirects c); [|done].
      split; [by intros ?%elem_of_nil|by intros [?%elem_of_nil _]].
    - rewrite list_elem_of_In, filter_In, <- list_elem_of_In, negb_true_iff, <- not_true_iff_false.
      by rewrite set_has_spec, elem_of_js_set. }
  split_and!.
  - intros x. rewrite Hnew, disallowed_elem. setoid_rewrite risky_entry_elem. naive_solver.
  - destruct (collectNewDisallowedStatusCodeRedirects original original) as [|x l] eqn:E; [done|].
    assert (Hx : x ∈ collectNewDisallowedStatusCodeRedirects original original) by (rewrite E; by left).
    exfalso. by apply Hnew in Hx as [? ?].
  - unfold collectDisallowedStatusCodeRedirects. destruct (negb _); [apply NoDup_nil_2|].
    destruct (parse_object current); [|apply NoDup_nil_2]. rewrite js_sort_perm. auto with js.
Qed.

Example new_redirect_504 :
  collectNewDisallowedStatusCodeRedirects (jsq "{'504':'503'}") (jsq "{'504':'503','524':500}")
  = [js "524 -> 500"].
Proof. vm_compute. reflexivity. Qed.

Lemma normalizeModelList_spec v ms :
  normalizeModelList v = Some ms -> NoDup ms /\ Forall (fun x => x <> [] /\ trim x = x) ms.
Proof.
  unfold normalizeModelList. destruct (if truthy v then _ else _); try done.
  destruct (mapM _ _) as [ss|]; [|done]. intros [= <-]. split; [auto with js|].
  apply Forall_forall. intros x Hx. rewrite elem_of_js_set, list_elem_of_In, filter_In in Hx.
  destruct Hx as [Hx Hn]. apply in_map_iff in Hx as (w & <- & _).
  split; [by destruct (trim w)|apply trim_idemp].
Qed.

(** The pending upstream changes of a channel do not depend on whether
    its settings arrive as an object or as the object's text, and each list
    names a model once, without blanks around it. *)
Theorem upstream_meta_spec settings fs :
  json_ok (VObj fs) ->
  parseUpstreamUpdateMeta (VStr (stringify (VObj fs))) = parseUpstreamUpdateMeta (VObj fs)
  /\ forall meta, parseUpstreamUpdateMeta settings = Some meta ->
       NoDup (pendingAddModels meta) /\ NoDup (pendingRemoveModels meta)
       /\ Forall (fun x => x <> [] /\ trim x = x) (pendingAddModels meta ++ pendingRemoveModels meta).
Proof.
  intros Hok. split.
  - unfold parseUpstreamUpdateMeta. cbn [settings_object]. by rewrite json_roundtrip.
  - intros meta. unfold parseUpstreamUpdateMeta. destruct (negb _ || _).
    { intros [= <-]. repeat split; simpl; auto using NoDup_nil_2, Forall_nil_2. }
    intros H. apply bind_Some in H as (add & Ha & H). apply bind_Some in H as (rm & Hr & [= <-]).
    apply normalizeModelList_spec in Ha as [? ?], Hr as [? ?]. split_and!; [done|done|].
    by apply Forall_app.
Qed.

Lemma upstream_meta_spec_witness :
  parseUpstreamUpdateMeta (VStr (stringify (VObj [(js "upstream_model_update_check_enabled", VBool true)])))
  = Some (mkMeta true [] []).
Proof.
  rewrite (proj1 (upstream_meta_spec VNull
    [(js "upstream_model_update_check_enabled", VBool true)]
    ltac:(repeat first [constructor | done]))).
  reflexivity.
Defined.

Lemma lists_differ_spec a b : length a = length b -> lists_differ a b = false <-> a = b.
Proof.
  revert b. induction a as [|x a IH]; intros [|y b] Hl; simpl in *; try done.
  case_bool_decide as E; [|split; [done|congruence]]. rewrite IH by lia. naive_solver congruence.
Qed.

(** An edit of an existing channel needs no new check exactly when the
    list of models is the same, in the same order, and the mapping is the same
    up to surrounding blanks; a channel that had neither always needs one. *)
Theorem hasModelConfigChanged_spec models mapping models0 mapping0 :
  hasModelConfigChanged models mapping models0 mapping0 = false <->
  (models0 <> [] \/ mapping0 <> []) /\ models = models0 /\ trim mapping = trim mapping0.
Proof.
  unfold hasModelConfigChanged.
  destruct ((length models0 =? 0) && negb (nonempty mapping0)) eqn:E0.
  { apply andb_prop in E0 as [E1 E2]. destruct models0, mapping0; try done. split; [done|].
    intros [[?|?] _]; done. }
  assert (Hn : models0 <> [] \/ mapping0 <> []).
  { destruct models0, mapping0; simpl in E0; try done; by (left + right). }
  destruct (Nat.eqb_spec (length models) (length models0)) as [El|El]; simpl; cycle 1.
  { split; [done|]. by intros (_ & -> & _). }
  destruct (lists_differ models models0) eqn:Ed.
  { split; [done|]. intros (_ & Hm & _). apply lists_differ_spec in Hm; [congruence|done]. }
  apply lists_differ_spec in Ed as ->; [|done]. case_bool_decide; simpl; naive_solver.
Qed.
