(* ===== verification/NavAccess.v ===== *)
(** * Navigation modules and administrator permissions
      ([lib/nav-modules.ts], [lib/admin-permissions.ts], [lib/roles.ts])

    The settings are JSON values an administrator or the server provides, so
    the parsers take any [value].  A call that throws returns [None]. *)

From S2P Require Import Prelude JsNumber JsValue JsRegex.

(** ** [nav-modules.ts] *)

Record ModuleAccess := mkAccess { enabled : bool; requireAuth : bool }.
#[export] Instance ModuleAccess_eq_dec : EqDecision ModuleAccess.
Proof. solve_decision. Defined.

Inductive HeaderNavModule := Rankings | Pricing.

(** An entry of [HeaderNavModules], in enumeration order. *)
Inductive NavEntry := NavBool (b : bool) | NavAccess (a : ModuleAccess).
Definition HeaderNavModules := list (jsstr * NavEntry).

Definition DEFAULT_HEADER_NAV_MODULES : HeaderNavModules :=
  [(js "home", NavBool true); (js "console", NavBool true);
   (js "pricing", NavAccess (mkAccess true false));
   (js "rankings", NavAccess (mkAccess true false));
   (js "docs", NavBool true); (js "about", NavBool true)].

Definition module_key (m : HeaderNavModule) : jsstr :=
  match m with Rankings => js "rankings" | Pricing => js "pricing" end.
Definition DEFAULTS (m : HeaderNavModule) : ModuleAccess := mkAccess true false.

Definition parseHeaderNavBoolean (raw : value) (fallback : bool) : bool :=
  match raw with
  | VBool b => b
  | VNum x =>
      if num_eqb x (num_of_Z 1) then true
      else if num_eqb x (num_of_Z 0) then false else fallback
  | VStr s =>
      let normalized := to_lower (trim s) in
      if bool_decide (normalized = js "true") || bool_decide (normalized = js "1") then true
      else if bool_decide (normalized = js "false") || bool_decide (normalized = js "0") then false
      else fallback
  | _ => fallback
  end.

Definition parseAccess (raw : value) (fallback : ModuleAccess) : ModuleAccess :=
  match raw with
  | VBool _ | VNum _ | VStr _ =>
      mkAccess (parseHeaderNavBoolean raw (enabled fallback)) (requireAuth fallback)
  | VObj _ | VArr _ =>
      mkAccess (parseHeaderNavBoolean (get_prop raw (js "enabled")) (enabled fallback))
        (parseHeaderNavBoolean (get_prop raw (js "requireAuth")) (requireAuth fallback))
  | _ => fallback
  end.

(** [Some None] for [null]. *)
Definition parseHeaderNavRecord (raw : value) : option (option value) :=
  if negb (truthy raw) then Some None
  else match to_string raw with
       | None => None
       | Some text =>
           if bool_decide (trim text = []) then Some None
           else if is_object raw then Some (Some raw)
           else Some (json_parse text)
       end.

(** [Object.entries] *)
Definition entries (v : value) : list (jsstr * value) :=
  match v with
  | VObj fs => fs
  | VArr l => imap (fun i x => (dec_of_N (N.of_nat i), x)) l
  | VStr s => imap (fun i c => (dec_of_N (N.of_nat i), VStr [c])) s
  | _ => []
  end.

Definition nav_bool (o : option NavEntry) : option bool :=
  match o with Some (NavBool b) => Some b | _ => None end.
Definition nav_access (o : option NavEntry) : ModuleAccess :=
  match o with Some (NavAccess a) => a | _ => mkAccess true false end.

(** [result[key] = v]; assigning a boolean to [__proto__] does nothing. *)
Definition nav_set (key : jsstr) (e : NavEntry) (result : HeaderNavModules) : HeaderNavModules :=
  if bool_decide (key = js "__proto__") then result else obj_set key e result.

Definition nav_step (result : HeaderNavModules) (f : jsstr * value) : HeaderNavModules :=
  let '(key, v) := f in
  if bool_decide (key = js "pricing") then
    nav_set key (NavAccess (parseAccess v (nav_access (assoc key result)))) result
  else if bool_decide (key = js "rankings") then
    nav_set key (NavAccess (parseAccess v (nav_access (assoc key result)))) result
  else
    let fallback := nav_bool (assoc key result) in
    let primitive := match v with VBool _ | VNum _ | VStr _ => true | _ => false end in
    if bool_decide (is_Some fallback) || primitive
    then nav_set key (NavBool (parseHeaderNavBoolean v (default true fallback))) result
    else result.

Definition parseHeaderNavModules (raw : value) : option HeaderNavModules :=
  match parseHeaderNavRecord raw with
  | None => None
  | Some (Some parsed) =>
      if truthy parsed
      then Some (fold_left nav_step (entries parsed) DEFAULT_HEADER_NAV_MODULES)
      else Some DEFAULT_HEADER_NAV_MODULES
  | Some None => Some DEFAULT_HEADER_NAV_MODULES
  end.

Definition parseHeaderNavModulesFromStatus (status : value) : option HeaderNavModules :=
  parseHeaderNavModules (get_prop status (js "HeaderNavModules")).

Definition store_status := js "status".

(** [VNull] for [null]. *)
Definition getCachedStatus (st : gmap jsstr jsstr) : value :=
  match st !! store_status with
  | None | Some [] => VNull
  | Some raw => default VNull (json_parse raw)
  end.

(** [setItem] succeeds when the new contents fit the quota; an exception is
    swallowed. *)
Definition cacheStatus (within_quota : gmap jsstr jsstr -> bool) (status : value)
    (st : gmap jsstr jsstr) : gmap jsstr jsstr :=
  if truthy status then
    let st' := <[store_status := stringify status]> st in
    if within_quota st' then st' else st
  else st.

Definition getModuleAccessFromStatus (status : value) (m : HeaderNavModule) : option ModuleAccess :=
  (fun r => match assoc (module_key m) r with
            | Some (NavAccess a) => a
            | _ => DEFAULTS m
            end) <$> parseHeaderNavModulesFromStatus status.

Definition getModuleAccess (m : HeaderNavModule) (st : gmap jsstr jsstr) : option ModuleAccess :=
  getModuleAccessFromStatus (getCachedStatus st) m.

(** The reply of the server, [None] when the request fails. *)
Definition getFreshModuleAccess (within_quota : gmap jsstr jsstr -> bool) (m : HeaderNavModule) (reply : option value)
    (st : gmap jsstr jsstr) : ModuleAccess * gmap jsstr jsstr :=
  match reply with
  | None => (mkAccess false true, st)
  | Some status =>
      (default (mkAccess false true) (getModuleAccessFromStatus status m), cacheStatus within_quota status st)
  end.

(** [v[k]] for the values an object or an array holds. *)
Definition get_member (v : value) (k : jsstr) : value :=
  match v with
  | VObj fs => default VUndefined (assoc k fs)
  | VArr l => match array_index k with
              | Some i => default VUndefined (l !! N.to_nat i)
              | None => VUndefined
              end
  | _ => VUndefined
  end.

Definition is_false (v : value) : bool := match v with VBool false => true | _ => false end.

Definition isSidebarModuleEnabled (section module_ : jsstr) (st : gmap jsstr jsstr) : option bool :=
  let status := getCachedStatus st in
  if negb (truthy status) then Some true
  else
    let raw := get_prop status (js "SidebarModulesAdmin") in
    if negb (truthy raw) then Some true
    else match to_string raw with
    | None => None
    | Some text =>
        if bool_decide (trim text = []) then Some true
        else match json_parse text with
        | None => Some true
        | Some parsed =>
            let sectionConfig := get_member parsed section in
            if negb (truthy sectionConfig) then Some true
            else if is_false (get_member sectionConfig (js "enabled")) then Some false
            else Some (negb (is_false (get_member sectionConfig module_)))
        end
    end.

(** ** [roles.ts] *)

Module ROLE.
Definition GUEST : Z := 0.
Definition USER : Z := 1.
Definition ADMIN : Z := 10.
Definition SUPER_ADMIN : Z := 100.
End ROLE.

Definition ROLE_LABEL_KEYS : list (Z * jsstr) :=
  [(ROLE.SUPER_ADMIN, js "Super Admin"); (ROLE.ADMIN, js "Admin"); (ROLE.USER, js "User");
   (ROLE.GUEST, js "Guest")].

Definition getRoleLabelKey (role : option Z) : jsstr :=
  match role ≫= (fun r => snd <$> List.find (fun p => Z.eqb p.1 r) ROLE_LABEL_KEYS) with
  | Some l => l
  | None => js "Guest"
  end.

(** ** [admin-permissions.ts]

    The catalog keeps what the functions read: labels, descriptions and the
    flags of a role are left out, and an action is its name.  Names are those
    of the backend's catalog, none of them a property of [Object.prototype]. *)

Definition AdminPermissionMatrix := list (jsstr * list (jsstr * bool)).

Record PermissionResourceDef := mkResource { resource : jsstr; actions : list jsstr }.
Record PermissionRoleDef := mkRole { role_key : jsstr; grants : AdminPermissionMatrix }.
Record PermissionCatalog := mkCatalog {
  resources : list PermissionResourceDef; roles : list PermissionRoleDef }.
Definition EMPTY_PERMISSION_CATALOG : PermissionCatalog := mkCatalog [] [].

Record AuthUser := mkUser { role : Z; admin_permissions : option AdminPermissionMatrix }.

(** [matrix?.[resource]?.[action]] *)
Definition granted (m : AdminPermissionMatrix) (r a : jsstr) : option bool :=
  assoc r m ≫= assoc a.

Definition hasPermission (user : option AuthUser) (r a : jsstr) : bool :=
  match user with
  | None => false
  | Some u =>
      if (role u =? ROLE.SUPER_ADMIN)%Z then true
      else bool_decide ((admin_permissions u ≫= fun m => granted m r a) = Some true)
  end.

Definition ADMIN_ROLE_KEY := js "admin".

Definition roleGrants (catalog : PermissionCatalog) (roleKey : jsstr) : AdminPermissionMatrix :=
  match List.find (fun x => bool_decide (role_key x = roleKey)) (roles catalog) with
  | Some x => grants x
  | None => []
  end.

Definition permission_value (v : option AdminPermissionMatrix) (baseline : AdminPermissionMatrix)
    (r a : jsstr) : bool :=
  match v ≫= (fun m => granted m r a) with
  | Some b => b
  | None => default false (granted baseline r a)
  end.

Definition resource_actions (v : option AdminPermissionMatrix) (baseline : AdminPermissionMatrix)
    (d : PermissionResourceDef) : list (jsstr * bool) :=
  fold_left (fun acc a => obj_set a (permission_value v baseline (resource d) a) acc) (actions d) [].

Definition normalizeAdminPermissions (v : option AdminPermissionMatrix) (catalog : PermissionCatalog)
  : AdminPermissionMatrix :=
  let baseline := roleGrants catalog ADMIN_ROLE_KEY in
  fold_left (fun acc d => obj_set (resource d) (resource_actions v baseline d) acc)
    (resources catalog) [].

(** ** Theorems *)

Lemma find_key_elem {X} (key : X -> jsstr) xs x :
  NoDup (key <$> xs) -> x ∈ xs -> List.find (fun y => bool_decide (key y = key x)) xs = Some x.
Proof.
  induction xs as [|y xs IH]; intros Hn Hx; [by apply elem_of_nil in Hx|].
  rewrite fmap_cons in Hn. apply NoDup_cons in Hn as [Hy Hn]. simpl.
  case_bool_decide as E; [|apply elem_of_cons in Hx as [->|Hx]; [done|auto]].
  apply elem_of_cons in Hx as [->|Hx]; [done|]. exfalso. apply Hy. rewrite E.
  apply list_elem_of_fmap. by exists x.
Qed.

(** A catalog that names every resource and every action once. *)
Definition catalog_ok (c : PermissionCatalog) : Prop :=
  NoDup (resource <$> resources c) /\ Forall (fun d => NoDup (actions d)) (resources c).

Lemma normalize_lookup v c d a :
  catalog_ok c -> d ∈ resources c -> a ∈ actions d ->
  granted (normalizeAdminPermissions v c) (resource d) a
  = Some (permission_value v (roleGrants c ADMIN_ROLE_KEY) (resource d) a).
Proof.
  intros [Hr Ha] Hd Hin. unfold granted, normalizeAdminPermissions.
  rewrite (fold_obj_set resource), (find_key_elem resource) by done. simpl.
  unfold resource_actions. rewrite Forall_forall in Ha. specialize (Ha d Hd).
  rewrite (fold_obj_set id) by (by rewrite list_fmap_id).
  pose proof (find_key_elem id (actions d) a) as Hf. rewrite list_fmap_id in Hf. unfold id in *.
  by rewrite Hf.
Qed.

(** The permission editor shows a value for every resource and action of
    the catalog: the user's own grant when there is one, else the baseline of
    the administrator role, else false; and normalizing twice changes no
    shown value. *)
Theorem normalizeAdminPermissions_spec v c d a :
  catalog_ok c -> d ∈ resources c -> a ∈ actions d ->
  let n := normalizeAdminPermissions v c in
  granted n (resource d) a
    = Some (default (default false (granted (roleGrants c ADMIN_ROLE_KEY) (resource d) a))
              (v ≫= fun m => granted m (resource d) a))
  /\ granted (normalizeAdminPermissions (Some n) c) (resource d) a = granted n (resource d) a.
Proof.
  intros Hc Hd Ha. cbv zeta. rewrite !(normalize_lookup _ _ d a) by done. split.
  - unfold permission_value. by destruct (v ≫= _).
  - unfold permission_value at 1. simpl. by rewrite (normalize_lookup v c d a).
Qed.

(** The JSON an administrator's settings page writes for the modules. *)
Definition access_value (a : ModuleAccess) : value :=
  VObj [(js "enabled", VBool (enabled a)); (js "requireAuth", VBool (requireAuth a))].
Definition nav_value (home console docs about : bool) (pricing rankings : ModuleAccess) : value :=
  VObj [(js "home", VBool home); (js "console", VBool console);
        (js "pricing", access_value pricing); (js "rankings", access_value rankings);
        (js "docs", VBool docs); (js "about", VBool about)].
Definition nav_modules (home console docs about : bool) (pricing rankings : ModuleAccess)
  : HeaderNavModules :=
  [(js "home", NavBool home); (js "console", NavBool console);
   (js "pricing", NavAccess pricing); (js "rankings", NavAccess rankings);
   (js "docs", NavBool docs); (js "about", NavBool about)].

(** Navigation settings are read as written: the text of a complete
    setting, and the setting as an object, give back every flag of every
    module, and the access to a module read from a status with that text is
    the one written.  When the status cannot be fetched, access is denied. *)
Theorem nav_settings_roundtrip home console docs about pricing rankings m quota st :
  let v := nav_value home console docs about pricing rankings in
  let status := VObj [(js "HeaderNavModules", VStr (stringify v))] in
  parseHeaderNavModules v = Some (nav_modules home console docs about pricing rankings)
  /\ parseHeaderNavModules (VStr (stringify v))
     = Some (nav_modules home console docs about pricing rankings)
  /\ getModuleAccessFromStatus status m
     = Some (match m with Rankings => rankings | Pricing => pricing end)
  /\ (getFreshModuleAccess quota m None st).1 = mkAccess false true.
Proof.
  cbv zeta. destruct pricing as [a b], rankings as [c d].
  assert (Hok : json_ok (nav_value home console docs about (mkAccess a b) (mkAccess c d))).
  { unfold nav_value, access_value. repeat first [constructor | done]. }
  pose proof (json_roundtrip _ Hok) as Hj.
  assert (Hv : parseHeaderNavModules (nav_value home console docs about (mkAccess a b) (mkAccess c d))
               = Some (nav_modules home console docs about (mkAccess a b) (mkAccess c d))) by reflexivity.
  assert (Hs : parseHeaderNavModules (VStr (stringify (nav_value home console docs about (mkAccess a b) (mkAccess c d))))
               = Some (nav_modules home console docs about (mkAccess a b) (mkAccess c d))).
  { unfold parseHeaderNavModules, parseHeaderNavRecord. cbn [to_string].
    rewrite (bool_decide_false (trim _ = [])), Hj; [reflexivity|].
    destruct home, console, docs, about, a, b, c, d; vm_compute; discriminate. }
  split_and!; [exact Hv|exact Hs| |reflexivity].
  unfold getModuleAccessFromStatus, parseHeaderNavModulesFromStatus.
  change (get_prop (VObj [(?k, ?v)]) ?k) with v. rewrite Hs. by destruct m.
Qed.

(** A sidebar module is hidden only by an explicit decision: the cached
    settings, when they can be read, hide it exactly when they set its
    section's [enabled] or the module itself to false. *)
Theorem sidebar_hidden_spec section module_ st :
  isSidebarModuleEnabled section module_ st = Some false <->
  exists text parsed,
    truthy (get_prop (getCachedStatus st) (js "SidebarModulesAdmin")) = true
    /\ to_string (get_prop (getCachedStatus st) (js "SidebarModulesAdmin")) = Some text
    /\ trim text <> [] /\ json_parse text = Some parsed
    /\ truthy (get_member parsed section) = true
    /\ (get_member (get_member parsed section) (js "enabled") = VBool false
        \/ get_member (get_member parsed section) module_ = VBool false).
Proof.
  unfold isSidebarModuleEnabled. set (raw := get_prop _ _).
  assert (Hst : truthy raw = true -> truthy (getCachedStatus st) = true).
  { unfold raw. destruct (getCachedStatus st); simpl; try done. }
  assert (Hf : forall v, is_false v = true <-> v = VBool false).
  { intros []; simpl; try (split; [discriminate|congruence]). destruct b; split; congruence. }
  destruct (truthy raw) eqn:Er; cycle 1.
  { split; [destruct (truthy (getCachedStatus st)); discriminate|].
    intros (? & ? & ? & _); congruence. }
  rewrite Hst by done. cbn [negb]. destruct (to_string raw) as [text|]; cycle 1.
  { split; [discriminate|]. intros (? & ? & _ & [=] & _). }
  destruct (bool_decide (trim text = [])) eqn:Et.
  { apply bool_decide_eq_true in Et. split; [discriminate|].
    intros (? & ? & _ & [= <-] & Hn & _). by destruct Hn. }
  apply bool_decide_eq_false in Et. destruct (json_parse text) as [parsed|] eqn:Ej; cycle 1.
  { split; [discriminate|]. intros (? & ? & _ & [= <-] & _ & Hp & _). congruence. }
  transitivity (truthy (get_member parsed section) = true /\
    (get_member (get_member parsed section) (js "enabled") = VBool false
     \/ get_member (get_member parsed section) module_ = VBool false)); cycle 1.
  { split; [intros []; by exists text, parsed|].
    intros (? & ? & _ & [= <-] & _ & Hp & Hr). rewrite Ej in Hp. by injection Hp as <-. }
  destruct (truthy (get_member parsed section)); cbn [negb]; [|split; [discriminate|by intros []]].
  rewrite <- !Hf. destruct (is_false _); [split; auto|].
  destruct (is_false _); simpl; split; auto; [discriminate|]. by intros [_ [|]].
Qed.

Lemma normalizeAdminPermissions_spec_witness :
  let c := mkCatalog [mkResource (js "channel") [js "read"; js "write"]]
             [mkRole (js "admin") [(js "channel", [(js "read", true)])]] in
  let n := normalizeAdminPermissions (Some [(js "channel", [(js "write", true)])]) c in
  granted n (js "channel") (js "read") = Some true
  /\ granted (normalizeAdminPermissions (Some n) c) (js "channel") (js "read")
     = granted n (js "channel") (js "read").
Proof.
  apply (normalizeAdminPermissions_spec (Some [(js "channel", [(js "write", true)])])
    (mkCatalog [mkResource (js "channel") [js "read"; js "write"]]
       [mkRole (js "admin") [(js "channel", [(js "read", true)])]])
    (mkResource (js "channel") [js "read"; js "write"]) (js "read")).
  - split; [|repeat constructor]; apply (bool_decide_unpack _); vm_compute; exact I.
  - by left.
  - by left.
Defined.
