(* ===== verification/JsMap.v ===== *)
(** * Insertion-ordered maps ([Map] of the language)

    A map is the list of its entries in insertion order, one per key.  The
    sources fill maps with the same loop: look a key up, start from a fresh
    value when it is missing, add to the value, set it.  [map_put] is that
    step, and [map_collect] the loop; the lemmas describe the loop by the
    elements that share a key. *)

From S2P Require Import Prelude JsNumber.

Section Maps.
Context {K V : Type} `{EqDecision K}.

Fixpoint map_get (k : K) (m : list (K * V)) : option V :=
  match m with
  | [] => None
  | (k', v) :: m' => if decide (k = k') then Some v else map_get k m'
  end.

Fixpoint map_set (k : K) (v : V) (m : list (K * V)) : list (K * V) :=
  match m with
  | [] => [(k, v)]
  | (k', v') :: m' => if decide (k = k') then (k', v) :: m' else (k', v') :: map_set k v m'
  end.

Definition map_keys (m : list (K * V)) : list K := m.*1.
Definition map_values (m : list (K * V)) : list V := m.*2.

(** [const cur = map.get(k) ?? init; map.set(k, add(cur))] *)
Definition map_put (k : K) (init : V) (add : V -> V) (m : list (K * V)) : list (K * V) :=
  map_set k (add (default init (map_get k m))) m.

Lemma map_get_set k k' v m :
  map_get k (map_set k' v m) = if decide (k = k') then Some v else map_get k m.
Proof.
  induction m as [|[k0 v0] m IH]; simpl; [done|].
  destruct (decide (k' = k0)) as [->|Hk]; simpl; [by repeat case_decide|].
  rewrite IH. repeat case_decide; congruence.
Qed.

Lemma map_get_None k m : map_get k m = None <-> k ∉ map_keys m.
Proof.
  induction m as [|[k0 v0] m IH]; simpl.
  - split; [|done]. by intros _ ?%elem_of_nil.
  - rewrite elem_of_cons. case_decide as E; [subst; naive_solver|]. rewrite IH. naive_solver.
Qed.

Lemma map_get_Some k v m : NoDup (map_keys m) -> map_get k m = Some v <-> (k, v) ∈ m.
Proof.
  induction m as [|[k0 v0] m IH]; simpl; intros Hn.
  - split; [done|]. by intros ?%elem_of_nil.
  - apply NoDup_cons in Hn as [H0 Hn]. rewrite elem_of_cons. case_decide as E.
    + subst k0. split; [intros [= ->]; by left|]. intros [[= ->]|Hin]; [done|].
      exfalso. apply H0. apply list_elem_of_fmap. by exists (k, v).
    + rewrite IH by done. naive_solver.
Qed.

Lemma map_set_keys k v m : map_keys (map_set k v m) = set_add (map_keys m) k.
Proof.
  unfold set_add. induction m as [|[k0 v0] m IH]; [done|].
  change (map_keys ((k0, v0) :: m)) with (k0 :: map_keys m).
  cbn [map_set]. destruct (decide (k = k0)) as [->|Hk].
  - by rewrite decide_True by (by left).
  - change (map_keys ((k0, v0) :: map_set k v m)) with (k0 :: map_keys (map_set k v m)).
    rewrite IH. destruct (decide (k ∈ map_keys m)) as [E|E].
    + by rewrite decide_True by (by right).
    + rewrite decide_False; [done|]. by intros [?|?]%elem_of_cons.
Qed.

End Maps.

Section Collect.
Context {K V X : Type} `{EqDecision K}.
Context (key : X -> K) (init : X -> V) (add : X -> V -> V).

(** The loop over [xs]. *)
Definition map_collect (xs : list X) (m : list (K * V)) : list (K * V) :=
  fold_left (fun m x => map_put (key x) (init x) (add x) m) xs m.

Definition with_key (k : K) (xs : list X) : list X := List.filter (fun x => bool_decide (key x = k)) xs.

(** The value of a key: the additions of the elements with the key, in order,
    to the fresh value of the first. *)
Definition collected (l : list X) : option V :=
  match l with
  | [] => None
  | x :: _ => Some (fold_left (fun v x => add x v) l (init x))
  end.

Lemma map_collect_get_from xs m k :
  map_get k (map_collect xs m)
  = match map_get k m with
    | Some v => Some (fold_left (fun v x => add x v) (with_key k xs) v)
    | None => collected (with_key k xs)
    end.
Proof.
  revert m. induction xs as [|x xs IH]; intros m; simpl; [by destruct (map_get k m)|].
  rewrite IH. unfold map_put. rewrite map_get_set. case_bool_decide as E.
  - subst k. rewrite decide_True by done. simpl. by destruct (map_get (key x) m).
  - rewrite decide_False by congruence. done.
Qed.

Lemma map_collect_get xs k : map_get k (map_collect xs []) = collected (with_key k xs).
Proof. by rewrite map_collect_get_from. Qed.

Lemma map_collect_keys_from xs m :
  map_keys (map_collect xs m) = fold_left set_add (key <$> xs) (map_keys m).
Proof.
  revert m. induction xs as [|x xs IH]; intros m; simpl; [done|].
  rewrite IH. unfold map_put. by rewrite map_set_keys.
Qed.

(** The keys are those of the elements, each once, in order of first use. *)
Lemma map_collect_keys xs : map_keys (map_collect xs []) = js_set (key <$> xs).
Proof. apply map_collect_keys_from. Qed.

Lemma map_collect_NoDup xs : NoDup (map_keys (map_collect xs [])).
Proof. rewrite map_collect_keys. auto with js. Qed.

Lemma map_collect_elem xs k v :
  (k, v) ∈ map_collect xs [] <-> collected (with_key k xs) = Some v.
Proof. rewrite <- map_collect_get. symmetry. apply map_get_Some, map_collect_NoDup. Qed.

Lemma collected_Some k xs v :
  collected (with_key k xs) = Some v ->
  exists x, x ∈ xs /\ key x = k /\ v = fold_left (fun v x => add x v) (with_key k xs) (init x).
Proof.
  unfold collected. destruct (with_key k xs) as [|x l] eqn:E; [done|]. intros [= <-].
  exists x. assert (Hx : x ∈ with_key k xs) by (rewrite E; by left).
  unfold with_key in Hx. apply list_elem_of_In, filter_In in Hx as [Hx Hk]. bool_prop.
  split_and!; [by apply list_elem_of_In|done|done].
Qed.

(** *** Grouping does not change a total *)

Lemma with_key_sum (z : X -> Z) k ks xs :
  k ∉ ks ->
  Z_sum (z <$> List.filter (fun x => bool_decide (key x ∈ k :: ks)) xs)
  = (Z_sum (z <$> with_key k xs)
     + Z_sum (z <$> List.filter (fun x => bool_decide (key x ∈ ks)) xs))%Z.
Proof.
  intros Hk. induction xs as [|x xs IH]; [done|]. cbn [with_key List.filter].
  change (List.filter (fun x => bool_decide (key x = k)) xs) with (with_key k xs).
  destruct (decide (key x = k)) as [E|E].
  - rewrite (bool_decide_true (key x ∈ k :: ks)) by (rewrite E; by left).
    rewrite (bool_decide_true (key x = k)) by done.
    rewrite (bool_decide_false (key x ∈ ks)) by congruence. rewrite !fmap_cons, !Z_sum_cons, IH. lia.
  - rewrite (bool_decide_false (key x = k)) by done. destruct (decide (key x ∈ ks)) as [H|H].
    + rewrite (bool_decide_true (key x ∈ k :: ks)) by (by right).
      rewrite (bool_decide_true (key x ∈ ks)) by done. rewrite !fmap_cons, !Z_sum_cons, IH. lia.
    + rewrite (bool_decide_false (key x ∈ ks)) by done.
      rewrite (bool_decide_false (key x ∈ k :: ks)); [exact IH|]. by intros [?|?]%elem_of_cons.
Qed.

Lemma group_total (z : X -> Z) ks xs :
  NoDup ks ->
  Z_sum ((fun k => Z_sum (z <$> with_key k xs)) <$> ks)
  = Z_sum (z <$> List.filter (fun x => bool_decide (key x ∈ ks)) xs).
Proof.
  induction 1 as [|k ks Hk Hn IH].
  - induction xs as [|x xs IHx]; [done|]. cbn [List.filter].
    rewrite (bool_decide_false (key x ∈ [])) by apply not_elem_of_nil. exact IHx.
  - rewrite with_key_sum by done. rewrite <- IH. done.
Qed.

Lemma List_filter_sublist {A} (p : A -> bool) l : List.filter p l `sublist_of` l.
Proof. induction l as [|x l IH]; simpl; [done|]. destruct (p x); by constructor. Qed.

Lemma List_filter_id {A} (p : A -> bool) l : (forall x, x ∈ l -> p x = true) -> List.filter p l = l.
Proof.
  induction l as [|x l IH]; intros H; simpl; [done|]. rewrite (H x) by (by left).
  f_equal. apply IH. intros y Hy. apply H. by right.
Qed.

Lemma fmap_sublist {A B} (f : A -> B) l l' : l `sublist_of` l' -> f <$> l `sublist_of` f <$> l'.
Proof. induction 1; rewrite ?fmap_cons; by constructor. Qed.

Lemma filter_values (cls : V -> bool) (m : list (K * V)) :
  List.filter cls (map_values m) = (List.filter (fun e => cls e.2) m).*2.
Proof.
  unfold map_values. induction m as [|[k v] m IH]; [done|]. rewrite fmap_cons. cbn [List.filter snd].
  destruct (cls v); [rewrite fmap_cons|]; by rewrite IH.
Qed.

(** The values of a class of entries add up to the weights of the elements of
    the class, whatever the order of the values. *)
Lemma collect_total (z : X -> Z) (val : V -> number) (cls : V -> bool) (q : X -> bool) xs ns :
  (forall k v, (k, v) ∈ map_collect xs [] -> val v = num_of_Z (Z_sum (z <$> with_key k xs))) ->
  (forall x v, x ∈ xs -> (key x, v) ∈ map_collect xs [] -> cls v = q x) ->
  (forall x, x ∈ xs -> 0 <= z x)%Z ->
  safe (Z_sum (z <$> List.filter q xs)) ->
  ns ≡ₚ val <$> List.filter cls (map_values (map_collect xs [])) ->
  num_sum ns = num_of_Z (Z_sum (z <$> List.filter q xs)).
Proof.
  intros Hval Hcls Hz Hsafe Hns. set (m := map_collect xs []) in *.
  set (es := List.filter (fun e => cls e.2) m).
  assert (Hes : List.filter cls (map_values m) = es.*2).
  { apply filter_values. }
  assert (Hkeys : NoDup es.*1).
  { apply (sublist_NoDup _ (map_keys m)); [apply map_collect_NoDup|].
    apply fmap_sublist, List_filter_sublist. }
  assert (Hvals : val <$> es.*2 = num_of_Z <$> ((fun k => Z_sum (z <$> with_key k xs)) <$> es.*1)).
  { rewrite <- !list_fmap_compose. apply list_fmap_ext. intros i [k v] Hi.
    apply Hval. apply list_elem_of_lookup_2 in Hi. unfold es in Hi.
    apply list_elem_of_In, filter_In in Hi as [Hi _]. by apply list_elem_of_In. }
  assert (Hq : List.filter q xs = List.filter (fun x => bool_decide (key x ∈ es.*1)) xs).
  { apply List.filter_ext_in. intros x Hx%list_elem_of_In.
    assert (exists v, (key x, v) ∈ m) as [v Hv].
    { assert (Hk : key x ∈ map_keys m).
      { unfold m. rewrite map_collect_keys, elem_of_js_set. by apply list_elem_of_fmap_2. }
      apply list_elem_of_fmap in Hk as ([k v] & -> & Hv). by exists v. }
    rewrite <- (Hcls x v Hx Hv). symmetry. destruct (cls v) eqn:Ec.
    - apply bool_decide_eq_true. apply list_elem_of_fmap. exists (key x, v). split; [done|].
      apply list_elem_of_In, filter_In. split; [by apply list_elem_of_In|done].
    - apply bool_decide_eq_false. intros ([k v'] & Ek & He)%list_elem_of_fmap. simpl in Ek.
      apply list_elem_of_In, filter_In in He as [He%list_elem_of_In Hc]. simpl in Hc. subst k.
      rewrite (Hcls x v' Hx He), <- (Hcls x v Hx Hv), Ec in Hc. done. }
  rewrite Hes, Hvals in Hns. rewrite Hq in Hsafe |- *. rewrite <- (group_total z es.*1) in Hsafe |- * by done.
  apply num_sum_perm_exact; [done| |done]. rewrite Forall_forall.
  intros s (k & -> & _)%list_elem_of_fmap. apply Z_sum_nonneg. rewrite Forall_forall.
  intros s (x & -> & Hx)%list_elem_of_fmap. apply Hz. unfold with_key in Hx.
  apply list_elem_of_In, filter_In in Hx as [Hx _]. by apply list_elem_of_In.
Qed.
End Collect.

(** The values of a map whose elements add to a count. *)
Lemma fold_left_flat_map {A B C} (f : C -> B -> C) (g : A -> list B) xs acc :
  fold_left (fun c x => fold_left f (g x) c) xs acc = fold_left f (flat_map g xs) acc.
Proof.
  revert acc. induction xs as [|x xs IH]; intros acc; simpl; [done|]. by rewrite fold_left_app, IH.
Qed.

Lemma fold_left_filter {A C} (p : A -> bool) (f : C -> A -> C) xs acc :
  fold_left (fun c x => if p x then f c x else c) xs acc = fold_left f (List.filter p xs) acc.
Proof.
  revert acc. induction xs as [|x xs IH]; intros acc; simpl; [done|]. by destruct (p x); simpl.
Qed.

(** A map of sets: the values of the elements that share a key. *)
Section Groups.
Context {K Y X : Type} `{EqDecision K} `{EqDecision Y}.
Context (key : X -> K) (val : X -> Y).

Definition group_sets (xs : list X) : list (K * list Y) :=
  map_collect key (fun _ => []) (fun x s => set_add s (val x)) xs [].

Lemma fold_set_add_map l (s : list Y) y :
  y ∈ fold_left (fun s x => set_add s (val x)) l s <-> y ∈ s \/ exists x, x ∈ l /\ val x = y.
Proof.
  revert s. induction l as [|x l IH]; intros s; simpl; [set_solver|].
  rewrite IH, elem_of_set_add. set_solver.
Qed.

Lemma elem_of_with_key k xs x : x ∈ with_key key k xs <-> x ∈ xs /\ key x = k.
Proof.
  unfold with_key. rewrite list_elem_of_In, filter_In, <- list_elem_of_In.
  by rewrite bool_decide_eq_true.
Qed.

Lemma group_sets_elem xs k s y :
  (k, s) ∈ group_sets xs -> y ∈ s <-> exists x, x ∈ xs /\ key x = k /\ val x = y.
Proof.
  unfold group_sets. rewrite map_collect_elem. intros (x & _ & _ & ->)%collected_Some.
  rewrite fold_set_add_map. setoid_rewrite elem_of_with_key. set_solver.
Qed.

Lemma group_sets_key xs k : k ∈ map_keys (group_sets xs) <-> exists x, x ∈ xs /\ key x = k.
Proof.
  unfold group_sets. rewrite map_collect_keys, elem_of_js_set, list_elem_of_fmap. set_solver.
Qed.

Lemma group_sets_get xs k s : map_get k (group_sets xs) = Some s <-> (k, s) ∈ group_sets xs.
Proof. apply map_get_Some, map_collect_NoDup. Qed.
End Groups.

Lemma map_get_map {K V W} `{EqDecision K} (f : V -> W) k (m : list (K * V)) :
  map_get k (List.map (fun e => (e.1, f e.2)) m) = f <$> map_get k m.
Proof. induction m as [|[k' v] m IH]; simpl; [done|]. by case_decide. Qed.
