(* ===== verification/FlowGraph.v ===== *)
(** * The flow dashboard ([features/dashboard/lib/flow.ts],
      [features/dashboard/lib/flow-selection.ts], [features/dashboard/types.ts])

    Usage rows become paths through the visible stages; the paths are summed
    into the nodes and links of a Sankey graph.  An optional field is an
    [option]; a [Map] is a list of entries in insertion order ([JsMap]), and an
    object that is filled in place is rebuilt with its new fields.

    What the browser and the chart library provide are parameters: the
    collation behind [localeCompare], the number format of the locale, and the
    color table of the chart library. *)

From S2P Require Import Prelude JsNumber JsMap.

(** ** Data ([types.ts]) *)

Inductive FlowNodeKind := KUser | KNode | KToken | KGroup | KModel | KChannel.
#[export] Instance FlowNodeKind_eq_dec : EqDecision FlowNodeKind.
Proof. solve_decision. Defined.

Inductive FlowMetric := MQuota | MTokens | MRequests.
Inductive FlowOverflowMode := Aggregate | Hide.
Inductive FlowRole := RoleUser | RoleAdmin | RoleRoot.

Record FlowQuotaDataItem := mkRow {
  row_user_id : option number; row_username : option jsstr;
  row_node_name : option jsstr; row_use_group : option jsstr;
  row_token_id : option number; row_token_name : option jsstr;
  row_channel_id : option number; row_channel_name : option jsstr;
  row_model_name : option jsstr;
  row_token_used : option number; row_count : option number; row_quota : option number }.

Record FlowNodeFilter := mkFilter { ff_kind : FlowNodeKind; ff_id : jsstr }.
Record FlowLinkSelection := mkSelection { fs_source : jsstr; fs_target : jsstr }.

Record DashboardFlowNode := mkFlowNode {
  n_id : jsstr; n_label : jsstr; n_kind : FlowNodeKind; n_value : number; n_requests : number;
  n_quota : number; n_tokens : number; n_color : jsstr; n_colorKey : jsstr;
  n_highlighted : option bool; n_dimmed : option bool }.

Record DashboardFlowLink := mkFlowLink {
  l_source : jsstr; l_target : jsstr; l_value : number; l_requests : number; l_quota : number;
  l_tokens : number; l_sourceLabel : jsstr; l_targetLabel : jsstr; l_color : jsstr;
  l_linkColor : jsstr; l_linkAlpha : number; l_hoverColor : jsstr; l_colorKey : jsstr;
  l_share : number; l_highlighted : option bool; l_dimmed : option bool }.

Record DashboardFlowGraph := mkGraph {
  g_nodes : list DashboardFlowNode; g_links : list DashboardFlowLink }.

Record FlowUserFilterOption := mkUserOption {
  uo_value : jsstr; uo_label : jsstr; uo_valueLabel : jsstr; uo_valueRaw : number; uo_color : jsstr }.
Record FlowNodeFilterOption := mkNodeOption {
  no_kind : FlowNodeKind; no_value : jsstr; no_label : jsstr; no_valueLabel : jsstr;
  no_valueRaw : number; no_color : jsstr }.
Record FlowFilterOptions := mkFilterOptions {
  fo_users : list FlowUserFilterOption; fo_nodes : list FlowNodeFilterOption }.
Record FlowSummary := mkSummary { s_quota : number; s_tokens : number; s_requests : number }.
Record ProcessedFlowData := mkProcessed {
  pf_summary : FlowSummary; pf_flow : DashboardFlowGraph; pf_filterOptions : FlowFilterOptions }.

Record FlowBuildOptions := mkBuildOptions {
  o_role : option FlowRole; o_selectedUsers : option (list jsstr);
  o_selectedNodes : option (list FlowNodeFilter); o_activeNode : option FlowNodeFilter;
  o_activeLink : option FlowLinkSelection; o_colorPalette : option (list jsstr);
  o_visibleStages : option (list FlowNodeKind); o_topNodeLimit : option number;
  o_overflowMode : option FlowOverflowMode; o_maskSensitive : bool;
  o_deletedTokenLabel : option (number -> jsstr); o_otherNodeLabel : option (FlowNodeKind -> jsstr) }.

(** ** Local types of [flow.ts] *)

Record FlowMetrics := mkMetrics { m_quota : number; m_tokens : number; m_requests : number }.
Record FlowPathNode := mkPathNode { fp_id : jsstr; fp_label : jsstr; fp_kind : FlowNodeKind }.
Record PreparedFlowPath := mkPrepared { pp_path : list FlowPathNode; pp_metrics : FlowMetrics }.
Record FlowNodeRank := mkRank { rank_node : FlowPathNode; rank_value : number }.
(** [ctx.deletedTokenLabel] *)
Definition FlowPathContext := option (number -> jsstr).
Definition EMPTY_FLOW_PATH_CONTEXT : FlowPathContext := None.
Record FlowGraphOptions := mkGraphOptions {
  go_topNodeLimit : option number; go_overflowMode : option FlowOverflowMode;
  go_otherNodeLabel : option (FlowNodeKind -> jsstr); go_activeNode : option FlowNodeFilter;
  go_activeLink : option FlowLinkSelection; go_maskSensitive : bool }.
Record FlowHighlightSets := mkHighlight { hl_nodes : list jsstr; hl_links : list jsstr }.

Definition DEFAULT_FLOW_ROLE := RoleUser.
Definition DEFAULT_FLOW_OVERFLOW_MODE := Aggregate.
Definition DEFAULT_FLOW_CHART_COLOR := js "#1664FF".

Definition kind_name (k : FlowNodeKind) : jsstr :=
  match k with
  | KUser => js "user" | KNode => js "node" | KToken => js "token"
  | KGroup => js "group" | KModel => js "model" | KChannel => js "channel"
  end.

Definition OTHER_FLOW_NODE_IDS (k : FlowNodeKind) : jsstr :=
  match k with
  | KUser => js "user:__other__" | KNode => js "node:__other__" | KToken => js "token:__other__"
  | KGroup => js "group:__other__" | KModel => js "model:__other__"
  | KChannel => js "channel:__other__"
  end.
Definition DEFAULT_OTHER_FLOW_NODE_LABELS (k : FlowNodeKind) : jsstr :=
  match k with
  | KUser => js "Other users" | KNode => js "Other nodes" | KToken => js "Other tokens"
  | KGroup => js "Other groups" | KModel => js "Other models" | KChannel => js "Other channels"
  end.
Definition FLOW_NODE_KINDS : list FlowNodeKind := [KUser; KNode; KToken; KGroup; KModel; KChannel].
Definition SENSITIVE_FLOW_KINDS : list FlowNodeKind := [KUser; KNode; KToken; KGroup; KChannel].
Definition OTHER_FLOW_NODE_ID_SET : list jsstr := List.map OTHER_FLOW_NODE_IDS FLOW_NODE_KINDS.

(** ** Rows to paths *)

Definition numberValue (v : option number) : number :=
  match v with Some x => if is_finite x then x else num_of_Z 0 | None => num_of_Z 0 end.

Definition rowMetrics (row : FlowQuotaDataItem) : FlowMetrics :=
  mkMetrics (numberValue (row_quota row)) (numberValue (row_token_used row))
    (numberValue (row_count row)).

Definition metricValue (m : FlowMetrics) (metric : FlowMetric) : number :=
  match metric with MRequests => m_requests m | MTokens => m_tokens m | MQuota => m_quota m end.

(** [text || fallback] *)
Definition text_or (o : option jsstr) (fallback : jsstr) : jsstr := str_or (default [] o) fallback.

Definition is_positive (x : number) : bool := num_ltb (num_of_Z 0) x.

Definition userNode (row : FlowQuotaDataItem) : FlowPathNode :=
  let userID := numberValue (row_user_id row) in
  mkPathNode
    (js "user:" ++ if is_positive userID then num_to_string userID
                   else text_or (row_username row) (js "unknown"))
    (text_or (row_username row)
       (if is_positive userID then js "user-" ++ num_to_string userID else js "Unknown User"))
    KUser.

Definition nodeNameNode (row : FlowQuotaDataItem) : FlowPathNode :=
  let nodeName := text_or (row_node_name row) (js "default-node") in
  mkPathNode (js "node:" ++ nodeName) nodeName KNode.

Definition deletedTokenLabel (tokenID : number) (ctx : FlowPathContext) : jsstr :=
  if num_leb tokenID (num_of_Z 0) then js "Unknown Token"
  else match ctx with Some f => f tokenID | None => js "token-" ++ num_to_string tokenID end.

Definition tokenNode (row : FlowQuotaDataItem) (ctx : FlowPathContext) : FlowPathNode :=
  let tokenID := numberValue (row_token_id row) in
  mkPathNode
    (js "token:" ++ if is_positive tokenID then num_to_string tokenID
                    else text_or (row_token_name row) (js "unknown"))
    (text_or (row_token_name row) (deletedTokenLabel tokenID ctx)) KToken.

Definition groupNode (row : FlowQuotaDataItem) : FlowPathNode :=
  let useGroup := text_or (row_use_group row) (js "unknown") in
  mkPathNode (js "group:" ++ useGroup) useGroup KGroup.

Definition modelNode (row : FlowQuotaDataItem) : FlowPathNode :=
  mkPathNode (js "model:" ++ text_or (row_model_name row) (js "unknown"))
    (text_or (row_model_name row) (js "Unknown Model")) KModel.

Definition channelNode (row : FlowQuotaDataItem) : FlowPathNode :=
  let channelID := numberValue (row_channel_id row) in
  mkPathNode
    (js "channel:" ++ if is_positive channelID then num_to_string channelID
                      else text_or (row_channel_name row) (js "unknown"))
    (text_or (row_channel_name row)
       (if is_positive channelID then js "channel-" ++ num_to_string channelID else js "Unknown"))
    KChannel.

Definition NODE_BUILDERS (k : FlowNodeKind) (row : FlowQuotaDataItem) (ctx : FlowPathContext)
  : FlowPathNode :=
  match k with
  | KUser => userNode row | KNode => nodeNameNode row | KToken => tokenNode row ctx
  | KGroup => groupNode row | KModel => modelNode row | KChannel => channelNode row
  end.

Definition getFlowStages (role : FlowRole) : list FlowNodeKind :=
  match role with
  | RoleRoot => [KUser; KNode; KToken; KGroup; KModel; KChannel]
  | RoleAdmin => [KUser; KGroup; KModel; KChannel]
  | RoleUser => [KToken; KGroup; KModel]
  end.

Definition MIN_FLOW_STAGES : nat := 2.

Definition resolveVisibleStages (role : FlowRole) (visibleStages : option (list FlowNodeKind))
  : list FlowNodeKind :=
  let stages := getFlowStages role in
  match visibleStages with
  | None => stages
  | Some visible =>
      let filtered := List.filter (fun s => set_has visible s) stages in
      if (MIN_FLOW_STAGES <=? length filtered) then filtered else stages
  end.

Definition flowPathForStages (row : FlowQuotaDataItem) (stages : list FlowNodeKind)
    (ctx : FlowPathContext) : list FlowPathNode :=
  List.map (fun s => NODE_BUILDERS s row ctx) stages.

(** ** Filters *)

Definition filterRows (rows : list FlowQuotaDataItem) (selectedUsers : option (list jsstr))
  : list FlowQuotaDataItem :=
  let selected := js_set (default [] selectedUsers) in
  if (length selected =? 0) then rows
  else List.filter (fun row => set_has selected (fp_id (userNode row))) rows.

Definition NodeFilters := list (FlowNodeKind * list jsstr).

Definition normalizeSelectedNodeFilters (selectedNodes : option (list FlowNodeFilter))
    (stages : list FlowNodeKind) : NodeFilters :=
  fold_left (fun filters f =>
    if set_has stages (ff_kind f)
    then map_put (ff_kind f) [] (fun ids => set_add ids (ff_id f)) filters
    else filters) (default [] selectedNodes) [].

Definition pathMatchesNodeFilters (path : list FlowPathNode) (filters : NodeFilters) : bool :=
  if (length filters =? 0) then true
  else
    let byKind := map_collect fp_kind (fun _ => []) (fun n ids => set_add ids (fp_id n)) path [] in
    forallb (fun f => match map_get f.1 byKind with
                      | None => false
                      | Some pathIds => existsb (fun id => set_has pathIds id) f.2
                      end) filters.

Definition filterRowsByNodes (rows : list FlowQuotaDataItem)
    (selectedNodes : option (list FlowNodeFilter)) (stages : list FlowNodeKind)
    (ctx : FlowPathContext) : list FlowQuotaDataItem :=
  let filters := normalizeSelectedNodeFilters selectedNodes stages in
  if (length filters =? 0) then rows
  else List.filter (fun row => pathMatchesNodeFilters (flowPathForStages row stages ctx) filters) rows.

Definition selectedNodeFiltersExceptKind (selectedNodes : option (list FlowNodeFilter))
    (kind : FlowNodeKind) : option (list FlowNodeFilter) :=
  match List.filter (fun f => negb (bool_decide (ff_kind f = kind))) (default [] selectedNodes) with
  | [] => None
  | filtered => Some filtered
  end.

(** ** Nodes and links *)

Definition addNode (map : list (jsstr * DashboardFlowNode)) (p : FlowPathNode) (ms : FlowMetrics)
    (metric : FlowMetric) (color colorKey : jsstr) : list (jsstr * DashboardFlowNode) :=
  map_put (fp_id p)
    (mkFlowNode (fp_id p) (fp_label p) (fp_kind p) (num_of_Z 0) (num_of_Z 0) (num_of_Z 0)
       (num_of_Z 0) color colorKey None None)
    (fun n => mkFlowNode (n_id n) (n_label n) (n_kind n)
                (num_add (n_value n) (metricValue ms metric))
                (num_add (n_requests n) (m_requests ms)) (num_add (n_quota n) (m_quota ms))
                (num_add (n_tokens n) (m_tokens ms)) (n_color n) (n_colorKey n)
                (n_highlighted n) (n_dimmed n)) map.

(** The separator is U+0000. *)
Definition link_key (source target : jsstr) : jsstr := source ++ 0%N :: target.
Definition pathLinkKey (source target : FlowPathNode) : jsstr := link_key (fp_id source) (fp_id target).
Definition linkStableKey (l : DashboardFlowLink) : jsstr := link_key (l_source l) (l_target l).

Definition addLink (map : list (jsstr * DashboardFlowLink)) (source target : FlowPathNode)
    (ms : FlowMetrics) (metric : FlowMetric) (color colorKey : jsstr)
  : list (jsstr * DashboardFlowLink) :=
  map_put (pathLinkKey source target)
    (mkFlowLink (fp_id source) (fp_id target) (num_of_Z 0) (num_of_Z 0) (num_of_Z 0) (num_of_Z 0)
       (fp_label source) (fp_label target) color color (num_of_Z 1) color colorKey (num_of_Z 0)
       None None)
    (fun l => mkFlowLink (l_source l) (l_target l)
                (num_add (l_value l) (metricValue ms metric))
                (num_add (l_requests l) (m_requests ms)) (num_add (l_quota l) (m_quota ms))
                (num_add (l_tokens l) (m_tokens ms)) (l_sourceLabel l) (l_targetLabel l)
                (l_color l) (l_linkColor l) (l_linkAlpha l) (l_hoverColor l) (l_colorKey l)
                (l_share l) (l_highlighted l) (l_dimmed l)) map.

Definition buildSummary (rows : list FlowQuotaDataItem) : FlowSummary :=
  fold_left (fun s row =>
    let m := rowMetrics row in
    mkSummary (num_add (s_quota s) (m_quota m)) (num_add (s_tokens s) (m_tokens m))
      (num_add (s_requests s) (m_requests m))) rows
    (mkSummary (num_of_Z 0) (num_of_Z 0) (num_of_Z 0)).

(** ** Comparators: the sign of a difference, [||] *)

Definition sign_cmp (x : number) : comparison :=
  if num_ltb x (num_of_Z 0) then Lt else if num_ltb (num_of_Z 0) x then Gt else Eq.
Definition or_cmp (a b : comparison) : comparison := match a with Eq => b | _ => a end.
Definition desc_cmp (a b : number) : comparison := sign_cmp (num_sub b a).

(** ** The node limit *)

Definition normalizeTopNodeLimit (limit : option number) : option number :=
  match limit with
  | None => None
  | Some x =>
      let parsed := math_floor x in
      if is_finite parsed && is_positive parsed then Some parsed else None
  end.

(** [slice(0, limit)] for a positive integer. *)
Definition take_number {A} (limit : number) (l : list A) : list A :=
  match num_to_Z limit with
  | Some z => take (Z.to_nat (Z.min z (Z.of_nat (length l)))) l
  | None => l
  end.

Definition otherFlowNode (kind : FlowNodeKind) (labeler : option (FlowNodeKind -> jsstr))
  : FlowPathNode :=
  mkPathNode (OTHER_FLOW_NODE_IDS kind)
    (match labeler with Some f => f kind | None => DEFAULT_OTHER_FLOW_NODE_LABELS kind end) kind.

Definition TopNodeSets := list (FlowNodeKind * list jsstr).

Definition isTopFlowNode (node : FlowPathNode) (topNodeSets : option TopNodeSets) : bool :=
  match topNodeSets ≫= map_get (fp_kind node) with
  | None => true
  | Some topNodes => set_has topNodes (fp_id node)
  end.

Definition applyTopNodeLimit (path : list FlowPathNode) (topNodeSets : option TopNodeSets)
    (mode : FlowOverflowMode) (labeler : option (FlowNodeKind -> jsstr))
  : option (list FlowPathNode) :=
  match topNodeSets with
  | None => Some path
  | Some _ =>
      if negb (existsb (fun n => negb (isTopFlowNode n topNodeSets)) path) then Some path
      else match mode with
           | Hide => None
           | Aggregate =>
               Some (List.map (fun n => if isTopFlowNode n topNodeSets then n
                                        else otherFlowNode (fp_kind n) labeler) path)
           end
  end.

(** ** Highlights *)

(** The consecutive pairs of a path. *)
Definition path_pairs (path : list FlowPathNode) : list (FlowPathNode * FlowPathNode) :=
  zip path (tail path).

Definition pathContainsFlowNode (path : list FlowPathNode) (f : FlowNodeFilter) : bool :=
  existsb (fun n => bool_decide (fp_kind n = ff_kind f) && bool_decide (fp_id n = ff_id f)) path.

Definition pathContainsFlowLink (path : list FlowPathNode) (l : FlowLinkSelection) : bool :=
  existsb (fun p => bool_decide (fp_id p.1 = fs_source l) && bool_decide (fp_id p.2 = fs_target l))
    (path_pairs path).

Definition matchesPath (activeNode : option FlowNodeFilter) (activeLink : option FlowLinkSelection)
    (path : list FlowPathNode) : bool :=
  match activeLink with
  | Some l => pathContainsFlowLink path l
  | None => match activeNode with Some f => pathContainsFlowNode path f | None => false end
  end.

Definition buildFlowHighlightSets (preparedPaths : list PreparedFlowPath)
    (activeNode : option FlowNodeFilter) (activeLink : option FlowLinkSelection)
    (stages : list FlowNodeKind) : option FlowHighlightSets :=
  let nodeActive := match activeNode with Some f => set_has stages (ff_kind f) | None => false end in
  if negb nodeActive && negb (match activeLink with Some _ => true | None => false end) then None
  else
    let matching := List.filter (fun p => matchesPath activeNode activeLink (pp_path p)) preparedPaths in
    let nodes := js_set (flat_map (fun p => List.map fp_id (pp_path p)) matching) in
    let links := js_set (flat_map (fun p =>
      List.map (fun st => pathLinkKey st.1 st.2) (path_pairs (pp_path p))) matching) in
    if (length nodes =? 0) then None else Some (mkHighlight nodes links).

(** ** Masking *)

Definition FLOW_MASK_TEXT : jsstr := replicate 4 8226%N.
Definition maskFlowLabel (label : jsstr) : jsstr :=
  if (length label =? 0) then label else FLOW_MASK_TEXT.

Definition is_masked_node (n : DashboardFlowNode) : bool :=
  set_has SENSITIVE_FLOW_KINDS (n_kind n) && negb (set_has OTHER_FLOW_NODE_ID_SET (n_id n)).

Definition set_node_label (s : jsstr) (n : DashboardFlowNode) : DashboardFlowNode :=
  mkFlowNode (n_id n) s (n_kind n) (n_value n) (n_requests n) (n_quota n) (n_tokens n) (n_color n)
    (n_colorKey n) (n_highlighted n) (n_dimmed n).
Definition set_link_labels (s t : jsstr) (l : DashboardFlowLink) : DashboardFlowLink :=
  mkFlowLink (l_source l) (l_target l) (l_value l) (l_requests l) (l_quota l) (l_tokens l) s t
    (l_color l) (l_linkColor l) (l_linkAlpha l) (l_hoverColor l) (l_colorKey l) (l_share l)
    (l_highlighted l) (l_dimmed l).

Definition maskFlowGraphLabels (nodes : list DashboardFlowNode) (links : list DashboardFlowLink)
  : list DashboardFlowNode * list DashboardFlowLink :=
  let nodes' := List.map (fun n => if is_masked_node n
                                   then set_node_label (maskFlowLabel (n_label n)) n else n) nodes in
  let maskedById :=
    fold_left (fun m n => map_set (n_id n) (maskFlowLabel (n_label n)) m)
      (List.filter is_masked_node nodes) [] in
  if (length maskedById =? 0) then (nodes', links)
  else (nodes', List.map (fun l =>
          set_link_labels (default (l_sourceLabel l) (map_get (l_source l) maskedById))
            (default (l_targetLabel l) (map_get (l_target l) maskedById)) l) links).

Definition applyFlowHighlights (nodes : list DashboardFlowNode) (links : list DashboardFlowLink)
    (highlightSets : option FlowHighlightSets) : list DashboardFlowNode * list DashboardFlowLink :=
  match highlightSets with
  | None => (nodes, links)
  | Some hs =>
      (List.map (fun n =>
         let h := set_has (hl_nodes hs) (n_id n) in
         mkFlowNode (n_id n) (n_label n) (n_kind n) (n_value n) (n_requests n) (n_quota n)
           (n_tokens n) (n_color n) (n_colorKey n) (Some h) (Some (negb h))) nodes,
       List.map (fun l =>
         let h := set_has (hl_links hs) (linkStableKey l) in
         mkFlowLink (l_source l) (l_target l) (l_value l) (l_requests l) (l_quota l) (l_tokens l)
           (l_sourceLabel l) (l_targetLabel l) (l_color l) (l_linkColor l) (l_linkAlpha l)
           (l_hoverColor l) (l_colorKey l) (l_share l) (Some h) (Some (negb h))) links)
  end.

(** ** Colors *)

(** A data scheme of the chart library: the largest domain it serves and those
    of its colors that are strings. *)
Record DataScheme := mkScheme { maxDomainLength : option nat; scheme : list jsstr }.

(** [x.toFixed(f)] for a finite [x] below 10^21. *)
Definition fixed_digits (f : nat) (m : positive) (e : Z) : N :=
  let scaled := (2 * Z.pos m * 10 ^ Z.of_nat f)%Z in
  Z.to_N (if (0 <=? e)%Z then scaled * 2 ^ e / 2
          else (scaled + 2 ^ (- e)) / (2 * 2 ^ (- e)))%Z.
Definition point_digits (f : nat) (n : N) : jsstr :=
  let ds := dec_of_N n in
  let ds := zeros (S f - length ds) ++ ds in
  if (f =? 0) then ds else take (length ds - f) ds ++ js "." ++ drop (length ds - f) ds.
Definition to_fixed (f : nat) (x : number) : jsstr :=
  match x with
  | S754_finite s m e => (if s then js "-" else []) ++ point_digits f (fixed_digits f m e)
  | S754_zero _ => point_digits f 0
  | _ => num_to_string x
  end.

Definition is_hex (c : N) : bool :=
  is_digit c || ((97 <=? c) && (c <=? 102))%N || ((65 <=? c) && (c <=? 70))%N.
Definition hex_value (c : N) : Z :=
  Z.of_N (if is_digit c then c - 48 else if (97 <=? c)%N then c - 87 else c - 55).

Definition alphaColor (color : jsstr) (alpha : number) : jsstr * number :=
  let normalized := trim color in
  let hex := if starts_with (js "#") normalized then drop 1 normalized else normalized in
  if negb ((length hex =? 6) && forallb is_hex hex) then (normalized, alpha)
  else
    let value := fold_left (fun acc c => (acc * 16 + hex_value c)%Z) hex 0%Z in
    let byte b := dec_of_N (Z.to_N (Z.land b 255)) in
    (js "rgba(" ++ byte (Z.shiftr value 16) ++ js ", " ++ byte (Z.shiftr value 8) ++ js ", "
       ++ byte value ++ js ", " ++ to_fixed 2 alpha ++ js ")", num_of_Z 1).

Definition set_link_share (x : number) (l : DashboardFlowLink) : DashboardFlowLink :=
  mkFlowLink (l_source l) (l_target l) (l_value l) (l_requests l) (l_quota l) (l_tokens l)
    (l_sourceLabel l) (l_targetLabel l) (l_color l) (l_linkColor l) (l_linkAlpha l)
    (l_hoverColor l) (l_colorKey l) x (l_highlighted l) (l_dimmed l).
Definition set_link_display (color : jsstr) (alpha : number) (l : DashboardFlowLink)
  : DashboardFlowLink :=
  mkFlowLink (l_source l) (l_target l) (l_value l) (l_requests l) (l_quota l) (l_tokens l)
    (l_sourceLabel l) (l_targetLabel l) (l_color l) color alpha (l_color l) (l_colorKey l)
    (l_share l) (l_highlighted l) (l_dimmed l).

(** The position of the first element with a property. *)
Fixpoint position {A} (p : A -> bool) (l : list A) : nat :=
  match l with [] => 0 | x :: l' => if p x then 0 else S (position p l') end.

Section Build.
Context (collate : jsstr -> jsstr -> comparison) (formatNumber : number -> jsstr)
  (dataScheme : list DataScheme).

Definition getDashboardChartColors (domainLength : nat) : list jsstr :=
  match List.find (fun item => match maxDomainLength item with
                               | None | Some 0 => true
                               | Some m => (domainLength <=? m)
                               end) dataScheme with
  | Some s => scheme s
  | None => match last dataScheme with Some s => scheme s | None => [] end
  end.

Definition colorAt (index : nat) (palette : option (list jsstr)) : jsstr :=
  let colors := match palette with
                | Some ((_ :: _) as p) => p
                | _ => getDashboardChartColors (index + 1)
                end in
  if (length colors =? 0) then DEFAULT_FLOW_CHART_COLOR
  else default DEFAULT_FLOW_CHART_COLOR (colors !! (index mod length colors)).

Definition colorPalette (colorCount : nat) (palette : option (list jsstr)) : list jsstr :=
  match palette with
  | Some ((_ :: _) as p) => p
  | _ => match getDashboardChartColors colorCount with
         | [] => [DEFAULT_FLOW_CHART_COLOR]
         | colors => colors
         end
  end.

Definition stableColorMap (keys : list jsstr) (palette : option (list jsstr)) : list (jsstr * jsstr) :=
  let uniqueKeys := js_set keys in
  let colors := colorPalette (length uniqueKeys) palette in
  imap (fun i k => (k, colorAt i (Some colors))) uniqueKeys.

(** The links of a source, in order, sorted by value; the place of a link in
    them decides its transparency. *)
Definition by_value_then_key (a b : DashboardFlowLink) : comparison :=
  or_cmp (desc_cmp (l_value a) (l_value b)) (collate (linkStableKey a) (linkStableKey b)).

Definition link_alpha (index count : nat) : number :=
  if (count =? 1) then decimal_value false 34 (-2)
  else num_add (decimal_value false 24 (-2))
         (num_mul (num_div (num_of_nat index) (num_of_nat (Nat.max (count - 1) 1)))
            (decimal_value false 2 (-1))).

Definition assignLinkDisplayColors (links : list DashboardFlowLink) : list DashboardFlowLink :=
  List.map (fun l =>
    let sourceLinks := List.filter (fun l' => bool_decide (l_source l' = l_source l)) links in
    let sortedLinks := js_sort by_value_then_key sourceLinks in
    let index := position (fun l' => bool_decide (linkStableKey l' = linkStableKey l)) sortedLinks in
    let '(color, alpha) := alphaColor (l_color l) (link_alpha index (length sortedLinks)) in
    set_link_display color alpha l) links.

Definition byValueThenLabel (a b : DashboardFlowNode) : comparison :=
  or_cmp (desc_cmp (n_value a) (n_value b)) (collate (n_label a) (n_label b)).

(** ** The top nodes of each stage *)

Definition rank_cmp (a b : FlowNodeRank) : comparison :=
  or_cmp (desc_cmp (rank_value a) (rank_value b))
    (or_cmp (collate (fp_label (rank_node a)) (fp_label (rank_node b)))
       (collate (fp_id (rank_node a)) (fp_id (rank_node b)))).

Definition add_rank (value : number) (node : FlowPathNode) (m : list (jsstr * FlowNodeRank))
  : list (jsstr * FlowNodeRank) :=
  map_put (fp_id node) (mkRank node (num_of_Z 0))
    (fun r => mkRank (rank_node r) (num_add (rank_value r) value)) m.

Definition rank_totals (rows : list FlowQuotaDataItem) (metric : FlowMetric)
    (stages : list FlowNodeKind) (ctx : FlowPathContext)
  : list (FlowNodeKind * list (jsstr * FlowNodeRank)) :=
  fold_left (fun totals row =>
    let value := metricValue (rowMetrics row) metric in
    fold_left (fun totals node =>
      match map_get (fp_kind node) totals with
      | None => totals
      | Some stageTotals => map_set (fp_kind node) (add_rank value node stageTotals) totals
      end) (flowPathForStages row stages ctx) totals)
    rows (fold_left (fun m s => map_set s [] m) stages []).

Definition buildTopNodeSets (rows : list FlowQuotaDataItem) (metric : FlowMetric)
    (stages : list FlowNodeKind) (limit : option number) (ctx : FlowPathContext)
  : option TopNodeSets :=
  match limit with
  | None => None
  | Some lim =>
      if negb (num_truthy lim) then None
      else Some (List.map (fun kt =>
             (kt.1, js_set (List.map (fun r => fp_id (rank_node r))
                              (take_number lim (js_sort rank_cmp (map_values kt.2))))))
             (rank_totals rows metric stages ctx))
  end.

(** ** [buildFlowGraph] *)

Definition prepare_paths (rows : list FlowQuotaDataItem) (stages : list FlowNodeKind)
    (ctx : FlowPathContext) (topNodeSets : option TopNodeSets) (mode : FlowOverflowMode)
    (labeler : option (FlowNodeKind -> jsstr)) : list PreparedFlowPath :=
  omap (fun row => (fun path => mkPrepared path (rowMetrics row))
          <$> applyTopNodeLimit (flowPathForStages row stages ctx) topNodeSets mode labeler) rows.

Definition root_ids (preparedPaths : list PreparedFlowPath) : list jsstr :=
  List.filter nonempty (omap (fun p => fp_id <$> head (pp_path p)) preparedPaths).

(** The loop that fills the two maps. *)
Definition add_path (colors : list (jsstr * jsstr)) (palette : option (list jsstr))
    (metric : FlowMetric)
    (maps : list (jsstr * DashboardFlowNode) * list (jsstr * DashboardFlowLink))
    (p : PreparedFlowPath)
  : list (jsstr * DashboardFlowNode) * list (jsstr * DashboardFlowLink) :=
  match pp_path p with
  | [] => maps
  | root :: _ =>
      let color := default (colorAt 0 palette) (map_get (fp_id root) colors) in
      (fold_left (fun m n => addNode m n (pp_metrics p) metric color (fp_id root))
         (pp_path p) maps.1,
       fold_left (fun m st => addLink m st.1 st.2 (pp_metrics p) metric color (fp_id root))
         (path_pairs (pp_path p)) maps.2)
  end.

Definition link_cmp (a b : DashboardFlowLink) : comparison :=
  or_cmp (collate (l_source a) (l_source b)) (collate (l_target a) (l_target b)).

Definition buildFlowGraph (rows : list FlowQuotaDataItem) (metric : FlowMetric) (role : FlowRole)
    (palette : option (list jsstr)) (visibleStages : option (list FlowNodeKind))
    (ctx : FlowPathContext) (options : FlowGraphOptions) : DashboardFlowGraph :=
  let stages := resolveVisibleStages role visibleStages in
  let topNodeSets :=
    buildTopNodeSets rows metric stages (normalizeTopNodeLimit (go_topNodeLimit options)) ctx in
  let overflowMode := default DEFAULT_FLOW_OVERFLOW_MODE (go_overflowMode options) in
  let preparedPaths :=
    prepare_paths rows stages ctx topNodeSets overflowMode (go_otherNodeLabel options) in
  let colors := stableColorMap (js_sort collate (root_ids preparedPaths)) palette in
  let maps := fold_left (add_path colors palette metric) preparedPaths ([], []) in
  let nodes := map_values maps.1 in
  let links := map_values maps.2 in
  let '(nodes, links) :=
    if go_maskSensitive options then maskFlowGraphLabels nodes links else (nodes, links) in
  let '(nodes, links) :=
    applyFlowHighlights nodes links
      (buildFlowHighlightSets preparedPaths (go_activeNode options) (go_activeLink options) stages) in
  let flowLinks := js_sort link_cmp links in
  let firstStepSources := js_set (root_ids preparedPaths) in
  let total := num_sum (List.map l_value
    (List.filter (fun l => set_has firstStepSources (l_source l)) flowLinks)) in
  let flowLinks := List.map (fun l =>
    set_link_share (if is_positive total then num_div (l_value l) total else num_of_Z 0) l) flowLinks in
  mkGraph (js_sort byValueThenLabel nodes) (assignLinkDisplayColors flowLinks).

(** ** The options of the filters *)

Definition is_truthy_number (o : option number) : bool :=
  match o with Some x => num_truthy x | None => false end.

Definition buildUserFilterOptions (rows : list FlowQuotaDataItem) (metric : FlowMetric)
    (palette : option (list jsstr)) : list FlowUserFilterOption :=
  let colors :=
    stableColorMap (js_sort collate (List.map (fun row => fp_id (userNode row)) rows)) palette in
  let counted := List.filter (fun row =>
    is_truthy_number (row_user_id row) || nonempty (default [] (row_username row))) rows in
  let users : list (jsstr * (jsstr * number * jsstr)) :=
    map_collect (fun row => fp_id (userNode row))
      (fun row => let user := userNode row in
         (fp_label user, num_of_Z 0,
          default (colorAt 0 palette) (map_get (fp_id user) colors)))
      (fun row v => let '(label, value, color) := v in
         (label, num_add value (metricValue (rowMetrics row) metric), color)) counted [] in
  js_sort (fun a b => or_cmp (desc_cmp (uo_valueRaw a) (uo_valueRaw b))
                        (collate (uo_label a) (uo_label b)))
    (List.map (fun e => let '(label, value, color) := e.2 in
       mkUserOption e.1 label (formatNumber value) value color) users).

Definition nodeFilterKey (f : FlowNodeFilter) : jsstr := kind_name (ff_kind f) ++ 0%N :: ff_id f.

(** The options of one stage: the rows that pass the filters of the others. *)
Definition stage_totals (rows : list FlowQuotaDataItem) (metric : FlowMetric)
    (stages : list FlowNodeKind) (ctx : FlowPathContext)
    (selectedNodes : option (list FlowNodeFilter)) (stage : FlowNodeKind)
  : list (jsstr * FlowNodeRank) :=
  let candidateRows :=
    filterRowsByNodes rows (selectedNodeFiltersExceptKind selectedNodes stage) stages ctx in
  map_collect (fun row => let node := NODE_BUILDERS stage row ctx in
                 nodeFilterKey (mkFilter (fp_kind node) (fp_id node)))
    (fun row => mkRank (NODE_BUILDERS stage row ctx) (num_of_Z 0))
    (fun row r => mkRank (rank_node r) (num_add (rank_value r) (metricValue (rowMetrics row) metric)))
    candidateRows [].

Definition nat_cmp (a b : nat) : comparison := Nat.compare a b.
Definition stage_order (stages : list FlowNodeKind) (k : FlowNodeKind) : nat :=
  let i := position (fun s => bool_decide (s = k)) stages in
  if (i <? length stages) then i else 0.

Definition node_option_cmp (stages : list FlowNodeKind) (a b : FlowNodeFilterOption) : comparison :=
  or_cmp (nat_cmp (stage_order stages (no_kind a)) (stage_order stages (no_kind b)))
    (or_cmp (desc_cmp (no_valueRaw a) (no_valueRaw b))
       (or_cmp (collate (no_label a) (no_label b)) (collate (no_value a) (no_value b)))).

Definition buildNodeFilterOptions (rows : list FlowQuotaDataItem) (metric : FlowMetric)
    (role : FlowRole) (visibleStages : option (list FlowNodeKind)) (palette : option (list jsstr))
    (ctx : FlowPathContext) (selectedNodes : option (list FlowNodeFilter))
  : list FlowNodeFilterOption :=
  let stages := resolveVisibleStages role visibleStages in
  let colorIds :=
    js_set (flat_map (fun row => List.map fp_id (flowPathForStages row stages ctx)) rows) in
  let colors := stableColorMap (js_sort collate colorIds) palette in
  let options := flat_map (fun stage =>
    List.map (fun r =>
      mkNodeOption (fp_kind (rank_node r)) (fp_id (rank_node r)) (fp_label (rank_node r))
        (formatNumber (rank_value r)) (rank_value r)
        (default (colorAt 0 palette) (map_get (fp_id (rank_node r)) colors)))
      (map_values (stage_totals rows metric stages ctx selectedNodes stage))) stages in
  js_sort (node_option_cmp stages) options.

Definition buildFlowFilterOptions (rows : list FlowQuotaDataItem) (metric : FlowMetric)
    (palette : option (list jsstr)) (role : FlowRole) (visibleStages : option (list FlowNodeKind))
    (selectedNodes : option (list FlowNodeFilter)) : FlowFilterOptions :=
  mkFilterOptions (buildUserFilterOptions rows metric palette)
    (buildNodeFilterOptions rows metric role visibleStages palette EMPTY_FLOW_PATH_CONTEXT
       selectedNodes).

Definition buildDashboardFlowData (rows : list FlowQuotaDataItem) (metric : FlowMetric)
    (options : FlowBuildOptions) : ProcessedFlowData :=
  let role := default DEFAULT_FLOW_ROLE (o_role options) in
  let palette := o_colorPalette options in
  let ctx := o_deletedTokenLabel options in
  let stages := resolveVisibleStages role (o_visibleStages options) in
  let userFilteredRows := filterRows rows (o_selectedUsers options) in
  let filteredRows := filterRowsByNodes userFilteredRows (o_selectedNodes options) stages ctx in
  mkProcessed (buildSummary filteredRows)
    (buildFlowGraph filteredRows metric role palette (o_visibleStages options) ctx
       (mkGraphOptions (o_topNodeLimit options) (o_overflowMode options) (o_otherNodeLabel options)
          (o_activeNode options) (o_activeLink options) (o_maskSensitive options)))
    (mkFilterOptions (buildUserFilterOptions rows metric palette)
       (buildNodeFilterOptions userFilteredRows metric role (o_visibleStages options) palette ctx
          (o_selectedNodes options))).

(** ** The data of the chart ([buildFlowSankeySpec]) *)

(** [Number(flag)], [NaN] for [undefined]. *)
Definition flag_number (o : option bool) : number :=
  match o with Some true => num_of_Z 1 | Some false => num_of_Z 0 | None => NaN end.

Definition byLinkDrawPriority (a b : DashboardFlowLink) : comparison :=
  or_cmp (sign_cmp (num_sub (flag_number (l_dimmed a)) (flag_number (l_dimmed b))))
    (or_cmp (sign_cmp (num_sub (flag_number (l_highlighted b)) (flag_number (l_highlighted a))))
       (or_cmp (desc_cmp (l_value a) (l_value b)) (collate (linkStableKey a) (linkStableKey b)))).

Definition link_zIndex (index : nat) (l : DashboardFlowLink) : Z :=
  if bool_decide (l_highlighted l = Some true) then 1000000 + Z.of_nat index
  else if bool_decide (l_dimmed l = Some true) then Z.of_nat index
  else 100000 + Z.of_nat index.

(** The links handed to the chart, each with its [zIndex]. *)
Definition sankey_links (flow : DashboardFlowGraph) : list (DashboardFlowLink * Z) :=
  imap (fun i l => (l, link_zIndex i l))
    (js_sort byLinkDrawPriority (List.filter (fun l => is_positive (l_value l)) (g_links flow))).
End Build.

(** ** [flow-selection.ts] *)

Inductive FlowDisplayState := DisplayLoading | DisplayError | DisplayEmpty | DisplayChart.

Record FlowResponse := mkResponse {
  fr_success : bool; fr_data : option (list FlowQuotaDataItem); fr_message : option jsstr }.

(** The rows, or the message of the error that is thrown. *)
Definition requireSuccessfulFlowRows (response : FlowResponse) (fallbackMessage : jsstr)
  : list FlowQuotaDataItem + jsstr :=
  if fr_success response then inl (default [] (fr_data response))
  else inr (text_or (fr_message response) fallbackMessage).

Definition flowDisplayState (isLoading isError : bool) (linkCount : nat) (themeReady : bool)
  : FlowDisplayState :=
  if isLoading then DisplayLoading else if isError then DisplayError
  else if (linkCount =? 0) then DisplayEmpty
  else if negb themeReady then DisplayLoading else DisplayChart.

Definition compactFlowSelectionLabel (count : number) : jsstr :=
  if is_positive count then num_to_string count else js "*".

Definition visibleFlowUsers (users : list FlowUserFilterOption) (selectedUsers : list jsstr)
  : list FlowUserFilterOption :=
  if (length selectedUsers =? 0) then users
  else let selected := js_set selectedUsers in
       List.filter (fun u => set_has selected (uo_value u)) users.
