(* ===== verification/FlowGraphFacts.v ===== *)
(** * Correctness of the flow dashboard

    The maps of [buildFlowGraph] are described by the visits of the prepared
    paths: a node collects the visits of its id, a link those of its two ids.
    From this follow the shape of the graph, the conservation of the flow at
    every node, the node limit, the masking and the highlights. *)

From S2P Require Import Prelude JsNumber JsMap FlowGraph.

(** ** Ids name their stage *)

Definition kind_prefix (k : FlowNodeKind) : jsstr := kind_name k ++ js ":".

(** The id of a path node starts with the name of its kind. *)
Definition kinded (n : FlowPathNode) : Prop := exists rest, fp_id n = kind_prefix (fp_kind n) ++ rest.

Lemma kind_prefix_inj k k' x y : kind_prefix k ++ x = kind_prefix k' ++ y -> k = k'.
Proof. by destruct k, k'; intros E; vm_compute in E; simplify_eq. Qed.

Lemma kinded_inj a b : kinded a -> kinded b -> fp_id a = fp_id b -> fp_kind a = fp_kind b.
Proof. intros [x Hx] [y Hy] E. rewrite Hx, Hy in E. exact (kind_prefix_inj _ _ _ _ E). Qed.

Lemma NODE_BUILDERS_kind k row ctx : fp_kind (NODE_BUILDERS k row ctx) = k.
Proof. by destruct k. Qed.

Lemma NODE_BUILDERS_kinded k row ctx : kinded (NODE_BUILDERS k row ctx).
Proof. destruct k; eexists; reflexivity. Qed.

Lemma otherFlowNode_kinded k labeler : kinded (otherFlowNode k labeler).
Proof. exists (js "__other__"). by destruct k. Qed.

Create HintDb flow.
#[export] Hint Resolve NODE_BUILDERS_kinded otherFlowNode_kinded : flow.

(** ** Stages *)

Lemma getFlowStages_NoDup role : NoDup (getFlowStages role).
Proof. destruct role; apply (bool_decide_unpack _); vm_compute; exact I. Qed.

Lemma resolveVisibleStages_spec role visible :
  (resolveVisibleStages role visible) `sublist_of` getFlowStages role
  /\ MIN_FLOW_STAGES <= length (resolveVisibleStages role visible).
Proof.
  unfold resolveVisibleStages. destruct visible as [v|].
  - destruct (Nat.leb_spec MIN_FLOW_STAGES
      (length (List.filter (fun s => set_has v s) (getFlowStages role)))) as [E|E].
    + split; [apply List_filter_sublist|done].
    + split; [done|]. destruct role; vm_compute; lia.
  - split; [done|]. destruct role; vm_compute; lia.
Qed.

Lemma resolveVisibleStages_NoDup role visible : NoDup (resolveVisibleStages role visible).
Proof.
  apply (sublist_NoDup _ (getFlowStages role)); [apply getFlowStages_NoDup|].
  apply resolveVisibleStages_spec.
Qed.

(** ** Prepared paths *)

(** A path over the stages: one node per stage, in order, each named for it. *)
Definition path_over (stages : list FlowNodeKind) (path : list FlowPathNode) : Prop :=
  fp_kind <$> path = stages /\ Forall kinded path.

Lemma flowPathForStages_over row stages ctx : path_over stages (flowPathForStages row stages ctx).
Proof.
  unfold flowPathForStages. split.
  - induction stages as [|k stages IH]; [done|]. simpl. by rewrite NODE_BUILDERS_kind; f_equal.
  - rewrite Forall_forall. intros n (k & -> & _)%list_elem_of_fmap. auto with flow.
Qed.

Lemma applyTopNodeLimit_over stages path tops mode labeler path' :
  path_over stages path -> applyTopNodeLimit path tops mode labeler = Some path' ->
  path_over stages path'.
Proof.
  unfold applyTopNodeLimit. intros [Hk Hf]. destruct tops as [tops|]; [|by intros [= <-]].
  destruct (negb _); [by intros [= <-]|]. destruct mode; [|done]. intros [= <-]. split.
  - rewrite <- Hk. clear. induction path as [|n path IH]; [done|]. simpl. f_equal; [|exact IH].
    by destruct (isTopFlowNode n _).
  - rewrite Forall_forall in *. intros n (m & -> & Hm)%list_elem_of_fmap.
    destruct (isTopFlowNode m _); auto with flow.
Qed.

Lemma prepare_paths_over rows stages ctx tops mode labeler p :
  p ∈ prepare_paths rows stages ctx tops mode labeler -> path_over stages (pp_path p).
Proof.
  unfold prepare_paths. rewrite list_elem_of_omap. intros (row & _ & E).
  apply fmap_Some in E as (path & E & ->). simpl.
  eapply applyTopNodeLimit_over; [apply flowPathForStages_over|exact E].
Qed.

Lemma path_over_ids_NoDup stages path :
  NoDup stages -> path_over stages path -> NoDup (fp_id <$> path).
Proof.
  intros Hs [<- Hf]. induction path as [|n path IH]; simpl in *; [constructor|].
  apply NoDup_cons in Hs as [Hn Hs]. apply Forall_cons in Hf as [Hk Hf].
  constructor; [|by apply IH]. intros (m & E & Hm)%list_elem_of_fmap. apply Hn.
  rewrite (kinded_inj n m); [by apply list_elem_of_fmap_2|done| |done].
  rewrite Forall_forall in Hf. by apply Hf.
Qed.

(** ** Visits

    What the loop of [buildFlowGraph] adds to the maps, one visit at a time. *)

Record Visit (A : Type) := mkVisit {
  v_item : A; v_metrics : FlowMetrics; v_color : jsstr; v_root : jsstr }.
Arguments mkVisit {A}.
Arguments v_item {A}.
Arguments v_metrics {A}.
Arguments v_color {A}.
Arguments v_root {A}.

Definition node_key (v : Visit FlowPathNode) : jsstr := fp_id (v_item v).
Definition pair_key (v : Visit (FlowPathNode * FlowPathNode)) : jsstr :=
  pathLinkKey (v_item v).1 (v_item v).2.

Definition node_init (v : Visit FlowPathNode) : DashboardFlowNode :=
  let p := v_item v in
  mkFlowNode (fp_id p) (fp_label p) (fp_kind p) (num_of_Z 0) (num_of_Z 0) (num_of_Z 0)
    (num_of_Z 0) (v_color v) (v_root v) None None.
Definition node_add (metric : FlowMetric) (v : Visit FlowPathNode) (n : DashboardFlowNode)
  : DashboardFlowNode :=
  mkFlowNode (n_id n) (n_label n) (n_kind n)
    (num_add (n_value n) (metricValue (v_metrics v) metric))
    (num_add (n_requests n) (m_requests (v_metrics v))) (num_add (n_quota n) (m_quota (v_metrics v)))
    (num_add (n_tokens n) (m_tokens (v_metrics v))) (n_color n) (n_colorKey n)
    (n_highlighted n) (n_dimmed n).

Definition link_init (v : Visit (FlowPathNode * FlowPathNode)) : DashboardFlowLink :=
  let '(s, t) := v_item v in
  mkFlowLink (fp_id s) (fp_id t) (num_of_Z 0) (num_of_Z 0) (num_of_Z 0) (num_of_Z 0)
    (fp_label s) (fp_label t) (v_color v) (v_color v) (num_of_Z 1) (v_color v) (v_root v)
    (num_of_Z 0) None None.
Definition link_add (metric : FlowMetric) (v : Visit (FlowPathNode * FlowPathNode))
    (l : DashboardFlowLink) : DashboardFlowLink :=
  mkFlowLink (l_source l) (l_target l)
    (num_add (l_value l) (metricValue (v_metrics v) metric))
    (num_add (l_requests l) (m_requests (v_metrics v))) (num_add (l_quota l) (m_quota (v_metrics v)))
    (num_add (l_tokens l) (m_tokens (v_metrics v))) (l_sourceLabel l) (l_targetLabel l)
    (l_color l) (l_linkColor l) (l_linkAlpha l) (l_hoverColor l) (l_colorKey l) (l_share l)
    (l_highlighted l) (l_dimmed l).

(** The visits of one path to the items [f] names, with the color of its root. *)
Definition path_visits {A} (f : list FlowPathNode -> list A) (color : jsstr -> jsstr)
    (p : PreparedFlowPath) : list (Visit A) :=
  match pp_path p with
  | [] => []
  | root :: _ =>
      (fun x => mkVisit x (pp_metrics p) (color (fp_id root)) (fp_id root)) <$> f (pp_path p)
  end.
Definition visits {A} (f : list FlowPathNode -> list A) (color : jsstr -> jsstr)
    (ps : list PreparedFlowPath) : list (Visit A) := flat_map (path_visits f color) ps.

Lemma fold_left_fmap {A B C} (f : C -> B -> C) (g : A -> B) l acc :
  fold_left f (g <$> l) acc = fold_left (fun c x => f c (g x)) l acc.
Proof. revert acc. induction l as [|x l IH]; intros acc; [done|]. apply IH. Qed.

Lemma fold_left_ext {A C} (f g : C -> A -> C) l acc :
  (forall c x, f c x = g c x) -> fold_left f l acc = fold_left g l acc.
Proof.
  intros H. revert acc. induction l as [|x l IH]; intros acc; [done|]. simpl. by rewrite H, IH.
Qed.

Section Visits.
Context (collate : jsstr -> jsstr -> comparison) (formatNumber : number -> jsstr)
  (dataScheme : list DataScheme).

Definition root_color (colors : list (jsstr * jsstr)) (palette : option (list jsstr)) (root : jsstr)
  : jsstr := default (colorAt dataScheme 0 palette) (map_get root colors).

Lemma add_path_visits colors palette metric ps ms ls :
  fold_left (add_path dataScheme colors palette metric) ps (ms, ls)
  = (map_collect node_key node_init (node_add metric)
       (visits id (root_color colors palette) ps) ms,
     map_collect pair_key link_init (link_add metric)
       (visits path_pairs (root_color colors palette) ps) ls).
Proof.
  revert ms ls. induction ps as [|p ps IH]; intros ms ls; [done|]. cbn [fold_left].
  unfold visits in *. cbn [flat_map]. unfold map_collect in *. rewrite !fold_left_app.
  destruct (add_path dataScheme colors palette metric (ms, ls) p) as [ms' ls'] eqn:E.
  rewrite IH. unfold add_path in E. unfold path_visits at 4 6.
  destruct (pp_path p) as [|root path]; [by injection E as <- <-|]. rewrite !fold_left_fmap.
  injection E as <- <-. f_equal.
  f_equal. apply fold_left_ext. by intros c [s t].
Qed.

(** The paths of the graph, named as in [buildFlowGraph]. *)
Definition prepared (rows : list FlowQuotaDataItem) (metric : FlowMetric)
    (stages : list FlowNodeKind) (ctx : FlowPathContext) (options : FlowGraphOptions)
  : list PreparedFlowPath :=
  prepare_paths rows stages ctx
    (buildTopNodeSets collate rows metric stages (normalizeTopNodeLimit (go_topNodeLimit options)) ctx)
    (default DEFAULT_FLOW_OVERFLOW_MODE (go_overflowMode options)) (go_otherNodeLabel options).

Definition collected_nodes (metric : FlowMetric) (palette : option (list jsstr))
    (ps : list PreparedFlowPath) : list (jsstr * DashboardFlowNode) :=
  map_collect node_key node_init (node_add metric)
    (visits id (root_color (stableColorMap dataScheme (js_sort collate (root_ids ps)) palette) palette)
       ps) [].
Definition collected_links (metric : FlowMetric) (palette : option (list jsstr))
    (ps : list PreparedFlowPath) : list (jsstr * DashboardFlowLink) :=
  map_collect pair_key link_init (link_add metric)
    (visits path_pairs
       (root_color (stableColorMap dataScheme (js_sort collate (root_ids ps)) palette) palette) ps) [].

(** What masking, highlights, shares and colors leave alone. *)
Definition node_core (n : DashboardFlowNode) :=
  (n_id n, n_kind n, n_value n, n_requests n, n_quota n, n_tokens n).
Definition link_core (l : DashboardFlowLink) :=
  (l_source l, l_target l, l_value l, l_requests l, l_quota l, l_tokens l).

Lemma maskFlowGraphLabels_core nodes links :
  node_core <$> (maskFlowGraphLabels nodes links).1 = node_core <$> nodes
  /\ link_core <$> (maskFlowGraphLabels nodes links).2 = link_core <$> links.
Proof.
  unfold maskFlowGraphLabels. destruct (_ =? 0); cbn [fst snd]; split; try done;
    rewrite <- list_fmap_compose; apply list_fmap_ext; intros _ x _; simpl; try done;
    by destruct (is_masked_node x).
Qed.

Lemma applyFlowHighlights_core nodes links hs :
  node_core <$> (applyFlowHighlights nodes links hs).1 = node_core <$> nodes
  /\ link_core <$> (applyFlowHighlights nodes links hs).2 = link_core <$> links.
Proof.
  destruct hs as [hs|]; [|done]. simpl.
  split; rewrite <- list_fmap_compose; by apply list_fmap_ext.
Qed.

Lemma assignLinkDisplayColors_core links :
  link_core <$> assignLinkDisplayColors collate links = link_core <$> links.
Proof.
  unfold assignLinkDisplayColors. rewrite <- list_fmap_compose. apply list_fmap_ext.
  intros _ l _. simpl. by destruct (alphaColor _ _).
Qed.

(** The share of each link in the links from the roots. *)
Definition shared_links (roots : list jsstr) (links : list DashboardFlowLink) : list DashboardFlowLink :=
  let total := num_sum (List.map l_value (List.filter (fun l => set_has roots (l_source l)) links)) in
  List.map (fun l =>
    set_link_share (if is_positive total then num_div (l_value l) total else num_of_Z 0) l) links.

Section Graph.
Context (rows : list FlowQuotaDataItem) (metric : FlowMetric) (role : FlowRole)
  (palette : option (list jsstr)) (visible : option (list FlowNodeKind)) (ctx : FlowPathContext)
  (options : FlowGraphOptions).

Let stages := resolveVisibleStages role visible.
Let ps := prepared rows metric stages ctx options.
Let g := buildFlowGraph collate dataScheme rows metric role palette visible ctx options.

(** The nodes and links before they are sorted, shared and colored. *)
Definition masked_parts : list DashboardFlowNode * list DashboardFlowLink :=
  let nodes := map_values (collected_nodes metric palette ps) in
  let links := map_values (collected_links metric palette ps) in
  if go_maskSensitive options then maskFlowGraphLabels nodes links else (nodes, links).
Definition graph_parts : list DashboardFlowNode * list DashboardFlowLink :=
  applyFlowHighlights masked_parts.1 masked_parts.2
    (buildFlowHighlightSets ps (go_activeNode options) (go_activeLink options) stages).

Lemma buildFlowGraph_finish :
  g = mkGraph (js_sort (byValueThenLabel collate) graph_parts.1)
        (assignLinkDisplayColors collate
           (shared_links (js_set (root_ids ps)) (js_sort (link_cmp collate) graph_parts.2))).
Proof.
  unfold g, buildFlowGraph. fold stages. change (prepare_paths rows stages ctx _ _ _) with ps.
  cbv zeta. rewrite add_path_visits. cbn [fst snd].
  change (map_collect node_key _ _ _ _) with (collected_nodes metric palette ps).
  change (map_collect pair_key _ _ _ _) with (collected_links metric palette ps).
  unfold graph_parts, masked_parts.
  destruct (if go_maskSensitive options then _ else _) as [nodes links]. cbn [fst snd].
  by destruct (applyFlowHighlights _ _ _) as [nodes' links'].
Qed.

Lemma buildFlowGraph_parts :
  exists share,
    g = mkGraph (js_sort (byValueThenLabel collate) graph_parts.1)
          (assignLinkDisplayColors collate
             (List.map (fun l => set_link_share (share l) l)
                (js_sort (link_cmp collate) graph_parts.2))).
Proof. rewrite buildFlowGraph_finish. eexists. reflexivity. Qed.

Lemma graph_parts_core :
  node_core <$> graph_parts.1 = node_core <$> map_values (collected_nodes metric palette ps)
  /\ link_core <$> graph_parts.2 = link_core <$> map_values (collected_links metric palette ps).
Proof.
  unfold graph_parts. destruct (applyFlowHighlights_core masked_parts.1 masked_parts.2
    (buildFlowHighlightSets ps (go_activeNode options) (go_activeLink options) stages)) as [-> ->].
  unfold masked_parts. destruct (go_maskSensitive options); [|done]. apply maskFlowGraphLabels_core.
Qed.

Lemma graph_core :
  node_core <$> g_nodes g ≡ₚ node_core <$> map_values (collected_nodes metric palette ps)
  /\ link_core <$> g_links g ≡ₚ link_core <$> map_values (collected_links metric palette ps).
Proof.
  destruct buildFlowGraph_parts as [share ->]. cbn [g_nodes g_links].
  destruct graph_parts_core as [<- <-]. rewrite assignLinkDisplayColors_core. split.
  - by rewrite js_sort_perm.
  - rewrite <- list_fmap_compose. by rewrite <- (js_sort_perm (link_cmp collate) graph_parts.2) at 2.
Qed.
End Graph.
End Visits.

(** ** Sums over visits *)

Definition measure {A} (M : FlowMetric) (vs : list (Visit A)) : number :=
  num_sum ((fun v => metricValue (v_metrics v) M) <$> vs).

Lemma node_fold metric vs n :
  node_core (fold_left (fun n v => node_add metric v n) vs n)
  = (n_id n, n_kind n,
     fold_left num_add ((fun v => metricValue (v_metrics v) metric) <$> vs) (n_value n),
     fold_left num_add ((fun v => metricValue (v_metrics v) MRequests) <$> vs) (n_requests n),
     fold_left num_add ((fun v => metricValue (v_metrics v) MQuota) <$> vs) (n_quota n),
     fold_left num_add ((fun v => metricValue (v_metrics v) MTokens) <$> vs) (n_tokens n)).
Proof. revert n. induction vs as [|v vs IH]; intros n; [done|]. cbn [fold_left]. by rewrite IH. Qed.

Lemma link_fold metric vs l :
  link_core (fold_left (fun l v => link_add metric v l) vs l)
  = (l_source l, l_target l,
     fold_left num_add ((fun v => metricValue (v_metrics v) metric) <$> vs) (l_value l),
     fold_left num_add ((fun v => metricValue (v_metrics v) MRequests) <$> vs) (l_requests l),
     fold_left num_add ((fun v => metricValue (v_metrics v) MQuota) <$> vs) (l_quota l),
     fold_left num_add ((fun v => metricValue (v_metrics v) MTokens) <$> vs) (l_tokens l)).
Proof. revert l. induction vs as [|v vs IH]; intros l; [done|]. cbn [fold_left]. by rewrite IH. Qed.

Lemma collected_node_core metric vs id n :
  (id, n) ∈ map_collect node_key node_init (node_add metric) vs [] ->
  exists v, v ∈ vs /\ node_key v = id /\
    let W := with_key node_key id vs in
    node_core n = (id, fp_kind (v_item v), measure metric W, measure MRequests W,
                   measure MQuota W, measure MTokens W).
Proof.
  rewrite map_collect_elem. intros (v & Hv & Hk & ->)%collected_Some.
  exists v. split_and!; [done|done|]. cbv zeta. rewrite node_fold. by rewrite <- Hk.
Qed.

Lemma collected_link_core metric vs k l :
  (k, l) ∈ map_collect pair_key link_init (link_add metric) vs [] ->
  exists v, v ∈ vs /\ pair_key v = k /\
    let W := with_key pair_key k vs in
    link_core l = (fp_id (v_item v).1, fp_id (v_item v).2, measure metric W,
                   measure MRequests W, measure MQuota W, measure MTokens W).
Proof.
  rewrite map_collect_elem. intros (v & Hv & Hk & ->)%collected_Some.
  exists v. split_and!; [done|done|]. cbv zeta. rewrite link_fold.
  unfold link_init. by destruct (v_item v).
Qed.

(** A path that names an item at most once visits it at most once. *)
Definition names {A} (f : list FlowPathNode -> list A) {K} `{EqDecision K} (key : A -> K) (k : K)
    (p : PreparedFlowPath) : bool := bool_decide (k ∈ key <$> f (pp_path p)).

Lemma with_key_once {A K} `{EqDecision K} (key : A -> K) (mk : A -> Visit A) k xs :
  (forall x, v_item (mk x) = x) -> NoDup (key <$> xs) ->
  with_key (fun v => key (v_item v)) k (mk <$> xs)
  = (if bool_decide (k ∈ key <$> xs) then mk <$> (List.filter (fun x => bool_decide (key x = k)) xs)
     else [])
  /\ length (List.filter (fun x => bool_decide (key x = k)) xs)
     = (if bool_decide (k ∈ key <$> xs) then 1 else 0).
Proof.
  intros Hmk. induction xs as [|x xs IH]; intros Hn; [done|].
  rewrite fmap_cons in Hn. apply NoDup_cons in Hn as [Hx Hn]. destruct (IH Hn) as [IH1 IH2].
  rewrite !fmap_cons. cbn [with_key List.filter]. rewrite Hmk.
  change (List.filter (fun v => bool_decide (key (v_item v) = k)) (mk <$> xs))
    with (with_key (fun v => key (v_item v)) k (mk <$> xs)). rewrite IH1.
  destruct (decide (key x = k)) as [E|E].
  - subst k. rewrite (bool_decide_true (key x = key x)) by done.
    rewrite (bool_decide_false _ Hx) in *. rewrite (bool_decide_true (key x ∈ _ :: _)) by (by left).
    apply nil_length_inv in IH2. by rewrite IH2.
  - rewrite (bool_decide_false (key x = k)) by done.
    destruct (decide (k ∈ key <$> xs)) as [H|H].
    + rewrite (bool_decide_true _ H) in *. by rewrite (bool_decide_true (k ∈ _ :: _)) by (by right).
    + rewrite (bool_decide_false _ H) in *. rewrite (bool_decide_false (k ∈ _ :: _)); [done|].
      by intros [?|?]%elem_of_cons.
Qed.

Lemma visits_once {A K} `{EqDecision K} (f : list FlowPathNode -> list A) color (key : A -> K) k ps :
  f [] = [] -> Forall (fun p => NoDup (key <$> f (pp_path p))) ps ->
  v_metrics <$> with_key (fun v => key (v_item v)) k (visits f color ps)
  = pp_metrics <$> List.filter (names f key k) ps.
Proof.
  intros Hf. induction 1 as [|p ps Hp Hps IH]; [done|].
  unfold visits, with_key in *. cbn [flat_map]. rewrite List.filter_app, fmap_app, IH.
  cbn [List.filter]. unfold names at 2. unfold path_visits.
  destruct (pp_path p) as [|root path] eqn:E.
  - rewrite Hf. by rewrite bool_decide_false by apply not_elem_of_nil.
  - destruct (with_key_once key
      (fun x => mkVisit x (pp_metrics p) (color (fp_id root)) (fp_id root)) k (f (root :: path)))
      as [H1 H2]; [done..|].
    unfold with_key in H1. rewrite H1. case_bool_decide; [|done]. rewrite fmap_cons.
    destruct (List.filter _ (f (root :: path))) as [|x [|]]; done.
Qed.

(** *** The ids of the pairs of a path *)

Lemma path_pairs_targets {K} (key : FlowPathNode -> K) path :
  (fun st => key st.2) <$> path_pairs path = key <$> tail path.
Proof.
  unfold path_pairs. transitivity (key <$> (zip path (tail path)).*2).
  { by rewrite <- list_fmap_compose. }
  rewrite snd_zip; [done|]. destruct path; simpl; lia.
Qed.

Lemma path_pairs_sources {K} (key : FlowPathNode -> K) path :
  (fun st => key st.1) <$> path_pairs path = key <$> take (length path - 1) path.
Proof.
  unfold path_pairs. induction path as [|a [|b path] IH]; [done|done|].
  cbn [zip zip_with tail] in *. rewrite fmap_cons, IH. simpl. by rewrite Nat.sub_0_r.
Qed.

(** ** The graph as sums over paths *)

Definition id_pair (st : FlowPathNode * FlowPathNode) : jsstr * jsstr := (fp_id st.1, fp_id st.2).
Definition passes (x : jsstr) (p : PreparedFlowPath) : bool := names id fp_id x p.
Definition follows (s t : jsstr) (p : PreparedFlowPath) : bool := names path_pairs id_pair (s, t) p.

(** A metric summed over paths, in order. *)
Definition total (M : FlowMetric) (ps : list PreparedFlowPath) : number :=
  num_sum ((fun p => metricValue (pp_metrics p) M) <$> ps).

(** No id holds the separator of link keys. *)
Definition clean (path : list FlowPathNode) : Prop := Forall (fun n => 0%N ∉ fp_id n) path.
Definition clean_rows (rows : list FlowQuotaDataItem) (stages : list FlowNodeKind)
    (ctx : FlowPathContext) : Prop :=
  forall row, row ∈ rows -> clean (flowPathForStages row stages ctx).

Lemma split_at_inj {A} (c : A) a a' b b' :
  c ∉ a -> c ∉ a' -> a ++ c :: b = a' ++ c :: b' -> a = a' /\ b = b'.
Proof.
  revert a'. induction a as [|x a IH]; intros [|y a'] Ha Ha' E; simplify_eq/=; try set_solver.
  destruct (IH a') as [-> ->]; set_solver.
Qed.

Lemma measure_metrics {A} M (vs : list (Visit A)) ps :
  v_metrics <$> vs = pp_metrics <$> ps -> measure M vs = total M ps.
Proof.
  intros E. unfold measure, total.
  transitivity (num_sum ((fun m => metricValue m M) <$> (v_metrics <$> vs)));
    [by rewrite <- list_fmap_compose|]. by rewrite E, <- list_fmap_compose.
Qed.

Lemma with_key_ext {X K K'} `{EqDecision K} `{EqDecision K'} (f : X -> K) (f' : X -> K') k k' xs :
  (forall x, x ∈ xs -> f x = k <-> f' x = k') -> with_key f k xs = with_key f' k' xs.
Proof.
  intros H. apply List.filter_ext_in. intros x Hx%list_elem_of_In.
  apply bool_decide_ext. by apply H.
Qed.

Lemma elem_of_visits {A} (f : list FlowPathNode -> list A) color ps (x : A) :
  f [] = [] ->
  (exists v, v ∈ visits f color ps /\ v_item v = x) <-> exists p, p ∈ ps /\ x ∈ f (pp_path p).
Proof.
  intros Hf. unfold visits. setoid_rewrite list_elem_of_In. setoid_rewrite in_flat_map.
  setoid_rewrite <- list_elem_of_In. unfold path_visits. split.
  - intros (v & (p & Hp & Hv) & <-). exists p. split; [done|].
    destruct (pp_path p); [by apply not_elem_of_nil in Hv|].
    by apply list_elem_of_fmap in Hv as (y & -> & Hy).
  - intros (p & Hp & Hx). destruct (pp_path p) as [|root path] eqn:E.
    { rewrite Hf in Hx. by apply not_elem_of_nil in Hx. }
    eexists. split; [exists p; split; [done|]; rewrite E; by apply list_elem_of_fmap_2|done].
Qed.

Lemma visit_path {A} (f : list FlowPathNode -> list A) color ps v :
  f [] = [] -> v ∈ visits f color ps -> exists p, p ∈ ps /\ v_item v ∈ f (pp_path p).
Proof. intros Hf Hv. apply (elem_of_visits f color ps (v_item v) Hf). by exists v. Qed.

Section Paths.
Context (stages : list FlowNodeKind) (ps : list PreparedFlowPath).
Context (Hover : Forall (fun p => path_over stages (pp_path p)) ps) (Hstages : NoDup stages).

Lemma paths_ids_NoDup : Forall (fun p => NoDup (fp_id <$> id (pp_path p))) ps.
Proof.
  eapply Forall_impl; [exact Hover|]. intros p Hp. by apply (path_over_ids_NoDup stages).
Qed.

Lemma paths_sources_NoDup :
  Forall (fun p => NoDup ((fun st => fp_id st.1) <$> path_pairs (pp_path p))) ps.
Proof.
  eapply Forall_impl; [exact paths_ids_NoDup|]. intros p Hp. cbv beta. rewrite path_pairs_sources.
  rewrite fmap_take. by apply (sublist_NoDup _ (fp_id <$> pp_path p)), sublist_take.
Qed.

Lemma paths_targets_NoDup :
  Forall (fun p => NoDup ((fun st => fp_id st.2) <$> path_pairs (pp_path p))) ps.
Proof.
  eapply Forall_impl; [exact paths_ids_NoDup|]. intros p Hp. cbv beta in *. rewrite path_pairs_targets.
  unfold id in Hp. destruct (pp_path p); [constructor|]. by apply NoDup_cons in Hp as [_ ?].
Qed.

Lemma paths_pairs_NoDup : Forall (fun p => NoDup (id_pair <$> path_pairs (pp_path p))) ps.
Proof.
  eapply Forall_impl; [exact paths_sources_NoDup|]. intros p Hp. cbv beta in *.
  apply (NoDup_fmap_1 fst). by rewrite <- list_fmap_compose.
Qed.

Lemma path_node_kinded p n : p ∈ ps -> n ∈ pp_path p -> kinded n /\ fp_kind n ∈ stages.
Proof using Hover.
  intros Hp Hn. rewrite Forall_forall in Hover. destruct (Hover p Hp) as [E Hk].
  rewrite Forall_forall in Hk. split; [by apply Hk|]. rewrite <- E. by apply list_elem_of_fmap_2.
Qed.

Lemma node_visits color x :
  v_metrics <$> with_key node_key x (visits id color ps)
  = pp_metrics <$> List.filter (passes x) ps.
Proof. apply (visits_once id color fp_id); [done|exact paths_ids_NoDup]. Qed.

(** Every node of the map, from the paths through it. *)
Lemma collected_node_spec metric color x n :
  (x, n) ∈ map_collect node_key node_init (node_add metric) (visits id color ps) [] ->
  exists m p, p ∈ ps /\ m ∈ pp_path p /\ fp_id m = x /\
    let through := List.filter (passes x) ps in
    node_core n = (x, fp_kind m, total metric through, total MRequests through,
                   total MQuota through, total MTokens through).
Proof.
  intros (v & Hv & Hk & E)%collected_node_core.
  destruct (visit_path _ _ _ _ eq_refl Hv) as (p & Hp & Hm).
  exists (v_item v), p. split_and!; [done|done|done|]. cbv zeta in *. rewrite E.
  by rewrite !(measure_metrics _ _ _ (node_visits color x)).
Qed.

Context (Hclean : Forall (fun p => clean (pp_path p)) ps).

Lemma pair_clean color v : v ∈ visits path_pairs color ps -> 0%N ∉ fp_id (v_item v).1.
Proof.
  intros Hv. destruct (visit_path _ _ _ _ eq_refl Hv) as (p & Hp & Hm).
  rewrite Forall_forall in Hclean. specialize (Hclean p Hp). unfold clean in Hclean.
  rewrite Forall_forall in Hclean. apply Hclean. destruct (v_item v) as [s t].
  by apply elem_of_zip_l in Hm.
Qed.

Lemma pair_key_inj color v v' :
  v ∈ visits path_pairs color ps -> v' ∈ visits path_pairs color ps ->
  pair_key v = pair_key v' <-> id_pair (v_item v) = id_pair (v_item v').
Proof.
  intros Hv%pair_clean Hv'%pair_clean. unfold pair_key, pathLinkKey, link_key, id_pair. split.
  - intros [-> ->]%split_at_inj; done.
  - by intros [= -> ->].
Qed.

Lemma pair_visits color v :
  v ∈ visits path_pairs color ps ->
  v_metrics <$> with_key pair_key (pair_key v) (visits path_pairs color ps)
  = pp_metrics <$> List.filter (follows (fp_id (v_item v).1) (fp_id (v_item v).2)) ps.
Proof.
  intros Hv. unfold follows.
  rewrite <- (visits_once path_pairs color); [|done|exact paths_pairs_NoDup].
  f_equal. apply with_key_ext. intros v' Hv'. by rewrite (pair_key_inj color).
Qed.

(** Every link of the map, from the paths that follow it. *)
Lemma collected_link_spec metric color k l :
  (k, l) ∈ map_collect pair_key link_init (link_add metric) (visits path_pairs color ps) [] ->
  exists st p, p ∈ ps /\ st ∈ path_pairs (pp_path p) /\ k = pathLinkKey st.1 st.2 /\
    let along := List.filter (follows (fp_id st.1) (fp_id st.2)) ps in
    link_core l = (fp_id st.1, fp_id st.2, total metric along, total MRequests along,
                   total MQuota along, total MTokens along).
Proof.
  intros (v & Hv & Hk & E)%collected_link_core.
  destruct (visit_path _ _ _ _ eq_refl Hv) as (p & Hp & Hm).
  exists (v_item v), p. split_and!; [done|done|done|]. cbv zeta in *. rewrite E.
  subst k. by rewrite !(measure_metrics _ _ _ (pair_visits color v Hv)).
Qed.
End Paths.

Lemma map_entries_keys {K V} `{EqDecision K} (f : V -> K) (m : list (K * V)) :
  (forall k v, (k, v) ∈ m -> f v = k) -> f <$> map_values m = map_keys m.
Proof.
  intros H. unfold map_values, map_keys. rewrite <- list_fmap_compose.
  apply list_fmap_ext. intros i [k v] Hi. apply list_elem_of_lookup_2 in Hi. by apply H.
Qed.

Lemma elem_of_values {K V} (m : list (K * V)) v : v ∈ map_values m <-> exists k, (k, v) ∈ m.
Proof.
  unfold map_values. rewrite list_elem_of_fmap. split.
  - intros ([k v'] & -> & H). by exists k.
  - intros [k H]. by exists (k, v).
Qed.

Lemma elem_of_core {A B} (f : A -> B) l l' x : f <$> l ≡ₚ f <$> l' -> x ∈ l -> exists y, y ∈ l' /\ f x = f y.
Proof.
  intros HP Hx. assert (H : f x ∈ f <$> l') by (rewrite <- HP; by apply list_elem_of_fmap_2).
  apply list_elem_of_fmap in H as (y & E & Hy). by exists y.
Qed.

Lemma fmap_core_perm {A B C} (core : A -> B) (h : B -> C) (f : A -> C) l l' :
  (forall x, f x = h (core x)) -> core <$> l ≡ₚ core <$> l' -> f <$> l ≡ₚ f <$> l'.
Proof.
  intros E HP. assert (forall l : list A, f <$> l = h <$> (core <$> l)) as Hf.
  { intros l0. rewrite <- list_fmap_compose. apply list_fmap_ext. intros _ x _. apply E. }
  by rewrite !Hf, HP.
Qed.

Section GraphFacts.
Context (collate : jsstr -> jsstr -> comparison) (dataScheme : list DataScheme).
Context (rows : list FlowQuotaDataItem) (metric : FlowMetric) (role : FlowRole)
  (palette : option (list jsstr)) (visible : option (list FlowNodeKind)) (ctx : FlowPathContext)
  (options : FlowGraphOptions).

Local Abbreviation stages := (resolveVisibleStages role visible).
Local Abbreviation ps := (prepared collate rows metric stages ctx options).
Local Abbreviation g :=
  (buildFlowGraph collate dataScheme rows metric role palette visible ctx options).
Local Abbreviation nodes_map := (collected_nodes collate dataScheme metric palette ps).
Local Abbreviation links_map := (collected_links collate dataScheme metric palette ps).

Lemma prepared_over : Forall (fun p => path_over stages (pp_path p)) ps.
Proof. rewrite Forall_forall. intros p. apply prepare_paths_over. Qed.

Lemma other_clean k labeler : 0%N ∉ fp_id (otherFlowNode k labeler).
Proof. by destruct k; apply (bool_decide_unpack _); vm_compute. Qed.

Lemma prepared_clean : clean_rows rows stages ctx -> Forall (fun p => clean (pp_path p)) ps.
Proof.
  intros H. rewrite Forall_forall. intros p Hp. unfold prepared, prepare_paths in Hp.
  apply list_elem_of_omap in Hp as (row & Hrow & E). apply fmap_Some in E as (path & E & ->).
  apply H in Hrow. cbn [pp_path]. revert E. unfold applyTopNodeLimit.
  destruct (buildTopNodeSets _ _ _ _ _ _) as [tops|]; [|by intros [= <-]].
  destruct (negb _); [by intros [= <-]|]. destruct (default _ _); [|done]. intros [= <-].
  unfold clean in *. rewrite Forall_forall in *. intros n (m & -> & Hm)%list_elem_of_fmap.
  destruct (isTopFlowNode _ _); [by apply Hrow|apply other_clean].
Qed.

Lemma nodes_map_spec x n :
  (x, n) ∈ nodes_map ->
  exists m p, p ∈ ps /\ m ∈ pp_path p /\ fp_id m = x /\
    let through := List.filter (passes x) ps in
    node_core n = (x, fp_kind m, total metric through, total MRequests through,
                   total MQuota through, total MTokens through).
Proof.
  apply (collected_node_spec stages); [apply prepared_over|apply resolveVisibleStages_NoDup].
Qed.

Lemma nodes_map_ids : n_id <$> map_values nodes_map = map_keys nodes_map.
Proof.
  apply map_entries_keys. intros x n (m & p & _ & _ & _ & E)%nodes_map_spec. cbv zeta in E.
  unfold node_core in E. congruence.
Qed.

Lemma nodes_map_key x : x ∈ map_keys nodes_map <-> exists p, p ∈ ps /\ passes x p = true.
Proof.
  unfold collected_nodes. rewrite map_collect_keys, elem_of_js_set, list_elem_of_fmap.
  unfold passes, names. setoid_rewrite bool_decide_eq_true. setoid_rewrite list_elem_of_fmap.
  split.
  - intros (v & -> & Hv). destruct (visit_path _ _ _ _ eq_refl Hv) as (p & Hp & Hm). exists p. split; [done|]. by exists (v_item v).
  - intros (p & Hp & m & -> & Hm).
    destruct (proj2 (elem_of_visits id (root_color dataScheme
      (stableColorMap dataScheme (js_sort collate (root_ids ps)) palette) palette) ps m eq_refl))
      as (v & Hv & <-); [by exists p|]. by exists v.
Qed.

Lemma nodes_ids : n_id <$> g_nodes g ≡ₚ map_keys nodes_map.
Proof.
  rewrite <- nodes_map_ids. apply (fmap_core_perm node_core (fun c => c.1.1.1.1.1)); [done|].
  apply graph_core.
Qed.

Lemma graph_node n :
  n ∈ g_nodes g ->
  exists m p, p ∈ ps /\ m ∈ pp_path p /\
    let through := List.filter (passes (n_id n)) ps in
    node_core n = (fp_id m, fp_kind m, total metric through, total MRequests through,
                   total MQuota through, total MTokens through).
Proof.
  intros Hn. destruct (elem_of_core node_core (g_nodes g) (map_values nodes_map) n) as (n' & Hn' & E);
    [apply graph_core|done|].
  apply elem_of_values in Hn' as [x (m & p & Hp & Hm & Hx & E')%nodes_map_spec].
  exists m, p. split_and!; [done|done|]. cbv zeta in *. rewrite E, E'.
  assert (n_id n = x) as -> by (unfold node_core in *; congruence). by rewrite Hx.
Qed.

Lemma graph_node_kind n : n ∈ g_nodes g -> n_kind n ∈ stages.
Proof.
  intros (m & p & Hp & Hm & E)%graph_node. cbv zeta in E.
  assert (n_kind n = fp_kind m) as -> by (unfold node_core in E; congruence).
  exact (proj2 (path_node_kinded stages ps prepared_over p m Hp Hm)).
Qed.

(** *** Links *)

Context (Hclean : clean_rows rows stages ctx).

Lemma links_map_spec k l :
  (k, l) ∈ links_map ->
  exists st p, p ∈ ps /\ st ∈ path_pairs (pp_path p) /\ k = pathLinkKey st.1 st.2 /\
    let along := List.filter (follows (fp_id st.1) (fp_id st.2)) ps in
    link_core l = (fp_id st.1, fp_id st.2, total metric along, total MRequests along,
                   total MQuota along, total MTokens along).
Proof.
  apply (collected_link_spec stages);
    [apply prepared_over|apply resolveVisibleStages_NoDup|by apply prepared_clean].
Qed.

Definition link_ends (l : DashboardFlowLink) : jsstr * jsstr := (l_source l, l_target l).

Lemma links_map_keys : linkStableKey <$> map_values links_map = map_keys links_map.
Proof.
  apply map_entries_keys. intros k l (st & p & _ & _ & -> & E)%links_map_spec. cbv zeta in E.
  unfold linkStableKey, pathLinkKey. unfold link_core in E. congruence.
Qed.

Lemma links_ends : link_ends <$> g_links g ≡ₚ link_ends <$> map_values links_map.
Proof. apply (fmap_core_perm link_core (fun c => c.1.1.1.1)); [done|]. apply graph_core. Qed.

Lemma links_NoDup : NoDup (link_ends <$> g_links g).
Proof.
  rewrite links_ends. apply (NoDup_fmap_1 (fun st => link_key st.1 st.2)).
  rewrite <- list_fmap_compose. change (NoDup (linkStableKey <$> map_values links_map)).
  rewrite links_map_keys. apply map_collect_NoDup.
Qed.

Lemma graph_link l :
  l ∈ g_links g ->
  exists st p, p ∈ ps /\ st ∈ path_pairs (pp_path p) /\
    let along := List.filter (follows (l_source l) (l_target l)) ps in
    link_core l = (fp_id st.1, fp_id st.2, total metric along, total MRequests along,
                   total MQuota along, total MTokens along).
Proof.
  intros Hl. destruct (elem_of_core link_core (g_links g) (map_values links_map) l) as (l' & Hl' & E);
    [apply graph_core|done|].
  apply elem_of_values in Hl' as [k (st & p & Hp & Hst & Hk & E')%links_map_spec].
  exists st, p. split_and!; [done|done|]. cbv zeta in *. rewrite E, E'.
  assert (l_source l = fp_id st.1) as -> by (unfold link_core in *; congruence).
  by assert (l_target l = fp_id st.2) as -> by (unfold link_core in *; congruence).
Qed.

Lemma graph_link_ends s t :
  (s, t) ∈ link_ends <$> g_links g <-> exists p, p ∈ ps /\ follows s t p = true.
Proof.
  unfold follows, names. setoid_rewrite bool_decide_eq_true. split.
  - intros (l & E & Hl)%list_elem_of_fmap. apply graph_link in Hl as (st & p & Hp & Hst & E').
    exists p. split; [done|]. apply list_elem_of_fmap. exists st. split; [|done].
    unfold link_core, link_ends, id_pair in *. congruence.
  - intros (p & Hp & (st & [= -> ->] & Hst)%list_elem_of_fmap).
    destruct (proj2 (elem_of_visits path_pairs (root_color dataScheme
      (stableColorMap dataScheme (js_sort collate (root_ids ps)) palette) palette) ps st eq_refl))
      as (v & Hv & <-); [by exists p|].
    assert (Hk : pair_key v ∈ map_keys links_map).
    { unfold collected_links. rewrite map_collect_keys, elem_of_js_set. by apply list_elem_of_fmap_2. }
    rewrite <- links_map_keys in Hk. apply list_elem_of_fmap in Hk as (l & E & Hl).
    rewrite links_ends. apply list_elem_of_fmap. exists l. split; [|done].
    apply elem_of_values in Hl as [k (st' & p' & Hp' & Hst' & -> & E')%links_map_spec].
    cbv zeta in E'. unfold link_core in E'.
    assert (l_source l = fp_id st'.1 /\ l_target l = fp_id st'.2) as [Hs Ht] by (split; congruence).
    assert (Hnul : 0%N ∉ fp_id st'.1).
    { pose proof (prepared_clean Hclean) as H. rewrite Forall_forall in H. specialize (H p' Hp').
      unfold clean in H. rewrite Forall_forall in H. apply H. destruct st'.
      by apply elem_of_zip_l in Hst'. }
    unfold link_ends. unfold linkStableKey, pair_key, pathLinkKey, link_key in E.
    apply split_at_inj in E as [-> ->]; [done| |by rewrite Hs].
    eapply pair_clean; [by apply prepared_clean|done].
Qed.

(** *** Exact totals *)

Context (w : FlowQuotaDataItem -> Z)
  (Hw : forall row, row ∈ rows ->
     metricValue (rowMetrics row) metric = num_of_Z (w row) /\ (0 <= w row)%Z)
  (Hsafe : safe (Z_sum (w <$> rows))).

(** The weight of a path, as an integer. *)
Definition weight (m : FlowMetrics) : Z := default 0%Z (num_to_Z (metricValue m metric)).

Lemma weights_nonneg : Forall (fun z => (0 <= z)%Z) (w <$> rows).
Proof. rewrite Forall_forall. intros z (row & -> & Hr)%list_elem_of_fmap. by apply Hw. Qed.

Lemma weight_row row : row ∈ rows -> weight (rowMetrics row) = w row.
Proof using Hw Hsafe.
  intros Hr. destruct (Hw row Hr) as [E Hz]. unfold weight. rewrite E.
  rewrite num_to_Z_of_Z; [done|]. pose proof Hsafe as Hs. unfold safe in *.
  pose proof (Z_sum_sublist [w row] (w <$> rows)) as H. simpl in H. specialize (fun Hs => H Hs weights_nonneg).
  assert (w row + 0 <= Z_sum (w <$> rows))%Z; [|lia]. apply H.
  apply list_elem_of_split in Hr as (a & b & Er). rewrite Er, fmap_app, fmap_cons.
  apply sublist_inserts_l. by constructor; apply sublist_nil_l.
Qed.

Lemma prepared_metrics : pp_metrics <$> ps `sublist_of` rowMetrics <$> rows.
Proof.
  unfold prepared, prepare_paths. set (tops := buildTopNodeSets _ _ _ _ _ _). clearbody tops.
  clear. induction rows as [|row rows' IH]; [done|]. simpl.
  destruct (applyTopNodeLimit _ _ _ _); simpl; by constructor.
Qed.

Lemma path_weight p :
  p ∈ ps ->
  metricValue (pp_metrics p) metric = num_of_Z (weight (pp_metrics p))
  /\ (0 <= weight (pp_metrics p))%Z.
Proof.
  intros Hp. assert (H : pp_metrics p ∈ rowMetrics <$> rows).
  { eapply elem_of_sublist; [|apply prepared_metrics]. by apply list_elem_of_fmap_2. }
  apply list_elem_of_fmap in H as (row & -> & Hr). rewrite weight_row by done. by apply Hw.
Qed.

Definition path_weights (qs : list PreparedFlowPath) : Z :=
  Z_sum ((fun p => weight (pp_metrics p)) <$> qs).

Lemma path_weights_safe q : safe (path_weights (List.filter q ps)).
Proof.
  assert (Hn : Forall (fun z => (0 <= z)%Z) ((fun p => weight (pp_metrics p)) <$> List.filter q ps)).
  { rewrite Forall_forall. intros z (p & -> & Hp)%list_elem_of_fmap.
    apply path_weight. apply list_elem_of_In, filter_In in Hp as [Hp _]. by apply list_elem_of_In. }
  pose proof (Z_sum_nonneg _ Hn). pose proof Hsafe as Hs. unfold safe, path_weights in *.
  assert (Z_sum ((fun p => weight (pp_metrics p)) <$> List.filter q ps) <= Z_sum (w <$> rows))%Z;
    [|lia].
  apply Z_sum_sublist; [|exact weights_nonneg].
  replace (w <$> rows) with (weight <$> (rowMetrics <$> rows)).
  - change (fun p => weight (pp_metrics p)) with (weight ∘ pp_metrics).
    rewrite list_fmap_compose. apply fmap_sublist.
    transitivity (pp_metrics <$> ps); [apply fmap_sublist, List_filter_sublist|apply prepared_metrics].
  - rewrite <- list_fmap_compose. apply list_fmap_ext. intros i row Hi.
    apply weight_row. by apply list_elem_of_lookup_2 in Hi.
Qed.

Lemma total_exact q : total metric (List.filter q ps) = num_of_Z (path_weights (List.filter q ps)).
Proof.
  unfold total, path_weights.
  rewrite <- num_sum_exact; [|rewrite Forall_forall|apply path_weights_safe].
  - f_equal. rewrite <- list_fmap_compose. apply list_fmap_ext. intros i p Hi. simpl.
    apply path_weight. apply list_elem_of_lookup_2, list_elem_of_In, filter_In in Hi as [Hi _].
    by apply list_elem_of_In.
  - intros z (p & -> & Hp)%list_elem_of_fmap. apply path_weight.
    apply list_elem_of_In, filter_In in Hp as [Hp _]. by apply list_elem_of_In.
Qed.

Lemma visit_weights {A} (vs : list (Visit A)) qs :
  v_metrics <$> vs = pp_metrics <$> qs ->
  Z_sum ((fun v => weight (v_metrics v)) <$> vs) = path_weights qs.
Proof.
  intros E. unfold path_weights. transitivity (Z_sum (weight <$> (v_metrics <$> vs)));
    [by rewrite <- list_fmap_compose|]. by rewrite E, <- list_fmap_compose.
Qed.

Lemma visit_nonneg {A} (f : list FlowPathNode -> list A) color v :
  v ∈ visits f color ps -> (0 <= weight (v_metrics v))%Z.
Proof.
  unfold visits. intros (p & Hp & Hv)%list_elem_of_In%in_flat_map.
  apply list_elem_of_In in Hp, Hv. unfold path_visits in Hv.
  destruct (pp_path p); [by apply not_elem_of_nil in Hv|].
  apply list_elem_of_fmap in Hv as (x & -> & _). by apply path_weight.
Qed.

Lemma filter_core_perm {A B C} (core : A -> B) (h : B -> C) (f : A -> C) (q' : B -> bool)
    (q : A -> bool) l l' :
  (forall x, f x = h (core x)) -> (forall x, q x = q' (core x)) -> core <$> l ≡ₚ core <$> l' ->
  f <$> List.filter q l ≡ₚ f <$> List.filter q l'.
Proof.
  intros Ef Eq HP. apply (fmap_core_perm core h); [done|].
  assert (H : forall l0 : list A, core <$> List.filter q l0 = filter (fun b => q' b = true) (core <$> l0)).
  { clear -Eq. induction l0 as [|x l0 IH]; [done|]. rewrite fmap_cons, filter_cons. cbn [List.filter].
    rewrite Eq. destruct (q' (core x)) eqn:E; [rewrite fmap_cons|]; by rewrite IH. }
  by rewrite !H, HP.
Qed.

(** The nodes of a stage carry the weight of all paths. *)
Lemma stage_weight k :
  k ∈ stages ->
  num_sum (n_value <$> List.filter (fun n => bool_decide (n_kind n = k)) (g_nodes g))
  = num_of_Z (path_weights ps).
Proof.
  intros Hk.
  assert (Hps : List.filter (names id fp_kind k) ps = ps).
  { apply List_filter_id. intros p Hp. unfold names. apply bool_decide_eq_true. pose proof prepared_over as H.
    rewrite Forall_forall in H. destruct (H p Hp) as [E _]. unfold id. by rewrite E. }
  set (color := root_color dataScheme
    (stableColorMap dataScheme (js_sort collate (root_ids ps)) palette) palette).
  assert (Hz : Z_sum ((fun v => weight (v_metrics v))
    <$> List.filter (fun v => bool_decide (fp_kind (v_item v) = k)) (visits id color ps))
    = path_weights ps).
  { apply visit_weights. rewrite <- Hps at 2. apply (visits_once id color fp_kind); [done|].
    eapply Forall_impl; [exact prepared_over|]. intros p [E _]. cbv beta. unfold id. rewrite E.
    apply resolveVisibleStages_NoDup. }
  rewrite <- Hz. apply (collect_total node_key node_init (node_add metric)) with
    (val := n_value) (cls := fun n => bool_decide (n_kind n = k)).
  - intros x n Hn. destruct (nodes_map_spec x n Hn) as (m & p & _ & _ & _ & E). cbv zeta in E.
    assert (n_value n = total metric (List.filter (passes x) ps)) as ->
      by (unfold node_core in E; congruence).
    rewrite total_exact. f_equal. symmetry. apply visit_weights.
    apply (node_visits stages); [apply prepared_over|apply resolveVisibleStages_NoDup].
  - intros v n Hv Hn. apply bool_decide_ext.
    destruct (nodes_map_spec _ n Hn) as (m & p & Hp & Hm & Hid & E). cbv zeta in E.
    destruct (visit_path _ _ _ _ eq_refl Hv) as (p' & Hp' & Hm').
    assert (n_kind n = fp_kind m) as -> by (unfold node_core in E; congruence).
    rewrite (kinded_inj m (v_item v)); [done|..|done].
    + exact (proj1 (path_node_kinded _ _ prepared_over p m Hp Hm)).
    + exact (proj1 (path_node_kinded _ _ prepared_over p' _ Hp' Hm')).
  - intros v Hv. by apply (visit_nonneg id color).
  - rewrite Hz. rewrite <- Hps. apply path_weights_safe.
  - apply (filter_core_perm node_core (fun c => c.1.1.1.2) n_value
      (fun c => bool_decide (c.1.1.1.1.2 = k))); [done|done|]. apply graph_core.
Qed.

(** The source ([true]) or the target of a link and of a pair. *)
Definition link_end (out : bool) (l : DashboardFlowLink) : jsstr :=
  if out then l_source l else l_target l.
Definition pair_end (out : bool) (st : FlowPathNode * FlowPathNode) : jsstr :=
  if out then fp_id st.1 else fp_id st.2.

Lemma pair_ends_NoDup out : Forall (fun p => NoDup (pair_end out <$> path_pairs (pp_path p))) ps.
Proof.
  destruct out; [apply (paths_sources_NoDup stages)|apply (paths_targets_NoDup stages)];
    try apply prepared_over; apply resolveVisibleStages_NoDup.
Qed.

Lemma link_entry_ends color v l :
  v ∈ visits path_pairs color ps ->
  (pair_key v, l) ∈ map_collect pair_key link_init (link_add metric) (visits path_pairs color ps) [] ->
  link_ends l = id_pair (v_item v).
Proof.
  intros Hv (v' & Hv' & Hk & E)%collected_link_core. cbv zeta in E.
  apply (pair_key_inj _ (prepared_clean Hclean) color) in Hk; [|done|done]. rewrite <- Hk.
  unfold link_core in E. unfold link_ends, id_pair. congruence.
Qed.

(** The links at one end [x] carry the weight of the paths with a pair there. *)
Lemma incident_weight out x :
  num_sum (l_value <$> List.filter (fun l => bool_decide (link_end out l = x)) (g_links g))
  = num_of_Z (path_weights (List.filter (names path_pairs (pair_end out) x) ps)).
Proof.
  set (color := root_color dataScheme
    (stableColorMap dataScheme (js_sort collate (root_ids ps)) palette) palette).
  assert (Hz : Z_sum ((fun v => weight (v_metrics v))
    <$> List.filter (fun v => bool_decide (pair_end out (v_item v) = x)) (visits path_pairs color ps))
    = path_weights (List.filter (names path_pairs (pair_end out) x) ps)).
  { apply visit_weights. apply (visits_once path_pairs color (pair_end out)); [done|].
    apply pair_ends_NoDup. }
  rewrite <- Hz. apply (collect_total pair_key link_init (link_add metric)) with
    (val := l_value) (cls := fun l => bool_decide (link_end out l = x)).
  - intros k l Hl. destruct (collected_link_core _ _ _ _ Hl) as (v & Hv & <- & E). cbv zeta in E.
    assert (l_value l = measure metric (with_key pair_key (pair_key v) (visits path_pairs color ps)))
      as -> by (unfold link_core in E; congruence).
    assert (Hm : v_metrics <$> with_key pair_key (pair_key v) (visits path_pairs color ps)
                 = pp_metrics <$> List.filter (follows (fp_id (v_item v).1) (fp_id (v_item v).2)) ps).
    { apply (pair_visits stages); [apply prepared_over|apply resolveVisibleStages_NoDup| |done].
      by apply prepared_clean. }
    by rewrite (measure_metrics _ _ _ Hm), (visit_weights _ _ Hm), total_exact.
  - intros v l Hv Hl. apply (link_entry_ends color v l Hv) in Hl. unfold link_ends, id_pair in Hl.
    apply bool_decide_ext. injection Hl as Hs Ht. destruct out; simpl; by rewrite ?Hs, ?Ht.
  - intros v Hv. by apply (visit_nonneg path_pairs color).
  - rewrite Hz. apply path_weights_safe.
  - apply (filter_core_perm link_core (fun c => c.1.1.1.2) l_value
      (fun c : jsstr * jsstr * number * number * number * number =>
         bool_decide ((if out then c.1.1.1.1.1 else c.1.1.1.1.2) = x))); [done|done|].
    apply graph_core.
Qed.

(** A node of a path that is not at the end of its stage list has a pair. *)
Lemma pair_end_names (out : bool) m p :
  p ∈ ps -> kinded m -> (if out then last stages else head stages) <> Some (fp_kind m) ->
  names path_pairs (pair_end out) (fp_id m) p = passes (fp_id m) p.
Proof.
  intros Hp Hm Hend. pose proof prepared_over as H. rewrite Forall_forall in H.
  destruct (H p Hp) as [Hk Hkd]. unfold passes, names. apply bool_decide_ext. unfold id.
  destruct out.
  - change (pair_end true) with (fun st : FlowPathNode * FlowPathNode => fp_id st.1).
    rewrite path_pairs_sources. destruct (pp_path p) as [|a path _] using rev_ind; [done|].
    rewrite length_app, Nat.add_sub, take_app_length, fmap_app, elem_of_app.
    split; [by left|]. intros [|Hx]; [done|]. exfalso. apply Hend.
    apply list_elem_of_singleton in Hx. rewrite <- Hk, fmap_app, last_app. simpl. f_equal.
    apply Forall_app in Hkd as [_ Hkd]. apply Forall_cons in Hkd as [Ha _]. by apply kinded_inj.
  - change (pair_end false) with (fun st : FlowPathNode * FlowPathNode => fp_id st.2).
    rewrite path_pairs_targets. destruct (pp_path p) as [|a path]; [done|]. simpl.
    rewrite elem_of_cons. split; [by right|]. intros [Hx|]; [|done]. exfalso. apply Hend.
    rewrite <- Hk. simpl. f_equal. apply Forall_cons in Hkd as [Ha _]. by apply kinded_inj.
Qed.

Lemma conservation_at (out : bool) n :
  n ∈ g_nodes g -> (if out then last stages else head stages) <> Some (n_kind n) ->
  num_sum (l_value <$> List.filter (fun l => bool_decide (link_end out l = n_id n)) (g_links g))
  = n_value n.
Proof.
  intros (m & p & Hp & Hm & E)%graph_node Hend. cbv zeta in E.
  assert (n_id n = fp_id m /\ n_kind n = fp_kind m
          /\ n_value n = total metric (List.filter (passes (n_id n)) ps)) as (Hid & Hk & ->)
    by (unfold node_core in E; split_and!; congruence).
  rewrite incident_weight, total_exact. do 2 f_equal. apply List.filter_ext_in.
  intros p' Hp'%list_elem_of_In. rewrite Hid. rewrite Hk in Hend. apply pair_end_names; [done| |done].
  exact (proj1 (path_node_kinded _ _ prepared_over p m Hp Hm)).
Qed.
End GraphFacts.
