(* ===== verification/FlowGraphSpec.v ===== *)
(** * What the flow dashboard promises

    The theorems on the graph of [buildFlowGraph] and on the row filters, from
    the sums of [FlowGraphFacts]: the graph as sums over paths, conservation of
    the flow, the stages of a role, the node limit, highlights and
    filters. *)

From S2P Require Import Prelude JsNumber JsMap FlowGraph FlowGraphFacts.

(** ** A small usage report *)

Definition sample_row (user token : Z) (group model : string) (quota : Z) : FlowQuotaDataItem :=
  mkRow (Some (num_of_Z user)) (Some (js "u" ++ dec_of_N (Z.to_N user))) None (Some (js group))
    (Some (num_of_Z token)) (Some (js "t" ++ dec_of_N (Z.to_N token))) None None (Some (js model))
    (Some (num_of_Z 10)) (Some (num_of_Z 1)) (Some (num_of_Z quota)).
Definition sample_rows : list FlowQuotaDataItem :=
  [sample_row 1 11 "default" "m1" 5; sample_row 2 12 "vip" "m1" 7; sample_row 1 13 "vip" "m2" 2].
Definition sample_weight (row : FlowQuotaDataItem) : Z :=
  default 0%Z (num_to_Z (numberValue (row_quota row))).
(** No collation order and no color table: the least the theorems may use. *)
Definition no_order (a b : jsstr) : comparison := Eq.
Definition sample_options (limit : option number) (mode : FlowOverflowMode) (mask : bool)
    (active : option FlowNodeFilter) : FlowGraphOptions :=
  mkGraphOptions limit (Some mode) None active None mask.

(** ** The node limit *)

Lemma math_floor_pos z : (0 < z)%Z -> safe z -> math_floor (num_of_Z z) = num_of_Z z.
Proof.
  intros Hz Hs. rewrite (num_of_Z_safe z) at 1 by done. destruct z as [|m|m]; [lia| |lia].
  cbn [math_floor]. rewrite floor_Z_safe; [done|]. unfold safe in Hs. lia.
Qed.

Lemma normalizeTopNodeLimit_pos z :
  (0 < z)%Z -> safe z -> normalizeTopNodeLimit (Some (num_of_Z z)) = Some (num_of_Z z).
Proof.
  intros Hz Hs. unfold normalizeTopNodeLimit. rewrite math_floor_pos, num_of_Z_finite by done.
  unfold is_positive. rewrite num_ltb_safe; [|unfold safe; lia|done].
  by rewrite (proj2 (Z.ltb_lt 0 z) Hz).
Qed.

Lemma num_truthy_pos z : (0 < z)%Z -> safe z -> num_truthy (num_of_Z z) = true.
Proof.
  intros Hz Hs. rewrite num_of_Z_safe by done. by destruct z.
Qed.

Lemma take_number_length {A} z (l : list A) :
  (0 < z)%Z -> safe z -> length (take_number (num_of_Z z) l) <= Z.to_nat z.
Proof.
  intros Hz Hs. unfold take_number. rewrite num_to_Z_of_Z by done. rewrite length_take. lia.
Qed.

Lemma js_set_length {A} `{EqDecision A} (l : list A) : length (js_set l) <= length l.
Proof.
  apply submseteq_length. apply NoDup_submseteq; [auto with js|].
  intros x. by rewrite elem_of_js_set.
Qed.

(** Every stage has a ranking. *)
Lemma rank_totals_keys rows metric stages ctx k :
  k ∈ stages -> k ∈ map_keys (rank_totals rows metric stages ctx).
Proof.
  intros Hk. unfold rank_totals.
  assert (H : k ∈ map_keys (fold_left (fun m s => map_set s [] m) stages
                ([] : list (FlowNodeKind * list (jsstr * FlowNodeRank))))).
  { induction stages as [|s ss IH] using rev_ind; [by apply not_elem_of_nil in Hk|].
    rewrite fold_left_app. cbn [fold_left]. rewrite map_set_keys, elem_of_set_add.
    apply elem_of_app in Hk as [Hk|Hk%list_elem_of_singleton]; [left; by apply IH|by right]. }
  revert H. generalize (fold_left (fun m s => map_set s [] m) stages
                ([] : list (FlowNodeKind * list (jsstr * FlowNodeRank)))).
  induction rows as [|row rows' IH]; intros m Hm; [done|]. cbn [fold_left]. apply IH.
  generalize (flowPathForStages row stages ctx). intros path. revert m Hm.
  induction path as [|n path IHp]; intros m Hm; [done|]. cbn [fold_left]. apply IHp.
  destruct (map_get _ _); [|done]. rewrite map_set_keys, elem_of_set_add. by left.
Qed.

Lemma top_set collate rows metric stages z ctx k :
  (0 < z)%Z -> safe z -> k ∈ stages ->
  exists tops ids, buildTopNodeSets collate rows metric stages (Some (num_of_Z z)) ctx = Some tops
    /\ map_get k tops = Some ids /\ length ids <= Z.to_nat z.
Proof.
  intros Hz Hs Hk. unfold buildTopNodeSets. rewrite num_truthy_pos by done. cbn [negb].
  apply (rank_totals_keys rows metric _ ctx) in Hk.
  destruct (map_get k (rank_totals rows metric stages ctx)) as [t|] eqn:E.
  - eexists _, _. split; [reflexivity|]. rewrite (map_get_map (fun t =>
      js_set (List.map (fun r => fp_id (rank_node r))
        (take_number (num_of_Z z) (js_sort (rank_cmp collate) (map_values t)))))), E.
    split; [reflexivity|]. etransitivity; [apply js_set_length|].
    rewrite length_map. by apply take_number_length.
  - by apply map_get_None in E.
Qed.

Section Claims.
Context (collate : jsstr -> jsstr -> comparison) (dataScheme : list DataScheme).
Context (rows : list FlowQuotaDataItem) (metric : FlowMetric) (role : FlowRole)
  (palette : option (list jsstr)) (visible : option (list FlowNodeKind)) (ctx : FlowPathContext)
  (options : FlowGraphOptions).

Local Abbreviation stages := (resolveVisibleStages role visible).
Local Abbreviation ps := (prepared collate rows metric stages ctx options).
Local Abbreviation g :=
  (buildFlowGraph collate dataScheme rows metric role palette visible ctx options).

(** ** The graph as sums over paths *)

(** C7: when no id holds the separator of link keys, the graph has exactly one
    node per id on a prepared path and one link per pair of consecutive ids,
    and each counter of a node or link is the sum, in row order, over the
    paths through it. *)
Theorem flow_graph_spec :
  clean_rows rows stages ctx ->
  (NoDup (n_id <$> g_nodes g)
   /\ (forall x, x ∈ n_id <$> g_nodes g <-> exists p, p ∈ ps /\ passes x p = true)
   /\ (forall n, n ∈ g_nodes g ->
         let through := List.filter (passes (n_id n)) ps in
         n_value n = total metric through /\ n_requests n = total MRequests through
         /\ n_quota n = total MQuota through /\ n_tokens n = total MTokens through))
  /\ (NoDup (link_ends <$> g_links g)
   /\ (forall s t, (s, t) ∈ link_ends <$> g_links g <-> exists p, p ∈ ps /\ follows s t p = true)
   /\ (forall l, l ∈ g_links g ->
         let along := List.filter (follows (l_source l) (l_target l)) ps in
         l_value l = total metric along /\ l_requests l = total MRequests along
         /\ l_quota l = total MQuota along /\ l_tokens l = total MTokens along)).
Proof.
  intros Hclean. split; split_and!.
  - rewrite nodes_ids. apply map_collect_NoDup.
  - intros x. rewrite nodes_ids. apply nodes_map_key.
  - intros n (m & p & _ & _ & E)%graph_node. cbv zeta in *. unfold node_core in E. by simplify_eq.
  - by apply links_NoDup.
  - intros s t. by apply graph_link_ends.
  - intros l (st & p & _ & _ & E)%graph_link; [|done]. cbv zeta in *. unfold link_core in E.
    by simplify_eq.
Qed.

(** ** Conservation *)

Lemma buildSummary_metric :
  metricValue (let s := buildSummary rows in mkMetrics (s_quota s) (s_tokens s) (s_requests s)) metric
  = num_sum ((fun row => metricValue (rowMetrics row) metric) <$> rows).
Proof.
  unfold buildSummary, num_sum. rewrite fold_left_fmap.
  assert (H : forall a, metricValue
    (let s := fold_left (fun s row => let m := rowMetrics row in
       mkSummary (num_add (s_quota s) (m_quota m)) (num_add (s_tokens s) (m_tokens m))
         (num_add (s_requests s) (m_requests m))) rows a in
     mkMetrics (s_quota s) (s_tokens s) (s_requests s)) metric
    = fold_left (fun c row => num_add c (metricValue (rowMetrics row) metric)) rows
        (metricValue (mkMetrics (s_quota a) (s_tokens a) (s_requests a)) metric)).
  { clear. induction rows as [|row rows' IH]; intros a; [done|]. cbn [fold_left]. cbv zeta in *.
    rewrite IH. by destruct metric. }
  cbv zeta in *. rewrite H. by destruct metric.
Qed.

Lemma prepared_all :
  default DEFAULT_FLOW_OVERFLOW_MODE (go_overflowMode options) = Aggregate ->
  pp_metrics <$> ps = rowMetrics <$> rows.
Proof.
  intros Hm. unfold prepared, prepare_paths. rewrite Hm.
  set (tops := buildTopNodeSets _ _ _ _ _ _). clearbody tops. clear.
  induction rows as [|row rows' IH]; [done|]. simpl.
  assert (exists path, applyTopNodeLimit (flowPathForStages row stages ctx) tops Aggregate
            (go_otherNodeLabel options) = Some path) as [path ->].
  { unfold applyTopNodeLimit. destruct tops as [tops|]; [|eauto]. destruct (negb _); eauto. }
  simpl. f_equal. exact IH.
Qed.

(** C2: when the metric of every row is a non-negative integer and their sum is
    exact, what flows into a node of a later stage and what flows out of a node
    of an earlier stage is the value of the node; and when the rows over the
    limit are aggregated, the nodes of every stage add up to the summary. *)
Theorem flow_conservation (w : FlowQuotaDataItem -> Z) :
  clean_rows rows stages ctx ->
  (forall row, row ∈ rows ->
     metricValue (rowMetrics row) metric = num_of_Z (w row) /\ (0 <= w row)%Z) ->
  safe (Z_sum (w <$> rows)) ->
  (forall n, n ∈ g_nodes g -> head stages <> Some (n_kind n) ->
     num_sum (l_value <$> List.filter (fun l => bool_decide (l_target l = n_id n)) (g_links g))
     = n_value n)
  /\ (forall n, n ∈ g_nodes g -> last stages <> Some (n_kind n) ->
     num_sum (l_value <$> List.filter (fun l => bool_decide (l_source l = n_id n)) (g_links g))
     = n_value n)
  /\ (default DEFAULT_FLOW_OVERFLOW_MODE (go_overflowMode options) = Aggregate ->
      forall k, k ∈ stages ->
        num_sum (n_value <$> List.filter (fun n => bool_decide (n_kind n = k)) (g_nodes g))
        = metricValue (let s := buildSummary rows in
                       mkMetrics (s_quota s) (s_tokens s) (s_requests s)) metric).
Proof.
  intros Hclean Hw Hsafe. split_and!.
  - intros n Hn Hk. by eapply (conservation_at _ _ _ _ _ _ _ _ _ Hclean w Hw Hsafe false).
  - intros n Hn Hk. by eapply (conservation_at _ _ _ _ _ _ _ _ _ Hclean w Hw Hsafe true).
  - intros Hm k Hk. rewrite buildSummary_metric. rewrite (stage_weight _ _ _ _ _ _ _ _ _ w Hw Hsafe k Hk).
    unfold path_weights. transitivity (num_of_Z (Z_sum (weight metric <$> (pp_metrics <$> ps)))).
    { by rewrite <- list_fmap_compose. }
    rewrite prepared_all by done. rewrite <- list_fmap_compose.
    rewrite (list_fmap_ext (weight metric ∘ rowMetrics) w rows).
    + rewrite <- num_sum_exact; [|by apply (weights_nonneg rows metric)|done]. f_equal.
      rewrite <- list_fmap_compose. apply list_fmap_ext. intros i row Hi. simpl. symmetry.
      apply Hw. by apply list_elem_of_lookup_2 in Hi.
    + intros i row Hi. apply list_elem_of_lookup_2 in Hi. by apply (weight_row rows metric w Hw Hsafe).
Qed.

(** ** Stages *)

Lemma graph_link_ids l :
  l ∈ g_links g ->
  exists st p, p ∈ ps /\ st ∈ path_pairs (pp_path p) /\ link_ends l = id_pair st.
Proof.
  intros Hl. destruct (elem_of_core link_core (g_links g)
    (map_values (collected_links collate dataScheme metric palette ps)) l) as (l' & Hl' & E);
    [apply graph_core|done|].
  apply elem_of_values in Hl' as [k (v & Hv & _ & E')%collected_link_core].
  destruct (visit_path _ _ _ _ eq_refl Hv) as (p & Hp & Hst). exists (v_item v), p.
  split_and!; [done|done|]. cbv zeta in *. unfold link_core, link_ends, id_pair in *. congruence.
Qed.

Lemma graph_node_of p m :
  p ∈ ps -> m ∈ pp_path p ->
  exists n, n ∈ g_nodes g /\ n_id n = fp_id m /\ n_kind n = fp_kind m.
Proof.
  intros Hp Hm. assert (H : fp_id m ∈ n_id <$> g_nodes g).
  { rewrite nodes_ids. apply nodes_map_key. exists p. split; [done|].
    apply bool_decide_eq_true. by apply list_elem_of_fmap_2. }
  apply list_elem_of_fmap in H as (n & E & Hn). exists n. split_and!; [done|done|].
  destruct (graph_node _ _ _ _ _ _ _ _ _ n Hn) as (m' & p' & Hp' & Hm' & E'). cbv zeta in E'.
  assert (n_id n = fp_id m' /\ n_kind n = fp_kind m') as [Hi ->]
    by (unfold node_core in E'; split; congruence).
  apply kinded_inj; [| |congruence].
  - exact (proj1 (path_node_kinded _ _ (prepared_over _ _ _ _ _ _ _) p' m' Hp' Hm')).
  - exact (proj1 (path_node_kinded _ _ (prepared_over _ _ _ _ _ _ _) p m Hp Hm)).
Qed.

(** C30: the graph shows at least two stages, all of the role and, when enough
    of them are, all selected; every node is of a shown stage and every link
    joins two nodes of the graph in consecutive stages.  A user without the
    admin role sees neither users, nor server nodes, nor channels. *)
Theorem flow_stages_safe :
  stages `sublist_of` getFlowStages role /\ MIN_FLOW_STAGES <= length stages
  /\ (forall v, visible = Some v -> stages = List.filter (set_has v) (getFlowStages role)
                \/ length (List.filter (set_has v) (getFlowStages role)) < MIN_FLOW_STAGES)
  /\ (forall n, n ∈ g_nodes g -> n_kind n ∈ stages
        /\ (role = RoleUser -> n_kind n ∉ [KUser; KNode; KChannel]))
  /\ (forall l, l ∈ g_links g -> exists i a b,
        a ∈ g_nodes g /\ b ∈ g_nodes g /\ n_id a = l_source l /\ n_id b = l_target l
        /\ stages !! i = Some (n_kind a) /\ stages !! S i = Some (n_kind b)).
Proof.
  destruct (resolveVisibleStages_spec role visible) as [Hs Hl]. split_and!; [done|done|..].
  - intros v ->. unfold resolveVisibleStages. destruct (Nat.leb_spec MIN_FLOW_STAGES
      (length (List.filter (fun s => set_has v s) (getFlowStages role)))); [left; reflexivity|by right].
  - intros n Hn%graph_node_kind. split; [done|]. intros ->.
    pose proof (elem_of_sublist _ _ _ Hn Hs) as Hk. revert Hk. generalize (n_kind n). clear.
    intros k. simpl. set_solver.
  - intros l ([ma mb] & p & Hp & Hst & E)%graph_link_ids.
    apply list_elem_of_lookup in Hst as [i Hi]. unfold path_pairs in Hi.
    apply lookup_zip_Some in Hi as [Ha Hb]. rewrite lookup_tail in Hb.
    destruct (graph_node_of p ma) as (a & Hga & Hia & Hka); [done|by eapply list_elem_of_lookup_2|].
    destruct (graph_node_of p mb) as (b & Hgb & Hib & Hkb); [done|by eapply list_elem_of_lookup_2|].
    unfold link_ends, id_pair in E. injection E as E1 E2.
    exists i, a, b. split_and!; [done|done|congruence|congruence|..];
      pose proof (prepared_over collate rows metric role visible ctx options) as H;
      rewrite Forall_forall in H; destruct (H p Hp) as [<- _]; rewrite list_lookup_fmap.
    + by rewrite Ha, Hka.
    + by rewrite Hb, Hkb.
Qed.

(** ** Highlights *)

(** A selection is active on a link, or on a node of a shown stage. *)
Definition selection_active : bool :=
  match go_activeLink options, go_activeNode options with
  | Some _, _ => true
  | None, Some f => set_has stages (ff_kind f)
  | None, None => false
  end.
(** The path holds the selected link, or else the selected node. *)
Definition hit (p : PreparedFlowPath) : bool :=
  matchesPath (go_activeNode options) (go_activeLink options) (pp_path p).
Definition on_hit_path (q : PreparedFlowPath -> bool) : bool := existsb (fun p => hit p && q p) ps.

Lemma set_has_flat_map {A} `{EqDecision A} (f : PreparedFlowPath -> list A) x qs :
  set_has (js_set (flat_map f (List.filter hit qs))) x
  = existsb (fun p => hit p && bool_decide (x ∈ f p)) qs.
Proof.
  apply eq_true_iff_eq. rewrite set_has_spec, elem_of_js_set, existsb_exists, list_elem_of_In,
    in_flat_map. setoid_rewrite filter_In. setoid_rewrite andb_true_iff.
  setoid_rewrite bool_decide_eq_true. setoid_rewrite list_elem_of_In. naive_solver.
Qed.

Lemma highlight_sets :
  match buildFlowHighlightSets ps (go_activeNode options) (go_activeLink options) stages with
  | Some hs => selection_active && existsb hit ps = true
      /\ (forall x, set_has (hl_nodes hs) x = on_hit_path (passes x))
      /\ (forall k, set_has (hl_links hs) k
                    = on_hit_path (names path_pairs (fun st => pathLinkKey st.1 st.2) k))
  | None => selection_active && existsb hit ps = false
  end.
Proof.
  unfold buildFlowHighlightSets.
  assert (Ha : negb (match go_activeNode options with
                     | Some f => set_has stages (ff_kind f) | None => false end)
               && negb (match go_activeLink options with Some _ => true | None => false end)
               = negb selection_active).
  { unfold selection_active. destruct (go_activeLink options); [by rewrite andb_false_r|].
    destruct (go_activeNode options); by rewrite andb_true_r. }
  rewrite Ha. destruct selection_active; [|done]. cbn [negb andb]. cbv zeta.
  change (fun p => matchesPath _ _ (pp_path p)) with hit.
  set (ids := js_set _). destruct ids as [|x ids'] eqn:E; cbn [length Nat.eqb].
  - apply not_true_is_false. intros (p & Hp & Hh)%existsb_exists. apply list_elem_of_In in Hp.
    pose proof (prepared_over collate rows metric role visible ctx options) as Ho.
    rewrite Forall_forall in Ho. destruct (Ho p Hp) as [Ho' _].
    destruct (pp_path p) as [|m path] eqn:Ep.
    + destruct (resolveVisibleStages_spec role visible) as [_ Hl]. rewrite <- Ho' in Hl.
      unfold MIN_FLOW_STAGES in Hl. simpl in Hl. lia.
    + apply (not_elem_of_nil (fp_id m)). rewrite <- E. unfold ids.
      rewrite elem_of_js_set, list_elem_of_In, in_flat_map. exists p. rewrite filter_In.
      split; [by rewrite <- list_elem_of_In|]. rewrite Ep. by left.
  - rewrite <- E. unfold ids. cbn [hl_nodes hl_links]. split_and!.
    + assert (Hx : x ∈ ids) by (rewrite E; by left). unfold ids in Hx.
      rewrite elem_of_js_set, list_elem_of_In, in_flat_map in Hx. destruct Hx as (p & Hp & _).
      apply existsb_exists. apply filter_In in Hp. by exists p.
    + intros y. apply (set_has_flat_map (fun p => fp_id <$> pp_path p)).
    + intros k. apply (set_has_flat_map
        (fun p => (fun st => pathLinkKey st.1 st.2) <$> path_pairs (pp_path p))).
Qed.

Definition node_marks (n : DashboardFlowNode) := (n_highlighted n, n_dimmed n).
Definition link_marks (l : DashboardFlowLink) := (l_highlighted l, l_dimmed l).

Lemma masked_parts_plain :
  let parts := masked_parts collate dataScheme rows metric role palette visible ctx options in
  (forall n, n ∈ parts.1 -> node_marks n = (None, None))
  /\ (forall l, l ∈ parts.2 -> link_marks l = (None, None)).
Proof.
  cbv zeta.
  assert (Hn : forall n, n ∈ map_values (collected_nodes collate dataScheme metric palette ps) ->
                 node_marks n = (None, None)).
  { intros n [x Hn]%elem_of_values. unfold collected_nodes in Hn. rewrite map_collect_elem in Hn.
    apply collected_Some in Hn as (v & _ & _ & ->).
    generalize (with_key node_key x (visits id (root_color dataScheme
      (stableColorMap dataScheme (js_sort collate (root_ids ps)) palette) palette) ps)).
    intros vs. change (None, None) with (node_marks (node_init v)). generalize (node_init v).
    induction vs as [|v' vs IH]; intros n; [done|]. cbn [fold_left]. by rewrite IH. }
  assert (Hl : forall l, l ∈ map_values (collected_links collate dataScheme metric palette ps) ->
                 link_marks l = (None, None)).
  { intros l [x Hl]%elem_of_values. unfold collected_links in Hl. rewrite map_collect_elem in Hl.
    apply collected_Some in Hl as (v & _ & _ & ->).
    generalize (with_key pair_key x (visits path_pairs (root_color dataScheme
      (stableColorMap dataScheme (js_sort collate (root_ids ps)) palette) palette) ps)).
    intros vs. assert (link_marks (link_init v) = (None, None)) as <-
      by (unfold link_init; by destruct (v_item v)). generalize (link_init v).
    induction vs as [|v' vs IH]; intros l; [done|]. cbn [fold_left]. by rewrite IH. }
  unfold masked_parts. destruct (go_maskSensitive options); [|done].
  unfold maskFlowGraphLabels. split.
  - intros n H. assert (H' : n ∈ (fun n => if is_masked_node n
      then set_node_label (maskFlowLabel (n_label n)) n else n)
      <$> map_values (collected_nodes collate dataScheme metric palette ps)) by (by destruct (_ =? 0)).
    apply list_elem_of_fmap in H' as (n0 & -> & H0). destruct (is_masked_node n0); by apply (Hn n0).
  - intros l H. destruct (_ =? 0); [by apply Hl|].
    apply list_elem_of_fmap in H as (l0 & -> & H0). by apply (Hl l0).
Qed.

Lemma graph_links_marks l :
  l ∈ g_links g ->
  exists l0, l0 ∈ (graph_parts collate dataScheme rows metric role palette visible ctx options).2
    /\ link_marks l0 = link_marks l /\ linkStableKey l0 = linkStableKey l.
Proof.
  destruct (buildFlowGraph_parts collate dataScheme rows metric role palette visible ctx options)
    as [share ->]. cbn [g_links]. unfold assignLinkDisplayColors.
  intros (l1 & -> & H1)%list_elem_of_fmap. apply list_elem_of_fmap in H1 as (l2 & -> & H2).
  rewrite elem_of_js_sort in H2. destruct (alphaColor _ _) as [c a]. by exists l2.
Qed.

Lemma highlighted_parts :
  let parts := graph_parts collate dataScheme rows metric role palette visible ctx options in
  let marks on := if selection_active && existsb hit ps then (Some on, Some (negb on)) else (None, None) in
  (forall n, n ∈ parts.1 -> node_marks n = marks (on_hit_path (passes (n_id n))))
  /\ (forall l, l ∈ parts.2 -> link_marks l
       = marks (on_hit_path (names path_pairs (fun st => pathLinkKey st.1 st.2) (linkStableKey l)))).
Proof.
  cbv zeta. pose proof highlight_sets as Hs. destruct masked_parts_plain as [Hn Hl].
  unfold graph_parts. destruct (buildFlowHighlightSets _ _ _ _) as [hs|].
  - destruct Hs as (-> & Hnodes & Hlinks). cbn [applyFlowHighlights fst snd].
    split; intros x (x0 & -> & _)%list_elem_of_fmap.
    + unfold node_marks. simpl. by rewrite Hnodes.
    + unfold link_marks. simpl. by rewrite Hlinks.
  - rewrite Hs. done.
Qed.

(** With an active selection that a path of the graph holds, a node or link
    is highlighted exactly when it lies on such a path, and dimmed otherwise;
    without one, nothing is highlighted or dimmed. *)
Theorem flow_highlights_spec :
  let marked := selection_active && existsb hit ps in
  (forall n, n ∈ g_nodes g ->
     let on := on_hit_path (passes (n_id n)) in
     n_highlighted n = (if marked then Some on else None)
     /\ n_dimmed n = (if marked then Some (negb on) else None))
  /\ (forall l, l ∈ g_links g ->
     let on := on_hit_path (names path_pairs (fun st => pathLinkKey st.1 st.2) (linkStableKey l)) in
     l_highlighted l = (if marked then Some on else None)
     /\ l_dimmed l = (if marked then Some (negb on) else None)).
Proof.
  cbv zeta. destruct highlighted_parts as [Hn Hl]. split.
  - intros n H. destruct (buildFlowGraph_parts collate dataScheme rows metric role palette visible
      ctx options) as [share E]. rewrite E in H. cbn [g_nodes] in H. rewrite elem_of_js_sort in H.
    apply Hn in H. unfold node_marks in H. by destruct (selection_active && _); injection H as -> ->.
  - intros l (l0 & H & Hm & Hk)%graph_links_marks. apply Hl in H. rewrite Hm, Hk in H.
    unfold link_marks in H. by destruct (selection_active && _); injection H as -> ->.
Qed.

(** ** The node limit *)

(** A prepared path holds top nodes and aggregates of their stage. *)
Lemma prepared_top p m tops ids :
  buildTopNodeSets collate rows metric stages
    (normalizeTopNodeLimit (go_topNodeLimit options)) ctx = Some tops ->
  p ∈ ps -> m ∈ pp_path p -> map_get (fp_kind m) tops = Some ids ->
  fp_id m ∈ ids \/ (go_overflowMode options <> Some Hide /\ fp_id m = OTHER_FLOW_NODE_IDS (fp_kind m)).
Proof.
  intros Ht Hp Hm Hget. unfold prepared, prepare_paths in Hp. rewrite Ht in Hp.
  apply list_elem_of_omap in Hp as (row & _ & E). apply fmap_Some in E as (path & E & ->).
  cbn [pp_path] in Hm. unfold applyTopNodeLimit in E.
  assert (Htop : isTopFlowNode m (Some tops) = true -> fp_id m ∈ ids).
  { unfold isTopFlowNode. simpl. rewrite Hget. apply set_has_spec. }
  destruct (existsb _ _) eqn:Ex; cbn [negb] in E.
  - destruct (default _ _) eqn:Em; [|done]. injection E as <-.
    apply list_elem_of_fmap in Hm as (m0 & -> & _). destruct (isTopFlowNode m0 _) eqn:E0; [auto|].
    right. split; [|done]. intros Hh. by rewrite Hh in Em.
  - injection E as <-. left. apply Htop. apply not_false_iff_true. intros Hf.
    apply not_true_iff_false in Ex. apply Ex. apply existsb_exists. exists m.
    by rewrite Hf, <- list_elem_of_In.
Qed.

Lemma ids_bound (ns : list DashboardFlowNode) (ids : list jsstr) :
  NoDup (n_id <$> ns) -> (forall n, n ∈ ns -> n_id n ∈ ids) -> length ns <= length ids.
Proof.
  intros Hn Hi. rewrite <- (length_fmap n_id ns). apply submseteq_length, NoDup_submseteq; [done|].
  intros x (n & -> & H)%list_elem_of_fmap. by apply Hi.
Qed.

(** With a limit of [z] nodes, a stage of the graph has at most [z] nodes
    when the rest is hidden, and at most one more, the aggregate of the rest,
    when it is aggregated. *)
Theorem flow_limit_bound z k :
  go_topNodeLimit options = Some (num_of_Z z) -> (0 < z)%Z -> safe z ->
  let shown := List.filter (fun n => bool_decide (n_kind n = k)) (g_nodes g) in
  length shown <= Z.to_nat z + 1
  /\ (go_overflowMode options = Some Hide -> length shown <= Z.to_nat z)
  /\ length (List.filter (fun n => negb (bool_decide (n_id n = OTHER_FLOW_NODE_IDS k))) shown)
     <= Z.to_nat z.
Proof.
  intros Hlim Hz Hs. cbv zeta.
  set (shown := List.filter (fun n => bool_decide (n_kind n = k)) (g_nodes g)).
  assert (Hids : exists ids, length ids <= Z.to_nat z /\ forall n, n ∈ shown -> n_id n ∈ ids
    \/ (go_overflowMode options <> Some Hide /\ n_id n = OTHER_FLOW_NODE_IDS k)).
  { destruct (decide (k ∈ stages)) as [Hk|Hk].
    - destruct (top_set collate rows metric stages z ctx k Hz Hs Hk) as (tops & ids & Ht & Hg & Hl).
      exists ids. split; [done|]. intros n (Hn%list_elem_of_In & Hkn)%list_elem_of_In%filter_In.
      apply bool_decide_eq_true in Hkn. apply graph_node in Hn as (m & p & Hp & Hm & E).
      cbv zeta in E. assert (n_id n = fp_id m /\ fp_kind m = k) as [-> Hkm]
        by (unfold node_core in E; split; congruence).
      rewrite <- Hkm in Hg |- *. apply (prepared_top p m tops); [|done..].
      by rewrite Hlim, normalizeTopNodeLimit_pos.
    - exists []. split; [simpl; lia|].
      intros n (Hn%list_elem_of_In & Hkn)%list_elem_of_In%filter_In.
      apply bool_decide_eq_true in Hkn. apply graph_node_kind in Hn. congruence. }
  destruct Hids as (ids & Hlen & Hin).
  assert (Hnd : NoDup (n_id <$> shown)).
  { apply (sublist_NoDup _ (n_id <$> g_nodes g)); [|apply fmap_sublist, List_filter_sublist].
    rewrite nodes_ids. apply map_collect_NoDup. }
  split_and!.
  - transitivity (length (ids ++ [OTHER_FLOW_NODE_IDS k])); [|rewrite length_app; simpl; lia].
    apply (ids_bound shown); [done|]. intros n [H|[_ H]]%Hin; apply elem_of_app; [by left|right].
    by apply list_elem_of_singleton.
  - intros Hh. etransitivity; [|exact Hlen]. apply ids_bound; [done|]. by intros n [H|[H _]]%Hin.
  - etransitivity; [|exact Hlen]. apply ids_bound.
    + eapply sublist_NoDup; [exact Hnd|]. apply fmap_sublist, List_filter_sublist.
    + intros n (Hn%list_elem_of_In & Hk)%list_elem_of_In%filter_In.
      apply negb_true_iff, bool_decide_eq_false in Hk. by destruct (Hin n Hn) as [H|[_ H]].
Qed.
End Claims.

(** ** Filters *)

(** For every selected node of a shown stage, some selected node of that stage
    is the node of the row. *)
Definition row_selected (sel : list FlowNodeFilter) (stages : list FlowNodeKind)
    (ctx : FlowPathContext) (row : FlowQuotaDataItem) : bool :=
  forallb (fun f => negb (set_has stages (ff_kind f))
    || existsb (fun f' => bool_decide (ff_kind f' = ff_kind f)
                          && bool_decide (ff_id f' = fp_id (NODE_BUILDERS (ff_kind f) row ctx))) sel)
    sel.

Lemma row_selected_true sel stages ctx row :
  row_selected sel stages ctx row = true <->
  forall f, f ∈ sel -> ff_kind f ∈ stages ->
    exists f', f' ∈ sel /\ ff_kind f' = ff_kind f
      /\ ff_id f' = fp_id (NODE_BUILDERS (ff_kind f) row ctx).
Proof.
  unfold row_selected. rewrite forallb_forall. setoid_rewrite orb_true_iff.
  setoid_rewrite negb_true_iff. setoid_rewrite existsb_exists. setoid_rewrite andb_true_iff.
  setoid_rewrite bool_decide_eq_true. setoid_rewrite list_elem_of_In. split; intros H f Hf.
  - intros Hk. destruct (H f Hf) as [Hn|(f' & ?)]; [|by exists f'].
    apply not_true_iff_false in Hn. by rewrite set_has_spec, list_elem_of_In in Hn.
  - destruct (set_has stages (ff_kind f)) eqn:E; [right|by left].
    apply H; [done|]. by rewrite <- list_elem_of_In, <- set_has_spec.
Qed.

Lemma normalizeSelectedNodeFilters_groups sel stages :
  normalizeSelectedNodeFilters (Some sel) stages
  = group_sets ff_kind ff_id (List.filter (fun f => set_has stages (ff_kind f)) sel).
Proof. unfold normalizeSelectedNodeFilters, group_sets, map_collect. apply fold_left_filter. Qed.

Lemma flowPath_node row stages ctx n :
  n ∈ flowPathForStages row stages ctx -> fp_kind n ∈ stages /\ n = NODE_BUILDERS (fp_kind n) row ctx.
Proof.
  unfold flowPathForStages. intros (k & -> & Hk)%list_elem_of_fmap. by rewrite NODE_BUILDERS_kind.
Qed.

Lemma group_entry (fs : list FlowNodeFilter) f :
  f ∈ fs -> exists ids, (ff_kind f, ids) ∈ group_sets ff_kind ff_id fs.
Proof.
  intros Hf. assert (H : ff_kind f ∈ map_keys (group_sets ff_kind ff_id fs))
    by (apply group_sets_key; by exists f).
  apply list_elem_of_fmap in H as ([k ids] & -> & H). by exists ids.
Qed.

(** A path passes the filters when, for every filter, it holds a filtered node
    of its stage. *)
Lemma pathMatches_groups path fs :
  pathMatchesNodeFilters path (group_sets ff_kind ff_id fs) = true <->
  forall f, f ∈ fs -> exists f' n, f' ∈ fs /\ n ∈ path /\ ff_kind f' = ff_kind f
    /\ fp_kind n = ff_kind f /\ fp_id n = ff_id f'.
Proof.
  unfold pathMatchesNodeFilters.
  change (map_collect fp_kind (fun _ => []) (fun n ids => set_add ids (fp_id n)) path [])
    with (group_sets fp_kind fp_id path).
  destruct (_ =? 0) eqn:El.
  - split; [|done]. intros _ f (ids & H)%group_entry. apply Nat.eqb_eq, nil_length_inv in El.
    rewrite El in H. by apply not_elem_of_nil in H.
  - rewrite forallb_forall. split; [intros H f Hf|intros H [k ids] He%list_elem_of_In; simpl].
    + destruct (group_entry _ _ Hf) as (ids & He).
      specialize (H _ (proj1 (list_elem_of_In _ _) He)). simpl in H.
      destruct (map_get _ _) as [pids|] eqn:Ep; [|done]. apply group_sets_get in Ep.
      apply existsb_exists in H as (x & Hx%list_elem_of_In & Hp). rewrite set_has_spec in Hp.
      apply (group_sets_elem _ _ _ _ _ _ He) in Hx as (f' & Hf' & Hk' & <-).
      apply (group_sets_elem _ _ _ _ _ _ Ep) in Hp as (n & Hn & Hkn & Hid). by exists f', n.
    + assert (Hkey : k ∈ map_keys (group_sets ff_kind ff_id fs))
        by (apply list_elem_of_fmap; by exists (k, ids)).
      apply group_sets_key in Hkey as (f & Hf & <-).
      destruct (H f Hf) as (f' & n & Hf' & Hn & Hk' & Hkn & Hid).
      destruct (map_get (ff_kind f) (group_sets fp_kind fp_id path)) as [pids|] eqn:Ep.
      * apply existsb_exists. exists (ff_id f'). rewrite <- list_elem_of_In, set_has_spec.
        apply group_sets_get in Ep. rewrite (group_sets_elem _ _ _ _ _ _ He),
          (group_sets_elem _ _ _ _ _ _ Ep). split; [by exists f'|by exists n].
      * apply map_get_None in Ep. exfalso. apply Ep. apply group_sets_key. by exists n.
Qed.

Lemma pathMatches_selected sel stages ctx row :
  pathMatchesNodeFilters (flowPathForStages row stages ctx)
    (normalizeSelectedNodeFilters (Some sel) stages) = row_selected sel stages ctx row.
Proof.
  apply eq_true_iff_eq.
  rewrite normalizeSelectedNodeFilters_groups, pathMatches_groups, row_selected_true.
  setoid_rewrite list_elem_of_In. setoid_rewrite filter_In. setoid_rewrite <- list_elem_of_In.
  setoid_rewrite set_has_spec. split.
  - intros H f Hf Hk. destruct (H f) as (f' & n & [Hf' _] & Hn & Hk' & Hkn & Hid); [done|].
    exists f'. split_and!; [done|done|]. apply flowPath_node in Hn as [_ Hn].
    by rewrite <- Hid, Hn, Hkn.
  - intros H f [Hf Hk]. destruct (H f Hf Hk) as (f' & Hf' & Hk' & Hid).
    exists f', (NODE_BUILDERS (ff_kind f) row ctx). rewrite NODE_BUILDERS_kind, Hk'.
    split_and!; try done. apply list_elem_of_fmap. by exists (ff_kind f).
Qed.

Lemma filterRowsByNodes_selected rows sel stages ctx :
  filterRowsByNodes rows sel stages ctx = List.filter (row_selected (default [] sel) stages ctx) rows.
Proof.
  unfold filterRowsByNodes.
  assert (normalizeSelectedNodeFilters sel stages
          = normalizeSelectedNodeFilters (Some (default [] sel)) stages) as -> by done.
  transitivity (List.filter (fun row => pathMatchesNodeFilters (flowPathForStages row stages ctx)
    (normalizeSelectedNodeFilters (Some (default [] sel)) stages)) rows).
  - destruct (_ =? 0) eqn:E; [|done]. symmetry. apply List_filter_id. intros row _.
    unfold pathMatchesNodeFilters. by rewrite E.
  - apply List.filter_ext. intros row. apply pathMatches_selected.
Qed.

(** The node filter keeps, in order, exactly the rows that have, for every
    selected node of a shown stage, one of the selected nodes of that stage. *)
Theorem filterRowsByNodes_spec rows sel stages ctx :
  filterRowsByNodes rows sel stages ctx
    = List.filter (row_selected (default [] sel) stages ctx) rows
  /\ forall row, row ∈ filterRowsByNodes rows sel stages ctx <->
       row ∈ rows /\ forall f, f ∈ default [] sel -> ff_kind f ∈ stages ->
         exists f', f' ∈ default [] sel /\ ff_kind f' = ff_kind f
           /\ ff_id f' = fp_id (NODE_BUILDERS (ff_kind f) row ctx).
Proof.
  split; [apply filterRowsByNodes_selected|]. intros row.
  rewrite filterRowsByNodes_selected, list_elem_of_In, filter_In, <- list_elem_of_In.
  by rewrite row_selected_true.
Qed.

(** ** Offered options *)

Lemma rank_fold_node (f : FlowQuotaDataItem -> number) vs r :
  rank_node (fold_left (fun r row => mkRank (rank_node r) (num_add (rank_value r) (f row))) vs r)
  = rank_node r.
Proof. revert r. induction vs as [|v vs IH]; intros r; [done|]. cbn [fold_left]. by rewrite IH. Qed.

(** C31: every node the filter menu offers keeps at least one row when it is
    selected with the selection of the other stages, so an offered choice never
    empties the chart. *)
Theorem offered_options_keep_rows collate formatNumber dataScheme rows metric role visible palette
    ctx sel o :
  o ∈ buildNodeFilterOptions collate formatNumber dataScheme rows metric role visible palette ctx sel ->
  let stages := resolveVisibleStages role visible in
  no_kind o ∈ stages
  /\ exists row, row ∈ filterRowsByNodes rows
       (Some (mkFilter (no_kind o) (no_value o)
              :: default [] (selectedNodeFiltersExceptKind sel (no_kind o)))) stages ctx.
Proof.
  unfold buildNodeFilterOptions. rewrite elem_of_js_sort.
  intros (stage & Hst%list_elem_of_In & Ho%list_elem_of_In)%list_elem_of_In%in_flat_map. cbv zeta.
  apply list_elem_of_fmap in Ho as (r & -> & [key Hr]%elem_of_values).
  unfold stage_totals in Hr. rewrite map_collect_elem in Hr.
  apply collected_Some in Hr as (row & Hrow & _ & ->). cbn [no_kind no_value].
  rewrite rank_fold_node. cbn [rank_node]. rewrite NODE_BUILDERS_kind. split; [done|].
  exists row. revert Hrow. rewrite !filterRowsByNodes_selected, !list_elem_of_In, !filter_In.
  intros [Hrow Hsel]. split; [done|]. rewrite row_selected_true in *. cbn [default].
  intros f [->|Hf]%elem_of_cons Hk.
  - eexists. split; [by left|done].
  - destruct (Hsel f Hf Hk) as (f' & Hf' & H'). exists f'. split; [by right|done].
Qed.

(** ** Witnesses on the small report *)

Definition sample_graph (options : FlowGraphOptions) : DashboardFlowGraph :=
  buildFlowGraph no_order [] sample_rows MQuota RoleUser None None None options.
Definition plain_options : FlowGraphOptions := sample_options None Aggregate false None.

Lemma clean_rows_check rows stages ctx :
  forallb (fun row => forallb (fun n => negb (set_has (fp_id n) 0%N))
                        (flowPathForStages row stages ctx)) rows = true ->
  clean_rows rows stages ctx.
Proof.
  intros H row Hrow. rewrite forallb_forall in H.
  specialize (H row (proj1 (list_elem_of_In _ _) Hrow)). rewrite forallb_forall in H.
  unfold clean. rewrite Forall_forall. intros n Hn%list_elem_of_In%H Hz.
  apply negb_true_iff, not_true_iff_false in Hn. apply Hn. by apply set_has_spec.
Qed.

Lemma sample_weights row :
  row ∈ sample_rows ->
  metricValue (rowMetrics row) MQuota = num_of_Z (sample_weight row) /\ (0 <= sample_weight row)%Z.
Proof.
  unfold sample_rows. rewrite !elem_of_cons, elem_of_nil.
  intros [->|[->|[->|[]]]]; vm_compute; split; congruence.
Qed.

Lemma flow_graph_spec_witness :
  clean_rows sample_rows (resolveVisibleStages RoleUser None) None
  /\ NoDup (n_id <$> g_nodes (sample_graph plain_options))
  /\ NoDup (link_ends <$> g_links (sample_graph plain_options)).
Proof.
  assert (H : clean_rows sample_rows (resolveVisibleStages RoleUser None) None)
    by (apply clean_rows_check; vm_compute; reflexivity).
  destruct (flow_graph_spec no_order [] sample_rows MQuota RoleUser None None None plain_options H)
    as [(H1 & _) (H2 & _)]. split_and!; [exact H|exact H1|exact H2].
Defined.

Lemma flow_conservation_witness :
  (sample_weight <$> sample_rows = [5; 7; 2]%Z)
  /\ exists n, n ∈ g_nodes (sample_graph plain_options) /\ n_id n = js "group:vip"
       /\ n_value n = num_of_Z 9
       /\ num_sum (l_value <$> List.filter (fun l => bool_decide (l_target l = n_id n))
                     (g_links (sample_graph plain_options))) = n_value n.
Proof.
  split; [vm_compute; reflexivity|].
  assert (H : clean_rows sample_rows (resolveVisibleStages RoleUser None) None)
    by (apply clean_rows_check; vm_compute; reflexivity).
  destruct (flow_conservation no_order [] sample_rows MQuota RoleUser None None None plain_options
    sample_weight H sample_weights) as (Hin & _ & _); [vm_compute; reflexivity|].
  destruct (List.find (fun n => bool_decide (n_id n = js "group:vip"))
    (g_nodes (sample_graph plain_options))) as [n|] eqn:E; [|vm_compute in E; discriminate].
  assert (Hn : n ∈ g_nodes (sample_graph plain_options)).
  { apply find_some in E as [E _]. by apply list_elem_of_In. }
  exists n. split; [exact Hn|]. pose proof E as E'. vm_compute in E'.
  injection E' as <-. split; [reflexivity|]. split; [vm_compute; reflexivity|].
  apply (Hin _ Hn). vm_compute. congruence.
Defined.

Lemma flow_limit_bound_witness :
  length (List.filter (fun n => bool_decide (n_kind n = KToken))
    (g_nodes (sample_graph (sample_options (Some (num_of_Z 1)) Aggregate false None)))) <= 2.
Proof.
  destruct (flow_limit_bound no_order [] sample_rows MQuota RoleUser None None None
    (sample_options (Some (num_of_Z 1)) Aggregate false None) 1 KToken) as (H & _);
    [reflexivity|lia|vm_compute; reflexivity|]. exact H.
Defined.

Lemma offered_options_keep_rows_witness :
  exists o, o ∈ buildNodeFilterOptions no_order num_to_string [] sample_rows MQuota RoleUser None
    None None None
  /\ exists row, row ∈ filterRowsByNodes sample_rows
       (Some [mkFilter (no_kind o) (no_value o)]) (resolveVisibleStages RoleUser None) None.
Proof.
  destruct (buildNodeFilterOptions no_order num_to_string [] sample_rows MQuota RoleUser None
    None None None) as [|o os] eqn:E; [vm_compute in E; discriminate|].
  exists o. split; [by left|].
  apply (offered_options_keep_rows no_order num_to_string [] sample_rows MQuota RoleUser None None
    None None o). rewrite E. by left.
Defined.
