(* ===== verification/FlowMaskFacts.v ===== *)
(** * Masked graphs of the flow dashboard

    The graph with sensitive labels masked against the graph without: which
    labels are replaced, on nodes and on links, and that nothing else is. *)

From S2P Require Import Prelude JsNumber JsMap FlowGraph FlowGraphFacts FlowGraphSpec.

(** ** The specification *)

(** The node that stands for all others of a stage. *)
Definition aggregate_id (k : FlowNodeKind) : jsstr := kind_name k ++ js ":__other__".
(** Model names are public; users, server nodes, tokens, groups and channels
    are not. *)
Definition sensitive (n : DashboardFlowNode) : Prop :=
  n_kind n ∈ [KUser; KNode; KToken; KGroup; KChannel] /\ forall k, n_id n <> aggregate_id k.
(** Four bullets for any text. *)
Definition bullets (s : jsstr) : jsstr := match s with [] => [] | _ => [8226; 8226; 8226; 8226]%N end.

Definition masked_as (n n' : DashboardFlowNode) : Prop :=
  (sensitive n -> n' = set_node_label (bullets (n_label n)) n) /\ (~ sensitive n -> n' = n).
(** The label of an end of a link, by the nodes of the graph. *)
Definition end_masked_as (nodes : list DashboardFlowNode) (id s s' : jsstr) : Prop :=
  ((exists n, n ∈ nodes /\ sensitive n /\ n_id n = id) -> exists label, s' = bullets label)
  /\ (~ (exists n, n ∈ nodes /\ sensitive n /\ n_id n = id) -> s' = s).
Definition link_masked_as (nodes : list DashboardFlowNode) (l l' : DashboardFlowLink) : Prop :=
  exists s t, l' = set_link_labels s t l
    /\ end_masked_as nodes (l_source l) (l_sourceLabel l) s
    /\ end_masked_as nodes (l_target l) (l_targetLabel l) t.

(** ** What masking does to the parts *)

Lemma is_masked_node_spec n : is_masked_node n = true <-> sensitive n.
Proof.
  unfold is_masked_node, sensitive. rewrite andb_true_iff, negb_true_iff, set_has_spec.
  apply and_iff_compat_l. rewrite <- not_true_iff_false, set_has_spec. split.
  - intros H k E. apply H. rewrite E. destruct k; by apply (bool_decide_unpack _).
  - intros H Hin. unfold OTHER_FLOW_NODE_ID_SET in Hin. apply list_elem_of_fmap in Hin as (k & E & _).
    apply (H k). rewrite E. by destruct k.
Qed.

Lemma maskFlowLabel_bullets s : maskFlowLabel s = bullets s.
Proof. by destruct s. Qed.

Definition mask_node (n : DashboardFlowNode) : DashboardFlowNode :=
  if is_masked_node n then set_node_label (maskFlowLabel (n_label n)) n else n.
Definition relabel (M : jsstr -> option jsstr) (l : DashboardFlowLink) : DashboardFlowLink :=
  set_link_labels (default (l_sourceLabel l) (M (l_source l)))
    (default (l_targetLabel l) (M (l_target l))) l.
Definition masked_map (ns : list DashboardFlowNode) : list (jsstr * jsstr) :=
  fold_left (fun m n => map_set (n_id n) (maskFlowLabel (n_label n)) m) ns [].
Definition masked_label (nodes : list DashboardFlowNode) (x : jsstr) : option jsstr :=
  map_get x (masked_map (List.filter is_masked_node nodes)).

Lemma relabel_none l : relabel (fun _ => None) l = l.
Proof. by destruct l. Qed.

Lemma masked_map_get ns x :
  match map_get x (masked_map ns) with
  | Some s => x ∈ n_id <$> ns /\ exists label, s = bullets label
  | None => x ∉ n_id <$> ns
  end.
Proof.
  unfold masked_map. induction ns as [|n ns IH] using rev_ind; [by apply not_elem_of_nil|].
  rewrite fold_left_app, fmap_app. change (n_id <$> [n]) with [n_id n]. cbn [fold_left]. rewrite map_get_set.
  case_decide as E.
  - rewrite elem_of_app, list_elem_of_singleton. split; [by right|]. exists (n_label n). apply maskFlowLabel_bullets.
  - destruct (map_get x _); rewrite elem_of_app, list_elem_of_singleton;
      [destruct IH as [H1 H2]; split; [by left|done]|]. by intros [?|?].
Qed.

Lemma mask_parts nodes links :
  maskFlowGraphLabels nodes links = (mask_node <$> nodes, relabel (masked_label nodes) <$> links).
Proof.
  unfold maskFlowGraphLabels, masked_label. fold (masked_map (List.filter is_masked_node nodes)).
  destruct (masked_map _) as [|e m] eqn:E; [|done]. cbn [length Nat.eqb]. f_equal.
  rewrite <- (list_fmap_id links) at 1. apply list_fmap_ext. intros _ l _. symmetry. apply relabel_none.
Qed.

Lemma masked_label_spec nodes x :
  match masked_label nodes x with
  | Some s => (exists n, n ∈ nodes /\ sensitive n /\ n_id n = x) /\ exists label, s = bullets label
  | None => ~ exists n, n ∈ nodes /\ sensitive n /\ n_id n = x
  end.
Proof.
  assert (H : x ∈ n_id <$> List.filter is_masked_node nodes
              <-> exists n, n ∈ nodes /\ sensitive n /\ n_id n = x).
  { rewrite list_elem_of_fmap. setoid_rewrite list_elem_of_In. setoid_rewrite filter_In.
    setoid_rewrite is_masked_node_spec. naive_solver. }
  unfold masked_label. pose proof (masked_map_get (List.filter is_masked_node nodes) x) as Hg.
  destruct (map_get x _); rewrite H in Hg; done.
Qed.

(** ** The rest of the construction does not look at labels *)

Section Commute.
Context (collate : jsstr -> jsstr -> comparison) (M : jsstr -> option jsstr).

Lemma highlight_commutes nodes links hs :
  applyFlowHighlights (mask_node <$> nodes) (relabel M <$> links) hs
  = (mask_node <$> (applyFlowHighlights nodes links hs).1, relabel M <$> (applyFlowHighlights nodes links hs).2).
Proof.
  destruct hs as [hs|]; [|done]. cbn [applyFlowHighlights fst snd].
  change (List.map ?f ?l) with (f <$> l). rewrite <- !list_fmap_compose. f_equal; apply list_fmap_ext; intros _ x _.
  unfold compose, mask_node.
  match goal with |- _ = if is_masked_node ?y then _ else _ => change (is_masked_node y) with (is_masked_node x) end.
  by destruct (is_masked_node x).
Qed.

Lemma filter_fmap_same {A} (f : A -> A) (p : A -> bool) l :
  (forall x, p (f x) = p x) -> List.filter p (f <$> l) = f <$> List.filter p l.
Proof.
  intros H. induction l as [|x l IH]; [done|]. rewrite fmap_cons. cbn [List.filter]. rewrite H, IH.
  by destruct (p x).
Qed.
Lemma position_fmap {A} (f : A -> A) (p : A -> bool) l :
  (forall x, p (f x) = p x) -> position p (f <$> l) = position p l.
Proof. intros H. induction l as [|x l IH]; [done|]. rewrite fmap_cons. cbn [position]. by rewrite H, IH. Qed.

Lemma shared_commutes roots links :
  shared_links roots (relabel M <$> links) = relabel M <$> shared_links roots links.
Proof.
  unfold shared_links. rewrite (filter_fmap_same (relabel M)) by done.
  change (List.map ?f ?l) with (f <$> l). by rewrite <- !list_fmap_compose.
Qed.

Lemma colors_commute links :
  assignLinkDisplayColors collate (relabel M <$> links) = relabel M <$> assignLinkDisplayColors collate links.
Proof.
  unfold assignLinkDisplayColors. change (List.map ?f ?l) with (f <$> l). rewrite <- !list_fmap_compose.
  apply list_fmap_ext. intros _ l _. unfold compose.
  rewrite (filter_fmap_same (relabel M)), (js_sort_fmap (by_value_then_key collate)) by done.
  rewrite (position_fmap (relabel M)), length_fmap by done. cbn [relabel set_link_labels l_source l_color].
  change (linkStableKey (relabel M l)) with (linkStableKey l). by destruct (alphaColor _ _).
Qed.
End Commute.

(** ** The graph *)

Section Mask.
Context (collate : jsstr -> jsstr -> comparison) (dataScheme : list DataScheme)
  (rows : list FlowQuotaDataItem) (metric : FlowMetric) (role : FlowRole)
  (palette : option (list jsstr)) (visible : option (list FlowNodeKind)) (ctx : FlowPathContext)
  (options : FlowGraphOptions).

Definition with_mask (mask : bool) : FlowGraphOptions :=
  mkGraphOptions (go_topNodeLimit options) (go_overflowMode options) (go_otherNodeLabel options)
    (go_activeNode options) (go_activeLink options) mask.
Let graph mask := buildFlowGraph collate dataScheme rows metric role palette visible ctx (with_mask mask).
Let parts mask := graph_parts collate dataScheme rows metric role palette visible ctx (with_mask mask).

Lemma masked_graph_parts :
  exists nodes, parts true = (mask_node <$> (parts false).1, relabel (masked_label nodes) <$> (parts false).2)
    /\ (fun n => (n_id n, n_kind n)) <$> nodes = (fun n => (n_id n, n_kind n)) <$> (parts false).1.
Proof.
  unfold parts, graph_parts, masked_parts. cbn [with_mask go_maskSensitive go_activeNode go_activeLink].
  change (prepared collate rows metric (resolveVisibleStages role visible) ctx (with_mask true))
    with (prepared collate rows metric (resolveVisibleStages role visible) ctx (with_mask false)).
  set (ps := prepared _ _ _ _ _ _). set (nodes := map_values (collected_nodes _ _ _ _ _)).
  set (links := map_values (collected_links _ _ _ _ _)). exists nodes.
  rewrite mask_parts. cbn [fst snd]. split; [apply highlight_commutes|].
  destruct (buildFlowHighlightSets _ _ _ _); [|done]. cbn [applyFlowHighlights fst].
  change (List.map ?f ?l) with (f <$> l). by rewrite <- list_fmap_compose.
Qed.

Lemma sensitive_in nodes nodes' x :
  (fun n => (n_id n, n_kind n)) <$> nodes ≡ₚ (fun n => (n_id n, n_kind n)) <$> nodes' ->
  (exists n, n ∈ nodes /\ sensitive n /\ n_id n = x) -> exists n, n ∈ nodes' /\ sensitive n /\ n_id n = x.
Proof.
  intros Hp (n & Hn & Hs & <-). destruct (elem_of_core _ _ _ _ Hp Hn) as (n' & Hn' & E).
  injection E as E1 E2. exists n'. unfold sensitive in *. rewrite <- E1, <- E2. done.
Qed.

Lemma mask_node_as n : masked_as n (mask_node n).
Proof.
  unfold masked_as, mask_node. rewrite <- maskFlowLabel_bullets, <- is_masked_node_spec.
  by destruct (is_masked_node n).
Qed.

Lemma label_as nodes nodes' x s :
  (fun n => (n_id n, n_kind n)) <$> nodes ≡ₚ (fun n => (n_id n, n_kind n)) <$> nodes' ->
  end_masked_as nodes' x s (default s (masked_label nodes x)).
Proof.
  intros Hp. pose proof (masked_label_spec nodes x) as H. destruct (masked_label nodes x); cbn [default].
  - destruct H as [H1 H2]. split; [done|]. intros []. by apply (sensitive_in nodes).
  - split; [|done]. intros Hs. destruct H. by apply (sensitive_in nodes').
Qed.

(** C23: With masking on, the graph is the graph without masking, but for
    labels.  The nodes are the same up to order (nodes of equal value are
    ordered by label), every user, server node, token, group and channel that
    is not the aggregate of its stage with four bullets in place of its label
    (an empty label stays empty), every model and every aggregate as it was;
    the links are the same in the same order, with a masked label at each end
    that is such a node and their own label at any other: ids, kinds, values,
    counters, shares, colors and highlights are those of the graph without. *)
Theorem flow_mask_safe :
  (exists ns, ns ≡ₚ g_nodes (graph false) /\ Forall2 masked_as ns (g_nodes (graph true)))
  /\ Forall2 (link_masked_as (g_nodes (graph false))) (g_links (graph false)) (g_links (graph true)).
Proof.
  destruct masked_graph_parts as (nodes & E & Hids). unfold graph.
  rewrite !buildFlowGraph_finish. fold (parts true) (parts false).
  change (prepared collate rows metric (resolveVisibleStages role visible) ctx (with_mask true))
    with (prepared collate rows metric (resolveVisibleStages role visible) ctx (with_mask false)).
  rewrite E. cbn [fst snd g_nodes g_links]. split.
  - destruct (Permutation_map_inv _ _ (js_sort_perm (byValueThenLabel collate) (mask_node <$> (parts false).1)))
      as (ns & En & Hns).
    exists ns. split; [by rewrite js_sort_perm|]. refine (eq_ind_r (Forall2 masked_as ns) _ En). apply Forall2_fmap_r, Forall_Forall2_diag, Forall_forall.
    intros n _. apply mask_node_as.
  - rewrite (js_sort_fmap (link_cmp collate)), shared_commutes, colors_commute by done.
    apply Forall2_fmap_r, Forall_Forall2_diag, Forall_forall. intros l _.
    eexists _, _. split; [reflexivity|]. split; apply label_as; by rewrite js_sort_perm, Hids.
Qed.
End Mask.

(** The masked sample: its tokens and groups have bullets, its models names. *)
Example masked_sample :
  let g := buildFlowGraph no_order [] sample_rows MQuota RoleUser None None None
             (with_mask (sample_options None Aggregate false None) true) in
  List.map (fun n => (n_kind n, bool_decide (n_label n = bullets (n_id n)))) (g_nodes g)
  = List.map (fun n => (n_kind n, negb (bool_decide (n_kind n = KModel)))) (g_nodes g)
  /\ length (g_nodes g) = 7.
Proof. vm_compute. split; reflexivity. Qed.
