(* ===== verification/JsPretty.v ===== *)
(** * Indented JSON ([JSON.stringify(v, null, 2)])

    The text with one element per line and two spaces per level, and its round
    trip through [JSON.parse]. *)

From S2P Require Import Prelude JsNumber JsValue.

(** A line break and the indentation of depth [d]. *)
Definition nl (d : nat) : jsstr := 10%N :: replicate (2 * d) 32%N.

Fixpoint pretty (d : nat) (v : value) : jsstr :=
  match v with
  | VArr [] => js "[]"
  | VArr l =>
      js "[" ++ nl (S d) ++ join (js "," ++ nl (S d)) (List.map (pretty (S d)) l) ++ nl d ++ js "]"
  | VObj fs =>
      match (fix go fs := match fs with
                          | [] => []
                          | (k, VUndefined) :: fs' => go fs'
                          | (k, v) :: fs' => (quote k ++ js ": " ++ pretty (S d) v) :: go fs'
                          end) fs with
      | [] => js "{}"
      | parts => js "{" ++ nl (S d) ++ join (js "," ++ nl (S d)) parts ++ nl d ++ js "}"
      end
  | _ => stringify v
  end.

(** [JSON.stringify(v, null, 2)] for a value other than [undefined]. *)
Definition stringify2 (v : value) : jsstr := pretty 0 v.

Definition pretty_field (d : nat) (f : jsstr * value) : jsstr := quote f.1 ++ js ": " ++ pretty d f.2.

(** ** White space *)

Lemma skip_ws_nl d s : skip_ws (nl d ++ s) = skip_ws s.
Proof.
  unfold nl, skip_ws. simpl. generalize (d + (d + 0)). intros n.
  induction n as [|n IH]; [done|]. simpl. exact IH.
Qed.

Lemma parse_value_nl f d s : parse_value f (nl d ++ s) = parse_value f s.
Proof. destruct f as [|f]; [done|]. cbn [parse_value]. by rewrite skip_ws_nl. Qed.

Lemma parse_elements_nl f acc d s : parse_elements f acc (nl d ++ s) = parse_elements f acc s.
Proof. destruct f as [|f]; [done|]. cbn [parse_elements]. by rewrite parse_value_nl. Qed.

Lemma parse_members_nl f acc d s : parse_members f acc (nl d ++ s) = parse_members f acc s.
Proof. destruct f as [|f]; [done|]. cbn [parse_members]. by rewrite skip_ws_nl. Qed.

Lemma nl_length d : 1 <= length (nl d).
Proof. simpl. lia. Qed.

Lemma nl_delim d s : delim (nl d ++ s).
Proof. by right; right; right. Qed.

(** ** The printer on values without loss *)

Lemma pretty_obj d fs :
  Forall (fun f => json_ok f.2) fs ->
  pretty d (VObj fs)
  = match fs with
    | [] => js "{}"
    | _ => js "{" ++ nl (S d) ++ join (js "," ++ nl (S d)) (List.map (pretty_field (S d)) fs)
             ++ nl d ++ js "}"
    end.
Proof.
  intros H. cbn [pretty].
  match goal with |- match ?a with _ => _ end = _ =>
    assert (a = List.map (pretty_field (S d)) fs) as ->; [|by destruct fs] end.
  induction fs as [|[k v] fs IH]; [done|]. apply Forall_cons in H as [Hv H].
  cbn [List.map]. rewrite <- IH by done. simpl in Hv. by destruct Hv.
Qed.

Lemma pretty_head d v :
  json_ok v -> exists c t, pretty d v = c :: t /\ is_json_ws c = false /\ c <> ch "]".
Proof.
  intros H. destruct H as [|b|x Hx|s|l Hl|fs Hc Hf]; try (apply stringify_head; by constructor).
  - destruct l; by eexists _, _.
  - rewrite pretty_obj by done. destruct fs; by eexists _, _.
Qed.

Definition reads_back2 (d : nat) (v : value) : Prop :=
  forall f r, 2 * length (pretty d v) <= f -> delim r -> parse_value f (pretty d v ++ r) = Some (v, r).

Lemma join_cons2 (sep : jsstr) a b l : join sep (a :: b :: l) = a ++ sep ++ join sep (b :: l).
Proof. done. Qed.

Lemma parse_elements_pretty d l :
  Forall json_ok l -> Forall (reads_back2 (S d)) l -> l <> [] ->
  forall f acc r, 2 * length (join (js "," ++ nl (S d)) (List.map (pretty (S d)) l)) + 1 <= f ->
  parse_elements f acc (join (js "," ++ nl (S d)) (List.map (pretty (S d)) l) ++ nl d ++ js "]" ++ r)
  = Some (VArr (acc ++ l), r).
Proof.
  intros Hok Hrb. induction l as [|v l IH]; [done|]. intros _ f acc r Hf.
  apply Forall_cons in Hok as [Hv Hok]. apply Forall_cons in Hrb as [Rv Hrb].
  destruct f as [|f]; [lia|]. cbn [parse_elements]. destruct l as [|w l].
  - cbn [List.map join] in *. rewrite Rv; [|lia|apply nl_delim]. rewrite skip_ws_nl. done.
  - cbn [List.map] in *. rewrite join_cons2 in *. rewrite !length_app in Hf.
    destruct (pretty_head (S d) v Hv) as (c & t & E & _). assert (1 <= length (pretty (S d) v))
      by (rewrite E; simpl; lia).
    rewrite <- !app_assoc. rewrite Rv; [|lia|by left].
    match goal with |- context [js "," ++ ?z] => change (js "," ++ z) with (ch "," :: z) end.
    rewrite skip_ws_head, N.eqb_refl by done. rewrite parse_elements_nl.
    rewrite IH; [|done|done|done|lia]. by rewrite <- app_assoc.
Qed.

Lemma pretty_field_app d k v s :
  pretty_field d (k, v) ++ s = 34%N :: escape k ++ 34%N :: ch ":" :: 32%N :: pretty d v ++ s.
Proof.
  unfold pretty_field, quote. cbn [fst snd]. rewrite <- !app_assoc. cbn [app].
  rewrite <- !app_assoc. done.
Qed.

Lemma pretty_field_length d k v :
  length (pretty_field d (k, v)) = length (escape k) + length (pretty d v) + 4.
Proof.
  pose proof (f_equal length (pretty_field_app d k v [])) as E. rewrite !app_nil_r in E. rewrite E.
  simpl. rewrite length_app. simpl. lia.
Qed.

Lemma parse_value_space f s : parse_value f (32%N :: s) = parse_value f s.
Proof. by destruct f. Qed.

Lemma parse_members_pretty d fs :
  Forall (fun f => reads_back2 (S d) f.2) fs -> fs <> [] ->
  forall f acc r, 2 * length (join (js "," ++ nl (S d)) (List.map (pretty_field (S d)) fs)) + 1 <= f ->
  parse_members f acc
    (join (js "," ++ nl (S d)) (List.map (pretty_field (S d)) fs) ++ nl d ++ js "}" ++ r)
  = Some (VObj (obj_build fs acc), r).
Proof.
  intros Hrb. induction fs as [|[k v] fs IH]; [done|]. intros _ f acc r Hf.
  apply Forall_cons in Hrb as [Rv Hrb]. simpl in Rv.
  destruct f as [|f]; [lia|]. pose proof (pretty_field_length (S d) k v) as Hlen.
  assert (Hstep : forall tail, delim tail -> 2 * length (pretty (S d) v) <= f ->
    parse_members (S f) acc (pretty_field (S d) (k, v) ++ tail)
    = match skip_ws tail with
      | c :: t4 => if (c =? ch ",")%N then parse_members f (obj_set k v acc) t4
                   else if (c =? ch "}")%N then Some (VObj (obj_set k v acc), t4) else None
      | [] => None
      end).
  { intros tail Ht Hl. rewrite pretty_field_app. cbn [parse_members].
    rewrite skip_ws_head by done. change (34 =? 34)%N with true. cbv iota.
    rewrite parse_chars_escape, skip_ws_head, N.eqb_refl by done.
    rewrite parse_value_space. by rewrite Rv. }
  destruct fs as [|f0 fs].
  - cbn [List.map join] in *. rewrite Hstep; [|apply nl_delim|lia]. rewrite skip_ws_nl. done.
  - cbn [List.map] in *. rewrite join_cons2 in *. rewrite !length_app in Hf.
    rewrite <- !app_assoc. rewrite Hstep; [|by left|lia].
    match goal with |- context [js "," ++ ?z] => change (js "," ++ z) with (ch "," :: z) end.
    rewrite skip_ws_head, N.eqb_refl by done. rewrite parse_members_nl.
    rewrite IH; [done|done|done|lia].
Qed.

Lemma pretty_reads_back v : json_ok v -> forall d, reads_back2 d v.
Proof.
  induction v as [| |b|x|s|l IH|fs IH] using value_ind; intros Hv d;
    try (intros f r Hf Hr; by apply stringify_reads_back).
  - inversion Hv as [| | | |? Hl|]; subst.
    assert (Hrb : Forall (reads_back2 (S d)) l) by (rewrite Forall_forall in *; auto).
    intros [|f] r Hf Hr; [destruct l; simpl in Hf; lia|]. destruct l as [|v l]; [done|].
    cbn [pretty] in *. rewrite <- !app_assoc. change (js "[" ++ ?z) with (ch "[" :: z).
    cbn [parse_value]. rewrite skip_ws_head by done.
    change (ch "[" =? ch "{")%N with false. rewrite N.eqb_refl. cbv iota. rewrite skip_ws_nl.
    pose proof (parse_elements_pretty d (v :: l) Hl Hrb ltac:(done) f [] r) as Hp.
    assert (Hh : exists c t, join (js "," ++ nl (S d)) (List.map (pretty (S d)) (v :: l)) = c :: t
                             /\ is_json_ws c = false /\ c <> ch "]").
    { apply Forall_cons in Hl as [Hv0 _]. destruct (pretty_head (S d) v Hv0) as (c & t & E & Hw).
      destruct l as [|w l]; cbn [List.map join]; rewrite E; by eexists _, _. }
    destruct Hh as (c & t & E & Hw & Hne). rewrite E in *. cbn [app].
    rewrite skip_ws_head by done. rewrite (proj2 (N.eqb_neq _ _)) by done. apply Hp.
    rewrite !length_app in Hf. simpl length in *. lia.
  - inversion Hv as [| | | | |? Hc Hl]; subst.
    assert (Hrb : Forall (fun f => reads_back2 (S d) f.2) fs) by (rewrite Forall_forall in *; auto).
    intros [|f] r Hf Hr; [rewrite pretty_obj in Hf by done; destruct fs; simpl in Hf; lia|].
    rewrite pretty_obj in * by done. destruct fs as [|[k v] fs]; [done|].
    rewrite <- !app_assoc. change (js "{" ++ ?z) with (ch "{" :: z).
    cbn [parse_value]. rewrite skip_ws_head by done. rewrite N.eqb_refl. cbv iota. rewrite skip_ws_nl.
    pose proof (parse_members_pretty d ((k, v) :: fs) Hrb ltac:(done) f [] r) as Hp.
    assert (Hh : exists t, join (js "," ++ nl (S d)) (List.map (pretty_field (S d)) ((k, v) :: fs))
                           = 34%N :: t) by (destruct fs; by eexists).
    destruct Hh as (t & E). rewrite E in *. cbn [app]. rewrite skip_ws_head by done.
    change (34 =? ch "}")%N with false. cbv iota. rewrite Hc in Hp. apply Hp.
    rewrite !length_app in Hf. simpl length in *. lia.
Qed.

(** [JSON.parse(JSON.stringify(v, null, 2))] is [v]. *)
Lemma json_pretty_roundtrip v : json_ok v -> json_parse (stringify2 v) = Some v.
Proof.
  intros H. unfold json_parse, stringify2.
  pose proof (pretty_reads_back v H 0 (2 * length (pretty 0 v) + 2) [] ltac:(lia) I) as Hp.
  rewrite app_nil_r in Hp. by rewrite Hp.
Qed.

(** ** The text of an object *)

Lemma trimmed_wrap a s b : is_space a = false -> is_space b = false -> trimmed (a :: s ++ [b]).
Proof.
  intros Ha Hb. split; [done|]. change (a :: s ++ [b]) with ((a :: s) ++ [b]). by rewrite rev_app_distr.
Qed.

Lemma trim_pretty_obj d fs :
  Forall (fun f => json_ok f.2) fs -> trim (pretty d (VObj fs)) = pretty d (VObj fs).
Proof.
  intros H. apply trim_id. destruct fs as [|f fs]; [by apply (bool_decide_unpack _)|].
  rewrite pretty_obj by done. set (j := join _ _).
  assert (js "{" ++ nl (S d) ++ j ++ nl d ++ js "}" = ch "{" :: (nl (S d) ++ j ++ nl d) ++ [ch "}"]) as ->
    by (by rewrite <- !app_assoc).
  by apply trimmed_wrap.
Qed.

(** A printed object is read back, and opening it does not trim it. *)
Lemma printed_object fs :
  json_ok (VObj fs) ->
  trim (stringify2 (VObj fs)) = stringify2 (VObj fs)
  /\ nonempty (stringify2 (VObj fs)) = true
  /\ json_parse (stringify2 (VObj fs)) = Some (VObj fs).
Proof.
  intros Hok. split_and!; [apply trim_pretty_obj; by inversion Hok| |by apply json_pretty_roundtrip].
  destruct (pretty_head 0 _ Hok) as (c & r & E & _). unfold stringify2. by rewrite E.
Qed.
