(* ===== verification/AdvancedCustom.v ===== *)
(** * Advanced routes of a channel ([features/channels/lib/advanced-custom.ts])

    The configuration arrives as JSON text and is cast to its type unchecked,
    so the normalizer takes any [value], and a field of a normalized route that
    the code only passes on is a [value].  [None] is a thrown [TypeError].  The
    browser's [URL] is a parameter: the host and protocol of a text it accepts. *)

From S2P Require Import Prelude JsNumber JsValue JsPretty.

(** ** Data *)

Record AdvancedCustomRouteAuth := mkAuth { au_type : value; au_name : value; au_value : value }.

(** A normalized route: the upstream path has been trimmed, so it is a string. *)
Record AdvancedCustomRoute := mkRoute {
  ro_incoming : value; ro_upstream : jsstr; ro_converter : value;
  ro_auth : option AdvancedCustomRouteAuth }.
Definition AdvancedCustomConfig := list AdvancedCustomRoute.

Definition CHANNEL_TYPE_ADVANCED_CUSTOM : Z := 58.

Definition C_none := js "none".
Definition C_anthropic_chat := js "anthropic_messages_to_openai_chat_completions".
Definition C_chat_anthropic := js "openai_chat_completions_to_anthropic_messages".
Definition C_chat_responses := js "openai_chat_completions_to_openai_responses".
Definition C_responses_chat := js "openai_responses_to_openai_chat_completions".
Definition C_gemini_chat := js "gemini_generate_content_to_openai_chat_completions".
Definition C_chat_gemini := js "openai_chat_completions_to_gemini_generate_content".

Record Option_ := mkOption { op_value : jsstr; op_label : jsstr }.

Definition ADVANCED_CUSTOM_CONVERTER_OPTIONS : list Option_ :=
  [mkOption C_none (js "Native forwarding");
   mkOption C_anthropic_chat (js "Anthropic Messages to OpenAI Chat");
   mkOption C_chat_anthropic (js "OpenAI Chat to Anthropic Messages");
   mkOption C_chat_responses (js "OpenAI Chat to OpenAI Responses");
   mkOption C_responses_chat (js "OpenAI Responses to OpenAI Chat");
   mkOption C_gemini_chat (js "Gemini Generate Content to OpenAI Chat");
   mkOption C_chat_gemini (js "OpenAI Chat to Gemini Generate Content")].

Inductive AdvancedCustomAuthMode := ModeDefault | ModeNone | ModeHeader | ModeQuery.

Definition P_chat := js "/v1/chat/completions".
Definition P_gemini := js "/v1beta/models/{model}:generateContent".
Definition P_gemini_embed := js "/v1beta/models/{model}:embedContent".
Definition P_gemini_batch := js "/v1beta/models/{model}:batchEmbedContents".

Definition ADVANCED_CUSTOM_INCOMING_PATH_OPTIONS : list Option_ :=
  [mkOption P_chat (js "OpenAI Chat");
   mkOption (js "/v1/responses") (js "OpenAI Responses");
   mkOption (js "/v1/responses/compact") (js "OpenAI Responses Compact");
   mkOption (js "/v1/embeddings") (js "OpenAI Embeddings");
   mkOption (js "/v1/images/generations") (js "OpenAI Image Generations");
   mkOption (js "/v1/images/edits") (js "OpenAI Image Edits");
   mkOption (js "/v1/completions") (js "OpenAI Completions");
   mkOption (js "/v1/audio/speech") (js "OpenAI Audio Speech");
   mkOption (js "/v1/audio/transcriptions") (js "OpenAI Audio Transcriptions");
   mkOption (js "/v1/audio/translations") (js "OpenAI Audio Translations");
   mkOption (js "/v1/rerank") (js "OpenAI Rerank");
   mkOption (js "/v1/realtime") (js "OpenAI Realtime");
   mkOption (js "/v1/messages") (js "Claude Messages");
   mkOption P_gemini (js "Gemini Generate Content");
   mkOption P_gemini_embed (js "Gemini Embed Content");
   mkOption P_gemini_batch (js "Gemini Batch Embed Contents")].

Record AdvancedCustomValidationError := mkError { er_message : jsstr; er_routeIndex : option nat }.

Definition bearerHeaderAuth : AdvancedCustomRouteAuth :=
  mkAuth (VStr (js "header")) (VStr (js "Authorization")) (VStr (js "Bearer {api_key}")).
Definition apiKeyHeaderAuth : AdvancedCustomRouteAuth :=
  mkAuth (VStr (js "header")) (VStr (js "x-api-key")) (VStr (js "{api_key}")).
Definition geminiQueryAuth : AdvancedCustomRouteAuth :=
  mkAuth (VStr (js "query")) (VStr (js "key")) (VStr (js "{api_key}")).

Record AdvancedCustomTemplateOption := mkTemplate {
  te_value : jsstr; te_label : jsstr; te_config : AdvancedCustomConfig }.

Definition native_route (path : jsstr) (auth : AdvancedCustomRouteAuth) : AdvancedCustomRoute :=
  mkRoute (VStr path) path (VStr C_none) (Some auth).

Definition ADVANCED_CUSTOM_TEMPLATE_OPTIONS : list AdvancedCustomTemplateOption :=
  [mkTemplate (js "official_openai_chat") (js "Official OpenAI Chat")
     [native_route P_chat bearerHeaderAuth];
   mkTemplate (js "official_openai_responses") (js "Official OpenAI Responses")
     [native_route (js "/v1/responses") bearerHeaderAuth];
   mkTemplate (js "official_openai_embeddings") (js "Official OpenAI Embeddings")
     [native_route (js "/v1/embeddings") bearerHeaderAuth];
   mkTemplate (js "official_openai_images") (js "Official OpenAI Images")
     [native_route (js "/v1/images/generations") bearerHeaderAuth;
      native_route (js "/v1/images/edits") bearerHeaderAuth];
   mkTemplate (js "official_claude_messages") (js "Official Claude Messages")
     [native_route (js "/v1/messages") apiKeyHeaderAuth];
   mkTemplate (js "official_gemini_native") (js "Official Gemini Native")
     [native_route P_gemini geminiQueryAuth; native_route P_gemini_embed geminiQueryAuth;
      native_route P_gemini_batch geminiQueryAuth];
   mkTemplate (js "official_gemini_from_openai_chat") (js "Official Gemini from OpenAI Chat")
     [mkRoute (VStr P_chat) P_gemini (VStr C_chat_gemini) (Some geminiQueryAuth)]].

(** The objects behind the records. *)
Definition auth_value (a : AdvancedCustomRouteAuth) : value :=
  VObj [(js "type", au_type a); (js "name", au_name a); (js "value", au_value a)].
Definition route_value (r : AdvancedCustomRoute) : value :=
  VObj ([(js "incoming_path", ro_incoming r); (js "upstream_path", VStr (ro_upstream r));
         (js "converter", ro_converter r)]
        ++ match ro_auth r with Some a => [(js "auth", auth_value a)] | None => [] end).
Definition config_value (c : AdvancedCustomConfig) : value :=
  VObj [(js "advanced_routes", VArr (List.map route_value c))].

(** ** Normalization, parsing and printing *)

(** [v.trim()] *)
Definition value_trim (v : value) : option jsstr :=
  match v with VStr s => Some (trim s) | _ => None end.

Definition getAdvancedCustomRouteUpstreamPath (route : value) : option jsstr :=
  value_trim (value_or (get_prop route (js "upstream_path")) (VStr [])).

Definition normalizeAdvancedCustomRoute (route : value) : option AdvancedCustomRoute :=
  if is_nullish route then None
  else
    upstream ← getAdvancedCustomRouteUpstreamPath route;
    let auth := get_prop route (js "auth") in
    Some (mkRoute (value_or (get_prop route (js "incoming_path")) (VStr [])) upstream
            (value_or (get_prop route (js "converter")) (VStr C_none))
            (if truthy auth
             then Some (mkAuth (get_prop auth (js "type"))
                          (value_or (get_prop auth (js "name")) (VStr []))
                          (value_or (get_prop auth (js "value")) (VStr [])))
             else None)).

Definition normalizeAdvancedCustomConfig (config : value) : option AdvancedCustomConfig :=
  match get_prop config (js "advanced_routes") with
  | VArr routes => mapM normalizeAdvancedCustomRoute routes
  | _ => Some []
  end.

(** [null] is [None]; an exception is caught and gives [null]. *)
Definition parseAdvancedCustomConfig (text : option jsstr) : option AdvancedCustomConfig :=
  match text with
  | None => None
  | Some s =>
      if nonempty (trim s) then
        match json_parse s with
        | Some v => if truthy v && is_object v && negb (is_array v)
                    then normalizeAdvancedCustomConfig v else None
        | None => None
        end
      else None
  end.

Definition stringifyAdvancedCustomConfig (config : value) : option jsstr :=
  (fun c => stringify2 (config_value c)) <$> normalizeAdvancedCustomConfig config.

(** [JSON.parse(JSON.stringify(config))] *)
Definition cloneAdvancedCustomConfig (config : AdvancedCustomConfig) : option value :=
  json_parse (stringify (config_value config)).

Definition getAdvancedCustomTemplateConfig (templateKey : jsstr) : option value :=
  match List.find (fun o => bool_decide (te_value o = templateKey)) ADVANCED_CUSTOM_TEMPLATE_OPTIONS,
        head ADVANCED_CUSTOM_TEMPLATE_OPTIONS with
  | Some t, _ | None, Some t => cloneAdvancedCustomConfig (te_config t)
  | None, None => None
  end.

Definition createAdvancedCustomRoute : AdvancedCustomRoute :=
  mkRoute (VStr P_chat) P_chat (VStr C_none) None.
Definition createAdvancedCustomConfig : AdvancedCustomConfig := [createAdvancedCustomRoute].

(** ** Converters and paths *)

Definition getAdvancedCustomUpstreamPathPlaceholder (converter : jsstr) : jsstr :=
  if bool_decide (converter = C_chat_gemini) then P_gemini
  else if bool_decide (converter = C_chat_anthropic) then js "/v1/messages"
  else if bool_decide (converter = C_responses_chat) then P_chat
  else P_chat.

Definition isConverterPathAllowed (incomingPath converter : jsstr) : bool :=
  if bool_decide (converter = C_none) then true
  else if bool_decide (converter = C_anthropic_chat) then bool_decide (incomingPath = js "/v1/messages")
  else if bool_decide (converter = C_chat_anthropic) || bool_decide (converter = C_chat_responses)
          || bool_decide (converter = C_chat_gemini) then bool_decide (incomingPath = P_chat)
  else if bool_decide (converter = C_responses_chat) then bool_decide (incomingPath = js "/v1/responses")
  else includes (js ":generateContent") incomingPath
       || includes (js ":streamGenerateContent") incomingPath.

Definition isAdvancedCustomIncomingPathAllowed := isConverterPathAllowed.

Definition getAdvancedCustomIncomingPathOptions (converter : jsstr) : list Option_ :=
  List.filter (fun o => isConverterPathAllowed (op_value o) converter)
    ADVANCED_CUSTOM_INCOMING_PATH_OPTIONS.

Definition getDefaultAdvancedCustomIncomingPath (converter : jsstr) : jsstr :=
  match getAdvancedCustomIncomingPathOptions converter with
  | o :: _ => str_or (op_value o) P_chat
  | [] => P_chat
  end.

Definition getAdvancedCustomConverterOptions (incomingPath : jsstr) : list Option_ :=
  let normalizedIncomingPath := trim incomingPath in
  List.filter (fun o => bool_decide (op_value o = C_none)
                        || isConverterPathAllowed normalizedIncomingPath (op_value o))
    ADVANCED_CUSTOM_CONVERTER_OPTIONS.

Definition getAdvancedCustomIncomingPathLabel (v : jsstr) : jsstr :=
  match List.find (fun o => bool_decide (op_value o = v)) ADVANCED_CUSTOM_INCOMING_PATH_OPTIONS with
  | Some o => str_or (op_label o) v
  | None => v
  end.

(** A string [===] a value. *)
Definition is_text (v : value) (s : jsstr) : bool :=
  match v with VStr t => bool_decide (t = s) | _ => false end.

Definition isAdvancedCustomConverter (v : value) : bool :=
  existsb (fun o => is_text v (op_value o)) ADVANCED_CUSTOM_CONVERTER_OPTIONS.

(** ** Validation *)

(** [v?.trim()], [undefined] read as the empty string. *)
Definition optional_trim (v : value) : option jsstr :=
  if is_nullish v then Some [] else value_trim v.

(** The message, if any. *)
Definition validateRouteAuth (auth : option AdvancedCustomRouteAuth) : option (option jsstr) :=
  match auth with
  | None => Some None
  | Some a =>
      if is_text (au_type a) (js "none") then Some None
      else if negb (is_text (au_type a) (js "header")) && negb (is_text (au_type a) (js "query"))
      then Some (Some (js "Auth type is invalid"))
      else
        name ← optional_trim (au_name a);
        if negb (nonempty name) then Some (Some (js "Auth name is required"))
        else
          v ← optional_trim (au_value a);
          if negb (nonempty v) then Some (Some (js "Auth value is required")) else Some None
  end.

Section Url.
Context (url : jsstr -> option (jsstr * jsstr)).

Definition isFullHttpURLOrAbsolutePath (v : jsstr) : bool :=
  if starts_with (js "/") v then negb (starts_with (js "//") v)
  else match url v with
       | Some (host, protocol) =>
           nonempty host && (bool_decide (protocol = js "http:") || bool_decide (protocol = js "https:"))
       | None => false
       end.

(** One turn of the loop: the message, or the path that has been seen now. *)
Definition validate_route (seenPaths : list jsstr) (route : AdvancedCustomRoute)
  : option (jsstr + jsstr) :=
  incomingPath ← optional_trim (ro_incoming route);
  let upstreamPath := trim (ro_upstream route) in
  let converter := value_or (ro_converter route) (VStr C_none) in
  if negb (nonempty incomingPath) then Some (inl (js "Incoming path is required"))
  else if negb (starts_with (js "/") incomingPath) then Some (inl (js "Incoming path must start with /"))
  else if includes (js "?") incomingPath then Some (inl (js "Incoming path must not include query"))
  else if set_has seenPaths incomingPath then Some (inl (js "Incoming path must be unique"))
  else if negb (nonempty upstreamPath) then Some (inl (js "Upstream path is required"))
  else if negb (isFullHttpURLOrAbsolutePath upstreamPath)
  then Some (inl (js "Upstream path must be a full URL or a path starting with /"))
  else match converter with
       | VStr c =>
           if negb (isAdvancedCustomConverter (VStr c)) then Some (inl (js "Converter is not registered"))
           else if negb (isConverterPathAllowed incomingPath c)
           then Some (inl (js "Converter does not match incoming path"))
           else authError ← validateRouteAuth (ro_auth route);
                Some (match authError with Some m => inl m | None => inr incomingPath end)
       | _ => Some (inl (js "Converter is not registered"))
       end.

Fixpoint validate_routes (index : nat) (seenPaths : list jsstr) (routes : list AdvancedCustomRoute)
  : option (option AdvancedCustomValidationError) :=
  match routes with
  | [] => Some None
  | route :: routes' =>
      result ← validate_route seenPaths route;
      match result with
      | inl message => Some (Some (mkError message (Some index)))
      | inr path => validate_routes (S index) (set_add seenPaths path) routes'
      end
  end.

Definition validateAdvancedCustomConfig (config : option value)
  : option (option AdvancedCustomValidationError) :=
  match config with
  | None => Some (Some (mkError (js "Advanced custom configuration is required") None))
  | Some v =>
      routes ← normalizeAdvancedCustomConfig v;
      if (length routes =? 0)
      then Some (Some (mkError (js "Advanced custom configuration requires at least one route") None))
      else validate_routes 0 [] routes
  end.

Definition advancedCustomConfigUsesRelativeUpstreamPath (config : option value) : option bool :=
  match config with
  | None => Some false
  | Some v => existsb (fun r => starts_with (js "/") (trim (ro_upstream r)))
                <$> normalizeAdvancedCustomConfig v
  end.

(** ** The summary of the drawer *)

(** The label of a route; the table of labels is an object literal, so a path
    that is the name of an inherited property finds that property. *)
Inductive SummaryLabel := LText (s : jsstr) | LInherited (name : jsstr).
#[export] Instance SummaryLabel_eq_dec : EqDecision SummaryLabel.
Proof. solve_decision. Defined.

Definition OBJECT_PROTOTYPE_NAMES : list jsstr :=
  List.map js ["constructor"; "__defineGetter__"; "__defineSetter__"; "hasOwnProperty";
    "__lookupGetter__"; "__lookupSetter__"; "isPrototypeOf"; "propertyIsEnumerable"; "toString";
    "valueOf"; "__proto__"; "toLocaleString"]%string.

Definition getAdvancedCustomRouteSummaryLabel (route : AdvancedCustomRoute)
  : option (option SummaryLabel) :=
  incomingPath ← optional_trim (ro_incoming route);
  Some (if negb (nonempty incomingPath) then None
        else if bool_decide (incomingPath = P_chat) then Some (LText (js "OpenAI Chat"))
        else if set_has OBJECT_PROTOTYPE_NAMES incomingPath then Some (LInherited incomingPath)
        else Some (LText (getAdvancedCustomIncomingPathLabel incomingPath))).

Record AdvancedCustomStats := mkStats {
  st_routeCount : nat; st_valid : bool; st_routeTypeLabels : list SummaryLabel }.

Definition summary_labels (routes : list AdvancedCustomRoute) : option (list SummaryLabel) :=
  (fun labels => js_set (omap id labels)) <$> mapM getAdvancedCustomRouteSummaryLabel routes.

Definition getAdvancedCustomStats (text : option jsstr) : option AdvancedCustomStats :=
  match parseAdvancedCustomConfig text with
  | None => Some (mkStats 0 false [])
  | Some config =>
      routes ← normalizeAdvancedCustomConfig (config_value config);
      labels ← summary_labels routes;
      error ← validateAdvancedCustomConfig (Some (config_value routes));
      Some (mkStats (length routes) (match error with None => true | Some _ => false end) labels)
  end.
End Url.

(** ** Authentication *)

Definition getAdvancedCustomAuthMode (route : AdvancedCustomRoute) : value :=
  match ro_auth route with
  | Some a => value_or (au_type a) (VStr (js "default"))
  | None => VStr (js "default")
  end.

Definition buildAdvancedCustomAuth (mode : AdvancedCustomAuthMode)
    (previousAuth : option AdvancedCustomRouteAuth) : option AdvancedCustomRouteAuth :=
  let prev f fallback := value_or (match previousAuth with Some a => f a | None => VUndefined end)
                           (VStr fallback) in
  match mode with
  | ModeDefault => None
  | ModeNone => Some (mkAuth (VStr (js "none")) VUndefined VUndefined)
  | ModeHeader => Some (mkAuth (VStr (js "header")) (prev au_name (js "Authorization"))
                          (prev au_value (js "Bearer {api_key}")))
  | ModeQuery => Some (mkAuth (VStr (js "query")) (prev au_name (js "api_key"))
                         (prev au_value (js "{api_key}")))
  end.
