(* ===== verification/AdvancedCustomFacts.v ===== *)
(** * Theorems on advanced routes

    Normalization is idempotent and survives printing and parsing; validation
    accepts exactly the well-formed configurations and names the first bad
    route; the templates and menus of the editor are valid; the summary of the
    drawer throws on a path that is not a string. *)

From S2P Require Import Prelude JsNumber JsValue JsRegex JsPretty AdvancedCustom.

(** ** Normalized routes *)

Definition normal_auth (a : AdvancedCustomRouteAuth) : Prop :=
  value_or (au_name a) (VStr []) = au_name a /\ value_or (au_value a) (VStr []) = au_value a.
Definition normal_route (r : AdvancedCustomRoute) : Prop :=
  value_or (ro_incoming r) (VStr []) = ro_incoming r /\ trim (ro_upstream r) = ro_upstream r
  /\ value_or (ro_converter r) (VStr C_none) = ro_converter r
  /\ match ro_auth r with Some a => normal_auth a | None => True end.

Lemma value_or_idemp v s : value_or (value_or v (VStr s)) (VStr s) = value_or v (VStr s).
Proof. unfold value_or. destruct (truthy v) eqn:E; [by rewrite E|]. simpl. by destruct (nonempty s). Qed.

Lemma normalizeRoute_normal v r : normalizeAdvancedCustomRoute v = Some r -> normal_route r.
Proof.
  unfold normalizeAdvancedCustomRoute. destruct (is_nullish v); [done|].
  destruct (getAdvancedCustomRouteUpstreamPath v) as [u|] eqn:E; [|done]. intros [= <-].
  unfold normal_route. cbn [ro_incoming ro_upstream ro_converter ro_auth].
  split_and!; [apply value_or_idemp| |apply value_or_idemp|].
  - unfold getAdvancedCustomRouteUpstreamPath, value_trim in E. destruct (value_or _ _); simplify_eq.
    apply trim_idemp.
  - destruct (truthy _); [|done]. split; apply value_or_idemp.
Qed.

Lemma normalize_normal v rs : normalizeAdvancedCustomConfig v = Some rs -> Forall normal_route rs.
Proof.
  unfold normalizeAdvancedCustomConfig. destruct (get_prop v _); intros E; simplify_eq; try constructor.
  apply mapM_Some in E. induction E as [|? ? ? ? H]; constructor; [|done]. by eapply normalizeRoute_normal.
Qed.

Lemma route_value_get r :
  get_prop (route_value r) (js "incoming_path") = ro_incoming r
  /\ get_prop (route_value r) (js "upstream_path") = VStr (ro_upstream r)
  /\ get_prop (route_value r) (js "converter") = ro_converter r
  /\ get_prop (route_value r) (js "auth")
     = match ro_auth r with Some a => auth_value a | None => VUndefined end.
Proof. destruct r as [inc up conv [a|]]; done. Qed.

Lemma auth_value_get a :
  get_prop (auth_value a) (js "type") = au_type a /\ get_prop (auth_value a) (js "name") = au_name a
  /\ get_prop (auth_value a) (js "value") = au_value a.
Proof. done. Qed.

Lemma upstream_trimmed s : trim s = s -> value_trim (value_or (VStr s) (VStr [])) = Some s.
Proof. unfold value_or. destruct s as [|c s]; [done|]. intros H. cbn [truthy nonempty value_trim]. by rewrite H. Qed.

(** What the normalizer reads of an object decides the route. *)
Lemma normalize_route_fields v r :
  is_nullish v = false -> normal_route r ->
  get_prop v (js "incoming_path") = ro_incoming r ->
  get_prop v (js "upstream_path") = VStr (ro_upstream r) ->
  get_prop v (js "converter") = ro_converter r ->
  match ro_auth r with
  | Some a => truthy (get_prop v (js "auth")) = true
      /\ get_prop (get_prop v (js "auth")) (js "type") = au_type a
      /\ get_prop (get_prop v (js "auth")) (js "name") = au_name a
      /\ get_prop (get_prop v (js "auth")) (js "value") = au_value a
  | None => get_prop v (js "auth") = VUndefined
  end ->
  normalizeAdvancedCustomRoute v = Some r.
Proof.
  intros Hv (Hi & Hu & Hc & Ha) E1 E2 E3 E4. unfold normalizeAdvancedCustomRoute.
  rewrite Hv. unfold getAdvancedCustomRouteUpstreamPath. rewrite E1, E2, E3.
  rewrite upstream_trimmed by done. cbn [mbind option_bind]. rewrite Hi, Hc.
  destruct r as [inc up conv [a|]]; cbn [ro_auth ro_incoming ro_upstream ro_converter] in *.
  - destruct E4 as (-> & -> & -> & ->). destruct Ha as [-> ->]. by destruct a.
  - by rewrite E4.
Qed.

Lemma normalize_route_value r : normal_route r -> normalizeAdvancedCustomRoute (route_value r) = Some r.
Proof.
  intros Hr. destruct (route_value_get r) as (E1 & E2 & E3 & E4).
  apply normalize_route_fields; [done|done|done|done|done|].
  destruct (ro_auth r) as [a|]; rewrite E4; [|done]. split; [done|]. apply auth_value_get.
Qed.

Lemma normalize_routes (f : AdvancedCustomRoute -> value) rs :
  Forall (fun r => normalizeAdvancedCustomRoute (f r) = Some r) rs ->
  normalizeAdvancedCustomConfig (VObj [(js "advanced_routes", VArr (List.map f rs))]) = Some rs.
Proof.
  intros H. unfold normalizeAdvancedCustomConfig.
  change (get_prop (VObj [(js "advanced_routes", VArr (List.map f rs))]) (js "advanced_routes"))
    with (VArr (List.map f rs)). cbv iota.
  apply mapM_Some. induction H; constructor; done.
Qed.

Lemma normalize_config_value rs :
  Forall normal_route rs -> normalizeAdvancedCustomConfig (config_value rs) = Some rs.
Proof.
  intros H. apply normalize_routes. induction H as [|r rs Hr _ IH]; constructor; [|done].
  by apply normalize_route_value.
Qed.

(** ** Typed configurations *)

Definition text_or_absent (v : value) : Prop := v = VUndefined \/ exists s, v = VStr s.
Definition typed_auth (v : value) : Prop :=
  v = VUndefined
  \/ (exists fs, v = VObj fs) /\ text_or_absent (get_prop v (js "type"))
     /\ text_or_absent (get_prop v (js "name")) /\ text_or_absent (get_prop v (js "value")).
Definition typed_route (v : value) : Prop :=
  (exists fs, v = VObj fs)
  /\ text_or_absent (get_prop v (js "incoming_path")) /\ text_or_absent (get_prop v (js "upstream_path"))
  /\ text_or_absent (get_prop v (js "converter")) /\ typed_auth (get_prop v (js "auth")).
(** A value of the declared type. *)
Definition typed_config (v : value) : Prop :=
  get_prop v (js "advanced_routes") = VUndefined
  \/ exists l, get_prop v (js "advanced_routes") = VArr l /\ Forall typed_route l.

Definition text_auth (a : AdvancedCustomRouteAuth) : Prop :=
  text_or_absent (au_type a) /\ (exists s, au_name a = VStr s) /\ (exists s, au_value a = VStr s).
(** A route whose fields are strings. *)
Definition text_route (r : AdvancedCustomRoute) : Prop :=
  (exists s, ro_incoming r = VStr s) /\ (exists s, ro_converter r = VStr s)
  /\ match ro_auth r with Some a => text_auth a | None => True end.

Lemma value_or_text v s : text_or_absent v -> exists t, value_or v (VStr s) = VStr t.
Proof. intros [->|[t ->]]; [by exists s|]. unfold value_or. simpl. destruct (nonempty t); eauto. Qed.

Lemma normalize_typed_route v :
  typed_route v -> exists r, normalizeAdvancedCustomRoute v = Some r /\ text_route r.
Proof.
  intros ([fs Ev] & Hi & Hu & Hc & Ha). unfold normalizeAdvancedCustomRoute.
  assert (is_nullish v = false) as -> by (by rewrite Ev).
  unfold getAdvancedCustomRouteUpstreamPath.
  destruct (value_or_text _ [] Hu) as [u ->]. cbn [value_trim mbind option_bind].
  eexists. split; [reflexivity|]. unfold text_route. cbn [ro_incoming ro_converter ro_auth].
  split_and!; [by apply value_or_text|by apply value_or_text|].
  destruct Ha as [->|(_ & Ht & Hn & Hv)]; [done|]. destruct (truthy _); [|done].
  split_and!; [done|by apply value_or_text|by apply value_or_text].
Qed.

Lemma normalize_typed v :
  typed_config v -> exists rs, normalizeAdvancedCustomConfig v = Some rs /\ Forall text_route rs.
Proof.
  unfold normalizeAdvancedCustomConfig. intros [->|(l & -> & Hl)]; [by exists []|].
  induction Hl as [|x l Hx _ (rs & IH & Hrs)]; [by exists []|].
  destruct (normalize_typed_route x Hx) as (r & Hr & Ht). exists (r :: rs).
  split; [|by constructor]. simpl. rewrite Hr. simpl. by rewrite IH.
Qed.

(** ** Printing and parsing *)

(** The object that is read back: an absent type is not printed. *)
Definition auth_json (a : AdvancedCustomRouteAuth) : value :=
  VObj (match au_type a with VUndefined => [] | t => [(js "type", t)] end
        ++ [(js "name", au_name a); (js "value", au_value a)]).
Definition route_json (r : AdvancedCustomRoute) : value :=
  VObj ([(js "incoming_path", ro_incoming r); (js "upstream_path", VStr (ro_upstream r));
         (js "converter", ro_converter r)]
        ++ match ro_auth r with Some a => [(js "auth", auth_json a)] | None => [] end).
Definition config_json (c : AdvancedCustomConfig) : value :=
  VObj [(js "advanced_routes", VArr (List.map route_json c))].

Lemma pretty_route_json d r : text_route r -> pretty d (route_value r) = pretty d (route_json r).
Proof.
  destruct r as [inc up conv [[ty nm vl]|]]; intros ([si Ei] & [sc Ec] & Ha); cbn [ro_incoming ro_converter ro_auth] in Ei, Ec, Ha; subst;
    [|done]. destruct Ha as (Ht & [sn En] & [sv Ev]). cbn [au_type au_name au_value] in *. subst.
  destruct Ht as [->|[st ->]]; reflexivity.
Qed.

Lemma stringify_config_json rs :
  Forall text_route rs -> stringify2 (config_value rs) = stringify2 (config_json rs).
Proof.
  intros H. unfold stringify2, config_value, config_json.
  assert (E : forall d, pretty d (VArr (List.map route_value rs)) = pretty d (VArr (List.map route_json rs))).
  { intros d. assert (List.map (pretty (S d)) (List.map route_value rs)
                      = List.map (pretty (S d)) (List.map route_json rs)) as Em.
    { rewrite !List.map_map. apply map_ext_in. intros r Hr%list_elem_of_In.
      rewrite Forall_forall in H. by apply pretty_route_json, H. }
    destruct rs as [|r rs]; [done|].
    assert (Ha : forall x l, pretty d (VArr (x :: l)) = js "[" ++ nl (S d)
      ++ join (js "," ++ nl (S d)) (List.map (pretty (S d)) (x :: l)) ++ nl d ++ js "]") by done.
    change (List.map route_value (r :: rs)) with (route_value r :: List.map route_value rs) in *.
    change (List.map route_json (r :: rs)) with (route_json r :: List.map route_json rs) in *.
    by rewrite !Ha, Em. }
  assert (Hs : forall d k l, pretty d (VObj [(k, VArr l)])
    = js "{" ++ nl (S d) ++ (quote k ++ js ": " ++ pretty (S d) (VArr l)) ++ nl d ++ js "}") by done.
  by rewrite !Hs, E.
Qed.

Lemma named_canon {A} (fs : list (jsstr * A)) :
  bool_decide (NoDup (keys fs)) && forallb (fun k => match array_index k with None => true | _ => false end)
    (keys fs) = true -> obj_canon fs.
Proof.
  intros [H1 H2]%andb_prop. apply obj_canon_named; [by apply bool_decide_eq_true in H1|].
  rewrite Forall_forall. intros k Hk%list_elem_of_In. rewrite forallb_forall in H2.
  specialize (H2 k Hk). by destruct (array_index k).
Qed.

Lemma route_json_ok r : text_route r -> json_ok (route_json r).
Proof.
  destruct r as [inc up conv [[ty nm vl]|]]; intros ([si Ei] & [sc Ec] & Ha); cbn [ro_incoming ro_converter ro_auth] in Ei, Ec, Ha; subst.
  - destruct Ha as (Ht & [sn En] & [sv Ev]). cbn [au_type au_name au_value] in Ht, En, Ev. subst.
    constructor; [apply named_canon; by vm_compute|]. repeat (constructor; [by constructor|]).
    constructor; [|done]. cbn [snd]. destruct Ht as [->|[st ->]];
      (constructor; [apply named_canon; by vm_compute|]; repeat (constructor; [by constructor|]); done).
  - constructor; [apply named_canon; by vm_compute|]. repeat (constructor; [by constructor|]). done.
Qed.

Lemma normalize_route_json r :
  normal_route r -> text_route r -> normalizeAdvancedCustomRoute (route_json r) = Some r.
Proof.
  intros Hr Ht. destruct r as [inc up conv [[ty nm vl]|]].
  - destruct Ht as (_ & _ & Hty & _). cbn [au_type] in Hty.
    destruct Hty as [->|[st ->]]; apply normalize_route_fields; try done.
  - apply normalize_route_fields; done.
Qed.

Lemma trimmed_braces s : trimmed (js "{" ++ s ++ js "}").
Proof.
  split; [done|]. rewrite !rev_app_distr. done.
Qed.

(** Printed routes are read back. *)
Lemma printed_routes_read rs :
  Forall normal_route rs -> Forall text_route rs ->
  parseAdvancedCustomConfig (Some (stringify2 (config_value rs))) = Some rs.
Proof.
  intros Hr Ht. unfold parseAdvancedCustomConfig. rewrite stringify_config_json by done.
  assert (Hok : json_ok (config_json rs)).
  { apply ok_obj; [apply named_canon; by vm_compute|]. apply Forall_singleton, ok_arr.
    apply Forall_fmap. eapply Forall_impl; [exact Ht|]. intros r. apply route_json_ok. }
  rewrite json_pretty_roundtrip by done.
  assert (Hs : exists s, stringify2 (config_json rs) = js "{" ++ s ++ js "}").
  { unfold stringify2, config_json in *. inversion Hok as [| | | | |? _ Hf]; subst.
    rewrite pretty_obj by done.
    match goal with |- exists s, _ ++ ?b ++ ?c ++ ?d ++ _ = _ =>
      exists (b ++ c ++ d); by rewrite <- !app_assoc end. }
  destruct Hs as [s ->]. rewrite trim_id by apply trimmed_braces. cbn [nonempty js app].
  change (normalizeAdvancedCustomConfig (config_json rs) = Some rs).
  apply normalize_routes. eapply Forall_impl; [apply Forall_and; split; [exact Hr|exact Ht]|].
  intros r [H1 H2]. by apply normalize_route_json.
Qed.

(** C17: a configuration of the declared type is normalized without an
    exception; the text it is printed as is read back as the normalized
    configuration, and printing that gives the same text. *)
Theorem advanced_config_roundtrip v :
  typed_config v ->
  exists rs text,
    normalizeAdvancedCustomConfig v = Some rs
    /\ stringifyAdvancedCustomConfig v = Some text
    /\ parseAdvancedCustomConfig (Some text) = Some rs
    /\ normalizeAdvancedCustomConfig (config_value rs) = Some rs
    /\ stringifyAdvancedCustomConfig (config_value rs) = Some text.
Proof.
  intros Hv. destruct (normalize_typed v Hv) as (rs & Hn & Ht).
  pose proof (normalize_normal v rs Hn) as Hr.
  pose proof (normalize_config_value rs Hr) as Hcv.
  exists rs, (stringify2 (config_value rs)). unfold stringifyAdvancedCustomConfig. rewrite Hn, Hcv.
  split_and!; try done. by apply printed_routes_read.
Qed.

(** ** Validation *)

(** The trimmed incoming path of a route. *)
Definition route_path (r : AdvancedCustomRoute) : jsstr := default [] (optional_trim (ro_incoming r)).

Section Validation.
Context (url : jsstr -> option (jsstr * jsstr)).

(** What a valid route is, apart from the other routes. *)
Definition route_ok (r : AdvancedCustomRoute) : Prop :=
  starts_with (js "/") (route_path r) = true
  /\ includes (js "?") (route_path r) = false
  /\ isFullHttpURLOrAbsolutePath url (trim (ro_upstream r)) = true
  /\ trim (ro_upstream r) <> []
  /\ (exists c, value_or (ro_converter r) (VStr C_none) = VStr c
        /\ isAdvancedCustomConverter (VStr c) = true /\ isConverterPathAllowed (route_path r) c = true)
  /\ validateRouteAuth (ro_auth r) = Some None.

Lemma validateRouteAuth_total r :
  text_route r -> exists e, validateRouteAuth (ro_auth r) = Some e.
Proof.
  intros (_ & _ & Ha). destruct (ro_auth r) as [a|]; [|by exists None].
  destruct Ha as (_ & [n En] & [v Ev]). unfold validateRouteAuth, optional_trim. rewrite En, Ev.
  cbn [is_nullish value_trim mbind option_bind]. repeat (case_match; try (by eexists)).
Qed.

Ltac rejects := eexists; split; [reflexivity|]; split; [done|]; intros (? & ? & ? & ? & ? & ?).

Ltac rejects_converter :=
  eexists; split; [reflexivity|]; split; [done|];
  intros (_ & _ & _ & _ & (? & [= <-] & ? & ?) & _); congruence.

(** One turn never throws, and accepts exactly the valid routes with a new path. *)
Lemma validate_route_spec seen r :
  text_route r ->
  exists res, validate_route url seen r = Some res
    /\ (forall p, res = inr p -> p = route_path r /\ route_ok r /\ route_path r ∉ seen)
    /\ (route_ok r -> route_path r ∉ seen -> res = inr (route_path r)).
Proof.
  intros Hr. destruct (validateRouteAuth_total r Hr) as [e He].
  destruct Hr as ([s Es] & [c Ec] & _).
  assert (Hp : optional_trim (ro_incoming r) = Some (route_path r)) by (unfold route_path; by rewrite Es).
  assert (exists c', value_or (ro_converter r) (VStr C_none) = VStr c') as [c' Hc].
  { rewrite Ec. apply value_or_text. by right; exists c. }
  unfold validate_route. rewrite Hp, Hc, He. cbn [mbind option_bind].
  unfold route_ok. rewrite Hc, He.
  destruct (route_path r) as [|x p] eqn:Ep; [by rejects|].
  cbn [nonempty negb]. rewrite <- Ep in *.
  destruct (starts_with (js "/") (route_path r)) eqn:E1; cbn [negb]; [|by rejects].
  destruct (includes (js "?") (route_path r)) eqn:E2; [by rejects|].
  destruct (set_has seen (route_path r)) eqn:E3.
  { rewrite set_has_spec in E3. by rejects. }
  apply not_true_iff_false in E3. rewrite set_has_spec in E3.
  destruct (trim (ro_upstream r)) as [|y u] eqn:Eu; [by rejects|]. cbn [nonempty negb].
  destruct (isFullHttpURLOrAbsolutePath url (y :: u)) eqn:E4; cbn [negb]; [|by rejects].
  destruct (isAdvancedCustomConverter (VStr c')) eqn:E5; cbn [negb]; [|rejects_converter].
  destruct (isConverterPathAllowed (route_path r) c') eqn:E6; cbn [negb]; [|rejects_converter].
  destruct e as [m|]; [by rejects|].
  eexists. split; [reflexivity|]. split; [|done]. intros q [= <-]. split_and!; try done. by exists c'.
Qed.

Lemma validate_routes_total index seen rs :
  Forall text_route rs -> exists e, validate_routes url index seen rs = Some e.
Proof.
  intros H. revert index seen. induction H as [|r rs Hr _ IH]; intros index seen; [by exists None|].
  destruct (validate_route_spec seen r Hr) as (res & E & _). cbn [validate_routes]. rewrite E.
  cbn [mbind option_bind]. destruct res; [by eexists|apply IH].
Qed.

(** The loop accepts when every route is valid and no path repeats; otherwise
    it names the first route that breaks this. *)
Definition routes_ok (seen : list jsstr) (rs : list AdvancedCustomRoute) : Prop :=
  Forall route_ok rs /\ NoDup (route_path <$> rs) /\ Forall (fun r => route_path r ∉ seen) rs.

Lemma routes_ok_cons seen r rs :
  routes_ok seen (r :: rs) <->
  (route_ok r /\ route_path r ∉ seen) /\ routes_ok (set_add seen (route_path r)) rs.
Proof.
  unfold routes_ok. rewrite fmap_cons, !Forall_cons, NoDup_cons.
  assert (H : Forall (fun r' => route_path r' ∉ set_add seen (route_path r)) rs <->
    Forall (fun r' => route_path r' ∉ seen) rs /\ route_path r ∉ route_path <$> rs).
  { rewrite !Forall_forall, list_elem_of_fmap. setoid_rewrite elem_of_set_add. naive_solver. }
  rewrite H. naive_solver.
Qed.

Lemma validate_routes_spec index seen rs :
  Forall text_route rs ->
  match validate_routes url index seen rs with
  | Some None => routes_ok seen rs
  | Some (Some e) => exists i, er_routeIndex e = Some (index + i) /\ i < length rs
      /\ routes_ok seen (take i rs) /\ ~ routes_ok seen (take (S i) rs)
  | None => False
  end.
Proof.
  intros H. revert index seen. induction H as [|r rs Hr _ IH]; intros index seen.
  { by split_and!; constructor. }
  destruct (validate_route_spec seen r Hr) as (res & E & H1 & H2). cbn [validate_routes]. rewrite E.
  cbn [mbind option_bind]. destruct res as [m|p].
  - exists 0. rewrite Nat.add_0_r. simpl. split_and!; [done|lia|by split_and!; constructor|].
    rewrite take_0. rewrite routes_ok_cons. intros [[Ho Hs] _]. by specialize (H2 Ho Hs).
  - destruct (H1 p eq_refl) as (-> & Ho & Hs). specialize (IH (S index) (set_add seen (route_path r))).
    destruct (validate_routes url (S index) _ rs) as [[e|]|]; [|by apply routes_ok_cons|done].
    destruct IH as (i & Ei & Hi & Hp & Hn). exists (S i). simpl. split_and!; [|lia| |].
    + rewrite Ei. f_equal. lia.
    + by apply routes_ok_cons.
    + change (~ routes_ok seen (r :: take (S i) rs)). rewrite routes_ok_cons. by intros [_ ?].
Qed.
End Validation.

(** C25: validating a normalized configuration with string fields never throws;
    it accepts exactly the configurations with at least one route, valid
    routes and distinct trimmed paths, and otherwise reports that there is no
    route or the first route that is invalid or repeats a path. *)
Theorem validateAdvancedCustomConfig_spec url rs :
  Forall normal_route rs -> Forall text_route rs ->
  match validateAdvancedCustomConfig url (Some (config_value rs)) with
  | Some None => rs <> [] /\ Forall (route_ok url) rs /\ NoDup (route_path <$> rs)
  | Some (Some e) =>
      (rs = [] /\ er_routeIndex e = None)
      \/ exists i, er_routeIndex e = Some i /\ i < length rs
         /\ (Forall (route_ok url) (take i rs) /\ NoDup (route_path <$> take i rs))
         /\ ~ (Forall (route_ok url) (take (S i) rs) /\ NoDup (route_path <$> take (S i) rs))
  | None => False
  end.
Proof.
  intros Hn Ht. unfold validateAdvancedCustomConfig. rewrite normalize_config_value by done.
  cbn [mbind option_bind]. destruct rs as [|r rs]; [by left|]. cbn [length Nat.eqb].
  pose proof (validate_routes_spec url 0 [] (r :: rs) Ht) as H.
  assert (Hno : forall l, routes_ok url [] l <-> Forall (route_ok url) l /\ NoDup (route_path <$> l)).
  { intros l. unfold routes_ok. split; [naive_solver|]. intros [? ?]. split_and!; [done|done|].
    rewrite Forall_forall. intros x _. apply not_elem_of_nil. }
  destruct (validate_routes url 0 [] (r :: rs)) as [[e|]|]; [|by apply Hno in H|done].
  right. destruct H as (i & Ei & Hi & Hp & Hq). exists i. by rewrite !Hno in *.
Qed.

(** ** Templates and menus *)

(** A value whose trimmed text is not empty. *)
Definition filled (v : value) : Prop := exists x, optional_trim v = Some x /\ nonempty x = true.

Lemma filled_or v d :
  v = VUndefined \/ (exists n, v = VStr n /\ (n = [] \/ trim n <> [])) -> trim d <> [] ->
  filled (value_or v (VStr d)).
Proof.
  intros Hv Hd. assert (Hf : forall s, trim s <> [] -> filled (VStr s)).
  { intros s Hs. exists (trim s). split; [done|]. by destruct (trim s). }
  destruct Hv as [->|(n & -> & [->|Hn])]; [by apply Hf|by apply Hf|].
  unfold value_or. cbn [truthy]. destruct (nonempty n); by apply Hf.
Qed.

Lemma filled_auth t n v :
  is_text (VStr t) (js "header") || is_text (VStr t) (js "query") = true -> filled n -> filled v ->
  validateRouteAuth (Some (mkAuth (VStr t) n v)) = Some None.
Proof.
  intros Ht (x & Hx & Ex) (y & Hy & Ey). unfold validateRouteAuth. cbn [au_type au_name au_value].
  rewrite Hx, Hy. cbn [mbind option_bind]. rewrite Ex, Ey. destruct (is_text _ (js "none")); [done|].
  by destruct (is_text _ (js "header")), (is_text _ (js "query")).
Qed.

(** What the editor offers is valid: the clone of every template and of a
    new configuration normalizes to a configuration that validation accepts
    whatever [URL] does, the default path of a converter and every converter
    offered for a path fit together, and an authentication built for a mode is
    accepted when the previous one had no blank name or value. *)
Theorem advanced_menus_valid url :
  (forall key, exists t v, t ∈ ADVANCED_CUSTOM_TEMPLATE_OPTIONS
     /\ getAdvancedCustomTemplateConfig key = Some v
     /\ normalizeAdvancedCustomConfig v = Some (te_config t)
     /\ validateAdvancedCustomConfig url (Some v) = Some None)
  /\ validateAdvancedCustomConfig url (Some (config_value createAdvancedCustomConfig)) = Some None
  /\ (forall o, o ∈ ADVANCED_CUSTOM_CONVERTER_OPTIONS ->
       isConverterPathAllowed (getDefaultAdvancedCustomIncomingPath (op_value o)) (op_value o) = true)
  /\ (forall path o, o ∈ getAdvancedCustomConverterOptions path ->
       isConverterPathAllowed (trim path) (op_value o) = true)
  /\ (forall mode prev,
       match prev with
       | Some a => (exists n, au_name a = VStr n /\ (n = [] \/ trim n <> []))
                   /\ (exists v, au_value a = VStr v /\ (v = [] \/ trim v <> []))
       | None => True
       end ->
       validateRouteAuth (buildAdvancedCustomAuth mode prev) = Some None).
Proof.
  split_and!.
  - intros key. unfold getAdvancedCustomTemplateConfig.
    destruct (List.find _ ADVANCED_CUSTOM_TEMPLATE_OPTIONS) as [t|] eqn:E.
    + apply find_some in E as [Ht%list_elem_of_In _].
      assert (exists v, cloneAdvancedCustomConfig (te_config t) = Some v
        /\ normalizeAdvancedCustomConfig v = Some (te_config t)
        /\ validateAdvancedCustomConfig url (Some v) = Some None) as (v & H); [|by exists t, v].
      clear key. apply list_elem_of_In in Ht.
      repeat (destruct Ht as [<-|Ht]; [eexists; split; [vm_compute; reflexivity|];
        split; vm_compute; reflexivity|]). done.
    + exists (mkTemplate (js "official_openai_chat") (js "Official OpenAI Chat")
        [AdvancedCustom.native_route P_chat bearerHeaderAuth]). eexists. split; [by left|].
      split; [vm_compute; reflexivity|]. split; vm_compute; reflexivity.
  - vm_compute. reflexivity.
  - apply Forall_forall. apply (bool_decide_unpack _). vm_compute. exact I.
  - intros path o Ho. unfold getAdvancedCustomConverterOptions in Ho.
    apply list_elem_of_In, filter_In in Ho as [_ H]. apply orb_prop in H as [H|H]; [|done].
    apply bool_decide_eq_true in H. by rewrite H.
  - intros mode prev Hp.
    assert (Hf : forall (f : AdvancedCustomRouteAuth -> value) d,
      (forall a, prev = Some a -> exists n, f a = VStr n /\ (n = [] \/ trim n <> [])) -> trim d <> [] ->
      filled (value_or (match prev with Some a => f a | None => VUndefined end) (VStr d))).
    { intros f d Hf Hd. apply filled_or; [|done]. destruct prev as [a|]; [right; auto|by left]. }
    assert (Hn : forall a, prev = Some a -> exists n, au_name a = VStr n /\ (n = [] \/ trim n <> []))
      by (intros a ->; apply Hp).
    assert (Hv : forall a, prev = Some a -> exists n, au_value a = VStr n /\ (n = [] \/ trim n <> []))
      by (intros a ->; apply Hp).
    destruct mode; [done|done| |]; (apply filled_auth; [done|by apply Hf|by apply Hf]).
Qed.

(** ** The summary *)

Lemma optional_trim_text s : optional_trim (VStr s) = Some (trim s).
Proof. done. Qed.

Lemma summary_labels_total rs : Forall text_route rs -> exists ls, summary_labels rs = Some ls.
Proof.
  intros H. unfold summary_labels.
  assert (exists l, mapM getAdvancedCustomRouteSummaryLabel rs = Some l) as [l ->]; [|by eexists].
  induction H as [|r rs ([s Es] & _) _ [l IH]]; [by exists []|].
  assert (exists x, getAdvancedCustomRouteSummaryLabel r = Some x) as [x Hx].
  { unfold getAdvancedCustomRouteSummaryLabel. rewrite Es, optional_trim_text. by eexists. }
  exists (x :: l). simpl. rewrite Hx. simpl. by rewrite IH.
Qed.

Lemma summary_label_throws r :
  normal_route r -> (forall s, ro_incoming r <> VStr s) -> getAdvancedCustomRouteSummaryLabel r = None.
Proof.
  intros (Hi & _) Hs. unfold getAdvancedCustomRouteSummaryLabel, optional_trim.
  destruct (ro_incoming r); try done; by destruct (Hs s).
Qed.

Lemma mapM_None_elem {A B} (f : A -> option B) l x : x ∈ l -> f x = None -> mapM f l = None.
Proof.
  intros Hx Hf. induction l as [|y l IH]; [by apply not_elem_of_nil in Hx|].
  simpl. apply elem_of_cons in Hx as [->|Hx]; [by rewrite Hf|]. rewrite IH by done. by destruct (f y).
Qed.

(** For a text that parses, the summary of the drawer counts the routes and
    says whether validation accepts them when their fields are strings, and
    throws when the incoming path of some route is another JSON value. *)
Theorem getAdvancedCustomStats_spec url text rs :
  parseAdvancedCustomConfig text = Some rs ->
  (Forall text_route rs ->
     exists s e, getAdvancedCustomStats url text = Some s
       /\ validateAdvancedCustomConfig url (Some (config_value rs)) = Some e
       /\ st_routeCount s = length rs /\ (st_valid s = true <-> e = None))
  /\ (forall r, r ∈ rs -> (forall p, ro_incoming r <> VStr p) -> getAdvancedCustomStats url text = None).
Proof.
  intros Hp. assert (Hn : Forall normal_route rs).
  { unfold parseAdvancedCustomConfig in Hp. destruct text as [t|]; [|done].
    destruct (nonempty _); [|done]. destruct (json_parse t) as [v|]; [|done].
    destruct (_ && _); [|done]. by apply normalize_normal in Hp. }
  unfold getAdvancedCustomStats. rewrite Hp, normalize_config_value by done. cbn [mbind option_bind].
  split.
  - intros Ht. destruct (summary_labels_total rs Ht) as [ls ->]. cbn [mbind option_bind].
    assert (exists e, validateAdvancedCustomConfig url (Some (config_value rs)) = Some e) as [e He].
    { unfold validateAdvancedCustomConfig. rewrite normalize_config_value by done.
      cbn [mbind option_bind]. destruct (_ =? 0); [by eexists|by apply validate_routes_total]. }
    rewrite He. cbn [mbind option_bind]. eexists _, e. split_and!; [done|done|done|].
    cbn [st_valid]. by destruct e.
  - intros r Hr Hs. unfold summary_labels. rewrite (mapM_None_elem _ _ r); [done|done|].
    rewrite Forall_forall in Hn. by apply summary_label_throws; [apply Hn|].
Qed.

(** ** Witnesses *)

Definition sample_config : value :=
  VObj [(js "advanced_routes", VArr [VObj [(js "incoming_path", VStr (js "/v1/messages "));
    (js "upstream_path", VStr (js " https://a.b/x")); (js "auth", VObj [(js "name", VStr (js "k"))])]])].

Lemma sample_config_typed : typed_config sample_config.
Proof.
  right. eexists. split; [reflexivity|]. constructor; [|done]. split_and!.
  - by eexists.
  - right. by eexists.
  - right. by eexists.
  - by left.
  - right. split_and!; [by eexists|by left|right; by eexists|by left].
Qed.

Lemma advanced_config_roundtrip_witness :
  exists rs text, normalizeAdvancedCustomConfig sample_config = Some rs
    /\ stringifyAdvancedCustomConfig sample_config = Some text
    /\ parseAdvancedCustomConfig (Some text) = Some rs.
Proof.
  destruct (advanced_config_roundtrip sample_config sample_config_typed)
    as (rs & text & H1 & H2 & H3 & _). exists rs, text. split_and!; [exact H1|exact H2|exact H3].
Defined.

Lemma validateAdvancedCustomConfig_spec_witness :
  validateAdvancedCustomConfig (fun _ => None) (Some (config_value createAdvancedCustomConfig)) = Some None
  /\ NoDup (route_path <$> createAdvancedCustomConfig).
Proof.
  assert (E : validateAdvancedCustomConfig (fun _ => None)
    (Some (config_value createAdvancedCustomConfig)) = Some None) by (vm_compute; reflexivity).
  split; [exact E|].
  assert (Hn : Forall normal_route createAdvancedCustomConfig)
    by (constructor; [by split_and!|done]).
  assert (Ht : Forall text_route createAdvancedCustomConfig)
    by (constructor; [split_and!; [by eexists|by eexists|done]|done]).
  pose proof (validateAdvancedCustomConfig_spec (fun _ => None) createAdvancedCustomConfig Hn Ht) as H.
  rewrite E in H. destruct H as (_ & _ & H). exact H.
Defined.

Lemma getAdvancedCustomStats_spec_witness :
  getAdvancedCustomStats (fun _ => None)
    (Some (jsq "{'advanced_routes':[{'incoming_path':5}]}")) = None.
Proof.
  destruct (parseAdvancedCustomConfig (Some (jsq "{'advanced_routes':[{'incoming_path':5}]}")))
    as [rs|] eqn:E; [|vm_compute in E; discriminate].
  destruct (getAdvancedCustomStats_spec (fun _ => None) _ rs E) as [_ H].
  vm_compute in E. injection E as <-. eapply H; [by left|]. intros p. discriminate.
Defined.
