(* ===== verification/ParamOverride.v ===== *)
(** * The editor of parameter overrides
      ([features/channels/components/dialogs/param-override-editor-dialog.tsx])

    Rules that rewrite a request, edited as forms and stored as JSON text: the
    data, the conversions between forms and JSON, the drafts of two special
    modes, and the validation.

    A mode of a rule or condition is one of the offered ones, since the
    normalizers admit no other and the menus offer no other.  Local ids are
    made from the clock and a counter of the module; an operation that makes
    ids is a computation in the monad [Fresh] over the counter, [None] when it
    throws a [TypeError].  The clock is a parameter: the time read when the
    counter has a given value. *)

From S2P Require Import Prelude JsNumber JsValue JsPretty.

(** ** Modes *)

Inductive OperationMode :=
| MSet | MDelete | MAppend | MPrepend | MCopy | MMove | MReplace | MRegexReplace
| MTrimPrefix | MTrimSuffix | MEnsurePrefix | MEnsureSuffix | MTrimSpace | MToLower | MToUpper
| MReturnError | MPruneObjects | MPassHeaders | MSyncFields
| MSetHeader | MDeleteHeader | MCopyHeader | MMoveHeader.
#[export] Instance OperationMode_eq_dec : EqDecision OperationMode.
Proof. solve_decision. Defined.

Inductive ConditionMode := CFull | CPrefix | CSuffix | CContains | CGt | CGte | CLt | CLte.
#[export] Instance ConditionMode_eq_dec : EqDecision ConditionMode.
Proof. solve_decision. Defined.

Inductive Logic := LAnd | LOr.
#[export] Instance Logic_eq_dec : EqDecision Logic.
Proof. solve_decision. Defined.
Definition logic_name (l : Logic) : jsstr := match l with LAnd => js "AND" | LOr => js "OR" end.

(** Value and label of each option, in the order of the menus. *)
Definition OPERATION_MODE_OPTIONS : list (OperationMode * (jsstr * jsstr)) :=
  [(MSet, (js "set", js "Set Field")); (MDelete, (js "delete", js "Delete Field"));
   (MAppend, (js "append", js "Append to End")); (MPrepend, (js "prepend", js "Prepend to Start"));
   (MCopy, (js "copy", js "Copy Field")); (MMove, (js "move", js "Move Field"));
   (MReplace, (js "replace", js "String Replace"));
   (MRegexReplace, (js "regex_replace", js "Regex Replace"));
   (MTrimPrefix, (js "trim_prefix", js "Trim Prefix"));
   (MTrimSuffix, (js "trim_suffix", js "Trim Suffix"));
   (MEnsurePrefix, (js "ensure_prefix", js "Ensure Prefix"));
   (MEnsureSuffix, (js "ensure_suffix", js "Ensure Suffix"));
   (MTrimSpace, (js "trim_space", js "Trim Space")); (MToLower, (js "to_lower", js "To Lowercase"));
   (MToUpper, (js "to_upper", js "To Uppercase"));
   (MReturnError, (js "return_error", js "Return Custom Error"));
   (MPruneObjects, (js "prune_objects", js "Prune Object Items"));
   (MPassHeaders, (js "pass_headers", js "Pass Through Headers"));
   (MSyncFields, (js "sync_fields", js "Sync Fields"));
   (MSetHeader, (js "set_header", js "Set Request Header"));
   (MDeleteHeader, (js "delete_header", js "Delete Request Header"));
   (MCopyHeader, (js "copy_header", js "Copy Request Header"));
   (MMoveHeader, (js "move_header", js "Move Request Header"))].

Definition CONDITION_MODE_OPTIONS : list (ConditionMode * (jsstr * jsstr)) :=
  [(CFull, (js "full", js "Exact Match")); (CPrefix, (js "prefix", js "Prefix"));
   (CSuffix, (js "suffix", js "Suffix")); (CContains, (js "contains", js "Contains"));
   (CGt, (js "gt", js "Greater Than")); (CGte, (js "gte", js "Greater Than or Equal"));
   (CLt, (js "lt", js "Less Than")); (CLte, (js "lte", js "Less Than or Equal"))].

(** The text of an option's value and its label. *)
Definition option_texts {M} `{EqDecision M} (opts : list (M * (jsstr * jsstr))) (m : M) : jsstr * jsstr :=
  match List.find (fun o => bool_decide (o.1 = m)) opts with Some o => o.2 | None => ([], []) end.
Definition mode_name (m : OperationMode) : jsstr := (option_texts OPERATION_MODE_OPTIONS m).1.
Definition OPERATION_MODE_LABEL_MAP (m : OperationMode) : jsstr :=
  (option_texts OPERATION_MODE_OPTIONS m).2.
Definition condition_mode_name (m : ConditionMode) : jsstr :=
  (option_texts CONDITION_MODE_OPTIONS m).1.

(** [VALUES.has(v) ? v : fallback] *)
Definition mode_of_value {M} (opts : list (M * (jsstr * jsstr))) (fallback : M) (v : value) : M :=
  match v with
  | VStr s => match List.find (fun o => bool_decide (o.2.1 = s)) opts with
              | Some o => o.1 | None => fallback end
  | _ => fallback
  end.

(** What the form of a mode asks for. *)
Record ModeMeta := mkMeta {
  mm_path : bool; mm_pathOptional : bool; mm_value : bool; mm_from : bool; mm_to : bool;
  mm_keepOrigin : bool; mm_pathAlias : bool }.

Definition MODE_META (m : OperationMode) : ModeMeta :=
  match m with
  | MDelete => mkMeta true false false false false false false
  | MSet | MAppend | MPrepend => mkMeta true false true false false true false
  | MCopy | MMove => mkMeta false false false true true false false
  | MReplace | MRegexReplace => mkMeta true false false true false false false
  | MTrimPrefix | MTrimSuffix | MEnsurePrefix | MEnsureSuffix =>
      mkMeta true false true false false false false
  | MTrimSpace | MToLower | MToUpper => mkMeta true false false false false false false
  | MReturnError => mkMeta false false true false false false false
  | MPruneObjects => mkMeta false true true false false false false
  | MPassHeaders => mkMeta false false true false false true false
  | MSyncFields => mkMeta false false false true true false false
  | MSetHeader => mkMeta true false true false false true false
  | MDeleteHeader => mkMeta true false false false false false false
  | MCopyHeader | MMoveHeader => mkMeta false false false true true true true
  end.

Definition VALUE_REQUIRED_MODES : list OperationMode :=
  [MTrimPrefix; MTrimSuffix; MEnsurePrefix; MEnsureSuffix; MSetHeader; MReturnError; MPruneObjects;
   MPassHeaders].
Definition FROM_REQUIRED_MODES : list OperationMode :=
  [MCopy; MMove; MReplace; MRegexReplace; MCopyHeader; MMoveHeader; MSyncFields].
Definition TO_REQUIRED_MODES : list OperationMode :=
  [MCopy; MMove; MCopyHeader; MMoveHeader; MSyncFields].

(** ** Data *)

Record ParamOverrideCondition := mkCondition {
  c_id : jsstr; c_path : jsstr; c_mode : ConditionMode; c_value_text : jsstr; c_invert : bool;
  c_pass_missing_key : bool }.

Record ParamOverrideOperation := mkOperation {
  o_id : jsstr; o_description : jsstr; o_path : jsstr; o_mode : OperationMode; o_from : jsstr;
  o_to : jsstr; o_value_text : jsstr; o_keep_origin : bool; o_logic : Logic;
  o_conditions : list ParamOverrideCondition }.

(** A prune rule has the fields of a condition. *)
Definition PruneRule := ParamOverrideCondition.

(** ** Fresh ids *)

Definition Fresh (A : Type) : Type := N -> option A * N.
#[export] Instance fresh_ret : MRet Fresh := fun _ a n => (Some a, n).
#[export] Instance fresh_bind : MBind Fresh :=
  fun _ _ f m n => match m n with (Some a, n') => f a n' | (None, n') => (None, n') end.
(** Throwing, and the result of a conversion that may throw. *)
Definition lift {A} (o : option A) : Fresh A := fun n => (o, n).

Fixpoint map_fresh {A B} (f : A -> Fresh B) (l : list A) : Fresh (list B) :=
  match l with
  | [] => mret []
  | x :: l' => y ← f x; ys ← map_fresh f l'; mret (y :: ys)
  end.

(** ** Values as text *)

Definition toValueText (v : value) : jsstr :=
  match v with VUndefined => [] | VStr s => s | _ => stringify v end.

Definition parseLooseValue (valueText : jsstr) : value :=
  let raw := trim valueText in
  if negb (nonempty raw) then VStr []
  else match json_parse raw with Some v => v | None => VStr raw end.

Definition verifyJSON (text : jsstr) : bool :=
  match json_parse text with Some _ => true | None => false end.

(** [typeof v.k === 'string' ? v.k : ''] and [v.k === true] *)
Definition text_field (v : value) (k : jsstr) : jsstr :=
  match get_prop v k with VStr s => s | _ => [] end.
Definition true_field (v : value) (k : jsstr) : bool :=
  match get_prop v k with VBool b => b | _ => false end.
(** [v] is an object and not an array. *)
Definition is_record (v : value) : bool := match v with VObj _ => true | _ => false end.

(** [String(v || fallback).toUpperCase() === word] *)
Definition upper_is (v : value) (fallback word : jsstr) : option bool :=
  (fun s => bool_decide (to_upper s = word)) <$> to_string (value_or v (VStr fallback)).

Section Ids.
Context (clock : N -> N).

Definition local_id (n : N) : jsstr := js "po_" ++ dec_of_N (clock n) ++ js "_" ++ dec_of_N n.
Definition nextLocalId : Fresh jsstr := fun n => (Some (local_id n), (n + 1)%N).

(** Reading a property of [null] throws. *)
Definition require_object (v : value) : Fresh unit :=
  lift (match v with VNull => None | _ => Some tt end).

Definition normalizeCondition (condition : value) : Fresh ParamOverrideCondition :=
  cid ← nextLocalId;
  _ ← require_object condition;
  mret (mkCondition cid (text_field condition (js "path"))
          (mode_of_value CONDITION_MODE_OPTIONS CFull (get_prop condition (js "mode")))
          (toValueText (get_prop condition (js "value"))) (true_field condition (js "invert"))
          (true_field condition (js "pass_missing_key"))).

Definition normalizePruneRule : value -> Fresh PruneRule := normalizeCondition.

Definition createDefaultCondition : Fresh ParamOverrideCondition := normalizeCondition (VObj []).

Definition normalizeOperation (operation : value) : Fresh ParamOverrideOperation :=
  oid ← nextLocalId;
  _ ← require_object operation;
  isAnd ← lift (upper_is (get_prop operation (js "logic")) (js "OR") (js "AND"));
  conditions ← match get_prop operation (js "conditions") with
               | VArr l => map_fresh normalizeCondition l
               | _ => mret []
               end;
  mret (mkOperation oid (text_field operation (js "description")) (text_field operation (js "path"))
          (mode_of_value OPERATION_MODE_OPTIONS MSet (get_prop operation (js "mode")))
          (text_field operation (js "from")) (text_field operation (js "to"))
          (toValueText (get_prop operation (js "value"))) (true_field operation (js "keep_origin"))
          (if isAnd : bool then LAnd else LOr) conditions).

Definition createDefaultOperation : Fresh ParamOverrideOperation :=
  normalizeOperation (VObj [(js "mode", VStr (js "set"))]).

(** ** Lists of rules *)

Inductive DropPosition := Before | After.

Definition find_index (ops : list ParamOverrideOperation) (x : jsstr) : option nat :=
  fst <$> list_find (fun o => o_id o = x) ops.

Definition reorderOperations (ops : list ParamOverrideOperation) (sourceId targetId : jsstr)
    (position : DropPosition) : list ParamOverrideOperation :=
  if negb (nonempty sourceId) || negb (nonempty targetId) || bool_decide (sourceId = targetId) then ops
  else match find_index ops sourceId with
       | None => ops
       | Some srcIdx =>
           match ops !! srcIdx with
           | None => ops
           | Some moved =>
               let next := take srcIdx ops ++ drop (S srcIdx) ops in
               match find_index next targetId with
               | None => ops
               | Some i => let insertIdx := match position with After => S i | Before => i end in
                           take insertIdx next ++ [moved] ++ drop insertIdx next
               end
           end
       end.

Definition condition_touched (c : ParamOverrideCondition) : bool :=
  nonempty (trim (c_path c)) || nonempty (trim (c_value_text c))
  || negb (bool_decide (c_mode c = CFull)) || c_invert c || c_pass_missing_key c.

Definition isOperationBlank (o : ParamOverrideOperation) : bool :=
  bool_decide (o_mode o = MSet) && negb (nonempty (trim (o_path o)))
  && negb (nonempty (trim (o_from o))) && negb (nonempty (trim (o_to o)))
  && negb (nonempty (trim (o_value_text o))) && negb (o_keep_origin o)
  && negb (existsb condition_touched (o_conditions o)).

Definition getOperationSummary (o : ParamOverrideOperation) (index : nat) : jsstr :=
  let modeLabel := OPERATION_MODE_LABEL_MAP (o_mode o) in
  let ends := str_or (trim (o_from o)) (str_or (trim (o_to o)) (js "-")) in
  dec_of_N (N.of_nat index + 1) ++ js ". " ++ modeLabel ++ [32; 183; 32]%N
  ++ (if bool_decide (o_mode o = MSyncFields) then ends else str_or (trim (o_path o)) ends).

(** ** Endpoints of [sync_fields] *)

Definition parseSyncTargetSpec (spec : jsstr) : bool * jsstr :=
  let raw := trim spec in
  if negb (nonempty raw) then (false, [])
  else match index_of (js ":") raw with
       | None => (false, raw)
       | Some idx =>
           let prefix := to_lower (trim (take idx raw)) in
           (bool_decide (prefix = js "header"), trim (drop (S idx) raw))
       end.

(** [true] is the type [header], [false] the type [json]. *)
Definition buildSyncTargetSpec (is_header : bool) (key : jsstr) : jsstr :=
  let normalizedKey := trim key in
  if negb (nonempty normalizedKey) then []
  else (if is_header then js "header" else js "json") ++ js ":" ++ normalizedKey.

(** ** The draft of [return_error] *)

Record ReturnErrorDraft := mkReturnError {
  re_message : jsstr; re_statusCode : number; re_code : jsstr; re_type : jsstr; re_skipRetry : bool;
  re_simpleMode : bool }.

Definition valid_status (x : number) : number :=
  if is_integer x && num_leb (num_of_Z 100) x && num_leb x (num_of_Z 599) then x else num_of_Z 400.

Definition is_undefined (v : value) : bool := match v with VUndefined => true | _ => false end.
Definition is_false (v : value) : bool := match v with VBool false => true | _ => false end.

(** The draft of a JSON object; [None] when a conversion throws. *)
Definition return_error_of (parsed : value) : option ReturnErrorDraft :=
  let statusRaw := if is_undefined (get_prop parsed (js "status_code"))
                   then get_prop parsed (js "status") else get_prop parsed (js "status_code") in
  statusValue ← to_number statusRaw;
  message ← to_string (value_or (get_prop parsed (js "message"))
                         (value_or (get_prop parsed (js "msg")) (VStr [])));
  code ← to_string (value_or (get_prop parsed (js "code")) (VStr []));
  type ← to_string (value_or (get_prop parsed (js "type")) (VStr []));
  Some (mkReturnError (trim message) (valid_status statusValue) (trim code) (trim type)
          (negb (is_false (get_prop parsed (js "skip_retry")))) false).

Definition parseReturnErrorDraft (valueText : jsstr) : ReturnErrorDraft :=
  let raw := trim valueText in
  let plain := mkReturnError raw (num_of_Z 400) [] [] true true in
  if negb (nonempty raw) then plain
  else match json_parse raw with
       | Some (VObj fs) => default plain (return_error_of (VObj fs))
       | _ => plain
       end.

Definition buildReturnErrorValueText (draft : ReturnErrorDraft) : jsstr :=
  let message := trim (re_message draft) in
  if re_simpleMode draft then message
  else
    let code := trim (re_code draft) in
    let type := trim (re_type draft) in
    stringify (VObj ([(js "message", VStr message);
                      (js "status_code", VNum (valid_status (re_statusCode draft)))]
                     ++ (if nonempty code then [(js "code", VStr code)] else [])
                     ++ (if nonempty type then [(js "type", VStr type)] else [])
                     ++ (if re_skipRetry draft then [] else [(js "skip_retry", VBool false)]))).

(** ** The draft of [prune_objects] *)

Record PruneObjectsDraft := mkPrune {
  pr_simpleMode : bool; pr_typeText : jsstr; pr_logic : Logic; pr_recursive : bool;
  pr_rules : list PruneRule }.

(** [try { m } catch { h }] *)
Definition catch {A} (m : Fresh A) (h : A) : Fresh A :=
  fun n => match m n with (None, n') => (Some h, n') | r => r end.

Definition entry_rule (f : jsstr * value) : Fresh PruneRule :=
  normalizePruneRule (VObj [(js "path", VStr f.1); (js "mode", VStr (js "full")); (js "value", f.2)]).

Definition prune_draft_of (parsed : value) : Fresh PruneObjectsDraft :=
  whereRules ← match get_prop parsed (js "where") with
               | VObj fs => map_fresh entry_rule fs
               | _ => mret []
               end;
  conditionRules ← match get_prop parsed (js "conditions") with
                   | VArr l => map_fresh normalizePruneRule
                                 (List.filter (fun i => truthy i && is_object i) l)
                   | VObj fs => map_fresh entry_rule fs
                   | _ => mret []
                   end;
  typeText ← lift (if is_undefined (get_prop parsed (js "type")) then Some []
                   else trim <$> to_string (get_prop parsed (js "type")));
  isOr ← lift (upper_is (get_prop parsed (js "logic")) (js "AND") (js "OR"));
  mret (mkPrune
          (is_undefined (get_prop parsed (js "logic")) && is_undefined (get_prop parsed (js "recursive"))
           && is_undefined (get_prop parsed (js "where"))
           && is_undefined (get_prop parsed (js "conditions")))
          typeText (if isOr : bool then LOr else LAnd)
          (negb (is_false (get_prop parsed (js "recursive")))) (whereRules ++ conditionRules)).

Definition parsePruneObjectsDraft (valueText : jsstr) : Fresh PruneObjectsDraft :=
  let raw := trim valueText in
  let simple s := mkPrune true s LAnd true [] in
  if negb (nonempty raw) then mret (simple [])
  else catch (parsed ← lift (json_parse raw);
              match parsed with
              | VStr s => mret (simple (trim s))
              | VObj fs => prune_draft_of (VObj fs)
              | v => s ← lift (to_string (if is_nullish v then VStr [] else v)); mret (simple (trim s))
              end) (simple raw).

Definition prune_condition (rule : PruneRule) : value :=
  let valueRaw := trim (c_value_text rule) in
  VObj ([(js "path", VStr (trim (c_path rule))); (js "mode", VStr (condition_mode_name (c_mode rule)))]
        ++ (if nonempty valueRaw then [(js "value", parseLooseValue valueRaw)] else [])
        ++ (if c_invert rule then [(js "invert", VBool true)] else [])
        ++ (if c_pass_missing_key rule then [(js "pass_missing_key", VBool true)] else [])).

Definition buildPruneObjectsValueText (draft : PruneObjectsDraft) : jsstr :=
  let typeText := trim (pr_typeText draft) in
  if pr_simpleMode draft then typeText
  else
    let conditions := List.map prune_condition
      (List.filter (fun r => nonempty (trim (c_path r))) (pr_rules draft)) in
    if negb (nonempty typeText) && negb (nonempty conditions)
    then stringify (VObj [(js "logic", VStr (js "AND"))])
    else stringify (VObj (
      (if nonempty typeText then [(js "type", VStr typeText)] else [])
      ++ (if bool_decide (pr_logic draft = LOr) then [(js "logic", VStr (js "OR"))] else [])
      ++ (if pr_recursive draft then [] else [(js "recursive", VBool false)])
      ++ (if nonempty conditions then [(js "conditions", VArr conditions)] else []))).

(** ** Header names *)

Definition header_name (v : value) : option jsstr :=
  trim <$> to_string (if is_nullish v then VStr [] else v).

Definition parsePassHeaderNames (rawValue : value) : option (list jsstr) :=
  let names l := List.filter nonempty <$> mapM header_name l in
  match rawValue with
  | VArr l => names l
  | VObj _ =>
      match get_prop rawValue (js "headers") with
      | VArr l => names l
      | _ => if is_undefined (get_prop rawValue (js "header")) then Some []
             else (fun s => if nonempty s then [s] else [])
                    <$> header_name (get_prop rawValue (js "header"))
      end
  | VStr s => Some (List.filter nonempty (List.map trim (split_char (ch ",") s)))
  | _ => Some []
  end.

(** ** Validation *)

Definition K_path := js "Rule {{line}} is missing target path".
Definition K_from := js "Rule {{line}} is missing source field".
Definition K_to := js "Rule {{line}} is missing target field".
Definition K_value := js "Rule {{line}} is missing value".
Definition K_message := js "Rule {{line}} return_error requires a message field".
Definition K_headers := js "Rule {{line}} pass_headers format is invalid".

(** The check of [return_error]: a JSON object needs a message; a conversion
    that throws is caught like a text that is not JSON. *)
Definition lacks_message (raw : jsstr) : bool :=
  match json_parse raw with
  | Some (VObj fs) =>
      match to_string (value_or (get_prop (VObj fs) (js "message")) (VStr [])) with
      | Some s => negb (nonempty (trim s))
      | None => false
      end
  | _ => false
  end.

(** The key of the message, if any; [None] for a [TypeError].  The source tests
    the value again in the branches of the modes that require one, after the
    test of the required value has passed. *)
Definition validate_operation (op : ParamOverrideOperation) : option (option jsstr) :=
  let mode := o_mode op in
  let meta := MODE_META mode in
  let pathValue := nonempty (trim (o_path op)) in
  let fromValue := nonempty (trim (o_from op)) in
  let toValue := nonempty (trim (o_to op)) in
  let raw := trim (o_value_text op) in
  let alias := mm_pathAlias meta && pathValue in
  if mm_path meta && negb pathValue then Some (Some K_path)
  else if set_has FROM_REQUIRED_MODES mode && negb fromValue && negb alias then Some (Some K_from)
  else if set_has TO_REQUIRED_MODES mode && negb toValue && negb alias then Some (Some K_to)
  else if set_has VALUE_REQUIRED_MODES mode && negb (nonempty raw) then Some (Some K_value)
  else match mode with
       | MReturnError => Some (if lacks_message raw then Some K_message else None)
       | MPassHeaders =>
           headers ← parsePassHeaderNames (parseLooseValue raw);
           Some (if nonempty headers then None else Some K_headers)
       | _ => Some None
       end.
End Ids.

Section Messages.
(** The translation, with the number of the rule; the message of a [TypeError]. *)
Context (t : jsstr -> option nat -> jsstr) (typeError : jsstr).

(** The message, empty when every rule passes. *)
Fixpoint validate_from (i : nat) (operations : list ParamOverrideOperation) : jsstr + jsstr :=
  match operations with
  | [] => inr []
  | op :: operations' =>
      match validate_operation op with
      | None => inl typeError
      | Some (Some key) => inr (t key (Some (S i)))
      | Some None => validate_from (S i) operations'
      end
  end.
(** [inl] is a thrown error with its message. *)
Definition validateOperations (operations : list ParamOverrideOperation) : jsstr + jsstr :=
  validate_from 0 operations.

(** ** The stored text *)

Definition buildConditionPayload (c : ParamOverrideCondition) : option value :=
  let path := trim (c_path c) in
  if negb (nonempty path) then None
  else Some (VObj ([(js "path", VStr path); (js "mode", VStr (condition_mode_name (c_mode c)));
                    (js "value", parseLooseValue (c_value_text c))]
                   ++ (if c_invert c then [(js "invert", VBool true)] else [])
                   ++ (if c_pass_missing_key c then [(js "pass_missing_key", VBool true)] else []))).

(** [if (b) payload.k = v] *)
Definition set_if (b : bool) (k : jsstr) (v : value) (payload : list (jsstr * value))
  : list (jsstr * value) := if b then obj_set k v payload else payload.

Definition operation_payload (o : ParamOverrideOperation) : value :=
  let mode := o_mode o in
  let meta := MODE_META mode in
  let descriptionValue := trim (o_description o) in
  let pathValue := trim (o_path o) in
  let fromValue := trim (o_from o) in
  let toValue := trim (o_to o) in
  let missing k payload := negb (truthy (get_prop (VObj payload) k)) in
  let p := [(js "mode", VStr (mode_name mode))] in
  let p := set_if (nonempty descriptionValue) (js "description") (VStr descriptionValue) p in
  let p := set_if (mm_path meta) (js "path") (VStr pathValue) p in
  let p := set_if (mm_pathOptional meta && nonempty pathValue) (js "path") (VStr pathValue) p in
  let p := set_if (mm_value meta) (js "value") (parseLooseValue (o_value_text o)) p in
  let p := set_if (mm_keepOrigin meta && o_keep_origin o) (js "keep_origin") (VBool true) p in
  let p := set_if (mm_from meta) (js "from") (VStr fromValue) p in
  let p := set_if (negb (mm_to meta) && nonempty toValue) (js "to") (VStr toValue) p in
  let p := set_if (mm_to meta) (js "to") (VStr toValue) p in
  let p := set_if (mm_pathAlias meta && missing (js "from") p && nonempty pathValue)
             (js "from") (VStr pathValue) p in
  let p := set_if (mm_pathAlias meta && missing (js "to") p && nonempty pathValue)
             (js "to") (VStr pathValue) p in
  let conditions := omap buildConditionPayload (o_conditions o) in
  let p := set_if (nonempty conditions) (js "conditions") (VArr conditions) p in
  let p := set_if (nonempty conditions) (js "logic") (VStr (logic_name (o_logic o))) p in
  VObj p.

Definition buildOperationsJson (sourceOperations : list ParamOverrideOperation) (validate : bool)
  : jsstr + jsstr :=
  let filteredOps := List.filter (fun o => negb (isOperationBlank o)) sourceOperations in
  if negb (nonempty filteredOps) then inr []
  else
    let text := stringify2 (VObj [(js "operations", VArr (List.map operation_payload filteredOps))]) in
    if validate then
      match validateOperations filteredOps with
      | inl e => inl e
      | inr message => if nonempty message then inl message else inr text
      end
    else inr text.
End Messages.

(** ** The state an opened dialog starts from *)

Inductive EditMode := Visual | Json.
Inductive VisualMode := Operations | Legacy.

Record EditorState := mkEditorState {
  es_editMode : EditMode; es_visualMode : VisualMode; es_legacyValue : jsstr;
  es_operations : list ParamOverrideOperation; es_jsonText : jsstr; es_jsonError : jsstr }.

Section Initial.
Context (clock : N -> N).

(** The rules of a JSON array, or one default rule. *)
Definition load_operations (l : list value) : Fresh (list ParamOverrideOperation) :=
  match l with
  | [] => o ← createDefaultOperation clock; mret [o]
  | _ => map_fresh (normalizeOperation clock) l
  end.

Definition parseInitialState (text : jsstr) : Fresh EditorState :=
  let trimmed := trim text in
  if negb (nonempty trimmed) then
    o ← createDefaultOperation clock; mret (mkEditorState Visual Operations [] [o] [] [])
  else match json_parse trimmed with
       | None => o ← createDefaultOperation clock;
                 mret (mkEditorState Json Operations [] [o] text (js "Invalid JSON format"))
       | Some parsed =>
           let pretty := stringify2 parsed in
           match parsed, get_prop parsed (js "operations") with
           | VObj _, VArr l => ops ← load_operations l;
                               mret (mkEditorState Visual Operations [] ops pretty [])
           | VObj _, _ => o ← createDefaultOperation clock;
                          mret (mkEditorState Visual Legacy pretty [o] pretty [])
           | _, _ => o ← createDefaultOperation clock;
                     mret (mkEditorState Json Operations [] [o] pretty [])
           end
       end.
End Initial.
