(* ===== verification/ParamOverrideEditor.v ===== *)
(** * The dialog of parameter overrides as a state machine
      ([param-override-editor-dialog.tsx], the component)

    The React states of the dialog, the counter of local ids and what it hands
    to the outside (saved texts, notifications) are one record; every callback
    is a function on it and [step] runs the callback of a user action.  React
    applies functional updates in order; an exception in an effect or in an
    update unmounts the dialog ([ed_crashed]), one in an event handler leaves
    the state as it was. *)

From S2P Require Import Prelude JsNumber JsValue JsPretty JsMap ParamOverride.

(** ** Templates *)

Definition text_obj (fs : list (string * value)) : value := VObj (List.map (fun f => (js f.1, f.2)) fs).
Definition str (s : string) : value := VStr (js s).
Definition with_operations (ops : list value) : value := VObj [(js "operations", VArr ops)].

Definition LEGACY_TEMPLATE : value :=
  text_obj [("temperature"%string, VNum (num_of_Z 0)); ("max_tokens"%string, VNum (num_of_Z 1000))].

Definition condition_value (path mode v : string) : value :=
  text_obj [("path"%string, str path); ("mode"%string, str mode); ("value"%string, str v)].

Definition OPERATION_TEMPLATE : value :=
  with_operations [text_obj [
    ("description"%string, str "Set default temperature for openai/* models.");
    ("path"%string, str "temperature"); ("mode"%string, str "set");
    ("value"%string, VNum (decimal_value false 7 (-1)));
    ("conditions"%string, VArr [condition_value "model" "prefix" "openai/"]);
    ("logic"%string, str "AND")]].

Definition HEADER_PASSTHROUGH_TEMPLATE : value :=
  with_operations [text_obj [
    ("description"%string, str "Pass through X-Request-Id header to upstream.");
    ("mode"%string, str "pass_headers"); ("value"%string, VArr [str "X-Request-Id"]);
    ("keep_origin"%string, VBool true)]].

Definition GEMINI_IMAGE_4K_TEMPLATE : value :=
  with_operations [text_obj [
    ("description"%string, str "Set imageSize to 4K when model contains gemini/image and ends with 4k.");
    ("mode"%string, str "set"); ("path"%string, str "generationConfig.imageConfig.imageSize");
    ("value"%string, str "4K");
    ("conditions"%string, VArr [condition_value "original_model" "contains" "gemini";
                                condition_value "original_model" "contains" "image";
                                condition_value "original_model" "suffix" "4k"]);
    ("logic"%string, str "AND")]].

Definition CODEX_CLI_HEADER_PASSTHROUGH_HEADERS : list string :=
  ["Originator"; "Session_id"; "User-Agent"; "X-Codex-Beta-Features"; "X-Codex-Turn-Metadata"]%string.

Definition CLAUDE_CLI_HEADER_PASSTHROUGH_HEADERS : list string :=
  ["X-Stainless-Arch"; "X-Stainless-Lang"; "X-Stainless-Os"; "X-Stainless-Package-Version";
   "X-Stainless-Retry-Count"; "X-Stainless-Runtime"; "X-Stainless-Runtime-Version";
   "X-Stainless-Timeout"; "User-Agent"; "X-App"; "Anthropic-Beta";
   "Anthropic-Dangerous-Direct-Browser-Access"; "Anthropic-Version"]%string.

Definition buildPassHeadersTemplate (headers : list string) : value :=
  with_operations [text_obj [("mode"%string, str "pass_headers");
    ("value"%string, VArr (List.map str headers)); ("keep_origin"%string, VBool true)]].

Definition CODEX_CLI_HEADER_PASSTHROUGH_TEMPLATE : value :=
  buildPassHeadersTemplate CODEX_CLI_HEADER_PASSTHROUGH_HEADERS.
Definition CLAUDE_CLI_HEADER_PASSTHROUGH_TEMPLATE : value :=
  buildPassHeadersTemplate CLAUDE_CLI_HEADER_PASSTHROUGH_HEADERS.

(** The header tokens of the Bedrock template: kept, renamed or dropped. *)
Definition BEDROCK_TOKENS : list (string * option string) :=
  [("advanced-tool-use-2025-11-20", Some "tool-search-tool-2025-10-19");
   ("bash_20241022", None); ("bash_20250124", None); ("code-execution-2025-08-25", None);
   ("compact-2026-01-12", Some "compact-2026-01-12");
   ("computer-use-2025-01-24", Some "computer-use-2025-01-24");
   ("computer-use-2025-11-24", Some "computer-use-2025-11-24");
   ("context-1m-2025-08-07", Some "context-1m-2025-08-07");
   ("context-management-2025-06-27", Some "context-management-2025-06-27");
   ("effort-2025-11-24", None); ("fast-mode-2026-02-01", None); ("files-api-2025-04-14", None);
   ("fine-grained-tool-streaming-2025-05-14", None);
   ("interleaved-thinking-2025-05-14", Some "interleaved-thinking-2025-05-14");
   ("mcp-client-2025-11-20", None); ("mcp-client-2025-04-04", None); ("mcp-servers-2025-12-04", None);
   ("output-128k-2025-02-19", None); ("structured-output-2024-03-01", None);
   ("prompt-caching-scope-2026-01-05", None); ("skills-2025-10-02", None);
   ("structured-outputs-2025-11-13", None); ("text_editor_20241022", None);
   ("text_editor_20250124", None); ("token-efficient-tools-2025-02-19", None);
   ("tool-search-tool-2025-10-19", Some "tool-search-tool-2025-10-19");
   ("web-fetch-2025-09-10", None); ("web-search-2025-03-05", None); ("oauth-2025-04-20", None)]%string.

Definition AWS_BEDROCK_ANTHROPIC_COMPAT_TEMPLATE : value :=
  with_operations [
    text_obj [("description"%string, str "Normalize anthropic-beta header tokens for Bedrock compatibility.");
      ("mode"%string, str "set_header"); ("path"%string, str "anthropic-beta");
      ("value"%string, text_obj (List.map (fun e => (e.1, match e.2 with Some s => str s | None => VNull end))
                                   BEDROCK_TOKENS))];
    text_obj [("description"%string, str "Remove all tools[*].custom.input_examples before upstream relay.");
      ("mode"%string, str "delete"); ("path"%string, str "tools.*.custom.input_examples")]].

Record TemplatePresetConfig := mkPreset {
  tp_label : jsstr; tp_legacy : bool; tp_payload : value }.

Definition TEMPLATE_PRESET_CONFIG : list (jsstr * TemplatePresetConfig) :=
  [(js "operations_default", mkPreset (js "New Format Template") false OPERATION_TEMPLATE);
   (js "legacy_default", mkPreset (js "Legacy Format Template") true LEGACY_TEMPLATE);
   (js "pass_headers_auth", mkPreset (js "Header Passthrough (X-Request-Id)") false
                              HEADER_PASSTHROUGH_TEMPLATE);
   (js "gemini_image_4k", mkPreset (js "Gemini Image 4K") false GEMINI_IMAGE_4K_TEMPLATE);
   (js "claude_cli_headers_passthrough", mkPreset (js "Claude CLI Header Passthrough") false
                                           CLAUDE_CLI_HEADER_PASSTHROUGH_TEMPLATE);
   (js "codex_cli_headers_passthrough", mkPreset (js "Codex CLI Header Passthrough") false
                                          CODEX_CLI_HEADER_PASSTHROUGH_TEMPLATE);
   (js "aws_bedrock_anthropic_beta_override", mkPreset (js "AWS Bedrock Claude Compat") false
                                                AWS_BEDROCK_ANTHROPIC_COMPAT_TEMPLATE)].

(** ** The state *)

Record Editor := mkEditor {
  ed_editMode : EditMode; ed_visualMode : VisualMode; ed_legacyValue : jsstr;
  ed_operations : list ParamOverrideOperation; ed_jsonText : jsstr; ed_jsonError : jsstr;
  ed_search : jsstr; ed_selected : jsstr; ed_expanded : list (jsstr * bool);
  ed_dragged : jsstr; ed_dragOver : jsstr; ed_dragPosition : DropPosition; ed_preset : jsstr;
  ed_seed : N; ed_open : bool; ed_saved : list jsstr; ed_toasts : list jsstr; ed_crashed : bool }.

(** The setters. *)
Definition set_forms (editMode : EditMode) (visualMode : VisualMode) (legacyValue : jsstr)
    (operations : list ParamOverrideOperation) (jsonText jsonError : jsstr) (s : Editor) : Editor :=
  mkEditor editMode visualMode legacyValue operations jsonText jsonError (ed_search s) (ed_selected s)
    (ed_expanded s) (ed_dragged s) (ed_dragOver s) (ed_dragPosition s) (ed_preset s) (ed_seed s)
    (ed_open s) (ed_saved s) (ed_toasts s) (ed_crashed s).
Definition setOperations (operations : list ParamOverrideOperation) (s : Editor) : Editor :=
  set_forms (ed_editMode s) (ed_visualMode s) (ed_legacyValue s) operations (ed_jsonText s)
    (ed_jsonError s) s.
Definition setJson (jsonText jsonError : jsstr) (s : Editor) : Editor :=
  set_forms (ed_editMode s) (ed_visualMode s) (ed_legacyValue s) (ed_operations s) jsonText jsonError s.
Definition set_view (search selected : jsstr) (expanded : list (jsstr * bool)) (preset : jsstr)
    (s : Editor) : Editor :=
  mkEditor (ed_editMode s) (ed_visualMode s) (ed_legacyValue s) (ed_operations s) (ed_jsonText s)
    (ed_jsonError s) search selected expanded (ed_dragged s) (ed_dragOver s) (ed_dragPosition s) preset
    (ed_seed s) (ed_open s) (ed_saved s) (ed_toasts s) (ed_crashed s).
Definition setSelected (x : jsstr) (s : Editor) : Editor :=
  set_view (ed_search s) x (ed_expanded s) (ed_preset s) s.
Definition setExpanded (e : list (jsstr * bool)) (s : Editor) : Editor :=
  set_view (ed_search s) (ed_selected s) e (ed_preset s) s.
Definition setTemplatePresetKey (k : jsstr) (s : Editor) : Editor :=
  set_view (ed_search s) (ed_selected s) (ed_expanded s) k s.
Definition set_drag (dragged over : jsstr) (position : DropPosition) (s : Editor) : Editor :=
  mkEditor (ed_editMode s) (ed_visualMode s) (ed_legacyValue s) (ed_operations s) (ed_jsonText s)
    (ed_jsonError s) (ed_search s) (ed_selected s) (ed_expanded s) dragged over position (ed_preset s)
    (ed_seed s) (ed_open s) (ed_saved s) (ed_toasts s) (ed_crashed s).
Definition set_outside (seed : N) (open : bool) (saved toasts : list jsstr) (crashed : bool) (s : Editor)
  : Editor :=
  mkEditor (ed_editMode s) (ed_visualMode s) (ed_legacyValue s) (ed_operations s) (ed_jsonText s)
    (ed_jsonError s) (ed_search s) (ed_selected s) (ed_expanded s) (ed_dragged s) (ed_dragOver s)
    (ed_dragPosition s) (ed_preset s) seed open saved toasts crashed.
Definition setSeed (n : N) (s : Editor) : Editor :=
  set_outside n (ed_open s) (ed_saved s) (ed_toasts s) (ed_crashed s) s.
Definition toast (m : jsstr) (s : Editor) : Editor :=
  set_outside (ed_seed s) (ed_open s) (ed_saved s) (ed_toasts s ++ [m]) (ed_crashed s) s.
Definition crash (s : Editor) : Editor :=
  set_outside (ed_seed s) (ed_open s) (ed_saved s) (ed_toasts s) true s.

(** Run a computation that makes ids: [f] on its value, [g] when it throws. *)
Definition with_fresh {A} (m : Fresh A) (f : A -> Editor -> Editor) (g : Editor -> Editor) (s : Editor)
  : Editor :=
  match m (ed_seed s) with
  | (Some a, n) => f a (setSeed n s)
  | (None, n) => g (setSeed n s)
  end.

(** The first id, or the empty string. *)
Definition first_id (ops : list ParamOverrideOperation) : jsstr :=
  match ops with o :: _ => o_id o | [] => [] end.

Definition update_by_id (x : jsstr) (f : ParamOverrideOperation -> ParamOverrideOperation)
    (ops : list ParamOverrideOperation) : list ParamOverrideOperation :=
  List.map (fun o => if bool_decide (o_id o = x) then f o else o) ops.

Definition with_conditions (cs : list ParamOverrideCondition) (o : ParamOverrideOperation)
  : ParamOverrideOperation :=
  mkOperation (o_id o) (o_description o) (o_path o) (o_mode o) (o_from o) (o_to o) (o_value_text o)
    (o_keep_origin o) (o_logic o) cs.
Definition with_value_text (v : jsstr) (o : ParamOverrideOperation) : ParamOverrideOperation :=
  mkOperation (o_id o) (o_description o) (o_path o) (o_mode o) (o_from o) (o_to o) v
    (o_keep_origin o) (o_logic o) (o_conditions o).

(** The fields a form can change. *)
Record OperationPatch := mkOpPatch {
  op_description : option jsstr; op_path : option jsstr; op_mode : option OperationMode;
  op_from : option jsstr; op_to : option jsstr; op_value_text : option jsstr;
  op_keep_origin : option bool; op_logic : option Logic }.
Definition patch_operation (p : OperationPatch) (o : ParamOverrideOperation) : ParamOverrideOperation :=
  mkOperation (o_id o) (default (o_description o) (op_description p)) (default (o_path o) (op_path p))
    (default (o_mode o) (op_mode p)) (default (o_from o) (op_from p)) (default (o_to o) (op_to p))
    (default (o_value_text o) (op_value_text p)) (default (o_keep_origin o) (op_keep_origin p))
    (default (o_logic o) (op_logic p)) (o_conditions o).
Record ConditionPatch := mkCondPatch {
  cp_path : option jsstr; cp_mode : option ConditionMode; cp_value_text : option jsstr;
  cp_invert : option bool; cp_pass_missing_key : option bool }.
Definition patch_condition (p : ConditionPatch) (c : ParamOverrideCondition) : ParamOverrideCondition :=
  mkCondition (c_id c) (default (c_path c) (cp_path p)) (default (c_mode c) (cp_mode p))
    (default (c_value_text c) (cp_value_text p)) (default (c_invert c) (cp_invert p))
    (default (c_pass_missing_key c) (cp_pass_missing_key p)).
Record ReturnErrorPatch := mkRePatch {
  rp_message : option jsstr; rp_statusCode : option number; rp_code : option jsstr;
  rp_type : option jsstr; rp_skipRetry : option bool; rp_simpleMode : option bool }.
Definition patch_return_error (p : ReturnErrorPatch) (d : ReturnErrorDraft) : ReturnErrorDraft :=
  mkReturnError (default (re_message d) (rp_message p)) (default (re_statusCode d) (rp_statusCode p))
    (default (re_code d) (rp_code p)) (default (re_type d) (rp_type p))
    (default (re_skipRetry d) (rp_skipRetry p)) (default (re_simpleMode d) (rp_simpleMode p)).
Record PrunePatch := mkPrPatch {
  pp_simpleMode : option bool; pp_typeText : option jsstr; pp_logic : option Logic;
  pp_recursive : option bool }.
Definition patch_prune (p : PrunePatch) (d : PruneObjectsDraft) : PruneObjectsDraft :=
  mkPrune (default (pr_simpleMode d) (pp_simpleMode p)) (default (pr_typeText d) (pp_typeText p))
    (default (pr_logic d) (pp_logic p)) (default (pr_recursive d) (pp_recursive p)) (pr_rules d).

Section Dialog.
Context (clock : N -> N) (t : jsstr -> option nat -> jsstr) (typeError : jsstr)
  (toLowerCase : jsstr -> jsstr).

(** ** Opening and derived values *)

Definition resetDragState (s : Editor) : Editor := set_drag [] [] Before s.

Definition open_dialog (text : jsstr) (s : Editor) : Editor :=
  let s := set_outside (ed_seed s) true (ed_saved s) (ed_toasts s) (ed_crashed s) s in
  with_fresh (parseInitialState clock text) (fun st s =>
    resetDragState
      (set_view [] (first_id (es_operations st)) []
         (match es_visualMode st with Legacy => js "legacy_default" | Operations => js "operations_default" end)
         (set_forms (es_editMode st) (es_visualMode st) (es_legacyValue st) (es_operations st)
            (es_jsonText st) (es_jsonError st) s))) crash s.

Definition has_id (x : jsstr) (ops : list ParamOverrideOperation) : bool :=
  existsb (fun o => bool_decide (o_id o = x)) ops.

(** The effect that keeps the selection valid. *)
Definition settle_selection (s : Editor) : Editor :=
  if negb (nonempty (ed_operations s)) then setSelected [] s
  else if has_id (ed_selected s) (ed_operations s) then s
  else setSelected (first_id (ed_operations s)) s.

Definition selectedOperation (s : Editor) : option ParamOverrideOperation :=
  List.find (fun o => bool_decide (o_id o = ed_selected s)) (ed_operations s).

Definition returnErrorDraft (s : Editor) : option ReturnErrorDraft :=
  match selectedOperation s with
  | Some o => if bool_decide (o_mode o = MReturnError) then Some (parseReturnErrorDraft (o_value_text o))
              else None
  | None => None
  end.

(** The draft of the selected rule, parsed with new ids. *)
Definition pruneObjectsDraft (s : Editor) : Fresh (option PruneObjectsDraft) :=
  match selectedOperation s with
  | Some o => if bool_decide (o_mode o = MPruneObjects)
              then d ← parsePruneObjectsDraft clock (o_value_text o); mret (Some d) else mret None
  | None => mret None
  end.
(** Every rendering evaluates the initial rule of the state hook again; the
    draft is parsed when the selected rule has changed. *)
Definition render (changed : bool) (s : Editor) : Editor :=
  with_fresh (_ ← createDefaultOperation clock; if changed then pruneObjectsDraft s else mret None)
    (fun _ s => s) crash s.

Definition operationCount (s : Editor) : nat :=
  length (List.filter (fun o => negb (isOperationBlank o)) (ed_operations s)).

Definition filteredOperations (s : Editor) : list ParamOverrideOperation :=
  let keyword := toLowerCase (trim (ed_search s)) in
  if negb (nonempty keyword) then ed_operations s
  else List.filter (fun op => includes keyword (toLowerCase (join (js " ")
         (List.filter nonempty [o_description op; mode_name (o_mode op); o_path op; o_from op;
                                o_to op; o_value_text op])))) (ed_operations s).

Definition topOperationModes (s : Editor) : list (OperationMode * nat) :=
  let counts := map_collect o_mode (fun _ => 0) (fun _ n => S n) (ed_operations s) [] in
  take 4 (js_sort (fun a b => Nat.compare b.2 a.2) counts).

(** ** Rules and conditions *)

Definition updateOperation (x : jsstr) (p : OperationPatch) (s : Editor) : Editor :=
  setOperations (update_by_id x (patch_operation p) (ed_operations s)) s.

Definition addOperation (s : Editor) : Editor :=
  with_fresh (createDefaultOperation clock) (fun created s =>
    setSelected (o_id created) (setOperations (ed_operations s ++ [created]) s)) crash s.

(** The object a rule is cloned from. *)
Definition clone_value (o : ParamOverrideOperation) : value :=
  VObj [(js "description", VStr (o_description o)); (js "path", VStr (o_path o));
        (js "mode", VStr (mode_name (o_mode o))); (js "value", parseLooseValue (o_value_text o));
        (js "keep_origin", VBool (o_keep_origin o)); (js "from", VStr (o_from o));
        (js "to", VStr (o_to o)); (js "logic", VStr (logic_name (o_logic o)));
        (js "conditions", VArr (List.map (fun c =>
           VObj [(js "path", VStr (c_path c)); (js "mode", VStr (condition_mode_name (c_mode c)));
                 (js "value", parseLooseValue (c_value_text c)); (js "invert", VBool (c_invert c));
                 (js "pass_missing_key", VBool (c_pass_missing_key c))]) (o_conditions o)))].

(** [eager]: React has run the update when the new id is read. *)
Definition duplicateOperation (x : jsstr) (eager : bool) (s : Editor) : Editor :=
  match find_index (ed_operations s) x with
  | None => s
  | Some idx =>
      match ed_operations s !! idx with
      | None => s
      | Some source =>
          with_fresh (normalizeOperation clock (clone_value source)) (fun cloned s =>
            let s := setOperations (take (S idx) (ed_operations s) ++ [cloned]
                                    ++ drop (S idx) (ed_operations s)) s in
            if eager then setSelected (o_id cloned) s else s) crash s
      end
  end.

Definition removeOperation (x : jsstr) (s : Editor) : Editor :=
  if (length (ed_operations s) <=? 1)
  then with_fresh (createDefaultOperation clock) (fun o s => setOperations [o] s) crash s
  else setOperations (List.filter (fun o => negb (bool_decide (o_id o = x))) (ed_operations s)) s.

Definition addCondition (x : jsstr) (s : Editor) : Editor :=
  with_fresh (createDefaultCondition clock) (fun created s =>
    setExpanded (map_set (c_id created) true (ed_expanded s))
      (setOperations (update_by_id x (fun o => with_conditions (o_conditions o ++ [created]) o)
                        (ed_operations s)) s)) crash s.

Definition updateCondition (x c : jsstr) (p : ConditionPatch) (s : Editor) : Editor :=
  setOperations (update_by_id x (fun o => with_conditions
    (List.map (fun cd => if bool_decide (c_id cd = c) then patch_condition p cd else cd)
       (o_conditions o)) o) (ed_operations s)) s.

Definition removeCondition (x c : jsstr) (s : Editor) : Editor :=
  setOperations (update_by_id x (fun o => with_conditions
    (List.filter (fun cd => negb (bool_decide (c_id cd = c))) (o_conditions o)) o) (ed_operations s)) s.

Definition expand_conditions (b : bool) (s : Editor) : Editor :=
  match selectedOperation s with
  | Some o => setExpanded (fold_left (fun m c => map_set (c_id c) b m) (o_conditions o) (ed_expanded s)) s
  | None => s
  end.

(** ** Drafts *)

Definition updateReturnErrorDraft (x : jsstr) (p : ReturnErrorPatch) (s : Editor) : Editor :=
  setOperations (update_by_id x (fun o => with_value_text
    (buildReturnErrorValueText (patch_return_error p (parseReturnErrorDraft (o_value_text o)))) o)
    (ed_operations s)) s.

(** The draft is parsed from the text, updated and printed. *)
Definition update_prune_in (x : jsstr) (upd : PruneObjectsDraft -> Fresh PruneObjectsDraft)
  : list ParamOverrideOperation -> Fresh (list ParamOverrideOperation) :=
  map_fresh (fun o =>
    if bool_decide (o_id o = x) then
      draft ← parsePruneObjectsDraft clock (o_value_text o);
      next ← upd draft;
      mret (with_value_text (buildPruneObjectsValueText next) o)
    else mret o).
Definition update_prune (x : jsstr) (upd : PruneObjectsDraft -> Fresh PruneObjectsDraft) (s : Editor)
  : Editor :=
  with_fresh (update_prune_in x upd (ed_operations s)) setOperations crash s.

Definition updatePruneObjectsDraft (x : jsstr) (p : PrunePatch) (s : Editor) : Editor :=
  update_prune x (fun d => mret (patch_prune p d)) s.

Definition with_rules (simple : bool) (rules : list PruneRule) (d : PruneObjectsDraft)
  : PruneObjectsDraft :=
  mkPrune simple (pr_typeText d) (pr_logic d) (pr_recursive d) rules.

Definition addPruneRule (x : jsstr) (s : Editor) : Editor :=
  update_prune x (fun d => r ← normalizePruneRule clock (VObj []);
                           mret (with_rules false (pr_rules d ++ [r]) d)) s.

Definition updatePruneRule (x rule : jsstr) (p : ConditionPatch) (s : Editor) : Editor :=
  update_prune x (fun d => mret (with_rules (pr_simpleMode d)
    (List.map (fun r => if bool_decide (c_id r = rule) then patch_condition p r else r) (pr_rules d)) d)) s.

Definition removePruneRule (x rule : jsstr) (s : Editor) : Editor :=
  update_prune x (fun d => mret (with_rules (pr_simpleMode d)
    (List.filter (fun r => negb (bool_decide (c_id r = rule))) (pr_rules d)) d)) s.

(** ** Drag and drop *)

Definition handleDragStart (x : jsstr) (s : Editor) : Editor :=
  setSelected x (set_drag x (ed_dragOver s) (ed_dragPosition s) s).

Definition handleDragOver (x : jsstr) (position : DropPosition) (s : Editor) : Editor :=
  if negb (nonempty (ed_dragged s)) || bool_decide (ed_dragged s = x) then s
  else set_drag (ed_dragged s) x position s.

(** [data] is the text of the drag event. *)
Definition handleDrop (x data : jsstr) (s : Editor) : Editor :=
  let sourceId := str_or (ed_dragged s) data in
  let position := if bool_decide (ed_dragOver s = x) then ed_dragPosition s else Before in
  let s := if nonempty sourceId && nonempty x && negb (bool_decide (sourceId = x))
           then setSelected sourceId
                  (setOperations (reorderOperations (ed_operations s) sourceId x position) s)
           else s in
  resetDragState s.

(** ** Switching, templates and saving *)

Definition buildVisualJson (s : Editor) : jsstr + jsstr :=
  match ed_visualMode s with
  | Legacy =>
      let trimmed := trim (ed_legacyValue s) in
      if negb (nonempty trimmed) then inr []
      else match json_parse trimmed with
           | None => inl (t (js "Parameter override must be valid JSON format") None)
           | Some (VObj fs) => inr (stringify2 (VObj fs))
           | Some _ => inl (t (js "Legacy format must be a JSON object") None)
           end
  | Operations => buildOperationsJson t typeError (ed_operations s) true
  end.

Definition switchToJsonMode (s : Editor) : Editor :=
  match ed_editMode s with
  | Json => s
  | Visual =>
      match buildVisualJson s with
      | inr text => set_forms Json (ed_visualMode s) (ed_legacyValue s) (ed_operations s) text [] s
      | inl e =>
          let text := match ed_visualMode s with
                      | Legacy => ed_legacyValue s
                      | Operations => match buildOperationsJson t typeError (ed_operations s) false with
                                      | inr text => text | inl _ => ed_jsonText s end
                      end in
          set_forms Json (ed_visualMode s) (ed_legacyValue s) (ed_operations s) text
            (str_or e (t (js "Parameter configuration error") None)) (toast e s)
      end
  end.

Definition show_default (visualMode : VisualMode) (legacyValue : jsstr) (s : Editor) : Editor :=
  with_fresh (createDefaultOperation clock) (fun o s =>
    setSelected (o_id o) (set_forms Visual visualMode legacyValue [o] (ed_jsonText s) [] s)) id s.

Definition switchToVisualMode (s : Editor) : Editor :=
  match ed_editMode s with
  | Visual => s
  | Json =>
      let trimmed := trim (ed_jsonText s) in
      if negb (nonempty trimmed) then show_default Operations [] s
      else match json_parse trimmed with
           | None => toast (t (js "Parameter override must be valid JSON format") None) s
           | Some parsed =>
               match parsed, get_prop parsed (js "operations") with
               | VObj _, VArr l =>
                   with_fresh (load_operations clock l) (fun ops s =>
                     setTemplatePresetKey (js "operations_default")
                       (setSelected (first_id ops)
                          (set_forms Visual Operations [] ops (ed_jsonText s) [] s))) id s
               | VObj _, _ =>
                   setTemplatePresetKey (js "legacy_default") (show_default Legacy (stringify2 parsed) s)
               | _, _ => toast (t (js "Parameter override must be a valid JSON object") None) s
               end
           end
  end.

Definition preset_of (key : jsstr) : TemplatePresetConfig :=
  match map_get key TEMPLATE_PRESET_CONFIG with
  | Some p => p
  | None => mkPreset (js "New Format Template") false OPERATION_TEMPLATE
  end.

Definition fill_legacy (text : jsstr) (s : Editor) : Editor :=
  with_fresh (createDefaultOperation clock) (fun o s => set_forms Visual Legacy text [o] text [] s) id s.

Definition fillTemplate (append : bool) (s : Editor) : Editor :=
  let preset := preset_of (ed_preset s) in
  let payload := tp_payload preset in
  if tp_legacy preset then
    match append, ed_visualMode s with
    | true, Legacy =>
        let trimmed := trim (ed_legacyValue s) in
        let merge current := fill_legacy (stringify2 (VObj (fold_left
          (fun fs f => obj_set f.1 f.2 fs) (spread current) (spread payload)))) s in
        if negb (nonempty trimmed) then merge (VObj [])
        else match json_parse trimmed with
             | None => toast (t (js "Current legacy JSON is invalid, cannot append") None) s
             | Some current => merge current
             end
    | _, _ => fill_legacy (stringify2 payload) s
    end
  else
    let operationsPayload := match get_prop payload (js "operations") with VArr l => l | _ => [] end in
    if append then
      with_fresh (map_fresh (normalizeOperation clock) operationsPayload) (fun appended s =>
        let existing := match ed_visualMode s with
                        | Operations => List.filter (fun o => negb (isOperationBlank o)) (ed_operations s)
                        | Legacy => [] end in
        let nextOps := existing ++ appended in
        setSelected (str_or (first_id nextOps) (first_id appended))
          (set_forms Visual Operations [] (if nonempty nextOps then nextOps else appended) [] [] s)) id s
    else
      with_fresh (load_operations clock operationsPayload) (fun ops s =>
        setSelected (first_id ops)
          (set_forms Visual Operations (ed_legacyValue s) ops
             (stringify2 (VObj [(js "operations", VArr operationsPayload)])) [] s)) id s.

Definition resetEditorState (s : Editor) : Editor :=
  with_fresh (createDefaultOperation clock) (fun o s =>
    setTemplatePresetKey (js "operations_default")
      (setSelected (o_id o) (set_forms Visual Operations [] [o] [] [] s))) id s.

Definition handleJsonChange (text : jsstr) (s : Editor) : Editor :=
  let trimmed := trim text in
  setJson text (if negb (nonempty trimmed) || verifyJSON trimmed then [] else t (js "JSON format error") None) s.

Definition formatJson (s : Editor) : Editor :=
  let trimmed := trim (ed_jsonText s) in
  if negb (nonempty trimmed) then s
  else match json_parse trimmed with
       | None => toast (t (js "Parameter override must be valid JSON format") None) s
       | Some v => setJson (stringify2 v) [] s
       end.

Definition visualValidationError (s : Editor) : jsstr :=
  match ed_editMode s with
  | Json => []
  | Visual => match buildVisualJson s with
              | inr _ => [] | inl e => str_or e (t (js "Parameter configuration error") None) end
  end.

(** The text to save, or the message of the error. *)
Definition save_result (s : Editor) : jsstr + jsstr :=
  match ed_editMode s with
  | Json =>
      let trimmed := trim (ed_jsonText s) in
      if negb (nonempty trimmed) then inr []
      else match json_parse trimmed with
           | None => inl (t (js "Parameter override must be valid JSON format") None)
           | Some v => inr (stringify2 v)
           end
  | Visual => buildVisualJson s
  end.

Definition handleSave (s : Editor) : Editor :=
  match save_result s with
  | inl e => toast e s
  | inr text => set_outside (ed_seed s) false (ed_saved s ++ [text]) (ed_toasts s) (ed_crashed s) s
  end.

(** ** The machine *)

Inductive Event :=
| Open (text : jsstr) | Close | Settle | Render (changed : bool)
| UpdateOperation (x : jsstr) (p : OperationPatch) | AddOperation
| DuplicateOperation (x : jsstr) (eager : bool) | RemoveOperation (x : jsstr)
| AddCondition (x : jsstr) | UpdateCondition (x c : jsstr) (p : ConditionPatch)
| RemoveCondition (x c : jsstr) | ToggleCondition (c : jsstr) (b : bool) | ExpandAll (b : bool)
| UpdateReturnError (x : jsstr) (p : ReturnErrorPatch) | UpdatePrune (x : jsstr) (p : PrunePatch)
| AddPruneRule (x : jsstr) | UpdatePruneRule (x r : jsstr) (p : ConditionPatch)
| RemovePruneRule (x r : jsstr)
| SelectOperation (x : jsstr) | Search (text : jsstr)
| DragStart (x : jsstr) | DragOver (x : jsstr) (pos : DropPosition) | Drop (x data : jsstr) | DragEnd
| SwitchToJson | SwitchToVisual | SelectPreset (key : jsstr) | FillTemplate (append : bool) | ResetEditor
| LegacyChange (text : jsstr) | JsonChange (text : jsstr) | FormatJson | Save.

Definition step (s : Editor) (e : Event) : Editor :=
  if ed_crashed s then s
  else match e with
  | Open text => open_dialog text s
  | Close => set_outside (ed_seed s) false (ed_saved s) (ed_toasts s) false s
  | Settle => settle_selection s
  | Render changed => render changed s
  | UpdateOperation x p => updateOperation x p s
  | AddOperation => addOperation s
  | DuplicateOperation x eager => duplicateOperation x eager s
  | RemoveOperation x => removeOperation x s
  | AddCondition x => addCondition x s
  | UpdateCondition x c p => updateCondition x c p s
  | RemoveCondition x c => removeCondition x c s
  | ToggleCondition c b => setExpanded (map_set c b (ed_expanded s)) s
  | ExpandAll b => expand_conditions b s
  | UpdateReturnError x p => updateReturnErrorDraft x p s
  | UpdatePrune x p => updatePruneObjectsDraft x p s
  | AddPruneRule x => addPruneRule x s
  | UpdatePruneRule x r p => updatePruneRule x r p s
  | RemovePruneRule x r => removePruneRule x r s
  | SelectOperation x => setSelected x s
  | Search text => set_view text (ed_selected s) (ed_expanded s) (ed_preset s) s
  | DragStart x => handleDragStart x s
  | DragOver x pos => handleDragOver x pos s
  | Drop x data => handleDrop x data s
  | DragEnd => resetDragState s
  | SwitchToJson => switchToJsonMode s
  | SwitchToVisual => switchToVisualMode s
  | SelectPreset key => setTemplatePresetKey (str_or key (js "operations_default")) s
  | FillTemplate append => fillTemplate append s
  | ResetEditor => resetEditorState s
  | LegacyChange text =>
      set_forms (ed_editMode s) (ed_visualMode s) text (ed_operations s) (ed_jsonText s) (ed_jsonError s) s
  | JsonChange text => handleJsonChange text s
  | FormatJson => formatJson s
  | Save => handleSave s
  end.

(** The first render. *)
Definition initial_editor (n : N) : Editor :=
  with_fresh (createDefaultOperation clock) (fun o s => setOperations [o] s) crash
    (mkEditor Visual Operations [] [] [] [] [] [] [] [] [] Before (js "operations_default") n false [] []
       false).

Inductive reachable : Editor -> Prop :=
| reach_start n : reachable (initial_editor n)
| reach_step s e : reachable s -> reachable (step s e).
End Dialog.
