(* ===== verification/ParamOverrideFacts.v ===== *)
(** * Theorems on parameter overrides: texts, validation, round trips

    What the editor writes it reads back: the values of the text fields, the
    drafts of the special modes, and whole rule lists, whose second save
    writes the same text.  The validation accepts exactly the rules that have
    what their mode needs. *)

From S2P Require Import Prelude JsNumber JsValue JsPretty ParamOverride.

(** ** Printed values have no white space at either end *)

Lemma not_space_digit c : is_digit c = true -> is_space c = false.
Proof.
  intros H%is_digit_bounds. unfold is_space. cbn [existsb].
  repeat (rewrite (proj2 (N.eqb_neq _ _)); [|lia]). cbn [orb].
  by rewrite (proj2 (N.leb_gt _ _)) by lia.
Qed.

Definition no_space (s : jsstr) : bool := forallb (fun c => negb (is_space c)) s.

Lemma no_space_app a b : no_space (a ++ b) = no_space a && no_space b.
Proof. apply forallb_app. Qed.
Lemma no_space_digits s : forallb is_digit s = true -> no_space s = true.
Proof. apply forallb_impl. intros c H. by rewrite not_space_digit. Qed.
Lemma no_space_dec n : no_space (dec_of_N n) = true.
Proof. apply no_space_digits, dec_of_N_digits. Qed.
Lemma no_space_sublist a s : sublist a s -> no_space s = true -> no_space a = true.
Proof.
  intros Hs. unfold no_space. rewrite !forallb_Forall_true. intros H.
  apply Forall_forall. intros c Hc. rewrite Forall_forall in H. apply H. by eapply elem_of_sublist.
Qed.
Lemma no_space_zeros k : no_space (zeros k) = true.
Proof. unfold zeros. by induction k. Qed.
Lemma no_space_cons c s : no_space (c :: s) = negb (is_space c) && no_space s.
Proof. done. Qed.

Lemma no_space_layout ds n : no_space ds = true -> no_space (layout_digits ds n) = true.
Proof.
  intros H. unfold layout_digits.
  assert (Ht : forall k, no_space (take k ds) = true)
    by (intros k; eapply no_space_sublist; [apply sublist_take|done]).
  assert (Hd : forall k, no_space (drop k ds) = true)
    by (intros k; eapply no_space_sublist; [apply sublist_drop|done]).
  repeat (rewrite ?no_space_app, ?no_space_dec, ?no_space_zeros, ?Ht, ?Hd, ?H; try done; split_match);
    subst; rewrite ?no_space_cons, ?no_space_app, ?no_space_dec in *; bool_prop;
    repeat (rewrite no_space_cons || match goal with H : @eq bool _ _ |- _ => rewrite H end); done.
Qed.

Lemma no_space_number x : no_space (num_to_string x) = true.
Proof.
  assert (Hp : forall m e, no_space (pos_num_to_string m e) = true).
  { intros m e. unfold pos_num_to_string. destruct (shortest_digits _ _ _ _ _ _) as [d q].
    apply no_space_layout, no_space_dec. }
  destruct x as [s|s| |s m e]; [done|by destruct s|done|].
  unfold num_to_string. rewrite no_space_app.
  assert (no_space (if s then js "-" else []) = true) as -> by (by destruct s).
  cbn [andb]. destruct (num_to_Z _) as [z|]; [|apply Hp]. destruct (_ <=? _)%Z; [apply no_space_dec|apply Hp].
Qed.

Lemma trimmed_no_space s : no_space s = true -> trimmed s.
Proof. intros H. rewrite <- (trim_no_space s H). apply trim_trimmed. Qed.

Lemma trimmed_stringify v : json_ok v -> trimmed (stringify v).
Proof.
  intros H. destruct H as [|b|x [Hf Hx]|s|l _|fs _ Hf].
  - by apply trimmed_no_space.
  - destruct b; by apply trimmed_no_space.
  - cbn [stringify]. rewrite Hf. apply trimmed_no_space, no_space_number.
  - by apply trimmed_wrap.
  - by apply trimmed_wrap.
  - rewrite stringify_obj by done. by apply trimmed_wrap.
Qed.

(** ** Values and their texts *)

(** The texts whose value is written and read back unchanged: nothing, a JSON
    value that is no string, or a string that does not look like JSON. *)
Definition plain (s : jsstr) : Prop := trimmed s /\ json_parse s = None.
Definition stable_value (v : value) : Prop := json_ok v /\ forall s, v = VStr s -> plain s.
Definition stable_text (text : jsstr) : Prop :=
  stable_value (parseLooseValue text) /\ (trim text = [] \/ parseLooseValue text <> VStr []).

Lemma parseLooseValue_trim s : parseLooseValue (trim s) = parseLooseValue s.
Proof. unfold parseLooseValue. by rewrite trim_idemp. Qed.

Lemma toValueText_plain v :
  stable_value v ->
  trimmed (toValueText v)
  /\ json_parse (toValueText v) = match v with VStr _ => None | _ => Some v end.
Proof.
  intros [Hok Hs].
  destruct Hok; try (split; [apply trimmed_stringify|apply json_roundtrip]; by constructor).
  destruct (Hs s eq_refl). done.
Qed.

(** A value shown in a text field and read again is the same value. *)
Lemma loose_roundtrip v : stable_value v -> parseLooseValue (toValueText v) = v.
Proof.
  intros H. destruct (toValueText_plain v H) as [Ht Hp]. unfold parseLooseValue. rewrite trim_id by done.
  rewrite Hp. destruct (toValueText v) as [|c r] eqn:E;
    [|destruct v; try done; cbn [toValueText] in E; by subst].
  destruct H as [Hok _]. destruct Hok as [|[]|x Hx|s|l|fs]; try done.
  cbn [toValueText] in E. by subst.
Qed.

Lemma loose_stringify v : json_ok v -> parseLooseValue (stringify v) = v.
Proof.
  intros H. unfold parseLooseValue. rewrite trim_id, json_roundtrip by auto using trimmed_stringify.
  by destruct (stringify_head v H) as (c & r & -> & _).
Qed.

Lemma toValueText_empty v : stable_value v -> toValueText v = [] -> v = VStr [].
Proof.
  intros H E. pose proof (loose_roundtrip v H) as Hl. by rewrite E in Hl.
Qed.

(** ** Names of modes *)

Lemma mode_roundtrip m : mode_of_value OPERATION_MODE_OPTIONS MSet (VStr (mode_name m)) = m.
Proof. by destruct m. Qed.
Lemma condition_mode_roundtrip m :
  mode_of_value CONDITION_MODE_OPTIONS CFull (VStr (condition_mode_name m)) = m.
Proof. by destruct m. Qed.
Lemma logic_roundtrip l :
  upper_is (VStr (logic_name l)) (js "OR") (js "AND") = Some (bool_decide (l = LAnd)).
Proof. by destruct l. Qed.

(** ** Fields of the stored rules *)

Lemma get_set_if b k v p k' :
  get_prop (VObj (set_if b k v p)) k' = if b && bool_decide (k' = k) then v else get_prop (VObj p) k'.
Proof.
  unfold set_if. destruct b; [|done]. cbn [get_prop andb]. rewrite assoc_obj_set.
  destruct (decide (k' = k)); [by rewrite bool_decide_eq_true_2|by rewrite bool_decide_eq_false_2].
Qed.

Lemma get_set_if_eq b k v p :
  get_prop (VObj (set_if b k v p)) k = if b then v else get_prop (VObj p) k.
Proof. rewrite get_set_if. by rewrite bool_decide_eq_true_2, andb_true_r. Qed.
Lemma get_set_if_ne b k v p k' :
  k' <> k -> get_prop (VObj (set_if b k v p)) k' = get_prop (VObj p) k'.
Proof. intros H. rewrite get_set_if. by rewrite bool_decide_eq_false_2, andb_false_r. Qed.

(** Read a property of an object built by conditional settings. *)
Ltac read_fields :=
  repeat first [rewrite get_set_if_eq | rewrite get_set_if_ne by (vm_compute; discriminate)].

(** What a stored rule holds. *)
Definition stored_conditions (o : ParamOverrideOperation) : list value :=
  omap buildConditionPayload (o_conditions o).
Definition stored_path (o : ParamOverrideOperation) : jsstr :=
  if mm_path (MODE_META (o_mode o)) || mm_pathOptional (MODE_META (o_mode o)) then trim (o_path o) else [].
Definition stored_from (o : ParamOverrideOperation) : jsstr :=
  if mm_from (MODE_META (o_mode o)) then
    if mm_pathAlias (MODE_META (o_mode o)) then str_or (trim (o_from o)) (trim (o_path o))
    else trim (o_from o)
  else [].
Definition stored_to (o : ParamOverrideOperation) : jsstr :=
  if mm_pathAlias (MODE_META (o_mode o)) then str_or (trim (o_to o)) (trim (o_path o)) else trim (o_to o).
Definition stored_value (o : ParamOverrideOperation) : jsstr :=
  if mm_value (MODE_META (o_mode o)) then toValueText (parseLooseValue (o_value_text o)) else [].

Lemma payload_fields o :
  text_field (operation_payload o) (js "description") = trim (o_description o)
  /\ text_field (operation_payload o) (js "path") = stored_path o
  /\ text_field (operation_payload o) (js "from") = stored_from o
  /\ text_field (operation_payload o) (js "to") = stored_to o.
Proof.
  unfold operation_payload, text_field, stored_path, stored_from, stored_to. read_fields.
  destruct (trim (o_description o)), (trim (o_path o)), (trim (o_from o)), (trim (o_to o)), (o_mode o);
    done.
Qed.
Lemma payload_mode o : get_prop (operation_payload o) (js "mode") = VStr (mode_name (o_mode o)).
Proof. unfold operation_payload. by read_fields. Qed.
Lemma payload_value o :
  toValueText (get_prop (operation_payload o) (js "value")) = stored_value o.
Proof. unfold operation_payload, stored_value. read_fields. by destruct (mm_value _). Qed.
Lemma payload_keep_origin o :
  true_field (operation_payload o) (js "keep_origin")
  = mm_keepOrigin (MODE_META (o_mode o)) && o_keep_origin o.
Proof. unfold operation_payload, true_field. read_fields. by destruct (_ && _). Qed.
Lemma payload_conditions o :
  get_prop (operation_payload o) (js "conditions")
  = if nonempty (stored_conditions o) then VArr (stored_conditions o) else VUndefined.
Proof. unfold operation_payload. by read_fields. Qed.
Lemma payload_logic o :
  get_prop (operation_payload o) (js "logic")
  = if nonempty (stored_conditions o) then VStr (logic_name (o_logic o)) else VUndefined.
Proof. unfold operation_payload. by read_fields. Qed.

(** ** The stored text is readable *)

Definition named_obj (p : list (jsstr * value)) : Prop :=
  NoDup (keys p) /\ Forall (fun k => array_index k = None) (keys p) /\ Forall (fun f => json_ok f.2) p.

Lemma named_obj_ok p : named_obj p -> json_ok (VObj p).
Proof. intros (Hn & Hi & Hf). constructor; [by apply obj_canon_named|done]. Qed.

Lemma named_set_if b k v p :
  array_index k = None -> json_ok v -> named_obj p -> named_obj (set_if b k v p).
Proof.
  intros Hk Hv (Hn & Hi & Hf). unfold set_if. destruct b; [|done]. unfold named_obj.
  rewrite keys_obj_set by done. split_and!; [by apply NoDup_set_add| |].
  - apply Forall_forall. intros x [Hx| ->]%elem_of_set_add; [by eapply Forall_forall in Hi|done].
  - unfold obj_set. destruct (assoc k p).
    + clear Hn Hi. induction Hf as [|f p Hf _ IH]; constructor; [by case_decide|done].
    + rewrite obj_create_named by done. apply Forall_app. by repeat constructor.
Qed.

Definition stable_condition (c : ParamOverrideCondition) : Prop := stable_text (c_value_text c).
Definition stable_operation (o : ParamOverrideOperation) : Prop :=
  stable_text (o_value_text o) /\ Forall stable_condition (o_conditions o).

Lemma stable_value_text s : stable_text s -> stable_value (parseLooseValue s).
Proof. by intros [? _]. Qed.
Lemma stable_json_ok s : stable_text s -> json_ok (parseLooseValue s).
Proof. by intros [[? _] _]. Qed.
#[local] Hint Resolve stable_value_text stable_json_ok : core.

Lemma condition_payload_ok c v : stable_condition c -> buildConditionPayload c = Some v -> json_ok v.
Proof.
  intros Hc. unfold buildConditionPayload. destruct (negb _); [done|]. intros [= <-].
  apply named_obj_ok. unfold named_obj.
  destruct (c_invert c), (c_pass_missing_key c); cbn [app keys fmap list_fmap fst];
    (split_and!; [by apply (bool_decide_unpack _); vm_compute|
                  by apply (bool_decide_unpack _); vm_compute|repeat constructor; by apply stable_json_ok]).
Qed.

Lemma operation_payload_ok o : stable_operation o -> json_ok (operation_payload o).
Proof.
  intros [Hv Hc]. apply named_obj_ok. unfold operation_payload.
  repeat (apply named_set_if; [vm_compute; reflexivity| |]); try (by constructor); try by apply stable_json_ok.
  - constructor. apply Forall_forall. intros v (c & Hin & E)%list_elem_of_omap.
    eapply condition_payload_ok; [|exact E]. by eapply Forall_forall in Hc.
  - split_and!; [apply NoDup_singleton|by repeat constructor|by repeat constructor].
Qed.

(** ** Reading rules *)

(** The computation returns, with a result that satisfies [P]. *)
Definition runs_to {A} (m : Fresh A) (P : A -> Prop) : Prop :=
  forall n, exists a n', m n = (Some a, n') /\ P a.

Lemma runs_ret {A} (a : A) (P : A -> Prop) : P a -> runs_to (mret a) P.
Proof. intros H n. by exists a, n. Qed.

Lemma runs_bind {A B} (m : Fresh A) (f : A -> Fresh B) P Q :
  runs_to m P -> (forall a, P a -> runs_to (f a) Q) -> runs_to (m ≫= f) Q.
Proof.
  intros Hm Hf n. destruct (Hm n) as (a & n' & E & Ha). destruct (Hf a Ha n') as (b & n'' & E' & Hb).
  exists b, n''. split; [|done]. unfold mbind, fresh_bind. by rewrite E.
Qed.

Lemma runs_map {A B} (f : A -> Fresh B) (R : A -> B -> Prop) l :
  (forall x, x ∈ l -> runs_to (f x) (R x)) -> runs_to (map_fresh f l) (Forall2 R l).
Proof.
  induction l as [|x l IH]; intros H; cbn [map_fresh]; [by apply runs_ret|].
  apply (runs_bind _ _ (R x)); [apply H, list_elem_of_here|]. intros y Hy.
  apply (runs_bind _ _ (Forall2 R l)); [apply IH; intros z Hz; by apply H, list_elem_of_further|].
  intros ys Hys. apply runs_ret. by constructor.
Qed.

(** Rules and conditions without their ids. *)
Definition erase_condition (c : ParamOverrideCondition) : ParamOverrideCondition :=
  mkCondition [] (c_path c) (c_mode c) (c_value_text c) (c_invert c) (c_pass_missing_key c).
Definition erase_operation (o : ParamOverrideOperation) : ParamOverrideOperation :=
  mkOperation [] (o_description o) (o_path o) (o_mode o) (o_from o) (o_to o) (o_value_text o)
    (o_keep_origin o) (o_logic o) (List.map erase_condition (o_conditions o)).

(** The rule a saved rule is shown as when it is opened again. *)
Definition canon_condition (c : ParamOverrideCondition) : ParamOverrideCondition :=
  mkCondition [] (trim (c_path c)) (c_mode c) (toValueText (parseLooseValue (c_value_text c)))
    (c_invert c) (c_pass_missing_key c).
Definition canon_conditions (o : ParamOverrideOperation) : list ParamOverrideCondition :=
  List.map canon_condition (List.filter (fun c => nonempty (trim (c_path c))) (o_conditions o)).
Definition canon_operation (o : ParamOverrideOperation) : ParamOverrideOperation :=
  mkOperation [] (trim (o_description o)) (stored_path o) (o_mode o) (stored_from o) (stored_to o)
    (stored_value o) (mm_keepOrigin (MODE_META (o_mode o)) && o_keep_origin o)
    (if nonempty (canon_conditions o) then o_logic o else LOr) (canon_conditions o).

Section Reading.
Context (clock : N -> N).

Lemma runs_nextLocalId : runs_to (nextLocalId clock) (fun _ => True).
Proof. intros n. by eexists _, _. Qed.
Lemma runs_lift {A} (a : A) P : P a -> runs_to (lift (Some a)) P.
Proof. intros H n. by exists a, n. Qed.

Lemma condition_payload_reads c v :
  buildConditionPayload c = Some v ->
  runs_to (normalizeCondition clock v) (fun c' => erase_condition c' = canon_condition c).
Proof.
  unfold buildConditionPayload. destruct (negb _); [done|]. intros [= <-]. unfold normalizeCondition.
  apply (runs_bind _ _ _ _ runs_nextLocalId). intros i _.
  apply (runs_bind _ _ (fun _ => True)); [by apply runs_lift|]. intros _ _. apply runs_ret.
  unfold erase_condition, canon_condition.
  destruct c as [i' p m x [] []], m; reflexivity.
Qed.

Lemma stored_conditions_canon o :
  Forall2 (fun c v => buildConditionPayload c = Some v)
    (List.filter (fun c => nonempty (trim (c_path c))) (o_conditions o)) (stored_conditions o).
Proof.
  unfold stored_conditions. induction (o_conditions o) as [|c cs IH]; [constructor|].
  cbn [List.filter omap list_omap]. unfold buildConditionPayload at 2.
  destruct (nonempty (trim (c_path c))) eqn:E; cbn [negb]; [|done].
  constructor; [|done]. unfold buildConditionPayload. by rewrite E.
Qed.

Lemma stored_conditions_read o :
  runs_to (map_fresh (normalizeCondition clock) (stored_conditions o))
    (fun cs => List.map erase_condition cs = canon_conditions o).
Proof.
  intros n. pose proof (stored_conditions_canon o) as Hf. unfold canon_conditions.
  revert n. induction Hf as [|c v cs vs Hc _ IH]; [by apply runs_ret|]. cbn [map_fresh].
  apply (runs_bind _ _ _ _ (condition_payload_reads c v Hc)). intros c' Hc'.
  apply (runs_bind _ _ _ _ IH). intros cs' Hcs'. apply runs_ret. cbn [List.map]. by rewrite Hc', Hcs'.
Qed.

Lemma stored_conditions_nonempty o : nonempty (stored_conditions o) = nonempty (canon_conditions o).
Proof. unfold canon_conditions. by destruct (stored_conditions_canon o). Qed.

Lemma operation_payload_reads o :
  runs_to (normalizeOperation clock (operation_payload o))
    (fun o' => erase_operation o' = canon_operation o).
Proof.
  unfold normalizeOperation. apply (runs_bind _ _ _ _ runs_nextLocalId). intros i _.
  apply (runs_bind _ _ (fun _ => True)); [by apply runs_lift|]. intros _ _.
  rewrite payload_logic, payload_conditions, stored_conditions_nonempty.
  apply (runs_bind _ _ (fun b : bool => (if b then LAnd else LOr)
                                 = if nonempty (canon_conditions o) then o_logic o else LOr)).
  { destruct (nonempty _); [rewrite logic_roundtrip|]; apply runs_lift; by destruct (o_logic o). }
  intros b Hb.
  apply (runs_bind _ _ (fun cs => List.map erase_condition cs = canon_conditions o)).
  { pose proof (stored_conditions_read o). pose proof (stored_conditions_nonempty o) as Hn.
    destruct (nonempty (canon_conditions o)) eqn:E; [done|]. apply runs_ret.
    by destruct (canon_conditions o). }
  intros cs Hcs. apply runs_ret. destruct (payload_fields o) as (Hd & Hp & Hf & Ht).
  unfold erase_operation, canon_operation.
  cbn [o_description o_path o_mode o_from o_to o_value_text o_keep_origin o_logic o_conditions].
  by rewrite Hd, Hp, Hf, Ht, payload_mode, mode_roundtrip, payload_value, payload_keep_origin, Hb, Hcs.
Qed.
End Reading.

(** ** Saving again *)

Lemma omap_payload_erase cs :
  omap buildConditionPayload (List.map erase_condition cs) = omap buildConditionPayload cs.
Proof.
  induction cs as [|c cs IH]; [done|]. cbn [List.map omap list_omap]. rewrite IH.
  by change (buildConditionPayload (erase_condition c)) with (buildConditionPayload c).
Qed.

Lemma payload_erase o : operation_payload (erase_operation o) = operation_payload o.
Proof.
  unfold operation_payload, erase_operation.
  cbn [o_description o_path o_mode o_from o_to o_value_text o_keep_origin o_logic o_conditions].
  by rewrite omap_payload_erase.
Qed.

Lemma condition_payload_canon c :
  stable_condition c -> nonempty (trim (c_path c)) = true ->
  buildConditionPayload (canon_condition c) = buildConditionPayload c.
Proof.
  intros Hc Hp. unfold buildConditionPayload, canon_condition.
  cbn [c_path c_mode c_value_text c_invert c_pass_missing_key].
  by rewrite trim_idemp, Hp, loose_roundtrip by auto.
Qed.

Lemma stored_conditions_stable o :
  Forall stable_condition (o_conditions o) ->
  omap buildConditionPayload (canon_conditions o) = stored_conditions o.
Proof.
  unfold canon_conditions, stored_conditions. intros H. induction H as [|c cs Hc _ IH]; [done|].
  cbn [List.filter omap list_omap]. destruct (nonempty (trim (c_path c))) eqn:E.
  - cbn [List.map omap list_omap]. by rewrite condition_payload_canon, IH by done.
  - rewrite IH. unfold buildConditionPayload at 2. by rewrite E.
Qed.

Lemma stored_value_stable o :
  stable_text (o_value_text o) ->
  mm_value (MODE_META (o_mode o)) = true ->
  parseLooseValue (stored_value o) = parseLooseValue (o_value_text o).
Proof. intros H E. unfold stored_value. rewrite E. apply loose_roundtrip. auto. Qed.

Lemma trim_str_or a b : trim (str_or (trim a) (trim b)) = str_or (trim a) (trim b).
Proof. unfold str_or. destruct (nonempty (trim a)); apply trim_idemp. Qed.

Lemma set_if_logic (cs : list value) l k p :
  set_if (nonempty cs) k (VStr (logic_name (if nonempty cs then l else LOr))) p
  = set_if (nonempty cs) k (VStr (logic_name l)) p.
Proof. by destruct cs. Qed.

Lemma payload_canon o : stable_operation o -> operation_payload (canon_operation o) = operation_payload o.
Proof.
  intros [Hv Hc]. unfold operation_payload, canon_operation.
  cbn [o_description o_path o_mode o_from o_to o_value_text o_keep_origin o_logic o_conditions].
  rewrite stored_conditions_stable by done. fold (stored_conditions o).
  rewrite <- stored_conditions_nonempty, !set_if_logic. do 3 f_equal.
  pose proof (stored_value_stable o Hv) as Hs. unfold stored_path, stored_from, stored_to.
  rewrite trim_idemp. generalize (trim (o_description o)). intros d.
  destruct (o_mode o);
    cbn [MODE_META mm_path mm_pathOptional mm_value mm_from mm_to mm_keepOrigin mm_pathAlias orb] in *;
    rewrite ?Hs, ?trim_str_or, ?trim_idemp by done; try reflexivity.
  all: destruct (trim (o_path o)), (trim (o_from o)), (trim (o_to o)), d, (o_keep_origin o); reflexivity.
Qed.

(** ** What a rule needs *)

(** The text is not blank. *)
Definition has (s : jsstr) : Prop := trim s <> [].

Lemma has_spec s : nonempty (trim s) = true <-> has s.
Proof. unfold has. by destruct (trim s). Qed.

Definition rule_ok (o : ParamOverrideOperation) : Prop :=
  match o_mode o with
  | MSet | MDelete | MAppend | MPrepend | MTrimSpace | MToLower | MToUpper | MDeleteHeader =>
      has (o_path o)
  | MTrimPrefix | MTrimSuffix | MEnsurePrefix | MEnsureSuffix | MSetHeader =>
      has (o_path o) /\ has (o_value_text o)
  | MReplace | MRegexReplace => has (o_path o) /\ has (o_from o)
  | MCopy | MMove | MSyncFields => has (o_from o) /\ has (o_to o)
  | MCopyHeader | MMoveHeader =>
      (has (o_from o) \/ has (o_path o)) /\ (has (o_to o) \/ has (o_path o))
  | MPruneObjects => has (o_value_text o)
  | MReturnError =>
      has (o_value_text o)
      /\ forall fs message, json_parse (trim (o_value_text o)) = Some (VObj fs) ->
           to_string (value_or (get_prop (VObj fs) (js "message")) (VStr [])) = Some message ->
           has message
  | MPassHeaders =>
      has (o_value_text o)
      /\ exists name names, parsePassHeaderNames (parseLooseValue (o_value_text o)) = Some (name :: names)
  end.

Lemma lacks_message_spec raw :
  lacks_message raw = false <->
  forall fs message, json_parse raw = Some (VObj fs) ->
    to_string (value_or (get_prop (VObj fs) (js "message")) (VStr [])) = Some message -> has message.
Proof.
  unfold lacks_message. split.
  - intros H fs m E1 E2. rewrite E1, E2 in H. apply has_spec. by destruct (nonempty _).
  - intros H. destruct (json_parse raw) as [[]|]; try done.
    destruct (to_string _) as [m|] eqn:E; [|done]. specialize (H _ _ eq_refl E).
    apply has_spec in H. by rewrite H.
Qed.

Lemma validate_operation_ok o : validate_operation o = Some None <-> rule_ok o.
Proof.
  unfold validate_operation, rule_ok. rewrite parseLooseValue_trim.
  destruct (o_mode o); cbn [MODE_META mm_path mm_pathAlias];
    repeat match goal with |- context [set_has ?l ?m] =>
      let b := eval vm_compute in (set_has l m) in change (set_has l m) with b end;
    cbn [andb orb negb]; rewrite <- ?lacks_message_spec, <- ?has_spec;
    repeat match goal with |- context [nonempty (trim ?x)] => destruct (nonempty (trim x)) end;
    cbn [andb orb negb]; try solve [intuition congruence];
    solve [destruct (lacks_message _); intuition congruence
          |destruct (parsePassHeaderNames _) as [[]|]; naive_solver].
Qed.

Lemma has_nil : ~ has [].
Proof. by intros []. Qed.
Lemma has_trim s : has s -> has (trim s).
Proof. unfold has. by rewrite trim_idemp. Qed.
Lemma has_str_or a b : has a \/ has b -> has (str_or (trim a) (trim b)).
Proof. unfold has. rewrite trim_str_or. unfold str_or. destruct (trim a) eqn:E; naive_solver. Qed.

(** The value of a rule that has one is still there when it is read back. *)
Lemma stable_has text :
  stable_text text -> has text -> has (toValueText (parseLooseValue text)).
Proof.
  intros [Hs [?|Hne]] Ht; [by unfold has in Ht|]. destruct (toValueText_plain _ Hs) as [Htr _].
  unfold has. rewrite trim_id by done. intros E. by apply Hne, toValueText_empty.
Qed.

(** A stable text and the text it is read back as stand for the same JSON, or
    for a string that is no JSON. *)
Lemma stable_json text fs :
  stable_text text ->
  json_parse (trim (toValueText (parseLooseValue text))) = Some (VObj fs) ->
  json_parse (trim text) = Some (VObj fs).
Proof.
  intros [Hs _]. destruct (toValueText_plain _ Hs) as [Htr Hp]. rewrite trim_id, Hp by done.
  unfold parseLooseValue. destruct (negb _); [done|].
  destruct (json_parse (trim text)) as [[]|]; try done.
Qed.

Lemma rule_ok_canon o : stable_operation o -> rule_ok o -> rule_ok (canon_operation o).
Proof.
  intros [Hv _] H. pose proof (stable_has _ Hv) as Hh. unfold rule_ok, canon_operation in *.
  cbn [o_path o_mode o_from o_to o_value_text].
  unfold stored_path, stored_from, stored_to, stored_value.
  destruct (o_mode o);
    cbn [MODE_META mm_path mm_pathOptional mm_value mm_from mm_to mm_keepOrigin mm_pathAlias orb];
    try (intuition auto using has_trim, has_str_or; fail).
  - destruct H as [H1 H2]. split; [auto|]. intros fs m E. apply H2. by apply stable_json.
  - destruct H as [H1 (h & hs & E)]. split; [auto|]. exists h, hs. by rewrite loose_roundtrip by auto.
Qed.

Lemma rule_ok_not_blank o : rule_ok o -> isOperationBlank o = false.
Proof.
  unfold rule_ok, isOperationBlank. destruct (decide (o_mode o = MSet)) as [E|E].
  - rewrite E. intros H%has_spec. by rewrite H, ?andb_false_r.
  - by rewrite (bool_decide_eq_false_2 _ E).
Qed.

Lemma rule_ok_erase o : rule_ok (erase_operation o) <-> rule_ok o.
Proof. done. Qed.

(** ** The list of rules *)

Section Messages.
Context (t : jsstr -> option nat -> jsstr) (typeError : jsstr).

Lemma validate_from_ok i ops : Forall rule_ok ops -> validate_from t typeError i ops = inr [].
Proof.
  intros H. revert i. induction H as [|o ops Ho _ IH]; intros i; [done|]. cbn [validate_from].
  apply validate_operation_ok in Ho. by rewrite Ho.
Qed.

Lemma validate_from_spec i ops :
  (forall k n, t k n <> []) ->
  match validate_from t typeError i ops with
  | inr [] => Forall rule_ok ops
  | inr message =>
      exists pre o post key, ops = pre ++ o :: post /\ Forall rule_ok pre /\ ~ rule_ok o
        /\ validate_operation o = Some (Some key) /\ message = t key (Some (S (i + length pre)))
  | inl e =>
      e = typeError /\ exists pre o post, ops = pre ++ o :: post /\ Forall rule_ok pre
        /\ validate_operation o = None
  end.
Proof.
  intros Ht. revert i. induction ops as [|o ops IH]; intros i; cbn [validate_from]; [constructor|].
  pose proof (validate_operation_ok o) as Ho. destruct (validate_operation o) as [[key|]|] eqn:E.
  - destruct (t key (Some (S i))) as [|c m] eqn:Em; [by apply Ht in Em|].
    exists [], o, ops, key. split_and!; try done; [|by rewrite Nat.add_0_r]. intros Hr. by apply Ho in Hr.
  - assert (rule_ok o) by (by apply Ho). specialize (IH (S i)).
    destruct (validate_from t typeError (S i) ops) as [e|[|c m]].
    + destruct IH as (-> & pre & o' & post & -> & Hp & Hn). split; [done|].
      exists (o :: pre), o', post. split_and!; try done. by constructor.
    + by constructor.
    + destruct IH as (pre & o' & post & key & -> & Hp & Hn & Hk & Hm).
      exists (o :: pre), o', post, key. split_and!; try done; [by constructor|].
      by rewrite Hm, Nat.add_succ_comm.
  - split; [done|]. by exists [], o, ops.
Qed.

Definition kept (ops : list ParamOverrideOperation) : list ParamOverrideOperation :=
  List.filter (fun o => negb (isOperationBlank o)) ops.
Definition stored_rules (ops : list ParamOverrideOperation) : value :=
  VObj [(js "operations", VArr (List.map operation_payload ops))].

Lemma kept_Forall (P : ParamOverrideOperation -> Prop) ops : Forall P ops -> Forall P (kept ops).
Proof.
  rewrite !Forall_forall. intros H o Ho. apply H. unfold kept in Ho.
  apply list_elem_of_In, filter_In in Ho as [Ho _]. by apply list_elem_of_In.
Qed.

Lemma kept_rule_ok ops : Forall rule_ok ops -> kept ops = ops.
Proof.
  intros H. apply filter_all, forallb_Forall_true. eapply Forall_impl; [done|].
  intros o Ho. by rewrite rule_ok_not_blank.
Qed.

Lemma buildOperationsJson_text ops text :
  (forall k n, t k n <> []) -> kept ops <> [] ->
  buildOperationsJson t typeError ops true = inr text <->
  Forall rule_ok (kept ops) /\ text = stringify2 (stored_rules (kept ops)).
Proof.
  intros Ht Hk. unfold buildOperationsJson. fold (kept ops). destruct (kept ops) as [|o0 os] eqn:E; [done|].
  cbn [nonempty negb]. unfold validateOperations. pose proof (validate_from_spec 0 (o0 :: os) Ht) as Hv.
  split.
  - destruct (validate_from t typeError 0 (o0 :: os)) as [e|[|c m]]; try done. by intros [= <-].
  - intros [Hr ->]. by rewrite validate_from_ok.
Qed.

Lemma stored_rules_ok ops : Forall stable_operation ops -> json_ok (stored_rules ops).
Proof.
  intros H. apply named_obj_ok. split_and!; [apply NoDup_singleton|by repeat constructor|].
  repeat constructor. cbn [snd]. induction H; constructor; [by apply operation_payload_ok|done].
Qed.

Lemma stored_rules_reads clock ops :
  runs_to (map_fresh (normalizeOperation clock) (List.map operation_payload ops))
    (fun ops' => List.map erase_operation ops' = List.map canon_operation ops).
Proof.
  induction ops as [|o ops IH]; [by apply runs_ret|]. cbn [List.map map_fresh].
  apply (runs_bind _ _ _ _ (operation_payload_reads clock o)). intros o' Ho.
  apply (runs_bind _ _ _ _ IH). intros ops' Hops. apply runs_ret. cbn [List.map]. by rewrite Ho, Hops.
Qed.

(** Rules that read back as the canonical rules are saved as the same text. *)
Lemma canon_saved_again ops ops' :
  Forall stable_operation ops -> Forall rule_ok ops ->
  List.map erase_operation ops' = List.map canon_operation ops ->
  Forall rule_ok ops' /\ List.map operation_payload ops' = List.map operation_payload ops.
Proof.
  intros Hs. revert ops'. induction Hs as [|o ops Ho _ IH]; intros [|o' ops'] Hr E; try done.
  apply Forall_cons in Hr as [Hro Hr].
  assert (E1 : erase_operation o' = canon_operation o) 
    by exact (f_equal (fun l => match l with x :: _ => x | [] => canon_operation o end) E).
  assert (E2 : List.map erase_operation ops' = List.map canon_operation ops) 
    by exact (f_equal tail E).
  destruct (IH ops' Hr E2) as [H1 H2]. split.
  - constructor; [|done]. apply (proj1 (rule_ok_erase o')). rewrite E1. by apply rule_ok_canon.
  - cbn [List.map]. by rewrite H2, <- (payload_erase o'), E1, payload_canon.
Qed.

Lemma parseInitialState_stored clock ops n :
  Forall stable_operation ops -> ops <> [] ->
  exists ops' n', parseInitialState clock (stringify2 (stored_rules ops)) n
      = (Some (mkEditorState Visual Operations [] ops' (stringify2 (stored_rules ops)) []), n')
    /\ List.map erase_operation ops' = List.map canon_operation ops.
Proof.
  intros Hs Hne. pose proof (stored_rules_ok ops Hs) as Hok.
  destruct (stored_rules_reads clock ops n) as (ops' & n' & E & Hops). exists ops', n'. split; [|done].
  unfold parseInitialState, stored_rules. destruct (printed_object _ Hok) as (-> & -> & ->).
  cbn [negb get_prop]. unfold load_operations.
  destruct ops as [|o ops]; [done|]. unfold mbind, fresh_bind.
  change (assoc (js "operations") ?l) with (Some (VArr (List.map operation_payload (o :: ops)))).
  cbn [default List.map from_option id] in E |- *. by rewrite E.
Qed.
End Messages.

(** ** The draft of [return_error] *)

Lemma valid_status_Z z :
  safe z ->
  valid_status (num_of_Z z) = num_of_Z (if decide (100 <= z <= 599)%Z then z else 400).
Proof.
  intros Hz. unfold valid_status, is_integer. rewrite num_to_Z_of_Z by done.
  rewrite !num_leb_safe by (done || (unfold safe; lia)).
  destruct (Z.leb_spec 100 z), (Z.leb_spec z 599); case_decide; try lia; try done.
Qed.

(** The object that [buildReturnErrorValueText] prints. *)
Definition return_error_fields (m : jsstr) (status : number) (code ty : jsstr) (skip : bool)
  : list (jsstr * value) :=
  [(js "message", VStr m); (js "status_code", VNum status)]
  ++ (if nonempty code then [(js "code", VStr code)] else [])
  ++ (if nonempty ty then [(js "type", VStr ty)] else [])
  ++ (if skip then [] else [(js "skip_retry", VBool false)]).

Lemma return_error_ok m z code ty skip :
  safe z -> json_ok (VObj (return_error_fields m (num_of_Z z) code ty skip)).
Proof.
  intros Hz%json_num_ok_safe. apply named_obj_ok. unfold named_obj, return_error_fields.
  destruct (nonempty code), (nonempty ty), skip; cbn [app keys fmap list_fmap fst];
    (split_and!; [by apply (bool_decide_unpack _); vm_compute|
                  by apply (bool_decide_unpack _); vm_compute|
                  repeat (constructor; [cbn [snd]; by constructor|]); constructor]).
Qed.

Lemma return_error_get m status code ty skip :
  get_prop (VObj (return_error_fields m status code ty skip)) (js "message") = VStr m
  /\ get_prop (VObj (return_error_fields m status code ty skip)) (js "status_code") = VNum status
  /\ get_prop (VObj (return_error_fields m status code ty skip)) (js "msg") = VUndefined
  /\ value_or (get_prop (VObj (return_error_fields m status code ty skip)) (js "code")) (VStr []) = VStr code
  /\ value_or (get_prop (VObj (return_error_fields m status code ty skip)) (js "type")) (VStr []) = VStr ty
  /\ is_false (get_prop (VObj (return_error_fields m status code ty skip)) (js "skip_retry")) = negb skip.
Proof. destruct code, ty, skip; by split_and!. Qed.

Lemma return_error_reads d z :
  re_simpleMode d = false -> re_statusCode d = num_of_Z z -> safe z ->
  parseReturnErrorDraft (buildReturnErrorValueText d)
  = mkReturnError (trim (re_message d)) (num_of_Z (if decide (100 <= z <= 599)%Z then z else 400))
      (trim (re_code d)) (trim (re_type d)) (re_skipRetry d) false.
Proof.
  intros Hs Hz Hsafe. unfold buildReturnErrorValueText. rewrite Hs, Hz, valid_status_Z by done.
  set (z' := if decide _ then z else 400%Z).
  assert (safe z' /\ (100 <= z' <= 599)%Z) as [Hsz Hr] by (unfold z', safe in *; case_decide; lia).
  fold (return_error_fields (trim (re_message d)) (num_of_Z z') (trim (re_code d)) (trim (re_type d))
          (re_skipRetry d)).
  pose proof (return_error_ok (trim (re_message d)) z' (trim (re_code d)) (trim (re_type d))
                (re_skipRetry d) Hsz) as Hok.
  unfold parseReturnErrorDraft. rewrite trim_id by (by apply trimmed_stringify).
  rewrite json_roundtrip by done.
  destruct (stringify_head _ Hok) as (c & r & -> & _). cbn [nonempty negb].
  destruct (return_error_get (trim (re_message d)) (num_of_Z z') (trim (re_code d)) (trim (re_type d))
              (re_skipRetry d)) as (Em & Es & Eg & Ec & Et & Ek).
  unfold return_error_of. rewrite Em, Es, Eg, Ec, Et, Ek, negb_involutive.
  cbn [is_undefined to_number mbind option_bind to_string].
  assert (value_or (VStr (trim (re_message d))) (value_or VUndefined (VStr []))
          = VStr (trim (re_message d))) as -> by (by destruct (trim (re_message d))).
  cbn [mbind option_bind to_string default from_option id]. rewrite !trim_idemp, valid_status_Z by done.
  by rewrite decide_True.
Qed.

(** ** Theorems *)

(** C8: what the visual editor saves it reads back.  When the rules pass the
    validation and the texts of their values are stable, the saved text is
    empty if every rule is blank; otherwise the text opens in visual mode with
    the rules that were not blank, trimmed, with the fields their mode has,
    a missing end of a header copy filled in from the path, conditions without
    a path dropped, and new ids; and saving these rules passes the validation
    and writes the same text. *)
Theorem override_roundtrip (t : jsstr -> option nat -> jsstr) (typeError : jsstr) (clock : N -> N)
    (ops : list ParamOverrideOperation) (text : jsstr) (n : N)
    (Ht : forall k i, t k i <> []) (Hs : Forall stable_operation ops)
    (Hsave : buildOperationsJson t typeError ops true = inr text) :
  (text = [] /\ kept ops = [])
  \/ exists ops' n',
       parseInitialState clock text n = (Some (mkEditorState Visual Operations [] ops' text []), n')
       /\ List.map erase_operation ops' = List.map canon_operation (kept ops)
       /\ buildOperationsJson t typeError ops' true = inr text.
Proof.
  destruct (decide (kept ops = [])) as [Hk|Hk].
  { left. split; [|done]. revert Hsave. unfold buildOperationsJson. fold (kept ops). rewrite Hk.
    by intros [= <-]. }
  right. apply buildOperationsJson_text in Hsave as [Hr ->]; [|done|done].
  pose proof (kept_Forall _ _ Hs) as Hs'.
  destruct (parseInitialState_stored clock (kept ops) n Hs' Hk) as (ops' & n' & E & Hops).
  exists ops', n'. split_and!; [done..|].
  destruct (canon_saved_again _ _ Hs' Hr Hops) as [Hr' Hp].
  apply buildOperationsJson_text; [done| |]; rewrite (kept_rule_ok ops') by done.
  - intros ->. destruct (kept ops); [done|]. discriminate Hops.
  - split; [done|]. unfold stored_rules. by rewrite Hp.
Qed.

Definition sample_rules : list ParamOverrideOperation :=
  [mkOperation (js "po_1_1") [] [] MSet [] [] [] false LOr [];
   mkOperation (js "po_1_2") (js " Raise ") (js " top_p ") MSet (js "unused") [] (js " 9 ") true LAnd
     [mkCondition (js "po_1_3") (js "model ") CPrefix (js "gpt") false true;
      mkCondition (js "po_1_4") [] CFull (js "lost") false false];
   mkOperation (js "po_1_5") [] (js "X-Id") MCopyHeader [] (js "X-Up") [] false LOr []].

Lemma sample_rules_stable : Forall stable_operation sample_rules.
Proof.
  assert (Hp : forall s, bool_decide (trimmed s) && negb (verifyJSON s) && nonempty s = true -> stable_text s).
  { intros s H. unfold verifyJSON in H. bool_prop. destruct (json_parse s) eqn:E; [done|].
    unfold stable_text, parseLooseValue. rewrite trim_id, E by done. destruct s; [done|]. cbn [nonempty negb].
    split; [|by right]. split; [apply ok_str|]. intros s' [= <-]. by split. }
  assert (H0 : stable_text []).
  { split; [|by left]. split; [constructor|]. intros s [= <-]. by split. }
  assert (H9 : stable_text (js " 9 ")).
  { unfold stable_text.
    assert (parseLooseValue (js " 9 ") = VNum (num_of_Z 9)) as -> by (vm_compute; reflexivity).
    split; [|by right]. split; [|done]. constructor. by apply json_num_ok_safe. }
  unfold sample_rules. repeat apply Forall_cons_2; try apply Forall_nil_2;
    (split; cbn [o_value_text o_conditions]; [assumption|]);
    repeat apply Forall_cons_2; try apply Forall_nil_2; apply Hp; vm_compute; reflexivity.
Qed.

Lemma override_roundtrip_witness :
  exists text, buildOperationsJson (fun k _ => 1%N :: k) [] sample_rules true = inr text
  /\ exists ops' n', parseInitialState (fun _ => 7%N) text 3%N
       = (Some (mkEditorState Visual Operations [] ops' text []), n')
     /\ List.map o_path ops' = [js "top_p"; []] /\ List.map o_from ops' = [[]; js "X-Id"]
     /\ buildOperationsJson (fun k _ => 1%N :: k) [] ops' true = inr text.
Proof.
  assert (E : exists text, buildOperationsJson (fun k _ => 1%N :: k) [] sample_rules true = inr text)
    by (eexists; reflexivity).
  destruct E as [text E]. exists text. split; [exact E|].
  destruct (override_roundtrip (fun k _ => 1%N :: k) [] (fun _ => 7%N) sample_rules text 3%N
              ltac:(discriminate) sample_rules_stable E) as [[_ Hk]|(ops' & n' & H1 & H2 & H3)].
  - discriminate Hk.
  - exists ops', n'. split; [exact H1|].
    destruct ops' as [|a [|b [|c ops']]]; try discriminate H2.
    split_and!; [|..|exact H3]; cbn [List.map].
    + apply (f_equal (List.map o_path)) in H2. exact H2.
    + apply (f_equal (List.map o_from)) in H2. exact H2.
Defined.

(** C32: the validation of a rule list returns the empty message exactly when
    every rule has what its mode needs ([rule_ok]); otherwise it returns the
    message of the first rule that does not, with the number of that rule; it
    throws only for a [pass_headers] list with an item that has no text, and
    not before the first bad rule. *)
Theorem validateOperations_spec (t : jsstr -> option nat -> jsstr) (typeError : jsstr)
    (ops : list ParamOverrideOperation) (Ht : forall k i, t k i <> []) :
  match validateOperations t typeError ops with
  | inr [] => Forall rule_ok ops
  | inr message =>
      exists pre o post key, ops = pre ++ o :: post /\ Forall rule_ok pre /\ ~ rule_ok o
        /\ validate_operation o = Some (Some key) /\ message = t key (Some (S (length pre)))
  | inl e =>
      e = typeError /\ exists pre o post, ops = pre ++ o :: post /\ Forall rule_ok pre
        /\ o_mode o = MPassHeaders /\ parsePassHeaderNames (parseLooseValue (o_value_text o)) = None
  end.
Proof.
  pose proof (validate_from_spec t typeError 0 ops Ht) as H. unfold validateOperations.
  destruct (validate_from t typeError 0 ops) as [e|[|c m]]; [|exact H..].
  destruct H as (He & pre & o & post & E & Hp & Ho). split; [done|]. exists pre, o, post.
  split_and!; [done..| |]; revert Ho; unfold validate_operation; rewrite parseLooseValue_trim;
    repeat (destruct (_ && _); [done|]); destruct (o_mode o); try done;
    by destruct (parsePassHeaderNames _).
Qed.

Lemma validateOperations_spec_witness :
  (forall (k : jsstr) (i : option nat), 1%N :: k <> [])
  /\ Forall rule_ok (List.tl sample_rules).
Proof.
  split; [discriminate|].
  pose proof (validateOperations_spec (fun k _ => 1%N :: k) [] (List.tl sample_rules)
                ltac:(discriminate)) as H.
  change (validateOperations (fun k _ => 1%N :: k) [] (List.tl sample_rules)) with (@inr jsstr jsstr []) in H.
  exact H.
Defined.

(** The text of one [set] rule. *)
Definition set_rule_text (path : jsstr) (v : value) : jsstr :=
  stringify2 (VObj [(js "operations", VArr [VObj [(js "mode", VStr (js "set")); (js "path", VStr path);
                                                  (js "value", v)]])]).

Lemma set_rule_ok path v : json_ok v -> json_ok (VObj [(js "operations",
  VArr [VObj [(js "mode", VStr (js "set")); (js "path", VStr path); (js "value", v)]])]).
Proof.
  intros Hv. apply named_obj_ok. split_and!; [apply NoDup_singleton|by repeat constructor|].
  constructor; [|constructor]. cbn [snd]. constructor. constructor; [|constructor]. apply named_obj_ok.
  split_and!; [by apply (bool_decide_unpack _); vm_compute|by apply (bool_decide_unpack _); vm_compute|].
  repeat (constructor; [cbn [snd]; done || by constructor|]). constructor.
Qed.

(** A string value that is itself the text of a JSON value does not survive
    an unchanged save: a rule that sets a field to the string of [v] (to
    ["1"], say, or ["true"]) opens in the editor as the text of [v] and is
    saved as a rule that sets the field to [v]. *)
Theorem string_value_retyped (t : jsstr -> option nat -> jsstr) (typeError : jsstr) (clock : N -> N)
    (path : jsstr) (v : value) (n : N)
    (Ht : forall k i, t k i <> []) (Hp : trimmed path) (Hne : path <> []) (Hv : json_ok v) :
  exists st n',
    parseInitialState clock (set_rule_text path (VStr (stringify v))) n = (Some st, n')
    /\ buildOperationsJson t typeError (es_operations st) true = inr (set_rule_text path v).
Proof.
  pose proof (set_rule_ok path (VStr (stringify v)) (ok_str _)) as Hok.
  unfold parseInitialState, set_rule_text at 1 2 3 4.
  destruct (printed_object _ Hok) as (-> & -> & ->). cbn [negb].
  set (o := mkOperation (local_id clock n) [] path MSet [] [] (stringify v) false LOr []).
  exists (mkEditorState Visual Operations [] [o] (set_rule_text path (VStr (stringify v))) []), (n + 1)%N.
  split; [reflexivity|]. cbn [es_operations].
  assert (Ho : rule_ok o) by (unfold rule_ok, has; cbn [o o_mode o_path]; by rewrite trim_id).
  apply buildOperationsJson_text; [done|..]; rewrite kept_rule_ok by (by constructor); [done|].
  split; [by constructor|].
  assert (Hpl : operation_payload o = VObj [(js "mode", VStr (js "set")); (js "path", VStr (trim path));
                                            (js "value", parseLooseValue (stringify v))]) by reflexivity.
  unfold stored_rules. cbn [List.map]. by rewrite Hpl, trim_id, loose_stringify.
Qed.

Lemma string_value_retyped_witness :
  exists st n',
    parseInitialState (fun _ => 0%N) (set_rule_text (js "seed") (VStr (js "1"))) 0%N = (Some st, n')
    /\ buildOperationsJson (fun k _ => 1%N :: k) [] (es_operations st) true
       = inr (set_rule_text (js "seed") (VNum (num_of_Z 1))).
Proof.
  apply (string_value_retyped (fun k _ => 1%N :: k) [] (fun _ => 0%N) (js "seed") (VNum (num_of_Z 1)) 0%N).
  - discriminate.
  - by apply trimmed_no_space.
  - discriminate.
  - constructor. by apply json_num_ok_safe.
Defined.

(** The draft of a [return_error] rule in its detailed mode survives the
    text of the rule: message, code and type come back trimmed, the retry flag
    as it was, and the status code as it was when it is an HTTP status from 100
    to 599 and as 400 otherwise. *)
Theorem return_error_roundtrip (d : ReturnErrorDraft) (z : Z)
    (Hs : re_simpleMode d = false) (Hz : re_statusCode d = num_of_Z z) (Hsafe : safe z) :
  parseReturnErrorDraft (buildReturnErrorValueText d)
  = mkReturnError (trim (re_message d)) (num_of_Z (if decide (100 <= z <= 599)%Z then z else 400))
      (trim (re_code d)) (trim (re_type d)) (re_skipRetry d) false.
Proof. by apply return_error_reads. Qed.

Lemma return_error_roundtrip_witness :
  parseReturnErrorDraft (buildReturnErrorValueText
    (mkReturnError (js " no ") (num_of_Z 700) (js "blocked") [] false false))
  = mkReturnError (js "no") (num_of_Z 400) (js "blocked") [] false false.
Proof.
  apply (return_error_roundtrip (mkReturnError (js " no ") (num_of_Z 700) (js "blocked") [] false false) 700);
    [reflexivity|reflexivity|unfold safe; lia].
Defined.
