(* ===== verification/ParamOverrideEditorFacts.v ===== *)
(** * Theorems on the dialog of parameter overrides

    Ids are never made twice, so the rules and conditions of every reachable
    dialog have distinct ids and there is always a rule; only opening a text
    whose rules cannot be read unmounts the dialog; the rules of a
    [prune_objects] draft cannot be changed, because their ids are new at every
    reading. *)

From S2P Require Import Prelude JsNumber JsValue JsPretty JsMap ParamOverride ParamOverrideFacts ParamOverrideEditor.

Section Ids.
Context (clock : N -> N).

(** ** Ids *)

Lemma dec_no_underscore n : ch "_" ∉ dec_of_N n.
Proof. apply (not_elem_of_forallb is_digit); [apply dec_of_N_digits|done]. Qed.

(** The counter can be read off an id. *)
Lemma local_id_inj n n' : local_id clock n = local_id clock n' -> n = n'.
Proof.
  intros H. apply (f_equal (split_char (ch "_"))) in H. unfold local_id in H.
  change (js "po_" ++ ?r) with (js "po" ++ ch "_" :: r) in H.
  change (js "_" ++ ?r) with (ch "_" :: r) in H.
  rewrite !split_char_app in H by (apply dec_no_underscore || (by apply (bool_decide_unpack _); vm_compute)).
  rewrite !split_char_no in H by apply dec_no_underscore. injection H as _ H.
  by rewrite <- (N_of_dec_of_N n), H, N_of_dec_of_N.
Qed.

(** The id was made while the counter went from [n] to [n']. *)
Definition made (n n' : N) (x : jsstr) : Prop := exists k, (n <= k < n')%N /\ x = local_id clock k.

Lemma made_mono a b a' b' x : (a' <= a)%N -> (b <= b')%N -> made a b x -> made a' b' x.
Proof. intros Ha Hb (k & Hk & ->). exists k. split; [lia|done]. Qed.

Lemma made_disjoint a b c x : made a b x -> made b c x -> False.
Proof. intros (k & Hk & ->) (k' & Hk' & E). apply local_id_inj in E. lia. Qed.

(** Distinct ids, all made between two values of the counter. *)
Definition distinct (n n' : N) (l : list jsstr) : Prop := Forall (made n n') l /\ NoDup l.

Lemma distinct_app a b c l k :
  (a <= b <= c)%N -> distinct a b l -> distinct b c k -> distinct a c (l ++ k).
Proof.
  intros Hle [Hl Nl] [Hk Nk]. split.
  - apply Forall_app. split; eapply Forall_impl; [exact Hl| |exact Hk|];
      intros x Hx; (eapply made_mono; [..|exact Hx]; lia).
  - apply NoDup_app. split_and!; [done| |done]. intros x Hx Hx'.
    rewrite Forall_forall in Hl, Hk. by eapply made_disjoint; [apply Hl|apply Hk].
Qed.
Lemma distinct_mono a b a' b' l : (a' <= a)%N -> (b <= b')%N -> distinct a b l -> distinct a' b' l.
Proof. intros Ha Hb [Hl Nl]. split; [|done]. eapply Forall_impl; [exact Hl|]. intros x. by apply made_mono. Qed.
Lemma distinct_perm a b l k : l ≡ₚ k -> distinct a b l -> distinct a b k.
Proof. intros E [Hl Nl]. split; by rewrite <- E. Qed.
Lemma distinct_sublist a b l k : sublist k l -> distinct a b l -> distinct a b k.
Proof.
  intros E [Hl Nl]. split; [|by eapply sublist_NoDup].
  apply Forall_forall. intros x Hx. rewrite Forall_forall in Hl. apply Hl. by eapply elem_of_sublist.
Qed.
Lemma distinct_nil a b : distinct a b [].
Proof. split; constructor. Qed.

(** ** Computations that make ids *)

Definition op_ids (o : ParamOverrideOperation) : list jsstr := o_id o :: List.map c_id (o_conditions o).
Definition all_ids (ops : list ParamOverrideOperation) : list jsstr := concat (List.map op_ids ops).

Lemma all_ids_app a b : all_ids (a ++ b) = all_ids a ++ all_ids b.
Proof. unfold all_ids. by rewrite map_app, concat_app. Qed.
Lemma all_ids_cons o ops : all_ids (o :: ops) = op_ids o ++ all_ids ops.
Proof. done. Qed.

(** The counter does not go back, and the ids of the result are new. *)
Definition makes {A} (ids : A -> list jsstr) (m : Fresh A) : Prop :=
  forall n, match m n with
            | (Some a, n') => (n <= n')%N /\ distinct n n' (ids a)
            | (None, n') => (n <= n')%N
            end.

Lemma makes_map {A B} (ids : B -> list jsstr) (f : A -> Fresh B) l :
  (forall x, makes ids (f x)) -> makes (fun ys => concat (List.map ids ys)) (map_fresh f l).
Proof.
  intros Hf. induction l as [|x l IH]; intros n; cbn [map_fresh]; [split; [lia|apply distinct_nil]|].
  unfold mbind, fresh_bind. specialize (Hf x n). destruct (f x n) as [[y|] n1]; [|done].
  destruct Hf as [H1 D1]. specialize (IH n1). destruct (map_fresh f l n1) as [[ys|] n2]; [|lia].
  destruct IH as [H2 D2]. split; [lia|]. by apply (distinct_app n n1 n2).
Qed.

Lemma makes_condition v : makes (fun c => [c_id c]) (normalizeCondition clock v).
Proof.
  intros n. unfold normalizeCondition, mbind, fresh_bind. cbn [nextLocalId require_object lift mret fresh_ret].
  destruct v; cbn; try lia; (split; [lia|split; [|apply NoDup_singleton]]);
    constructor; try constructor; exists n; (split; [lia|done]).
Qed.

Lemma distinct_one n : distinct n (n + 1) [local_id clock n].
Proof. split; [|apply NoDup_singleton]. constructor; [|constructor]. exists n. split; [lia|done]. Qed.

Lemma concat_singletons {A B} (f : A -> B) l : concat (List.map (fun x => [f x]) l) = List.map f l.
Proof. induction l as [|x l IH]; [done|]. cbn [List.map concat app]. by rewrite IH. Qed.

Lemma makes_conditions v :
  makes (List.map c_id) (match v with VArr l => map_fresh (normalizeCondition clock) l | _ => mret [] end).
Proof.
  destruct v; try (intros n; split; [lia|apply distinct_nil]).
  intros n. pose proof (makes_map _ _ l makes_condition n) as H.
  destruct (map_fresh _ l n) as [[cs|] n']; [|done]. by rewrite concat_singletons in H.
Qed.

Lemma makes_operation v : makes op_ids (normalizeOperation clock v).
Proof.
  intros n. unfold normalizeOperation, mbind, fresh_bind. cbn [nextLocalId].
  destruct (require_object v (n + 1)%N) as [[[]|] n1] eqn:E1;
    (assert (n1 = n + 1)%N as -> by (by inversion E1)); [|lia].
  destruct (lift _ (n + 1)%N) as [[b|] n2] eqn:E2;
    (assert (n2 = n + 1)%N as -> by (by inversion E2)); [|lia].
  pose proof (makes_conditions (get_prop v (js "conditions")) (n + 1)%N) as Hc.
  match type of Hc with match ?r with _ => _ end => destruct r as [[cs|] n3] end; [|cbn; lia].
  destruct Hc as [H3 D3]. cbn. split; [lia|].
  apply (distinct_app n (n + 1)%N n3 [_]); [lia|apply distinct_one|done].
Qed.

Lemma makes_operations l : makes all_ids (map_fresh (normalizeOperation clock) l).
Proof. apply makes_map, makes_operation. Qed.
Lemma makes_default : makes all_ids (o ← createDefaultOperation clock; mret [o]).
Proof.
  intros n. unfold mbind, fresh_bind. pose proof (makes_operation (VObj [(js "mode", VStr (js "set"))]) n) as H.
  unfold createDefaultOperation. destruct (normalizeOperation clock _ n) as [[o|] n']; [|done].
  cbn. by rewrite app_nil_r.
Qed.
Lemma makes_load l : makes all_ids (load_operations clock l).
Proof. destruct l; [apply makes_default|apply makes_operations]. Qed.

(** Reading the text of the dialog. *)
Lemma makes_bind_ret {A B} (ids : A -> list jsstr) (ids' : B -> list jsstr) m (f : A -> B) :
  (forall a, ids' (f a) = ids a) -> makes ids m -> makes ids' (a ← m; mret (f a)).
Proof.
  intros Hf H n. specialize (H n). unfold mbind, fresh_bind. destruct (m n) as [[a|] n']; [|done].
  cbn. by rewrite Hf.
Qed.

Lemma makes_parseInitialState text : makes (fun st => all_ids (es_operations st)) (parseInitialState clock text).
Proof.
  assert (Hd : forall f : ParamOverrideOperation -> EditorState, (forall o, es_operations (f o) = [o]) ->
    makes (fun st => all_ids (es_operations st)) (o ← createDefaultOperation clock; mret (f o))).
  { intros f Hf. apply (makes_bind_ret op_ids); [|apply makes_operation].
    intros o. rewrite Hf. unfold all_ids. cbn. by rewrite app_nil_r. }
  unfold parseInitialState. destruct (negb _); [by apply Hd|].
  destruct (json_parse _) as [parsed|]; [|by apply Hd].
  destruct parsed as [| | | | | |fs]; try by apply Hd.
  destruct (get_prop (VObj fs) (js "operations")); try by apply Hd.
  by apply (makes_bind_ret all_ids); [|apply makes_load].
Qed.

Lemma map_fresh_length {A B} (f : A -> Fresh B) l n ys n' :
  map_fresh f l n = (Some ys, n') -> length ys = length l.
Proof.
  revert n ys. induction l as [|x l IH]; intros n ys; cbn [map_fresh]; [by intros [= <- _]|].
  unfold mbind, fresh_bind. destruct (f x n) as [[y|] n1]; [|done].
  destruct (map_fresh f l n1) as [[zs|] n2] eqn:E; [|done]. intros [= <- <-]. cbn [length]. f_equal.
  by eapply IH.
Qed.

Lemma load_nonempty l n ops n' : load_operations clock l n = (Some ops, n') -> ops <> [].
Proof.
  destruct l as [|v l]; cbn [load_operations].
  - unfold mbind, fresh_bind. destruct (createDefaultOperation clock n) as [[o|] n1]; [|done].
    by intros [= <- _].
  - intros H%map_fresh_length. by destruct ops.
Qed.

Lemma parseInitialState_nonempty text n st n' :
  parseInitialState clock text n = (Some st, n') -> es_operations st <> [].
Proof.
  assert (Hd : forall f : ParamOverrideOperation -> EditorState, (forall o, es_operations (f o) = [o]) ->
    (o ← createDefaultOperation clock; mret (f o)) n = (Some st, n') -> es_operations st <> []).
  { intros f Hf. unfold mbind, fresh_bind. destruct (createDefaultOperation clock n) as [[o|] n1]; [|done].
    intros [= <- _]. by rewrite Hf. }
  unfold parseInitialState. destruct (negb _); [by apply Hd|].
  destruct (json_parse _) as [parsed|]; [|by apply Hd].
  destruct parsed as [| | | | | |fs]; try by apply Hd.
  destruct (get_prop (VObj fs) (js "operations")); try by apply Hd.
  unfold mbind, fresh_bind. destruct (load_operations clock l n) as [[ops|] n1] eqn:E; [|done].
  intros [= <- _]. by eapply load_nonempty.
Qed.

(** ** The invariant *)

(** There is a rule, and the ids of rules and conditions are distinct and were
    made before. *)
Definition rules_ok (ops : list ParamOverrideOperation) (n : N) : Prop :=
  ops <> [] /\ distinct 0 n (all_ids ops).
Definition editor_ok (s : Editor) : Prop := rules_ok (ed_operations s) (ed_seed s).

Lemma rules_fresh ops n n' : ops <> [] -> distinct n n' (all_ids ops) -> rules_ok ops n'.
Proof. intros H D. split; [done|]. eapply distinct_mono; [..|exact D]; lia. Qed.

Lemma rules_later ops n n' : (n <= n')%N -> rules_ok ops n -> rules_ok ops n'.
Proof. intros Hn [H D]. split; [done|]. eapply distinct_mono; [..|exact D]; lia. Qed.

(** Rules taken from the old ones, and new rules. *)
Lemma rules_add ops old new n n' :
  (n <= n')%N -> rules_ok old n -> distinct n n' new ->
  ops <> [] -> (exists l, sublist l (all_ids old) /\ all_ids ops ≡ₚ l ++ new) -> rules_ok ops n'.
Proof.
  intros Hn [_ D] Dn Hne (l & Hl & E). split; [done|]. apply (distinct_perm _ _ _ _ (symmetry E)).
  apply (distinct_app 0 n n'); [lia| |done]. by eapply distinct_sublist.
Qed.

(** The same rules, changed. *)
Lemma rules_same_ids ops ops' n :
  List.map op_ids ops' = List.map op_ids ops -> rules_ok ops n -> rules_ok ops' n.
Proof.
  intros E [H D]. split; [intros ->; by destruct ops|]. unfold all_ids in *. by rewrite E.
Qed.

Lemma rules_sublist ops ops' n :
  ops' <> [] -> sublist (all_ids ops') (all_ids ops) -> rules_ok ops n -> rules_ok ops' n.
Proof. intros Hne Hs [_ D]. split; [done|]. by eapply distinct_sublist. Qed.

Lemma with_fresh_ok {A} (ids : A -> list jsstr) m (f : A -> Editor -> Editor) g s :
  editor_ok s -> makes ids m ->
  (forall a n', m (ed_seed s) = (Some a, n') -> (ed_seed s <= n')%N -> distinct (ed_seed s) n' (ids a) ->
     editor_ok (f a (setSeed n' s))) ->
  (forall s', editor_ok s' -> editor_ok (g s')) ->
  editor_ok (with_fresh m f g s).
Proof.
  intros Hs Hm Hf Hg. unfold with_fresh. specialize (Hm (ed_seed s)).
  destruct (m (ed_seed s)) as [[a|] n'] eqn:E.
  - destruct Hm. by apply Hf.
  - apply Hg. by eapply rules_later.
Qed.

(** ** Changes of the list of rules *)

Lemma update_same_ids x f ops :
  (forall o, op_ids (f o) = op_ids o) -> List.map op_ids (update_by_id x f ops) = List.map op_ids ops.
Proof.
  intros Hf. unfold update_by_id. rewrite map_map. apply map_ext. intros o. by case_bool_decide.
Qed.

Lemma all_ids_sublist x f ops :
  (forall o, sublist (op_ids (f o)) (op_ids o)) -> sublist (all_ids (update_by_id x f ops)) (all_ids ops).
Proof.
  intros Hf. induction ops as [|o ops IH]; [constructor|]. cbn [update_by_id List.map]. rewrite !all_ids_cons.
  apply sublist_app; [by case_bool_decide|done].
Qed.

Lemma all_ids_other x f ops :
  x ∉ List.map o_id ops -> update_by_id x f ops = ops.
Proof.
  induction ops as [|o ops IH]; [done|]. cbn [List.map update_by_id]. intros [H1 H2]%not_elem_of_cons.
  rewrite bool_decide_eq_false_2 by congruence. f_equal. by apply IH.
Qed.

Lemma all_ids_add x f y ops :
  (forall o, op_ids (f o) = op_ids o ++ [y]) -> NoDup (List.map o_id ops) ->
  all_ids (update_by_id x f ops) ≡ₚ all_ids ops
  \/ all_ids (update_by_id x f ops) ≡ₚ all_ids ops ++ [y].
Proof.
  intros Hf. induction ops as [|o ops IH]; intros Hn; [by left|]. cbn [List.map] in Hn.
  apply NoDup_cons in Hn as [Ho Hn]. cbn [update_by_id List.map]. rewrite !all_ids_cons.
  case_bool_decide as E.
  - right. fold (update_by_id x f ops). rewrite all_ids_other by (by rewrite <- E). rewrite Hf, <- !app_assoc.
    apply Permutation_app_head, Permutation_app_comm.
  - destruct (IH Hn) as [H|H]; [left|right]; unfold update_by_id in H; rewrite H; [done|by rewrite app_assoc].
Qed.

Lemma o_ids_sublist ops : sublist (List.map o_id ops) (all_ids ops).
Proof.
  induction ops as [|o ops IH]; [constructor|]. rewrite all_ids_cons. cbn [List.map op_ids app].
  apply sublist_skip. by apply sublist_inserts_l.
Qed.

Lemma rules_ids_NoDup ops n : rules_ok ops n -> NoDup (List.map o_id ops).
Proof. intros [_ [_ D]]. eapply sublist_NoDup; [exact D|]. apply o_ids_sublist. Qed.

(** Moving a rule loses none. *)
Lemma reorder_perm ops a b p : reorderOperations ops a b p ≡ₚ ops.
Proof.
  unfold reorderOperations. destruct (_ || _); [done|]. destruct (find_index ops a) as [i|]; [|done].
  destruct (ops !! i) as [moved|] eqn:E; [|done]. set (next := take i ops ++ drop (S i) ops).
  destruct (find_index next b) as [j|]; [|done]. set (k := match p with After => S j | Before => j end).
  change ([moved] ++ drop k next) with (moved :: drop k next).
  rewrite <- Permutation_middle, take_drop. unfold next.
  rewrite Permutation_middle. by rewrite take_drop_middle.
Qed.

Lemma all_ids_perm ops ops' : ops ≡ₚ ops' -> all_ids ops ≡ₚ all_ids ops'.
Proof.
  induction 1 as [|o l l' _ IH|a b l|l1 l2 l3 _ IH1 _ IH2]; [done|..]; rewrite ?all_ids_cons.
  - by rewrite IH.
  - rewrite !app_assoc. apply Permutation_app_tail, Permutation_app_comm.
  - by rewrite IH1.
Qed.

Lemma rules_perm ops ops' n : ops' ≡ₚ ops -> rules_ok ops n -> rules_ok ops' n.
Proof.
  intros E [H D]. split.
  - intros ->. apply H. by apply Permutation_nil_l, symmetry in E.
  - eapply distinct_perm; [|exact D]. by apply all_ids_perm, symmetry.
Qed.

Lemma all_ids_filter p ops : sublist (all_ids (List.filter p ops)) (all_ids ops).
Proof.
  induction ops as [|o ops IH]; [constructor|]. cbn [List.filter]. rewrite all_ids_cons.
  destruct (p o); [rewrite all_ids_cons; by apply sublist_app|by apply sublist_inserts_l].
Qed.

(** Removing one of at least two rules leaves one. *)
Lemma remove_nonempty x ops :
  NoDup (List.map o_id ops) -> 1 < length ops ->
  List.filter (fun o => negb (bool_decide (o_id o = x))) ops <> [].
Proof.
  destruct ops as [|a [|b ops]]; cbn [length]; intros Hn Hl; try lia.
  apply NoDup_cons in Hn as [Ha _]. cbn [List.filter]. repeat case_bool_decide; cbn [negb]; try done.
  exfalso. apply Ha, elem_of_cons. left. congruence.
Qed.

(** ** Drafts of [prune_objects] *)

Definition rules_ids (rs : list PruneRule) : list jsstr := List.map c_id rs.
Definition rule_ids (d : PruneObjectsDraft) : list jsstr := rules_ids (pr_rules d).

Lemma makes_rules {A} (f : A -> Fresh PruneRule) l :
  (forall x, makes (fun c : PruneRule => [c_id c]) (f x)) -> makes rules_ids (map_fresh f l).
Proof.
  intros Hf n. pose proof (makes_map _ _ l Hf n) as H. destruct (map_fresh f l n) as [[cs|] n']; [|done].
  by rewrite (concat_singletons (c_id : PruneRule -> jsstr)) in H.
Qed.

Lemma makes_nothing {A} (ids : A -> list jsstr) a : ids a = [] -> makes ids (mret a).
Proof. intros H n. cbn. rewrite H. split; [lia|apply distinct_nil]. Qed.

Lemma makes_bind {A B} (ia : A -> list jsstr) (ib : B -> list jsstr) m (f : A -> Fresh B) :
  makes ia m ->
  (forall a, exists ic, makes ic (f a) /\ forall n b n', f a n = (Some b, n') -> ib b = ia a ++ ic b) ->
  makes ib (m ≫= f).
Proof.
  intros Hm Hf n. specialize (Hm n). unfold mbind, fresh_bind. destruct (m n) as [[a|] n1]; [|done].
  destruct Hm as [H1 D1]. destruct (Hf a) as (ic & Hc & Hb). specialize (Hc n1). specialize (Hb n1).
  destruct (f a n1) as [[b|] n2]; [|lia]. destruct Hc as [H2 D2]. split; [lia|].
  rewrite (Hb b n2) by done. by apply (distinct_app n n1 n2).
Qed.

Lemma makes_lift {A B} (o : option A) (ids : B -> list jsstr) (f : A -> Fresh B) :
  (forall a, makes ids (f a)) -> makes ids (lift o ≫= f).
Proof.
  intros H n. unfold mbind, fresh_bind, lift. destruct o as [a|]; [apply H|lia].
Qed.

Lemma makes_prune_draft parsed : makes rule_ids (prune_draft_of clock parsed).
Proof.
  assert (He : forall x, makes (fun c : PruneRule => [c_id c]) (entry_rule clock x))
    by (intros x; apply makes_condition).
  assert (Hr : forall x, makes (fun c : PruneRule => [c_id c]) (normalizePruneRule clock x))
    by (intros x; apply makes_condition).
  unfold prune_draft_of. apply (makes_bind rules_ids).
  { destruct (get_prop _ _); try (by apply makes_nothing). by apply makes_rules. }
  intros ws. exists (fun d => rules_ids (drop (length ws) (pr_rules d))). split.
  - apply (makes_bind rules_ids).
    { destruct (get_prop _ _); try (by apply makes_nothing); by apply makes_rules. }
    intros cs. exists (fun _ => []). split.
    + apply makes_lift. intros ty. apply makes_lift. intros b. by apply makes_nothing.
    + intros n d n'. unfold mbind, fresh_bind, lift.
      destruct (if is_undefined _ then _ else _); [|done]. destruct (upper_is _ _ _); [|done].
      intros [= <- _]. cbn [pr_rules]. by rewrite drop_app_length, app_nil_r.
  - intros n d n'. unfold mbind, fresh_bind, lift.
    match goal with |- match ?r with _ => _ end = _ -> _ => destruct r as [[cs|] n2] end; [|done].
    destruct (if is_undefined _ then _ else _); [|done]. destruct (upper_is _ _ _); [|done].
    intros [= <- _]. unfold rule_ids. cbn [pr_rules]. rewrite drop_app_length. apply map_app.
Qed.

Lemma makes_catch {A} (ids : A -> list jsstr) m h : ids h = [] -> makes ids m -> makes ids (catch m h).
Proof.
  intros H Hm n. specialize (Hm n). unfold catch. destruct (m n) as [[a|] n']; [done|]. rewrite H.
  split; [done|apply distinct_nil].
Qed.

(** Reading a draft makes new ids for all its rules, and does not throw. *)
Lemma makes_prune text : makes rule_ids (parsePruneObjectsDraft clock text).
Proof.
  unfold parsePruneObjectsDraft. destruct (negb _); [by apply makes_nothing|]. apply makes_catch; [done|].
  apply makes_lift. intros [| | | | | |fs]; try (apply makes_lift; intros s; by apply makes_nothing).
  - by apply makes_nothing.
  - apply makes_prune_draft.
Qed.

Lemma runs_prune text : runs_to (parsePruneObjectsDraft clock text) (fun _ => True).
Proof.
  intros n. unfold parsePruneObjectsDraft. destruct (negb _); [by eexists _, _|]. unfold catch.
  match goal with |- context [match ?r with _ => _ end] => destruct r as [[d|] n'] end; by eexists _, _.
Qed.

Lemma bind_run {A B} (m : Fresh A) (f : A -> Fresh B) n a n' :
  m n = (Some a, n') -> (m ≫= f) n = f a n'.
Proof. unfold mbind, fresh_bind. by intros ->. Qed.

(** An update of the draft that returns and does not turn the counter back. *)
Definition steady (upd : PruneObjectsDraft -> Fresh PruneObjectsDraft) : Prop :=
  forall d n, exists d' n', upd d n = (Some d', n') /\ (n <= n')%N.

Lemma steady_pure f : steady (fun d => mret (f d)).
Proof. intros d n. exists (f d), n. split; [done|lia]. Qed.

Lemma steady_add_rule : steady (fun d => r ← normalizePruneRule clock (VObj []);
                                         mret (with_rules false (pr_rules d ++ [r]) d)).
Proof. intros d n. do 2 eexists. split; [reflexivity|lia]. Qed.

Lemma update_prune_in_spec x upd ops n :
  steady upd ->
  exists ops' n', update_prune_in clock x upd ops n = (Some ops', n') /\ (n <= n')%N
    /\ List.map op_ids ops' = List.map op_ids ops.
Proof.
  intros Hu. unfold update_prune_in. revert n.
  induction ops as [|o ops IH]; intros n; [exists [], n; split_and!; [done|lia|done]|].
  cbn [map_fresh].
  assert (Ho : exists o' n', (if bool_decide (o_id o = x) then
     draft ← parsePruneObjectsDraft clock (o_value_text o);
     next ← upd draft; mret (with_value_text (buildPruneObjectsValueText next) o) else mret o) n
     = (Some o', n') /\ (n <= n')%N /\ op_ids o' = op_ids o).
  { case_bool_decide; [|exists o, n; split_and!; [done|lia|done]].
    destruct (runs_prune (o_value_text o) n) as (d & n1 & E & _).
    pose proof (makes_prune (o_value_text o) n) as Hn. rewrite E in Hn. destruct Hn as [Hn _].
    destruct (Hu d n1) as (d' & n2 & E' & Hn').
    exists (with_value_text (buildPruneObjectsValueText d') o), n2. split_and!; [|lia|done].
    by rewrite (bind_run _ _ _ _ _ E), (bind_run _ _ _ _ _ E'). }
  destruct Ho as (o' & n1 & E1 & Hn1 & Eo). destruct (IH n1) as (ops' & n2 & E2 & Hn2 & Eops).
  exists (o' :: ops'), n2. rewrite (bind_run _ _ _ _ _ E1), (bind_run _ _ _ _ _ E2). split_and!; [done|lia|].
  cbn [List.map]. by rewrite Eo, Eops.
Qed.

(** ** Operations of the dialog *)

Lemma update_prune_ok x upd s : steady upd -> editor_ok s -> editor_ok (update_prune clock x upd s).
Proof.
  intros Hu Hs. unfold update_prune, with_fresh.
  destruct (update_prune_in_spec x upd (ed_operations s) (ed_seed s) Hu) as (ops' & n' & -> & Hn & E).
  eapply rules_same_ids; [exact E|]. by eapply rules_later.
Qed.

Lemma default_ok (f : ParamOverrideOperation -> Editor -> Editor) g s :
  editor_ok s ->
  (forall o s', ed_operations (f o s') = [o] /\ ed_seed (f o s') = ed_seed s') ->
  (forall s', editor_ok s' -> editor_ok (g s')) ->
  editor_ok (with_fresh (createDefaultOperation clock) f g s).
Proof.
  intros Hs Hf Hg. apply (with_fresh_ok op_ids); [done|apply makes_operation| |done].
  intros o n' _ Hn D. unfold editor_ok. destruct (Hf o (setSeed n' s)) as [-> ->].
  apply (rules_fresh _ (ed_seed s)); [done|]. rewrite all_ids_cons. unfold all_ids at 1. cbn [List.map concat].
  by rewrite app_nil_r.
Qed.

Lemma open_ok text s : editor_ok s -> editor_ok (open_dialog clock text s).
Proof.
  intros Hs. unfold open_dialog.
  apply (with_fresh_ok (fun st => all_ids (es_operations st))); [done|apply makes_parseInitialState| |done].
  intros st n' E Hn D. apply (rules_fresh _ (ed_seed s)); [|done]. by eapply parseInitialState_nonempty.
Qed.

Lemma rules_append ops o n n' :
  (n <= n')%N -> rules_ok ops n -> distinct n n' (op_ids o) -> rules_ok (ops ++ [o]) n'.
Proof.
  intros Hn Hr D. apply (rules_add _ ops (op_ids o) n); [done..|by destruct ops|].
  exists (all_ids ops). split; [done|]. by rewrite all_ids_app, all_ids_cons, app_nil_r.
Qed.

Lemma addOperation_ok s : editor_ok s -> editor_ok (addOperation clock s).
Proof.
  intros Hs. apply (with_fresh_ok op_ids); [done|apply makes_operation| |done].
  intros o n' _ Hn D. by apply (rules_append _ _ (ed_seed s)).
Qed.

Lemma duplicateOperation_ok x eager s : editor_ok s -> editor_ok (duplicateOperation clock x eager s).
Proof.
  intros Hs. unfold duplicateOperation. destruct (find_index _ x) as [idx|]; [|done].
  destruct (_ !! idx) as [source|]; [|done].
  apply (with_fresh_ok op_ids); [done|apply makes_operation| |done]. intros o n' _ Hn D.
  assert (rules_ok (take (S idx) (ed_operations s) ++ [o] ++ drop (S idx) (ed_operations s)) n');
    [|by destruct eager].
  apply (rules_perm (ed_operations s ++ [o])).
  { change ([o] ++ ?l) with (o :: l). rewrite <- Permutation_middle, take_drop. apply Permutation_cons_append. }
  by apply (rules_append _ _ (ed_seed s)).
Qed.

Lemma removeOperation_ok x s : editor_ok s -> editor_ok (removeOperation clock x s).
Proof.
  intros Hs. unfold removeOperation. destruct (Nat.leb_spec (length (ed_operations s)) 1) as [H|H].
  - by apply default_ok.
  - eapply rules_sublist; [|apply all_ids_filter|exact Hs]. apply remove_nonempty; [|done].
    by eapply rules_ids_NoDup.
Qed.

Lemma addCondition_ok x s : editor_ok s -> editor_ok (addCondition clock x s).
Proof.
  intros Hs. apply (with_fresh_ok (fun c => [c_id c])); [done|apply makes_condition| |done].
  intros c n' _ Hn D. unfold editor_ok. cbn [ed_operations ed_seed setExpanded set_view setOperations set_forms].
  change (rules_ok (update_by_id x (fun o => with_conditions (o_conditions o ++ [c]) o) (ed_operations s)) n').
  destruct (all_ids_add x (fun o => with_conditions (o_conditions o ++ [c]) o) (c_id c) (ed_operations s))
    as [E|E].
  - intros o. unfold op_ids. cbn. by rewrite map_app.
  - by eapply rules_ids_NoDup.
  - split; [|eapply distinct_perm; [symmetry; exact E|]; by eapply rules_later in Hs as [_ ?]].
    destruct Hs as [Hs _]. by destruct (ed_operations s).
  - apply (rules_add _ (ed_operations s) [c_id c] (ed_seed s)); [done..| |by exists (all_ids (ed_operations s))].
    destruct Hs as [Hs _]. by destruct (ed_operations s).
Qed.

Lemma update_ok x f s :
  (forall o, op_ids (f o) = op_ids o) -> editor_ok s -> editor_ok (setOperations (update_by_id x f (ed_operations s)) s).
Proof. intros Hf Hs. by eapply rules_same_ids; [apply update_same_ids|]. Qed.

Lemma updateCondition_ok x c p s : editor_ok s -> editor_ok (updateCondition x c p s).
Proof.
  apply update_ok. intros o. unfold op_ids. cbn. f_equal. rewrite map_map. apply map_ext. intros d.
  by case_bool_decide.
Qed.

Lemma removeCondition_ok x c s : editor_ok s -> editor_ok (removeCondition x c s).
Proof.
  intros Hs. eapply rules_sublist; [| |exact Hs].
  - destruct Hs as [Hs _]. unfold removeCondition, update_by_id. cbn. by destruct (ed_operations s).
  - apply all_ids_sublist. intros o. unfold op_ids. cbn. apply sublist_skip.
    induction (o_conditions o) as [|d cs IH]; [constructor|]. cbn [List.filter List.map].
    case_bool_decide; cbn [negb List.map]; [by apply sublist_cons|by apply sublist_skip].
Qed.

Lemma drop_ok x data s : editor_ok s -> editor_ok (handleDrop x data s).
Proof.
  intros Hs. unfold handleDrop. destruct (_ && _); [|done].
  eapply rules_perm; [|exact Hs]. apply reorder_perm.
Qed.

(** ** Templates, switching and saving *)

(** A preset is a legacy one or has rules. *)
Definition has_rules (p : TemplatePresetConfig) : bool :=
  tp_legacy p || match get_prop (tp_payload p) (js "operations") with VArr (_ :: _) => true | _ => false end.

Lemma map_get_forallb {K V} `{EqDecision K} (p : V -> bool) k (m : list (K * V)) v :
  forallb (fun e => p e.2) m = true -> map_get k m = Some v -> p v = true.
Proof.
  induction m as [|[k0 v0] m IH]; [done|]. cbn [forallb map_get snd]. intros H. bool_prop.
  case_decide; [by intros [= <-]|by apply IH].
Qed.

Lemma preset_operations key :
  tp_legacy (preset_of key) = false ->
  exists v l, get_prop (tp_payload (preset_of key)) (js "operations") = VArr (v :: l).
Proof.
  assert (H : has_rules (preset_of key) = true).
  { unfold preset_of. destruct (map_get key TEMPLATE_PRESET_CONFIG) eqn:E; [|vm_compute; reflexivity].
    eapply map_get_forallb; [|exact E]. vm_compute. reflexivity. }
  intros El. unfold has_rules in H. rewrite El in H. cbn [orb] in H.
  destruct (get_prop _ _) as [| | | | |[|v l]|]; try discriminate H. by exists v, l.
Qed.

Context (t : jsstr -> option nat -> jsstr) (typeError : jsstr).

Lemma switchToJson_ok s : editor_ok s -> editor_ok (switchToJsonMode t typeError s).
Proof.
  intros Hs. unfold switchToJsonMode. destruct (ed_editMode s); [|done]. by destruct (buildVisualJson t typeError s).
Qed.

Lemma switchToVisual_ok s : editor_ok s -> editor_ok (switchToVisualMode clock t s).
Proof.
  intros Hs. unfold switchToVisualMode. destruct (ed_editMode s); [done|]. destruct (negb _); [by apply default_ok|].
  destruct (json_parse _) as [parsed|]; [|done]. destruct parsed as [| | | | | |fs]; try done.
  destruct (get_prop (VObj fs) _); try (by apply default_ok).
  apply (with_fresh_ok all_ids); [done|apply makes_load| |done]. intros ops n' E Hn D.
  apply (rules_fresh _ (ed_seed s)); [|done]. by eapply load_nonempty.
Qed.

Lemma fillTemplate_ok append s : editor_ok s -> editor_ok (fillTemplate clock t append s).
Proof.
  intros Hs. unfold fillTemplate. destruct (tp_legacy _) eqn:El.
  - assert (Hf : forall text, editor_ok (fill_legacy clock text s)) by (intros text; by apply default_ok).
    destruct append, (ed_visualMode s); try apply Hf. destruct (negb _); [apply Hf|].
    destruct (json_parse _); [apply Hf|done].
  - destruct (preset_operations _ El) as (v & l & ->). destruct append.
    + apply (with_fresh_ok all_ids); [done|apply makes_operations| |done]. intros ops n' E Hn D.
      apply map_fresh_length in E. destruct ops as [|o ops]; [done|].
      unfold editor_ok. cbn [ed_operations ed_seed setSelected set_view set_forms].
      match goal with |- rules_ok (if nonempty (?ex ++ _) then _ else _) _ => set (old := ex) end.
      assert (nonempty (old ++ o :: ops) = true) as -> by (by destruct old).
      apply (rules_add _ (ed_operations s) (all_ids (o :: ops)) (ed_seed s)); [done..|by destruct old|].
      exists (all_ids old). split; [|by rewrite all_ids_app]. unfold old.
      destruct (ed_visualMode _); [apply all_ids_filter|apply sublist_nil_l].
    + apply (with_fresh_ok all_ids); [done|apply makes_load| |done]. intros ops n' E Hn D.
      apply (rules_fresh _ (ed_seed s)); [|done]. by eapply load_nonempty.
Qed.

Lemma makes_draft s n : (n <= (pruneObjectsDraft clock s n).2)%N.
Proof.
  unfold pruneObjectsDraft. destruct (selectedOperation s) as [o|]; [|cbn; lia].
  destruct (bool_decide _); [|cbn; lia]. unfold mbind, fresh_bind.
  pose proof (makes_prune (o_value_text o) n) as H.
  destruct (parsePruneObjectsDraft _ _ n) as [[d|] n']; [by destruct H|done].
Qed.

Lemma render_ok changed s : editor_ok s -> editor_ok (render clock changed s).
Proof.
  intros Hs. apply (with_fresh_ok (fun _ => [])); [done| | |done].
  - intros n. unfold mbind, fresh_bind. change (createDefaultOperation clock n) with
      (Some (mkOperation (local_id clock n) [] [] MSet [] [] [] false LOr []), (n + 1)%N). cbv iota beta.
    destruct changed; [|split; [lia|apply distinct_nil]].
    pose proof (makes_draft s (n + 1)) as H.
    destruct (pruneObjectsDraft clock s (n + 1)%N) as [[d|] n']; cbn [snd] in H;
      [split; [lia|apply distinct_nil]|lia].
  - intros a n' _ Hn _. by eapply rules_later.
Qed.

Lemma step_ok s e : editor_ok s -> editor_ok (step clock t typeError s e).
Proof.
  intros Hs. unfold step. destruct (ed_crashed s); [done|]. destruct e; try done.
  - by apply open_ok.
  - unfold settle_selection. destruct (negb _); [done|]. by destruct (has_id _ _).
  - by apply render_ok.
  - by apply update_ok.
  - by apply addOperation_ok.
  - by apply duplicateOperation_ok.
  - by apply removeOperation_ok.
  - by apply addCondition_ok.
  - by apply updateCondition_ok.
  - by apply removeCondition_ok.
  - unfold expand_conditions. by destruct (selectedOperation s).
  - by apply update_ok.
  - apply update_prune_ok; [apply steady_pure|done].
  - apply update_prune_ok; [apply steady_add_rule|done].
  - apply update_prune_ok; [apply steady_pure|done].
  - apply update_prune_ok; [apply steady_pure|done].
  - unfold handleDragOver. by destruct (_ || _).
  - by apply drop_ok.
  - by apply switchToJson_ok.
  - by apply switchToVisual_ok.
  - by apply fillTemplate_ok.
  - by apply default_ok.
  - unfold formatJson. destruct (negb _); [done|]. by destruct (json_parse _).
  - unfold handleSave. by destruct (save_result t typeError s).
Qed.

Lemma initial_ok n : editor_ok (initial_editor clock n).
Proof.
  unfold initial_editor, with_fresh. cbn [ed_seed].
  pose proof (makes_operation (VObj [(js "mode", VStr (js "set"))]) n) as H.
  unfold createDefaultOperation. destruct (normalizeOperation clock _ n) as [[o|] n'] eqn:E; [|discriminate E].
  destruct H as [Hn D]. apply (rules_fresh _ n); [done|]. cbn. by rewrite app_nil_r.
Qed.

(** ** Throwing *)

(** The computation throws exactly when [b]. *)
Definition throws {A} (m : Fresh A) (b : bool) : Prop :=
  forall n, match (m n).1 with Some _ => b = false | None => b = true end.

Lemma throws_map {A B} (f : A -> Fresh B) bad l :
  (forall x, throws (f x) (bad x)) -> throws (map_fresh f l) (existsb bad l).
Proof.
  intros Hf. induction l as [|x l IH]; intros n; [done|]. cbn [map_fresh existsb]. unfold mbind, fresh_bind.
  specialize (Hf x n). destruct (f x n) as [[y|] n1]; cbn [fst] in Hf; rewrite Hf; [|done]. cbn [orb].
  specialize (IH n1). by destruct (map_fresh f l n1) as [[ys|] n2].
Qed.

Definition is_null (v : value) : bool := match v with VNull => true | _ => false end.

Lemma throws_condition v : throws (normalizeCondition clock v) (is_null v).
Proof. intros n. by destruct v. Qed.

(** A rule that cannot be read: [null], a logic without a text, a condition
    that is [null]. *)
Definition unreadable_rule (v : value) : bool :=
  is_null v
  || match upper_is (get_prop v (js "logic")) (js "OR") (js "AND") with None => true | Some _ => false end
  || match get_prop v (js "conditions") with VArr l => existsb is_null l | _ => false end.

Lemma throws_operation v : throws (normalizeOperation clock v) (unreadable_rule v).
Proof.
  intros n. unfold normalizeOperation, unreadable_rule, mbind, fresh_bind, lift, require_object. cbn [nextLocalId].
  destruct (is_null v) eqn:En; [by destruct v|].
  assert (match v with VNull => None | _ => Some tt end = Some tt) as Ev by (by destruct v).
  unfold lift. rewrite Ev. cbn [orb]. destruct (upper_is _ _ _); [|done]. cbn [orb].
  assert (Hc : throws (match get_prop v (js "conditions") with
     | VArr l => map_fresh (normalizeCondition clock) l | _ => mret [] end)
     (match get_prop v (js "conditions") with VArr l => existsb is_null l | _ => false end)).
  { destruct (get_prop v _); try (by intros n'). apply throws_map, throws_condition. }
  specialize (Hc (n + 1)%N).
  match type of Hc with match ?r.1 with _ => _ end => destruct r as [[cs|] n3] end; done.
Qed.

(** A text whose rules cannot be read. *)
Definition unreadable (text : jsstr) : bool :=
  match json_parse (trim text) with
  | Some (VObj fs) => match get_prop (VObj fs) (js "operations") with
                      | VArr l => existsb unreadable_rule l | _ => false end
  | _ => false
  end.

Lemma throws_default {A} (f : ParamOverrideOperation -> A) :
  throws (o ← createDefaultOperation clock; mret (f o)) false.
Proof. by intros n. Qed.

Lemma throws_load l : throws (load_operations clock l) (existsb unreadable_rule l).
Proof. destruct l; [by intros n|]. apply throws_map, throws_operation. Qed.

Lemma throws_parseInitialState text : throws (parseInitialState clock text) (unreadable text).
Proof.
  unfold parseInitialState, unreadable. destruct (trim text) as [|c r] eqn:E; [apply throws_default|].
  cbn [nonempty negb]. destruct (json_parse _) as [parsed|]; [|apply throws_default].
  destruct parsed as [| | | | | |fs]; try apply throws_default.
  destruct (get_prop (VObj fs) (js "operations")); try apply throws_default.
  intros n. pose proof (throws_load l n) as H. unfold mbind, fresh_bind.
  by destruct (load_operations clock l n) as [[ops|] n'].
Qed.

Lemma throws_clone o : throws (normalizeOperation clock (clone_value o)) false.
Proof.
  pose proof (throws_operation (clone_value o)) as H.
  assert (unreadable_rule (clone_value o) = false) as E; [|by rewrite E in H].
  unfold unreadable_rule, clone_value. cbn [is_null orb get_prop].
  apply orb_false_intro; [by destruct (o_logic o)|]. cbn. 
  induction (o_conditions o) as [|c cs IH]; [done|]. exact IH.
Qed.

Lemma fresh_no_crash {A} (m : Fresh A) f g s b :
  throws m b -> (forall a s', ed_crashed (f a s') = ed_crashed s') ->
  (b = true -> forall s', ed_crashed (g s') = ed_crashed s') ->
  ed_crashed (with_fresh m f g s) = ed_crashed s.
Proof.
  intros Hm Hf Hg. unfold with_fresh. specialize (Hm (ed_seed s)).
  destruct (m (ed_seed s)) as [[a|] n']; [by rewrite Hf|]. by rewrite Hg.
Qed.

Lemma prune_no_crash x upd s : steady upd -> ed_crashed (update_prune clock x upd s) = ed_crashed s.
Proof.
  intros Hu. unfold update_prune, with_fresh.
  by destruct (update_prune_in_spec x upd (ed_operations s) (ed_seed s) Hu) as (ops' & n' & -> & _).
Qed.

Lemma default_no_crash (f : ParamOverrideOperation -> Editor -> Editor) g s :
  (forall a s', ed_crashed (f a s') = ed_crashed s') ->
  ed_crashed (with_fresh (createDefaultOperation clock) f g s) = ed_crashed s.
Proof. intros Hf. by apply (fresh_no_crash _ _ _ _ false). Qed.

Lemma open_crash text s :
  ed_crashed s = false -> ed_crashed (open_dialog clock text s) = unreadable text.
Proof.
  intros Hs. unfold open_dialog, with_fresh. cbn [ed_seed set_outside].
  pose proof (throws_parseInitialState text (ed_seed s)) as H.
  destruct (parseInitialState clock text (ed_seed s)) as [[st|] n']; cbn [fst] in H; rewrite H; done.
Qed.

Lemma fill_no_crash append s : ed_crashed (fillTemplate clock t append s) = ed_crashed s.
Proof.
  unfold fillTemplate, fill_legacy. destruct (tp_legacy _).
  - destruct append, (ed_visualMode s); try (by apply default_no_crash). destruct (negb _); [by apply default_no_crash|].
    destruct (json_parse _); [by apply default_no_crash|done].
  - destruct append.
    + by eapply fresh_no_crash; [apply throws_map, throws_operation|..].
    + by eapply fresh_no_crash; [apply throws_load|..].
Qed.

Lemma switch_no_crash s : ed_crashed (switchToVisualMode clock t s) = ed_crashed s.
Proof.
  unfold switchToVisualMode, show_default. destruct (ed_editMode s); [done|].
  destruct (negb _); [by apply default_no_crash|]. destruct (json_parse _) as [parsed|]; [|done].
  destruct parsed as [| | | | | |fs]; try done.
  destruct (get_prop (VObj fs) _); try (by apply default_no_crash).
  by eapply fresh_no_crash; [apply throws_load|..].
Qed.

Lemma render_no_crash changed s : ed_crashed (render clock changed s) = ed_crashed s.
Proof.
  apply (fresh_no_crash _ _ _ _ false); [|done..]. intros n. unfold mbind, fresh_bind.
  change (createDefaultOperation clock n) with
      (Some (mkOperation (local_id clock n) [] [] MSet [] [] [] false LOr []), (n + 1)%N). cbv iota beta.
  destruct changed; [|done]. unfold pruneObjectsDraft.
  destruct (selectedOperation s) as [o|]; [|done]. destruct (bool_decide _); [|done].
  destruct (runs_prune (o_value_text o) (n + 1)%N) as (d & n' & E & _). unfold mbind, fresh_bind. by rewrite E.
Qed.

(** Only opening can unmount the dialog. *)
Lemma step_crash s e :
  ed_crashed s = false ->
  ed_crashed (step clock t typeError s e) = match e with Open text => unreadable text | _ => false end.
Proof.
  intros Hs. unfold step. rewrite Hs. destruct e; try (rewrite <- Hs); try reflexivity.
  - by apply open_crash.
  - unfold settle_selection. destruct (negb _); [done|]. by destruct (has_id _ _).
  - apply render_no_crash.
  - unfold duplicateOperation. destruct (find_index _ _); [|done]. destruct (_ !! _); [|done].
    apply (fresh_no_crash _ _ _ _ false); [apply throws_clone| |done]. intros a s'. by destruct eager.
  - unfold removeOperation. destruct (_ <=? _); [by apply default_no_crash|done].
  - unfold expand_conditions. by destruct (selectedOperation s).
  - apply prune_no_crash, steady_pure.
  - apply prune_no_crash, steady_add_rule.
  - apply prune_no_crash, steady_pure.
  - apply prune_no_crash, steady_pure.
  - unfold handleDragOver. by destruct (_ || _).
  - unfold handleDrop. by destruct (_ && _).
  - unfold switchToJsonMode. destruct (ed_editMode s); [|done]. by destruct (buildVisualJson _ _ s).
  - apply switch_no_crash.
  - apply fill_no_crash.
  - unfold formatJson. destruct (negb _); [done|]. by destruct (json_parse _).
  - unfold handleSave. by destruct (save_result t typeError s).
Qed.

(** ** Changes of prune rules *)

Definition no_patch : PrunePatch := mkPrPatch None None None None.
Definition detailed : PrunePatch := mkPrPatch (Some false) None None None.

(** Updates that agree on the drafts that can be read from now on. *)
Lemma update_prune_hit x u o ops n d n1 d' n2 :
  o_id o = x -> parsePruneObjectsDraft clock (o_value_text o) n = (Some d, n1) -> u d n1 = (Some d', n2) ->
  update_prune_in clock x u (o :: ops) n
  = match update_prune_in clock x u ops n2 with
    | (Some ops', n3) => (Some (with_value_text (buildPruneObjectsValueText d') o :: ops'), n3)
    | (None, n3) => (None, n3)
    end.
Proof.
  intros Hx E E'. unfold update_prune_in. cbn [map_fresh]. rewrite (bool_decide_eq_true_2 _ Hx).
  rewrite (bind_run _ _ n (with_value_text (buildPruneObjectsValueText d') o) n2); [done|].
  by rewrite (bind_run _ _ _ _ _ E), (bind_run _ _ _ _ _ E').
Qed.

Lemma update_prune_miss x u o ops n :
  o_id o <> x ->
  update_prune_in clock x u (o :: ops) n
  = match update_prune_in clock x u ops n with
    | (Some ops', n3) => (Some (o :: ops'), n3)
    | (None, n3) => (None, n3)
    end.
Proof.
  intros Hx. unfold update_prune_in. cbn [map_fresh]. by rewrite (bool_decide_eq_false_2 _ Hx).
Qed.

Lemma update_prune_in_ext x u1 u2 ops n :
  steady u1 ->
  (forall text n1 d n2, (n <= n1)%N -> parsePruneObjectsDraft clock text n1 = (Some d, n2) -> u1 d = u2 d) ->
  update_prune_in clock x u1 ops n = update_prune_in clock x u2 ops n.
Proof.
  intros Hu. revert n. induction ops as [|o ops IH]; intros n He; [done|].
  destruct (decide (o_id o = x)) as [Hx|Hx]; [|rewrite !update_prune_miss by done; by rewrite IH].
  destruct (runs_prune (o_value_text o) n) as (d & n1 & E & _).
  pose proof (makes_prune (o_value_text o) n) as Hn. rewrite E in Hn. destruct Hn as [Hn _].
  destruct (Hu d n1) as (d' & n2 & E' & Hn').
  assert (E2 : u2 d n1 = (Some d', n2)) by (by rewrite <- (He (o_value_text o) n d n1 ltac:(lia) E)).
  rewrite (update_prune_hit _ _ _ _ _ _ _ _ _ Hx E E'), (update_prune_hit _ _ _ _ _ _ _ _ _ Hx E E2).
  rewrite IH; [done|]. intros text m1 e m2 Hm. apply He. lia.
Qed.

(** The ids of the rules read from now on are new. *)
Lemma later_ids x text n1 d n2 n :
  made 0 n x -> (n <= n1)%N -> parsePruneObjectsDraft clock text n1 = (Some d, n2) ->
  Forall (fun r : PruneRule => bool_decide (c_id r = x) = false) (pr_rules d).
Proof.
  intros (k & Hk & ->) Hn E. pose proof (makes_prune text n1) as H. rewrite E in H. destruct H as [_ [Hm _]].
  unfold rule_ids, rules_ids in Hm. apply Forall_forall. intros r Hr. apply bool_decide_eq_false. intros Ex.
  rewrite Forall_forall in Hm. destruct (Hm (c_id r)) as (k' & Hk' & Ek).
  { apply list_elem_of_In, in_map, list_elem_of_In, Hr. }
  rewrite Ek in Ex. apply local_id_inj in Ex. lia.
Qed.

Lemma update_prune_ext x u1 u2 s :
  steady u1 ->
  (forall text n1 d n2, (ed_seed s <= n1)%N -> parsePruneObjectsDraft clock text n1 = (Some d, n2) ->
     u1 d = u2 d) ->
  update_prune clock x u1 s = update_prune clock x u2 s.
Proof. intros Hu He. unfold update_prune, with_fresh. by rewrite (update_prune_in_ext x u1 u2). Qed.

Lemma updatePruneRule_frozen x rule p s :
  made 0 (ed_seed s) rule -> updatePruneRule clock x rule p s = updatePruneObjectsDraft clock x no_patch s.
Proof.
  intros Hr. apply update_prune_ext; [apply steady_pure|]. intros text n1 d n2 Hn E.
  pose proof (later_ids _ _ _ _ _ _ Hr Hn E) as Hf.
  cbv beta. match goal with |- context [List.map ?f (pr_rules d)] =>
    assert (List.map f (pr_rules d) = pr_rules d) as ->; [|by destruct d] end.
  clear E. induction Hf as [|r rs Hr' _ IH]; [done|]. cbn [List.map]. by rewrite Hr', IH.
Qed.

Lemma removePruneRule_frozen x rule s :
  made 0 (ed_seed s) rule -> removePruneRule clock x rule s = updatePruneObjectsDraft clock x no_patch s.
Proof.
  intros Hr. apply update_prune_ext; [apply steady_pure|]. intros text n1 d n2 Hn E.
  pose proof (later_ids _ _ _ _ _ _ Hr Hn E) as Hf.
  rewrite filter_all; [by destruct d|]. apply forallb_Forall_true. eapply Forall_impl; [exact Hf|].
  by intros r ->.
Qed.

Lemma update_prune_in_other x upd ops n :
  x ∉ List.map o_id ops -> update_prune_in clock x upd ops n = (Some ops, n).
Proof.
  induction ops as [|o ops IH]; [done|]. cbn [List.map]. intros [H1 H2]%not_elem_of_cons.
  by rewrite update_prune_miss, IH.
Qed.

Lemma build_added_rule d r :
  trim (c_path r) = [] ->
  buildPruneObjectsValueText (with_rules false (pr_rules d ++ [r]) d)
  = buildPruneObjectsValueText (patch_prune detailed d).
Proof.
  intros Hr. unfold buildPruneObjectsValueText, with_rules, patch_prune, detailed.
  cbn [pr_simpleMode pr_typeText pr_logic pr_recursive pr_rules default from_option pp_simpleMode pp_typeText
       pp_logic pp_recursive id].
  rewrite List.filter_app. cbn [List.filter]. by rewrite Hr, app_nil_r.
Qed.

Lemma addPruneRule_lost x s :
  editor_ok s ->
  ed_operations (addPruneRule clock x s) = ed_operations (updatePruneObjectsDraft clock x detailed s).
Proof.
  intros Hs%rules_ids_NoDup. unfold addPruneRule, updatePruneObjectsDraft, update_prune, with_fresh.
  assert (H : forall ops n, NoDup (List.map o_id ops) -> exists ops' n1 n2,
    update_prune_in clock x (fun d => r ← normalizePruneRule clock (VObj []);
                                      mret (with_rules false (pr_rules d ++ [r]) d)) ops n = (Some ops', n1)
    /\ update_prune_in clock x (fun d => mret (patch_prune detailed d)) ops n = (Some ops', n2)).
  { intros ops n Hn. induction ops as [|o ops IH]; [by exists [], n, n|]. apply NoDup_cons in Hn as [Ho Hn].
    destruct (decide (o_id o = x)) as [Hx|Hx].
    - subst x. destruct (runs_prune (o_value_text o) n) as (d & n1 & E & _).
      do 3 eexists. erewrite update_prune_hit, update_prune_in_other; [|done|done|exact E|reflexivity].
      split; [reflexivity|]. erewrite update_prune_hit, update_prune_in_other; [|done|done|exact E|reflexivity].
      by rewrite build_added_rule.
    - rewrite !update_prune_miss by done. destruct (IH Hn) as (ops' & n1 & n2 & -> & ->). by eexists _, _, _. }
  by destruct (H (ed_operations s) (ed_seed s) Hs) as (ops' & n1 & n2 & -> & ->).
Qed.
End Ids.

(** ** Theorems *)

Lemma reachable_ok clock t typeError s : reachable clock t typeError s -> editor_ok clock s.
Proof. induction 1; [apply initial_ok|by apply step_ok]. Qed.

Lemma settled s clock t typeError :
  editor_ok clock s -> ed_crashed s = false ->
  exists o, selectedOperation (step clock t typeError s Settle) = Some o.
Proof.
  intros [Hne _] Hc. unfold step. rewrite Hc. unfold settle_selection, selectedOperation.
  destruct (ed_operations s) as [|o ops] eqn:E; [done|]. cbn [nonempty negb].
  destruct (has_id (ed_selected s) (o :: ops)) eqn:Hh.
  - rewrite E. apply existsb_exists in Hh as (o' & Hin & Ho').
    destruct (List.find _ (o :: ops)) as [o''|] eqn:Ef; [by exists o''|].
    by rewrite (find_none _ _ Ef o' Hin) in Ho'.
  - cbn. rewrite E. cbn [first_id List.find]. rewrite bool_decide_eq_true_2 by done. by exists o.
Qed.

(** C9: in every state the dialog can reach there is at least one rule, the ids
    of the rules and conditions are pairwise distinct, every id was made from
    a counter value below the current one (so an id is never made again), and,
    unless the dialog was unmounted by an exception, the selection effect
    leaves an existing rule selected. *)
Theorem editor_invariant (clock : N -> N) (t : jsstr -> option nat -> jsstr) (typeError : jsstr) (s : Editor)
    (Hr : reachable clock t typeError s) :
  ed_operations s <> []
  /\ NoDup (all_ids (ed_operations s))
  /\ Forall (fun x => exists k, (k < ed_seed s)%N /\ x = local_id clock k) (all_ids (ed_operations s))
  /\ (ed_crashed s = false -> exists o, selectedOperation (step clock t typeError s Settle) = Some o).
Proof.
  pose proof (reachable_ok _ _ _ _ Hr) as Hok. split_and!; [by destruct Hok|by destruct Hok as [_ [_ ?]]| |].
  - destruct Hok as [_ [Hm _]]. eapply Forall_impl; [exact Hm|]. intros x (k & Hk & ->). exists k. split; [lia|done].
  - by apply settled.
Qed.

Definition sample_session (events : list Event) : Editor :=
  fold_left (step (fun _ => 5%N) (fun k _ => 1%N :: k) []) events (initial_editor (fun _ => 5%N) 0).

Lemma sample_reachable events : reachable (fun _ => 5%N) (fun k _ => 1%N :: k) [] (sample_session events).
Proof.
  unfold sample_session. rewrite <- (rev_involutive events). induction (rev events) as [|e l IH]; [constructor|].
  cbn [rev]. rewrite fold_left_app. by apply reach_step.
Qed.

Lemma editor_invariant_witness :
  let s := sample_session [AddOperation; RemoveOperation (js "po_5_0"); AddCondition (js "po_5_1");
                           DuplicateOperation (js "po_5_1") true] in
  all_ids (ed_operations s) = [js "po_5_1"; js "po_5_2"; js "po_5_3"; js "po_5_4"]
  /\ NoDup (all_ids (ed_operations s)).
Proof.
  intros s. split; [vm_compute; reflexivity|].
  apply (editor_invariant (fun _ => 5%N) (fun k _ => 1%N :: k) [] s (sample_reachable _)).
Defined.

(** C33: no action of the user can unmount the dialog by an exception except
    opening it, and opening does so exactly when the stored text has a rule
    that cannot be read: a rule that is [null], one whose [logic] has no text,
    or one with a condition that is [null]. *)
Theorem dialog_unmounts (clock : N -> N) (t : jsstr -> option nat -> jsstr) (typeError : jsstr) (s : Editor)
    (e : Event) (Hs : ed_crashed s = false) :
  ed_crashed (step clock t typeError s e) = true <-> exists text, e = Open text /\ unreadable text = true.
Proof.
  rewrite step_crash by done. split.
  - destruct e; try done. by exists text.
  - by intros (text & -> & ?).
Qed.

Lemma dialog_unmounts_witness :
  ed_crashed (sample_session []) = false
  /\ ed_crashed (step (fun _ => 5%N) (fun k _ => 1%N :: k) [] (sample_session [])
       (Open (stringify2 (with_operations [VNull])))) = true.
Proof.
  split; [vm_compute; reflexivity|]. apply dialog_unmounts; [vm_compute; reflexivity|].
  eexists. split; [reflexivity|vm_compute; reflexivity].
Defined.

(** C34: the rules of a [prune_objects] draft cannot be changed.  Take a rule of
    the draft that a rendering of state [s] parsed, when the counter went from
    [m] to [n], and any later state [s'] of the dialog: changing the rule or removing it in [s'] does the same as
    changing nothing (the draft is read and printed again), because the draft
    is read again with new ids and the id of the shown rule matches none; and
    adding a rule does to the list of rules what leaving the simple mode does,
    because the new rule has no path and is dropped when the draft is
    printed. *)
Theorem prune_rules_frozen (clock : N -> N) (t : jsstr -> option nat -> jsstr) (typeError : jsstr)
    (s s' : Editor) (d : PruneObjectsDraft) (m n : N) (x : jsstr) (r : PruneRule) (p : ConditionPatch)
    (Hshown : pruneObjectsDraft clock s m = (Some (Some d), n)) (Hrule : r ∈ pr_rules d)
    (Hlater : (n <= ed_seed s')%N) (Hreach : reachable clock t typeError s') (Hs : ed_crashed s' = false) :
  step clock t typeError s' (UpdatePruneRule x (c_id r) p) = step clock t typeError s' (UpdatePrune x no_patch)
  /\ step clock t typeError s' (RemovePruneRule x (c_id r)) = step clock t typeError s' (UpdatePrune x no_patch)
  /\ ed_operations (step clock t typeError s' (AddPruneRule x))
     = ed_operations (step clock t typeError s' (UpdatePrune x detailed)).
Proof.
  assert (Hm : made clock 0 (ed_seed s') (c_id r)).
  { unfold pruneObjectsDraft in Hshown. destruct (selectedOperation s) as [o|]; [|done].
    destruct (bool_decide _); [|done]. pose proof (makes_prune clock (o_value_text o) m) as H.
    unfold mbind, fresh_bind in Hshown.
    destruct (parsePruneObjectsDraft clock (o_value_text o) m) as [[d'|] n']; [|done].
    injection Hshown as -> ->. destruct H as [_ [H _]]. rewrite Forall_forall in H.
    assert (Hin : c_id r ∈ rule_ids d) by (apply list_elem_of_In, in_map, list_elem_of_In, Hrule).
    eapply made_mono; [..|exact (H _ Hin)]; lia. }
  unfold step. rewrite Hs. split_and!.
  - by apply updatePruneRule_frozen.
  - by apply removePruneRule_frozen.
  - apply addPruneRule_lost. by eapply reachable_ok.
Qed.

(** A dialog with one pruning rule, its draft read. *)
Definition prune_text : jsstr :=
  stringify2 (with_operations [text_obj [("mode"%string, str "prune_objects");
    ("value"%string, text_obj [("conditions"%string, VArr [condition_value "type" "full" "x"])])]]).

Lemma prune_rules_frozen_witness :
  exists (d : PruneObjectsDraft) (r : PruneRule),
    pruneObjectsDraft (fun _ => 5%N) (sample_session [Open prune_text]) 3%N = (Some (Some d), 4%N)
    /\ r ∈ pr_rules d /\ c_path r = js "type"
    /\ step (fun _ => 5%N) (fun k _ => 1%N :: k) [] (sample_session [Open prune_text; Render true])
         (RemovePruneRule (js "po_5_1") (c_id r))
       = step (fun _ => 5%N) (fun k _ => 1%N :: k) [] (sample_session [Open prune_text; Render true])
         (UpdatePrune (js "po_5_1") no_patch).
Proof.
  assert (E : exists d r, pruneObjectsDraft (fun _ => 5%N) (sample_session [Open prune_text]) 3%N
                = (Some (Some d), 4%N) /\ pr_rules d = [r] /\ c_path r = js "type")
    by (do 2 eexists; split_and!; vm_compute; reflexivity).
  destruct E as (d & r & Ed & Er & Ep). exists d, r.
  assert (Hin : r ∈ pr_rules d) by (rewrite Er; left).
  split_and!; [exact Ed|exact Hin|exact Ep|].
  apply (prune_rules_frozen (fun _ => 5%N) (fun k _ => 1%N :: k) [] (sample_session [Open prune_text])
           (sample_session [Open prune_text; Render true]) d 3%N 4%N (js "po_5_1") r
           (mkCondPatch None None None None None)); [exact Ed|exact Hin| |apply sample_reachable|].
  - vm_compute. discriminate.
  - vm_compute. reflexivity.
Defined.
