(* ===== verification/ChannelForm.v ===== *)
(** * The channel form ([features/channels/lib/channel-form.ts])

    The form a channel is created and edited with: its validation, the values
    a stored channel fills it with, and the payloads it is saved as.

    The optional texts of the form are read with [|| ''], [?.trim()] or a test
    for truth everywhere, so an undefined text is the empty text here; the
    fields that come out of stored JSON without a check are run-time values.
    A channel's nullable texts are read with [|| ''] only. *)

From S2P Require Import Prelude JsNumber JsValue JsPretty AdvancedCustom.

(** ** Data *)

Record Channel := mkChannel {
  ch_type : number; ch_name : jsstr; ch_base_url : jsstr; ch_openai_organization : jsstr;
  ch_models : jsstr; ch_group : jsstr; ch_model_mapping : jsstr; ch_priority : number;
  ch_weight : number; ch_test_model : jsstr; ch_auto_ban : option number; ch_status : number;
  ch_status_code_mapping : jsstr; ch_tag : jsstr; ch_remark : jsstr; ch_setting : jsstr;
  ch_param_override : jsstr; ch_header_override : jsstr; ch_settings : jsstr; ch_other : jsstr;
  ch_multi_key_mode : jsstr }.

(** The settings kept in the JSON of [setting]. *)
Record ExtraSettings := mkExtra {
  x_force_format : value; x_thinking_to_content : value; x_proxy : value;
  x_pass_through_body_enabled : value; x_system_prompt : value; x_system_prompt_override : value }.

(** The settings kept in the JSON of [settings]. *)
Record TypeSettings := mkTypeSettings {
  y_is_enterprise_account : bool; y_vertex_key_type : value; y_azure_responses_version : value;
  y_aws_key_type : value; y_allow_service_tier : bool; y_disable_store : bool;
  y_allow_safety_identifier : bool; y_allow_include_obfuscation : bool; y_allow_inference_geo : bool;
  y_allow_speed : bool; y_claude_beta_query : bool; y_disable_task_polling_sleep : bool;
  y_check_enabled : bool; y_auto_sync_enabled : bool; y_ignored_models : jsstr;
  y_advanced_custom : jsstr }.

Record ChannelFormValues := mkForm {
  f_name : jsstr; f_type : number; f_base_url : jsstr; f_key : jsstr; f_openai_organization : jsstr;
  f_models : jsstr; f_group : list jsstr; f_model_mapping : jsstr; f_priority : number;
  f_weight : number; f_test_model : jsstr; f_auto_ban : option number; f_status : number;
  f_status_code_mapping : jsstr; f_tag : jsstr; f_remark : jsstr; f_setting : jsstr;
  f_param_override : jsstr; f_header_override : jsstr; f_settings : jsstr; f_other : jsstr;
  f_multi_key_mode : jsstr; f_multi_key_type : jsstr; f_batch_prefix : bool; f_key_mode : jsstr;
  f_extra : ExtraSettings; f_typed : TypeSettings }.

(** [n === z] and [SET.has(n)] for a channel type. *)
Definition type_is (x : number) (z : Z) : bool := num_eqb x (num_of_Z z).
Definition type_in (x : number) (zs : list Z) : bool := existsb (type_is x) zs.

Definition MODEL_FETCHABLE_TYPES : list Z :=
  [1; 4; 14; 17; 20; 23; 24; 25; 26; 27; 31; 34; 35; 40; 42; 43; 47; 48]%Z.

Definition default_extra : ExtraSettings :=
  mkExtra (VBool false) (VBool false) (VStr []) (VBool false) (VStr []) (VBool false).
Definition default_typed : TypeSettings :=
  mkTypeSettings false (VStr (js "json")) (VStr []) (VStr (js "ak_sk")) false false false false false
    false false false false false [] [].

Definition CHANNEL_FORM_DEFAULT_VALUES : ChannelFormValues :=
  mkForm [] (num_of_Z 1) [] [] [] [] [js "default"] [] (num_of_Z 0) (num_of_Z 0) [] (Some (num_of_Z 1))
    (num_of_Z 1) [] [] [] [] [] [] (js "{}") [] (js "single") (js "random") false (js "append")
    default_extra default_typed.

(** ** Lists in text *)

Definition split_list (s : jsstr) : list jsstr :=
  List.filter nonempty (List.map trim (split_char (ch ",") s)).
Definition parseModels (models : jsstr) : list jsstr :=
  if negb (nonempty models) then [] else split_list models.
Definition parseGroups (groups : jsstr) : list jsstr :=
  if negb (nonempty groups) then [] else split_list groups.
Definition formatModels (models : list jsstr) : jsstr := join (js ",") models.
Definition formatGroups (groups : list jsstr) : jsstr := join (js ",") groups.

(** ** Validation *)

(** [undefined] is [Some None]; [None] when the text is not JSON. *)
Definition parseOptionalJson (v : jsstr) : option (option value) :=
  if negb (nonempty (trim v)) then Some None else Some <$> json_parse v.

Definition isJsonObjectValue (v : value) : bool := match v with VObj _ => true | _ => false end.

(** A check of the parsed value; a blank text passes, a text that is not JSON
    does not. *)
Definition optional_json (check : value -> bool) (v : jsstr) : bool :=
  match parseOptionalJson v with
  | Some None => true
  | Some (Some parsed) => check parsed
  | None => false
  end.

Definition isOptionalJsonObject : jsstr -> bool := optional_json isJsonObjectValue.

Definition is_string (v : value) : bool := match v with VStr _ => true | _ => false end.

Definition isOptionalModelMapping : jsstr -> bool :=
  optional_json (fun v => match v with VObj fs => forallb (fun f => is_string f.2) fs | _ => false end).

Definition is_status (x : number) : bool :=
  is_integer x && num_leb (num_of_Z 100) x && num_leb x (num_of_Z 599).

(** An entry of a status code mapping; a value that cannot be converted makes
    the check throw, which is caught as a failed check. *)
Definition status_entry (f : jsstr * value) : bool :=
  match to_number f.2 with
  | Some toCode => is_status (num_of_string f.1) && is_status toCode
  | None => false
  end.

Definition isOptionalStatusCodeMapping : jsstr -> bool :=
  optional_json (fun v => match v with VObj fs => forallb status_entry fs | _ => false end).

(** [typeof v === 'string' && v.trim().length > 0] *)
Definition filled_text (v : value) : bool :=
  match v with VStr s => nonempty (trim s) | _ => false end.

Definition isCodexCredential : jsstr -> bool :=
  optional_json (fun v => isJsonObjectValue v && filled_text (get_prop v (js "access_token"))
                          && filled_text (get_prop v (js "account_id"))).

Definition isVertexJsonKey : jsstr -> bool :=
  optional_json (fun v => match v with VArr l => forallb isJsonObjectValue l | _ => isJsonObjectValue v end).

Definition validateJSON (v : jsstr) : bool :=
  if negb (nonempty v) || negb (nonempty (trim v)) then true
  else match json_parse v with Some _ => true | None => false end.

Definition validateModelMapping (v : jsstr) : bool :=
  if negb (nonempty v) || negb (nonempty (trim v)) then true else validateJSON v.

(** The failed checks of single fields, with the field and the message. *)
Definition field_issues (data : ChannelFormValues) : list (jsstr * jsstr) :=
  let issue (bad : bool) (path message : jsstr) := if bad then [(path, message)] else [] in
  issue (negb (nonempty (f_name data))) (js "name") (js "Channel name is required")
  ++ issue (negb (num_leb (num_of_Z 0) (f_type data))) (js "type") (js "Channel type is required")
  ++ issue (negb (nonempty (f_models data))) (js "models") (js "Models are required")
  ++ issue (negb (nonempty (f_group data))) (js "group") (js "Group is required")
  ++ issue (negb (isOptionalModelMapping (f_model_mapping data))) (js "model_mapping")
       (js "Model mapping must be a JSON object with string values")
  ++ issue (negb (isOptionalStatusCodeMapping (f_status_code_mapping data))) (js "status_code_mapping")
       (js "Status code mapping must use valid HTTP status codes")
  ++ issue (255 <? length (f_remark data)) (js "remark") (js "Remark must be less than 255 characters")
  ++ issue (negb (isOptionalJsonObject (f_setting data))) (js "setting") (js "Invalid JSON format")
  ++ issue (negb (isOptionalJsonObject (f_param_override data))) (js "param_override")
       (js "Invalid JSON format")
  ++ issue (negb (isOptionalJsonObject (f_header_override data))) (js "header_override")
       (js "Invalid JSON format")
  ++ issue (negb (isOptionalJsonObject (f_settings data))) (js "settings") (js "Invalid JSON format").

Section Refine.
Context (url : jsstr -> option (jsstr * jsstr)).

Definition K_base_url := js "Base URL is required for this channel type".
Definition K_base_url_route := js "Base URL is required when an advanced route uses an upstream path".
Definition K_other := js "This channel type requires additional configuration".
Definition K_codex_batch := js "Codex channels do not support batch creation".
Definition K_codex_key := js "Codex credential must be a JSON object with access_token and account_id".
Definition K_vertex_key := js "Vertex AI service account key must be valid JSON".
Definition K_vertex_batch := js "Vertex AI API Key mode does not support batch creation".

Definition blank (s : jsstr) : bool := negb (nonempty (trim s)).
(** A mode is given and is not [single]. *)
Definition batch_mode (data : ChannelFormValues) : bool :=
  nonempty (f_multi_key_mode data) && negb (bool_decide (f_multi_key_mode data = js "single")).

(** The checks across fields, in order; [None] when one throws. *)
Definition superRefine (data : ChannelFormValues) : option (list (jsstr * jsstr)) :=
  let issue (bad : bool) (path message : jsstr) := if bad then [(path, message)] else [] in
  let type := f_type data in
  let y := f_typed data in
  advanced ← (if type_is type CHANNEL_TYPE_ADVANCED_CUSTOM then
      let config := config_value <$> parseAdvancedCustomConfig (Some (y_advanced_custom y)) in
      error ← validateAdvancedCustomConfig url config;
      relative ← advancedCustomConfigUsesRelativeUpstreamPath config;
      Some (match error with Some e => [(js "advanced_custom", er_message e)] | None => [] end
            ++ issue (relative && blank (f_base_url data)) (js "base_url") K_base_url_route)
    else Some []);
  Some (issue (type_in type [3; 8; 36; 45]%Z && blank (f_base_url data)) (js "base_url") K_base_url
        ++ advanced
        ++ issue (type_in type [3; 18; 21; 39; 41; 49]%Z && blank (f_other data)) (js "other") K_other
        ++ (if type_is type 57 then
              issue (batch_mode data) (js "multi_key_mode") K_codex_batch
              ++ issue (negb (blank (f_key data)) && negb (isCodexCredential (f_key data))) (js "key") K_codex_key
            else [])
        ++ issue (type_is type 41 && is_text (y_vertex_key_type y) (js "json") && negb (blank (f_key data))
                  && negb (isVertexJsonKey (f_key data))) (js "key") K_vertex_key
        ++ issue (type_is type 41 && is_text (y_vertex_key_type y) (js "api_key") && batch_mode data)
             (js "multi_key_mode") K_vertex_batch).
End Refine.

(** ** From a channel to the form *)

(** [v === true] *)
Definition is_true (v : value) : bool := match v with VBool b => b | _ => false end.

Definition extra_of (parsed : value) : ExtraSettings :=
  let get k d := value_or (get_prop parsed (js k)) d in
  mkExtra (get "force_format"%string (VBool false)) (get "thinking_to_content"%string (VBool false))
    (get "proxy"%string (VStr [])) (get "pass_through_body_enabled"%string (VBool false))
    (get "system_prompt"%string (VStr [])) (get "system_prompt_override"%string (VBool false)).

(** The defaults stay when the text is not JSON or is [null], whose properties
    cannot be read. *)
Definition read_extra (setting : jsstr) : ExtraSettings :=
  if negb (nonempty setting) then default_extra
  else match json_parse setting with
       | None | Some VNull => default_extra
       | Some parsed => extra_of parsed
       end.

(** [list.join(',')], [None] when it throws. *)
Definition ignored_of (parsed : value) : option jsstr :=
  match get_prop parsed (js "upstream_model_update_ignored_models") with
  | VArr l => to_string (VArr l)
  | _ => Some []
  end.

(** The assignments are made in order; when a conversion throws, the later
    ones keep their defaults. *)
Definition typed_of (parsed : value) : TypeSettings :=
  let flag k := is_true (get_prop parsed (js k)) in
  let advanced := get_prop parsed (js "advanced_custom") in
  mkTypeSettings (flag "openrouter_enterprise"%string)
    (value_or (get_prop parsed (js "vertex_key_type")) (VStr (js "json")))
    (value_or (get_prop parsed (js "azure_responses_version")) (VStr []))
    (value_or (get_prop parsed (js "aws_key_type")) (VStr (js "ak_sk")))
    (flag "allow_service_tier"%string) (flag "disable_store"%string)
    (flag "allow_safety_identifier"%string) (flag "allow_include_obfuscation"%string)
    (flag "allow_inference_geo"%string) (flag "allow_speed"%string) (flag "claude_beta_query"%string)
    (flag "disable_task_polling_sleep"%string) (flag "upstream_model_update_check_enabled"%string)
    (flag "upstream_model_update_auto_sync_enabled"%string) (default [] (ignored_of parsed))
    (match ignored_of parsed with
     | Some _ => if truthy advanced then default [] (stringifyAdvancedCustomConfig advanced) else []
     | None => []
     end).

Definition read_typed (settings : jsstr) : TypeSettings :=
  if negb (nonempty settings) then default_typed
  else match json_parse settings with
       | None | Some VNull => default_typed
       | Some parsed => typed_of parsed
       end.

Definition transformChannelToFormDefaults (channel : Channel) : ChannelFormValues :=
  mkForm (ch_name channel) (ch_type channel) (ch_base_url channel) [] (ch_openai_organization channel)
    (ch_models channel) (parseGroups (str_or (ch_group channel) (js "default")))
    (ch_model_mapping channel) (num_or (ch_priority channel) (num_of_Z 0))
    (num_or (ch_weight channel) (num_of_Z 0)) (ch_test_model channel)
    (Some (default (num_of_Z 1) (ch_auto_ban channel))) (ch_status channel)
    (ch_status_code_mapping channel) (ch_tag channel) (ch_remark channel) (ch_setting channel)
    (ch_param_override channel) (ch_header_override channel) (str_or (ch_settings channel) (js "{}"))
    (ch_other channel) (js "single") (str_or (ch_multi_key_mode channel) (js "random")) false
    (js "append") (read_extra (ch_setting channel)) (read_typed (ch_settings channel)).

(** ** From the form to payloads *)

Definition buildSettingJSON (x : ExtraSettings) : jsstr :=
  stringify (VObj
    [(js "force_format", value_or (x_force_format x) (VBool false));
     (js "thinking_to_content", value_or (x_thinking_to_content x) (VBool false));
     (js "proxy", value_or (x_proxy x) (VStr []));
     (js "pass_through_body_enabled", value_or (x_pass_through_body_enabled x) (VBool false));
     (js "system_prompt", value_or (x_system_prompt x) (VStr []));
     (js "system_prompt_override", value_or (x_system_prompt_override x) (VBool false))]).

(** [if (b) o.k = v else if ('k' in o) delete o.k] *)
Definition set_or_delete (b : bool) (k : string) (v : value) (fs : list (jsstr * value))
  : list (jsstr * value) := if b then obj_set (js k) v fs else obj_delete (js k) fs.

(** The controls of fields that are passed through. *)
Definition set_controls (type : number) (y : TypeSettings) (o : list (jsstr * value))
  : list (jsstr * value) :=
  let openai := type_is type 1 in
  let claude := type_is type 14 in
  let o := set_or_delete (openai || claude) "allow_service_tier" (VBool (y_allow_service_tier y)) o in
  let o := set_or_delete openai "disable_store" (VBool (y_disable_store y)) o in
  let o := set_or_delete openai "allow_safety_identifier" (VBool (y_allow_safety_identifier y)) o in
  let o := set_or_delete openai "allow_include_obfuscation" (VBool (y_allow_include_obfuscation y)) o in
  let o := if openai then obj_set (js "allow_inference_geo") (VBool (y_allow_inference_geo y)) o
           else if negb claude then obj_delete (js "allow_inference_geo") o else o in
  let o := if claude then obj_set (js "allow_inference_geo") (VBool (y_allow_inference_geo y)) o else o in
  let o := set_or_delete claude "allow_speed" (VBool (y_allow_speed y)) o in
  set_or_delete claude "claude_beta_query" (VBool (y_claude_beta_query y)) o.

(** The settings of the update of upstream models. *)
Definition set_upstream (y : TypeSettings) (o : list (jsstr * value)) : list (jsstr * value) :=
  let check := y_check_enabled y in
  let o := obj_set (js "upstream_model_update_check_enabled") (VBool check) o in
  let o := obj_set (js "upstream_model_update_auto_sync_enabled")
             (VBool (check && y_auto_sync_enabled y)) o in
  let o := obj_set (js "upstream_model_update_ignored_models")
             (VArr (List.map VStr (js_set (split_list (y_ignored_models y))))) o in
  let o := if negb (is_array (get_prop (VObj o) (js "upstream_model_update_last_detected_models")))
              || negb check
           then obj_set (js "upstream_model_update_last_detected_models") (VArr []) o else o in
  match get_prop (VObj o) (js "upstream_model_update_last_check_time") with
  | VNum _ => o
  | _ => obj_set (js "upstream_model_update_last_check_time") (VNum (num_of_Z 0)) o
  end.

Definition form_settings (type : number) (y : TypeSettings) (o : list (jsstr * value))
  : list (jsstr * value) :=
  let o := set_or_delete (type_is type 41) "vertex_key_type"
             (value_or (y_vertex_key_type y) (VStr (js "json"))) o in
  let o := set_or_delete (type_is type 3 && truthy (y_azure_responses_version y)) "azure_responses_version"
             (y_azure_responses_version y) o in
  let o := set_or_delete (type_is type 20) "openrouter_enterprise" (VBool (y_is_enterprise_account y)) o in
  let o := set_or_delete (type_is type 33) "aws_key_type"
             (value_or (y_aws_key_type y) (VStr (js "ak_sk"))) o in
  let o := set_controls type y o in
  let o := obj_set (js "disable_task_polling_sleep") (VBool (y_disable_task_polling_sleep y)) o in
  let o := if type_in type MODEL_FETCHABLE_TYPES then set_upstream y o else o in
  if type_is type CHANNEL_TYPE_ADVANCED_CUSTOM then
    match parseAdvancedCustomConfig (Some (y_advanced_custom y)) with
    | Some config => obj_set (js "advanced_custom") (config_value config) o
    | None => o
    end
  else obj_delete (js "advanced_custom") o.

(** [None] for a [TypeError]: the stored settings are a JSON value without
    properties.  Named properties of an array are not printed. *)
Definition buildSettingsJSON (formData : ChannelFormValues) : option jsstr :=
  let settings := f_settings formData in
  let parsed := if nonempty settings && negb (bool_decide (settings = js "{}"))
                then default (VObj []) (json_parse settings) else VObj [] in
  match parsed with
  | VObj fs => Some (stringify (VObj (form_settings (f_type formData) (f_typed formData) fs)))
  | VArr l => Some (stringify (VArr l))
  | _ => None
  end.

Definition normalizeBaseUrl (v : jsstr) : jsstr :=
  rev (drop_while (N.eqb (ch "/")) (rev (trim v))).

(** [s || null], [x || null] *)
Definition text_or_null (s : jsstr) : value := if nonempty s then VStr s else VNull.
Definition number_or_null (x : number) : value := if num_truthy x then VNum x else VNull.

(** The fields that are empty texts become [null]. *)
Definition empty_to_null (fs : list (jsstr * value)) : list (jsstr * value) :=
  List.map (fun f => (f.1, if is_text f.2 [] then VNull else f.2)) fs.

Record CreatePayload := mkCreate {
  cr_mode : jsstr; cr_multi_key_mode : option jsstr; cr_batch_prefix : option bool;
  cr_channel : list (jsstr * value) }.

Definition transformFormDataToCreatePayload (formData : ChannelFormValues) : option CreatePayload :=
  let mode := str_or (f_multi_key_mode formData) (js "single") in
  settings ← buildSettingsJSON formData;
  let channel :=
    [(js "name", VStr (f_name formData)); (js "type", VNum (f_type formData));
     (js "base_url", text_or_null (normalizeBaseUrl (f_base_url formData)));
     (js "key", VStr (f_key formData));
     (js "openai_organization", text_or_null (f_openai_organization formData));
     (js "models", VStr (f_models formData)); (js "group", VStr (formatGroups (f_group formData)));
     (js "model_mapping", text_or_null (f_model_mapping formData));
     (js "priority", number_or_null (f_priority formData));
     (js "weight", number_or_null (f_weight formData));
     (js "test_model", text_or_null (f_test_model formData));
     (js "auto_ban", VNum (default (num_of_Z 1) (f_auto_ban formData)));
     (js "status", VNum (f_status formData));
     (js "status_code_mapping", text_or_null (f_status_code_mapping formData));
     (js "tag", text_or_null (f_tag formData)); (js "remark", VStr (f_remark formData));
     (js "setting", VStr (buildSettingJSON (f_extra formData)));
     (js "param_override", text_or_null (f_param_override formData));
     (js "header_override", text_or_null (f_header_override formData));
     (js "settings", VStr settings); (js "other", VStr (f_other formData))] in
  Some (mkCreate mode
          (if bool_decide (mode = js "multi_to_single") then Some (f_multi_key_type formData) else None)
          (if bool_decide (mode = js "batch") then Some (f_batch_prefix formData) else None)
          (empty_to_null channel)).

(** The texts an update can clear. *)
Definition cleared_texts (formData : ChannelFormValues) : list (jsstr * jsstr) :=
  [(js "base_url", normalizeBaseUrl (f_base_url formData));
   (js "openai_organization", f_openai_organization formData);
   (js "test_model", f_test_model formData); (js "tag", f_tag formData);
   (js "remark", f_remark formData); (js "model_mapping", f_model_mapping formData);
   (js "status_code_mapping", f_status_code_mapping formData);
   (js "param_override", f_param_override formData); (js "header_override", f_header_override formData)].

(** The fields of an update before the texts that are cleared; the key is sent
    when it was entered. *)
Definition update_base (f : ChannelFormValues) (id : number) (settings : jsstr) : list (jsstr * value) :=
  [(js "id", VNum id); (js "name", VStr (f_name f)); (js "type", VNum (f_type f));
   (js "base_url", text_or_null (normalizeBaseUrl (f_base_url f)));
   (js "openai_organization", text_or_null (f_openai_organization f));
   (js "models", VStr (f_models f)); (js "group", VStr (formatGroups (f_group f)));
   (js "model_mapping", text_or_null (f_model_mapping f));
   (js "priority", VNum (f_priority f)); (js "weight", VNum (f_weight f));
   (js "test_model", text_or_null (f_test_model f));
   (js "auto_ban", VNum (default (num_of_Z 1) (f_auto_ban f)));
   (js "status_code_mapping", text_or_null (f_status_code_mapping f));
   (js "tag", text_or_null (f_tag f)); (js "remark", VStr (f_remark f));
   (js "setting", VStr (buildSettingJSON (f_extra f)));
   (js "param_override", text_or_null (f_param_override f));
   (js "header_override", text_or_null (f_header_override f));
   (js "settings", VStr settings); (js "other", VStr (f_other f))].
Definition with_entered_key (f : ChannelFormValues) (p : list (jsstr * value)) : list (jsstr * value) :=
  if nonempty (f_key f) && nonempty (trim (f_key f)) then obj_set (js "key") (VStr (f_key f)) p else p.
Definition update_of (f : ChannelFormValues) (id : number) (settings : jsstr) : list (jsstr * value) :=
  fold_left (fun p x => obj_set x.1 (VStr x.2) p) (cleared_texts f)
    (empty_to_null (with_entered_key f (update_base f id settings))).

Definition transformFormDataToUpdatePayload (formData : ChannelFormValues) (channelId : number)
  : option (list (jsstr * value)) :=
  update_of formData channelId <$> buildSettingsJSON formData.
