(* ===== verification/ChannelFormFacts.v ===== *)
(** * Theorems on the channel form

    Saving a channel keeps the settings the form does not know and drops those
    of other channel types; an update names every text it clears; opening and
    saving a channel twice writes the same as once. *)

From S2P Require Import Prelude JsNumber JsValue JsPretty AdvancedCustom AdvancedCustomFacts ChannelForm.

(** ** Objects *)

Lemma assoc_set_or_delete (b : bool) k v fs k' :
  assoc k' (set_or_delete b k v fs)
  = if decide (k' = js k) then if b then Some v else None else assoc k' fs.
Proof. unfold set_or_delete. destruct b; [apply assoc_obj_set|apply assoc_obj_delete]. Qed.

Lemma set_or_delete_same (b : bool) k v fs :
  NoDup (keys fs) -> assoc (js k) fs = (if b then Some v else None) -> set_or_delete b k v fs = fs.
Proof. intros Hn. unfold set_or_delete. destruct b; [by apply obj_set_same|apply obj_delete_absent]. Qed.

(** Look a concrete key up in an object under construction. *)
Ltac look :=
  repeat first
    [rewrite assoc_set_or_delete | rewrite assoc_obj_set | rewrite assoc_obj_delete
    |rewrite decide_True by reflexivity | rewrite decide_False by (vm_compute; discriminate)].

(** The same, from the outside in, for long chains. *)
Lemma sod_here (b : bool) k v fs : assoc (js k) (set_or_delete b k v fs) = if b then Some v else None.
Proof. by rewrite assoc_set_or_delete, decide_True. Qed.
Lemma sod_there (b : bool) k v fs k' r :
  k' <> js k -> assoc k' fs = r -> assoc k' (set_or_delete b k v fs) = r.
Proof. intros H. by rewrite assoc_set_or_delete, decide_False. Qed.
Lemma set_here k (v : value) fs : assoc k (obj_set k v fs) = Some v.
Proof. by rewrite assoc_obj_set, decide_True. Qed.
Lemma set_there k (v : value) fs k' r : k' <> k -> assoc k' fs = r -> assoc k' (obj_set k v fs) = r.
Proof. intros H. by rewrite assoc_obj_set, decide_False. Qed.
Ltac differ := vm_compute; discriminate.
Ltac walk :=
  repeat first [apply sod_here | apply set_here | apply sod_there; [differ|] | apply set_there; [differ|]].

(** ** The settings of a channel *)

(** The keys of the settings the form writes or removes. *)
Definition form_keys : list jsstr :=
  List.map js ["vertex_key_type"; "azure_responses_version"; "openrouter_enterprise"; "aws_key_type";
    "allow_service_tier"; "disable_store"; "allow_safety_identifier"; "allow_include_obfuscation";
    "allow_inference_geo"; "allow_speed"; "claude_beta_query"; "disable_task_polling_sleep";
    "upstream_model_update_check_enabled"; "upstream_model_update_auto_sync_enabled";
    "upstream_model_update_ignored_models"; "upstream_model_update_last_detected_models";
    "upstream_model_update_last_check_time"; "advanced_custom"]%string.

(** The object has what the form writes for a channel of this type. *)
Definition settled (type : number) (y : TypeSettings) (fs : list (jsstr * value)) : Prop :=
  let at_ (k : string) (b : bool) v := assoc (js k) fs = if b then Some v else None in
  at_ "vertex_key_type" (type_is type 41) (value_or (y_vertex_key_type y) (VStr (js "json")))
  /\ at_ "azure_responses_version" (type_is type 3 && truthy (y_azure_responses_version y))
       (y_azure_responses_version y)
  /\ at_ "openrouter_enterprise" (type_is type 20) (VBool (y_is_enterprise_account y))
  /\ at_ "aws_key_type" (type_is type 33) (value_or (y_aws_key_type y) (VStr (js "ak_sk")))
  /\ at_ "allow_service_tier" (type_is type 1 || type_is type 14) (VBool (y_allow_service_tier y))
  /\ at_ "disable_store" (type_is type 1) (VBool (y_disable_store y))
  /\ at_ "allow_safety_identifier" (type_is type 1) (VBool (y_allow_safety_identifier y))
  /\ at_ "allow_include_obfuscation" (type_is type 1) (VBool (y_allow_include_obfuscation y))
  /\ at_ "allow_inference_geo" (type_is type 1 || type_is type 14) (VBool (y_allow_inference_geo y))
  /\ at_ "allow_speed" (type_is type 14) (VBool (y_allow_speed y))
  /\ at_ "claude_beta_query" (type_is type 14) (VBool (y_claude_beta_query y))
  /\ at_ "disable_task_polling_sleep" true (VBool (y_disable_task_polling_sleep y)).

(** What it has when the upstream models of the type can be fetched. *)
Definition settled_upstream (y : TypeSettings) (fs : list (jsstr * value)) : Prop :=
  assoc (js "upstream_model_update_check_enabled") fs = Some (VBool (y_check_enabled y))
  /\ assoc (js "upstream_model_update_auto_sync_enabled") fs
     = Some (VBool (y_check_enabled y && y_auto_sync_enabled y))
  /\ assoc (js "upstream_model_update_ignored_models") fs
     = Some (VArr (List.map VStr (js_set (split_list (y_ignored_models y)))))
  /\ (exists l, assoc (js "upstream_model_update_last_detected_models") fs = Some (VArr l)
                /\ (y_check_enabled y = false -> l = []))
  /\ (exists x, assoc (js "upstream_model_update_last_check_time") fs = Some (VNum x)).

Lemma get_assoc fs k : get_prop (VObj fs) k = default VUndefined (assoc k fs).
Proof. done. Qed.

Lemma set_upstream_settled y o : settled_upstream y (set_upstream y o).
Proof.
  unfold set_upstream. set (o3 := obj_set (js "upstream_model_update_ignored_models") _ _).
  set (o4 := if _ || _ then _ else o3).
  assert (E4 : forall k, k <> js "upstream_model_update_last_detected_models" -> assoc k o4 = assoc k o3).
  { intros k Hk. unfold o4. destruct (_ || _); [by rewrite assoc_obj_set, decide_False|done]. }
  assert (D4 : exists l, assoc (js "upstream_model_update_last_detected_models") o4 = Some (VArr l)
                         /\ (y_check_enabled y = false -> l = [])).
  { unfold o4. rewrite get_assoc.
    destruct (assoc _ o3) as [[]|] eqn:E; cbn [is_array negb orb default from_option id];
      try (exists []; look; done). destruct (y_check_enabled y); cbn [negb]; [by exists l|exists []; by look]. }
  clearbody o4. set (o5 := match get_prop (VObj o4) _ with VNum _ => o4 | _ => _ end).
  assert (E5 : forall k, k <> js "upstream_model_update_last_check_time" -> assoc k o5 = assoc k o4).
  { intros k Hk. unfold o5. destruct (get_prop _ _); rewrite ?assoc_obj_set; try case_decide; done. }
  assert (D5 : exists x, assoc (js "upstream_model_update_last_check_time") o5 = Some (VNum x)).
  { unfold o5. rewrite get_assoc.
    destruct (assoc (js "upstream_model_update_last_check_time") o4) as [[]|] eqn:E; cbn [default from_option id];
      try (exists (num_of_Z 0); by look). by eexists. }
  unfold settled_upstream. rewrite !E5, !E4 by (vm_compute; discriminate).
  split_and!; [..|done|done]; unfold o3; by look.
Qed.

Lemma upstream_other y o k :
  Forall (fun s => k <> js s)
    ["upstream_model_update_check_enabled"; "upstream_model_update_auto_sync_enabled";
     "upstream_model_update_ignored_models"; "upstream_model_update_last_detected_models";
     "upstream_model_update_last_check_time"]%string ->
  assoc k (set_upstream y o) = assoc k o.
Proof.
  rewrite !Forall_cons. intros (H1 & H2 & H3 & H4 & H5 & _). unfold set_upstream.
  assert (Hset : forall s (v : value) fs, k <> js s -> assoc k (obj_set (js s) v fs) = assoc k fs)
    by (intros s v fs Hs; by rewrite assoc_obj_set, decide_False).
  repeat split_match; rewrite ?Hset by done; done.
Qed.

(** The inference geography is set by two types. *)
Lemma geo_here (a c : bool) k (v : value) o :
  assoc k (let o := if a then obj_set k v o else if negb c then obj_delete k o else o in
           if c then obj_set k v o else o) = if a || c then Some v else None.
Proof. destruct a, c; cbn [negb orb]; by look. Qed.
Lemma geo_there (a c : bool) k (v : value) o k' :
  k' <> k ->
  assoc k' (let o := if a then obj_set k v o else if negb c then obj_delete k o else o in
            if c then obj_set k v o else o) = assoc k' o.
Proof.
  intros Hk. destruct a, c; cbn [negb]; rewrite ?assoc_obj_set, ?assoc_obj_delete; repeat case_decide; done.
Qed.

Lemma controls_settled type y o :
  let fs := set_controls type y o in
  let at_ (k : string) (b : bool) v := assoc (js k) fs = if b then Some v else None in
  at_ "allow_service_tier" (type_is type 1 || type_is type 14) (VBool (y_allow_service_tier y))
  /\ at_ "disable_store" (type_is type 1) (VBool (y_disable_store y))
  /\ at_ "allow_safety_identifier" (type_is type 1) (VBool (y_allow_safety_identifier y))
  /\ at_ "allow_include_obfuscation" (type_is type 1) (VBool (y_allow_include_obfuscation y))
  /\ at_ "allow_inference_geo" (type_is type 1 || type_is type 14) (VBool (y_allow_inference_geo y))
  /\ at_ "allow_speed" (type_is type 14) (VBool (y_allow_speed y))
  /\ at_ "claude_beta_query" (type_is type 14) (VBool (y_claude_beta_query y)).
Proof.
  cbv zeta. unfold set_controls. cbv zeta.
  split_and!; walk; try (apply geo_here); (etransitivity; [apply geo_there; differ|]); walk.
Qed.

Lemma controls_other type y o k :
  Forall (fun s => k <> js s)
    ["allow_service_tier"; "disable_store"; "allow_safety_identifier"; "allow_include_obfuscation";
     "allow_inference_geo"; "allow_speed"; "claude_beta_query"]%string ->
  assoc k (set_controls type y o) = assoc k o.
Proof.
  rewrite !Forall_cons. intros (H1 & H2 & H3 & H4 & H5 & H6 & H7 & _). unfold set_controls. cbv zeta.
  do 2 (apply sod_there; [done|]). etransitivity; [by apply geo_there|].
  by do 4 (apply sod_there; [done|]).
Qed.

Ltac differ_all := repeat constructor; differ.

(** The settings of the type, before those of the upstream and the routes. *)
Lemma type_settled type y o :
  settled type y (obj_set (js "disable_task_polling_sleep") (VBool (y_disable_task_polling_sleep y))
    (set_controls type y
       (set_or_delete (type_is type 33) "aws_key_type" (value_or (y_aws_key_type y) (VStr (js "ak_sk")))
       (set_or_delete (type_is type 20) "openrouter_enterprise" (VBool (y_is_enterprise_account y))
       (set_or_delete (type_is type 3 && truthy (y_azure_responses_version y)) "azure_responses_version"
          (y_azure_responses_version y)
       (set_or_delete (type_is type 41) "vertex_key_type"
          (value_or (y_vertex_key_type y) (VStr (js "json"))) o)))))).
Proof.
  destruct (controls_settled type y (set_or_delete (type_is type 33) "aws_key_type"
    (value_or (y_aws_key_type y) (VStr (js "ak_sk")))
       (set_or_delete (type_is type 20) "openrouter_enterprise" (VBool (y_is_enterprise_account y))
       (set_or_delete (type_is type 3 && truthy (y_azure_responses_version y)) "azure_responses_version"
          (y_azure_responses_version y)
       (set_or_delete (type_is type 41) "vertex_key_type"
          (value_or (y_vertex_key_type y) (VStr (js "json"))) o))))) as (H1 & H2 & H3 & H4 & H5 & H6 & H7).
  unfold settled. split_and!;
    try (apply set_there; [differ|]; (exact H1 || exact H2 || exact H3 || exact H4 || exact H5 || exact H6
                                      || exact H7));
    try apply set_here;
    (apply set_there; [differ|]; etransitivity; [apply controls_other; differ_all|]; walk).
Qed.

Lemma form_settings_settled type y o : settled type y (form_settings type y o).
Proof.
  unfold form_settings. pose proof (type_settled type y o) as H6. cbv zeta.
  set (o6 := obj_set (js "disable_task_polling_sleep") _ _) in *. clearbody o6.
  set (o7 := if type_in _ _ then _ else o6).
  assert (E7 : forall k, Forall (fun s => k <> js s)
    ["upstream_model_update_check_enabled"; "upstream_model_update_auto_sync_enabled";
     "upstream_model_update_ignored_models"; "upstream_model_update_last_detected_models";
     "upstream_model_update_last_check_time"]%string -> assoc k o7 = assoc k o6).
  { intros k Hk. unfold o7. destruct (type_in _ _); [by apply upstream_other|done]. }
  set (o8 := if type_is type CHANNEL_TYPE_ADVANCED_CUSTOM then _ else _).
  assert (E8 : forall k, k <> js "advanced_custom" -> assoc k o8 = assoc k o7).
  { intros k Hk. unfold o8. destruct (type_is _ _); [destruct (parseAdvancedCustomConfig _)|];
      rewrite ?assoc_obj_set, ?assoc_obj_delete; try case_decide; done. }
  clearbody o8 o7. destruct H6 as (H1 & H2 & H3 & H4 & H5 & H6 & H7 & H8 & H9 & H10 & H11 & H12).
  unfold settled. split_and!; (etransitivity; [apply E8; differ|]); (etransitivity; [apply E7; differ_all|]);
    assumption.
Qed.

(** What the form keeps of the settings. *)
Lemma form_settings_other type y o k :
  k ∉ form_keys -> assoc k (form_settings type y o) = assoc k o.
Proof.
  intros Hk.
  assert (Hne : forall l : list string, Forall (fun s => js s ∈ form_keys) l -> Forall (fun s => k <> js s) l).
  { intros l Hl. eapply Forall_impl; [exact Hl|]. by intros s Hs ->. }
  assert (H1 : forall s, js s ∈ form_keys -> k <> js s) by (by intros s Hs ->).
  unfold form_settings. cbv zeta.
  assert (E : forall o', assoc k (if type_in type MODEL_FETCHABLE_TYPES then set_upstream y o' else o') = assoc k o').
  { intros o'. destruct (type_in _ _); [|done]. apply upstream_other, Hne.
    repeat constructor; apply (bool_decide_unpack _); vm_compute; reflexivity. }
  assert (Ha : k <> js "advanced_custom") by (apply H1; apply (bool_decide_unpack _); vm_compute; reflexivity).
  etransitivity; [destruct (type_is _ CHANNEL_TYPE_ADVANCED_CUSTOM);
    [destruct (parseAdvancedCustomConfig _); [by apply set_there|reflexivity]|by rewrite assoc_obj_delete, decide_False]|].
  rewrite E. apply set_there; [apply H1; apply (bool_decide_unpack _); vm_compute; reflexivity|].
  etransitivity; [apply controls_other, Hne; repeat constructor; apply (bool_decide_unpack _); vm_compute; reflexivity|].
  by repeat (apply sod_there; [apply H1; apply (bool_decide_unpack _); vm_compute; reflexivity|]).
Qed.

Lemma form_settings_upstream type y o :
  type_in type MODEL_FETCHABLE_TYPES = true -> settled_upstream y (form_settings type y o).
Proof.
  intros Hf. unfold form_settings. cbv zeta. rewrite Hf.
  match goal with |- context [set_upstream y ?o'] => pose proof (set_upstream_settled y o') as H;
    set (o7 := set_upstream y o') in *; clearbody o7 end.
  set (o8 := if type_is type CHANNEL_TYPE_ADVANCED_CUSTOM then _ else _).
  assert (E8 : forall k, k <> js "advanced_custom" -> assoc k o8 = assoc k o7).
  { intros k Hk. unfold o8. destruct (type_is _ _); [destruct (parseAdvancedCustomConfig _)|];
      rewrite ?assoc_obj_set, ?assoc_obj_delete; try case_decide; done. }
  clearbody o8. unfold settled_upstream in *. by rewrite !E8 by differ.
Qed.

(** What the form writes for the routes of a channel. *)
Lemma form_settings_advanced type y o :
  assoc (js "advanced_custom") (form_settings type y o)
  = if type_is type CHANNEL_TYPE_ADVANCED_CUSTOM then
      match parseAdvancedCustomConfig (Some (y_advanced_custom y)) with
      | Some config => Some (config_value config)
      | None => assoc (js "advanced_custom") o
      end
    else None.
Proof.
  unfold form_settings. cbv zeta. destruct (type_is type CHANNEL_TYPE_ADVANCED_CUSTOM).
  - destruct (parseAdvancedCustomConfig _); [apply set_here|].
    transitivity (assoc (js "advanced_custom") (obj_set (js "disable_task_polling_sleep")
      (VBool (y_disable_task_polling_sleep y)) o)).
    + destruct (type_in _ _); [rewrite upstream_other by differ_all|];
        (apply set_there; [differ|]; etransitivity; [apply controls_other; differ_all|];
         symmetry; apply set_there; [differ|]; symmetry;
         repeat (apply sod_there; [differ|]); reflexivity).
    + by apply set_there; [differ|].
  - by rewrite assoc_obj_delete, decide_True.
Qed.

(** A settled object is written as it is. *)
Lemma form_settings_fixed type y fs :
  NoDup (keys fs) -> settled type y fs ->
  (type_in type MODEL_FETCHABLE_TYPES = true -> settled_upstream y fs) ->
  assoc (js "advanced_custom") fs
  = (if type_is type CHANNEL_TYPE_ADVANCED_CUSTOM then
       match parseAdvancedCustomConfig (Some (y_advanced_custom y)) with
       | Some config => Some (config_value config)
       | None => assoc (js "advanced_custom") fs
       end
     else None) ->
  form_settings type y fs = fs.
Proof.
  intros Hn (H1 & H2 & H3 & H4 & H5 & H6 & H7 & H8 & H9 & H10 & H11 & H12) Hu Ha.
  unfold form_settings, set_controls. cbv zeta.
  rewrite (set_or_delete_same _ "vertex_key_type" _ fs Hn H1).
  rewrite (set_or_delete_same _ "azure_responses_version" _ fs Hn H2).
  rewrite (set_or_delete_same _ "openrouter_enterprise" _ fs Hn H3).
  rewrite (set_or_delete_same _ "aws_key_type" _ fs Hn H4).
  rewrite (set_or_delete_same _ "allow_service_tier" _ fs Hn H5).
  rewrite (set_or_delete_same _ "disable_store" _ fs Hn H6).
  rewrite (set_or_delete_same _ "allow_safety_identifier" _ fs Hn H7).
  rewrite (set_or_delete_same _ "allow_include_obfuscation" _ fs Hn H8).
  match goal with |- context [set_or_delete _ "allow_speed" _ ?o] => assert (o = fs) as -> end.
  { destruct (type_is type 1), (type_is type 14); cbn [negb orb] in *;
      rewrite ?(obj_set_same _ _ fs Hn H9); try done. by apply obj_delete_absent. }
  rewrite (set_or_delete_same _ "allow_speed" _ fs Hn H10).
  rewrite (set_or_delete_same _ "claude_beta_query" _ fs Hn H11).
  rewrite (obj_set_same _ _ fs Hn H12).
  assert ((if type_in type MODEL_FETCHABLE_TYPES then set_upstream y fs else fs) = fs) as ->.
  { destruct (type_in _ _); [|done]. destruct (Hu eq_refl) as (U1 & U2 & U3 & (l & U4 & Ul) & (x & U5)).
    unfold set_upstream. cbv zeta. rewrite (obj_set_same _ _ fs Hn U1), (obj_set_same _ _ fs Hn U2),
      (obj_set_same _ _ fs Hn U3), !get_assoc, U4. cbn [default from_option id is_array negb orb].
    destruct (y_check_enabled y); cbn [negb]; [by rewrite U5|].
    rewrite Ul in U4 by done. by rewrite (obj_set_same _ _ fs Hn U4), U5. }
  destruct (type_is type CHANNEL_TYPE_ADVANCED_CUSTOM).
  - destruct (parseAdvancedCustomConfig _); [by apply obj_set_same|done].
  - by apply obj_delete_absent.
Qed.

(** ** Objects that are printed without loss *)

Lemma obj_ok_set_or_delete (b : bool) k v fs : json_ok v -> obj_ok fs -> obj_ok (set_or_delete b k v fs).
Proof. unfold set_or_delete. destruct b; [apply obj_ok_set|intros _; apply obj_ok_delete]. Qed.

#[local] Hint Resolve obj_ok_set_or_delete : js.

Lemma value_or_ok k d fs : obj_ok fs -> json_ok d -> json_ok (value_or (get_prop (VObj fs) k) d).
Proof.
  intros Ho Hd. pose proof (assoc_ok k fs Ho) as H. rewrite get_assoc. unfold value_or.
  destruct (assoc k fs) as [v|]; cbn [default from_option id truthy] in *; [by destruct (truthy v)|done].
Qed.

Definition typed_ok (y : TypeSettings) : Prop :=
  json_ok (y_vertex_key_type y) /\ json_ok (y_azure_responses_version y) /\ json_ok (y_aws_key_type y)
  /\ forall c, parseAdvancedCustomConfig (Some (y_advanced_custom y)) = Some c -> json_ok (config_value c).

Lemma value_or_either (P : value -> Prop) v d : P v -> P d -> P (value_or v d).
Proof. unfold value_or. by destruct (truthy v). Qed.

Lemma form_settings_ok type y o : typed_ok y -> obj_ok o -> obj_ok (form_settings type y o).
Proof.
  intros (Hv & Hz & Hw & Hc) Ho. unfold form_settings. cbv zeta.
  match goal with |- context [set_controls type y ?o'] => assert (H1 : obj_ok o') end.
  { repeat apply obj_ok_set_or_delete; try done; try (by constructor); apply value_or_either; try done; constructor. }
  match goal with |- context [obj_set (js "disable_task_polling_sleep") _ ?o'] => assert (H2 : obj_ok o') end.
  { unfold set_controls. cbv zeta. repeat (apply obj_ok_set_or_delete; [constructor|]).
    destruct (type_is type 1), (type_is type 14); cbn [negb]; repeat (apply obj_ok_set; [constructor|]);
      try apply obj_ok_delete; repeat (apply obj_ok_set_or_delete; [constructor|]); done. }
  match goal with |- context [if type_in _ _ then set_upstream y ?o' else _] =>
    assert (H3 : obj_ok o') by (apply obj_ok_set; [constructor|done]); set (o6 := o') in * end.
  assert (H4 : obj_ok (if type_in type MODEL_FETCHABLE_TYPES then set_upstream y o6 else o6)).
  { destruct (type_in _ _); [|done]. unfold set_upstream. cbv zeta.
    assert (Hm : json_ok (VArr (List.map VStr (js_set (split_list (y_ignored_models y)))))).
    { constructor. apply Forall_forall. intros v Hin%list_elem_of_In. apply in_map_iff in Hin as (m & <- & _). constructor. }
    assert (H0 : json_ok (VNum (num_of_Z 0))) by (constructor; by apply json_num_ok_safe).
    assert (He : json_ok (VArr [])) by (constructor; constructor).
    repeat split_match; auto 20 with js. }
  destruct (type_is type CHANNEL_TYPE_ADVANCED_CUSTOM); [|by apply obj_ok_delete].
  destruct (parseAdvancedCustomConfig _); [|done]. apply obj_ok_set; [|done]. by apply Hc.
Qed.

(** ** Lists in text *)

Definition item (w : jsstr) : Prop := ~ (ch "," ∈ w) /\ trim w = w /\ w <> [].

Lemma split_list_items s : Forall item (split_list s).
Proof.
  unfold split_list. apply Forall_forall. intros w Hw%list_elem_of_In.
  apply filter_In in Hw as [Hw Hne]. apply in_map_iff in Hw as (v & <- & Hv%list_elem_of_In).
  pose proof (split_char_pieces (ch ",") s) as Hp. rewrite Forall_forall in Hp.
  split_and!; [|apply trim_idemp|by destruct (trim v)].
  intros Hc%elem_of_trim. by apply (Hp v Hv).
Qed.

Lemma split_list_join l : Forall item l -> split_list (join (js ",") l) = l.
Proof.
  intros Hl. destruct l as [|w l]; [done|]. unfold split_list. change (js ",") with [ch ","].
  rewrite split_join; [|done|]; [|eapply Forall_impl; [exact Hl|by intros v (? & _)]].
  induction Hl as [|v vs (_ & Ht & Hne) _ IH]; [done|]. cbn [List.map List.filter]. rewrite Ht.
  destruct v; [done|]. cbn [nonempty]. f_equal. destruct vs; [done|]. apply IH.
Qed.

Lemma items_sublist l k : (forall x, x ∈ k -> x ∈ l) -> Forall item l -> Forall item k.
Proof. rewrite !Forall_forall. eauto. Qed.

Lemma parseGroups_format l : Forall item l -> l <> [] -> parseGroups (formatGroups l) = l.
Proof.
  intros Hl Hne. unfold parseGroups, formatGroups. rewrite split_list_join by done.
  destruct l as [|w l]; [done|]. apply Forall_cons in Hl as [(_ & _ & Hw) _].
  destruct w; [done|]. by destruct l.
Qed.

(** ** Saving twice *)

(** Stored settings of the declared type. *)
Definition declared (fs : list (jsstr * value)) : Prop :=
  obj_ok fs
  /\ (get_prop (VObj fs) (js "upstream_model_update_ignored_models") = VUndefined
      \/ exists l, get_prop (VObj fs) (js "upstream_model_update_ignored_models") = VArr (List.map VStr l))
  /\ (truthy (get_prop (VObj fs) (js "advanced_custom")) = false
      \/ (typed_config (get_prop (VObj fs) (js "advanced_custom"))
          /\ forall rs, normalizeAdvancedCustomConfig (get_prop (VObj fs) (js "advanced_custom")) = Some rs ->
             json_ok (config_value rs))).

Lemma to_string_strings l : to_string (VArr (List.map VStr l)) = Some (join (js ",") l).
Proof.
  cbn [to_string].
  match goal with |- _ <$> ?g _ = _ => set (go := g) end.
  assert (E : go (List.map VStr l) = Some l); [|by rewrite E].
  induction l as [|s l IH]; [done|]. cbn [List.map]. change (go (VStr s :: List.map VStr l)) with
    (match go (List.map VStr l) with Some ss => Some (s :: ss) | None => None end). by rewrite IH.
Qed.

Lemma ignored_declared fs :
  (get_prop (VObj fs) (js "upstream_model_update_ignored_models") = VUndefined
   \/ exists l, get_prop (VObj fs) (js "upstream_model_update_ignored_models") = VArr (List.map VStr l)) ->
  exists s, ignored_of (VObj fs) = Some s.
Proof.
  unfold ignored_of. intros [->|[l ->]]; [by exists []|]. rewrite to_string_strings. by eexists.
Qed.

(** The routes the form shows are the normalized stored routes. *)
Lemma shown_routes fs :
  declared fs ->
  match parseAdvancedCustomConfig (Some (y_advanced_custom (typed_of (VObj fs)))) with
  | Some rs => Forall normal_route rs /\ Forall text_route rs /\ json_ok (config_value rs)
  | None => truthy (get_prop (VObj fs) (js "advanced_custom")) = false
  end.
Proof.
  intros (Ho & Hi & Ha). destruct (ignored_declared fs Hi) as [ig Ei].
  unfold typed_of. cbn [y_advanced_custom]. rewrite Ei. destruct (truthy _) eqn:Et; [|done].
  destruct Ha as [|[Ht Hj]]; [done|]. destruct (normalize_typed _ Ht) as (rs & Hn & Htx).
  unfold stringifyAdvancedCustomConfig. rewrite Hn. cbn [fmap option_fmap option_map default from_option id].
  pose proof (normalize_normal _ _ Hn) as Hr. rewrite printed_routes_read by done.
  split_and!; [done..|by apply Hj].
Qed.

Lemma typed_of_ok fs : declared fs -> typed_ok (typed_of (VObj fs)).
Proof.
  intros Hd. pose proof (shown_routes fs Hd) as Hs. destruct Hd as (Ho & _).
  split_and!; [apply value_or_ok; [done|constructor]..|].
  intros c E. rewrite E in Hs. by destruct Hs as (_ & _ & ?).
Qed.

(** What is written is read as what was written. *)
Lemma typed_settled type y fs : settled type y fs -> settled type (typed_of (VObj fs)) fs.
Proof.
  intros (H1 & H2 & H3 & H4 & H5 & H6 & H7 & H8 & H9 & H10 & H11 & H12).
  unfold settled, typed_of.
  cbn [y_is_enterprise_account y_vertex_key_type y_azure_responses_version y_aws_key_type
       y_allow_service_tier y_disable_store y_allow_safety_identifier y_allow_include_obfuscation
       y_allow_inference_geo y_allow_speed y_claude_beta_query y_disable_task_polling_sleep].
  rewrite !get_assoc, H1, H2, H3, H4, H5, H6, H7, H8, H9, H10, H11, H12.
  split_and!; try (generalize (type_is type 20) (type_is type 1) (type_is type 14); by intros [] [] []).
  - destruct (type_is type 41); [|done]. cbn [default from_option id]. by rewrite !value_or_idemp.
  - destruct (type_is type 3); [|done]. destruct (truthy (y_azure_responses_version y)) eqn:E; [|done].
    cbn [andb default from_option id]. unfold value_or. by rewrite E, E.
  - destruct (type_is type 33); [|done]. cbn [default from_option id]. by rewrite !value_or_idemp.
Qed.

Lemma typed_upstream y fs : settled_upstream y fs -> settled_upstream (typed_of (VObj fs)) fs.
Proof.
  intros (H1 & H2 & H3 & H4 & H5). unfold settled_upstream, typed_of, ignored_of.
  cbn [y_check_enabled y_auto_sync_enabled y_ignored_models].
  rewrite !get_assoc, H1, H2, H3. cbn [default from_option id is_true]. rewrite to_string_strings.
  cbn [default from_option id].
  assert (Hi : Forall item (js_set (split_list (y_ignored_models y)))).
  { eapply items_sublist; [|apply split_list_items]. intros x. apply elem_of_js_set. }
  rewrite split_list_join, js_set_idemp by done.
  split_and!; [done|by destruct (y_check_enabled y)|done|done|done].
Qed.

(** Without fetchable models the upstream settings are kept. *)
Lemma ignored_kept type y o :
  type_in type MODEL_FETCHABLE_TYPES = false ->
  get_prop (VObj (form_settings type y o)) (js "upstream_model_update_ignored_models")
  = get_prop (VObj o) (js "upstream_model_update_ignored_models").
Proof.
  intros Hf. rewrite !get_assoc. f_equal. unfold form_settings. cbv zeta. rewrite Hf.
  etransitivity; [destruct (type_is _ CHANNEL_TYPE_ADVANCED_CUSTOM);
    [destruct (parseAdvancedCustomConfig _); [apply set_there; [differ|reflexivity]|reflexivity]
    |by rewrite assoc_obj_delete, decide_False by differ]|].
  apply set_there; [differ|]. etransitivity; [apply controls_other; differ_all|].
  repeat (apply sod_there; [differ|]). reflexivity.
Qed.

(** The settings of an opened and saved channel are a fixed point. *)
Lemma settings_again type fs :
  declared fs ->
  let fs2 := form_settings type (typed_of (VObj fs)) fs in
  obj_ok fs2 /\ form_settings type (typed_of (VObj fs2)) fs2 = fs2.
Proof.
  intros Hd fs2. pose proof Hd as (Ho & Hi & Ha).
  assert (Hok : obj_ok fs2) by (apply form_settings_ok; [by apply typed_of_ok|done]).
  split; [done|]. apply form_settings_fixed; [by apply obj_ok_NoDup| | |].
  - eapply typed_settled, form_settings_settled.
  - intros Hf. by eapply typed_upstream, form_settings_upstream.
  - assert (Hg := form_settings_advanced type (typed_of (VObj fs)) fs). fold fs2 in Hg.
    destruct (type_is type CHANNEL_TYPE_ADVANCED_CUSTOM) eqn:E58; [|done].
    assert (Hi2 : exists s, ignored_of (VObj fs2) = Some s).
    { apply ignored_declared. destruct (type_in type MODEL_FETCHABLE_TYPES) eqn:Ef.
      - right. destruct (form_settings_upstream type (typed_of (VObj fs)) fs Ef) as (_ & _ & E & _).
        rewrite get_assoc. unfold fs2. rewrite E. by eexists.
      - unfold fs2. by rewrite ignored_kept. }
    destruct Hi2 as [ig2 Ei2]. pose proof (shown_routes fs Hd) as Hs.
    assert (Ey : y_advanced_custom (typed_of (VObj fs2))
      = if truthy (get_prop (VObj fs2) (js "advanced_custom"))
        then default [] (stringifyAdvancedCustomConfig (get_prop (VObj fs2) (js "advanced_custom"))) else []).
    { unfold typed_of. cbn [y_advanced_custom]. by rewrite Ei2. }
    rewrite Ey, get_assoc, Hg. destruct (parseAdvancedCustomConfig (Some (y_advanced_custom (typed_of (VObj fs)))))
      as [rs|].
    + destruct Hs as (Hr & Ht & Hj). cbn [truthy config_value default from_option id].
      fold (config_value rs). unfold stringifyAdvancedCustomConfig.
      rewrite (normalize_config_value rs Hr). cbn [fmap option_fmap option_map default from_option id].
      by rewrite printed_routes_read.
    + rewrite get_assoc in Hs. by rewrite Hs.
Qed.

(** ** Payloads *)

Definition text_at (p : list (jsstr * value)) (k : string) : jsstr :=
  match assoc (js k) p with Some (VStr s) => s | _ => [] end.
Definition number_at (p : list (jsstr * value)) (k : string) : option number :=
  match assoc (js k) p with Some (VNum x) => Some x | _ => None end.

(** The channel after an update: the fields of the payload replace its own. *)
Definition apply_update (p : list (jsstr * value)) (c : Channel) : Channel :=
  mkChannel (default (ch_type c) (number_at p "type")) (text_at p "name") (text_at p "base_url")
    (text_at p "openai_organization") (text_at p "models") (text_at p "group") (text_at p "model_mapping")
    (default (num_of_Z 0) (number_at p "priority")) (default (num_of_Z 0) (number_at p "weight"))
    (text_at p "test_model") (number_at p "auto_ban") (ch_status c) (text_at p "status_code_mapping")
    (text_at p "tag") (text_at p "remark") (text_at p "setting") (text_at p "param_override")
    (text_at p "header_override") (text_at p "settings") (text_at p "other") (ch_multi_key_mode c).

Definition cleared_keys : list jsstr :=
  List.map js ["base_url"; "openai_organization"; "test_model"; "tag"; "remark"; "model_mapping";
    "status_code_mapping"; "param_override"; "header_override"]%string.

Lemma cleared_texts_keys f : fst <$> cleared_texts f = cleared_keys.
Proof. reflexivity. Qed.

Lemma assoc_empty_to_null k fs :
  assoc k (empty_to_null fs) = (fun v => if is_text v [] then VNull else v) <$> assoc k fs.
Proof.
  unfold empty_to_null. induction fs as [|[k0 v0] fs IH]; [done|]. cbn [List.map assoc fst snd].
  by case_decide.
Qed.

(** The fields of an update. *)
Lemma update_get f id settings k :
  assoc k (update_of f id settings)
  = match List.find (fun x => bool_decide (x.1 = k)) (cleared_texts f) with
    | Some x => Some (VStr x.2)
    | None => (fun v => if is_text v [] then VNull else v)
                <$> assoc k (with_entered_key f (update_base f id settings))
    end.
Proof.
  unfold update_of. rewrite (fold_obj_set fst (fun x : jsstr * jsstr => VStr x.2)).
  - by rewrite assoc_empty_to_null.
  - rewrite cleared_texts_keys. apply (bool_decide_unpack _). vm_compute. reflexivity.
Qed.

Lemma with_entered_key_other f p k : k <> js "key" -> assoc k (with_entered_key f p) = assoc k p.
Proof. intros Hk. unfold with_entered_key. destruct (_ && _); [by rewrite assoc_obj_set, decide_False|done]. Qed.

Lemma null_or_text s :
  match Some (if is_text (VStr s) [] then VNull else VStr s) with Some (VStr s') => s' | _ => [] end = s.
Proof. unfold is_text. by destruct s. Qed.

Lemma update_texts f id settings :
  let p := update_of f id settings in
  text_at p "name" = f_name f /\ text_at p "models" = f_models f
  /\ text_at p "group" = formatGroups (f_group f) /\ text_at p "other" = f_other f
  /\ text_at p "setting" = buildSettingJSON (f_extra f) /\ text_at p "settings" = settings
  /\ text_at p "base_url" = normalizeBaseUrl (f_base_url f)
  /\ text_at p "openai_organization" = f_openai_organization f /\ text_at p "test_model" = f_test_model f
  /\ text_at p "tag" = f_tag f /\ text_at p "remark" = f_remark f
  /\ text_at p "model_mapping" = f_model_mapping f
  /\ text_at p "status_code_mapping" = f_status_code_mapping f
  /\ text_at p "param_override" = f_param_override f /\ text_at p "header_override" = f_header_override f.
Proof.
  cbv zeta. unfold text_at. rewrite !update_get. rewrite !with_entered_key_other by differ.
  split_and!; try reflexivity; apply null_or_text.
Qed.

Lemma update_numbers f id settings :
  let p := update_of f id settings in
  number_at p "type" = Some (f_type f) /\ number_at p "priority" = Some (f_priority f)
  /\ number_at p "weight" = Some (f_weight f)
  /\ number_at p "auto_ban" = Some (default (num_of_Z 1) (f_auto_ban f)).
Proof.
  cbv zeta. unfold number_at. rewrite !update_get. rewrite !with_entered_key_other by differ. split_and!; reflexivity.
Qed.

(** ** An opened and saved channel *)

(** The text of a stored object; no text is an empty object. *)
Definition stored_as (s : jsstr) (fs : list (jsstr * value)) : Prop :=
  (s = [] /\ fs = []) \/ json_parse s = Some (VObj fs).

Lemma stored_nonempty s v : json_parse s = Some v -> nonempty s = true.
Proof. by destruct s. Qed.

Lemma read_typed_stored s fs : stored_as s fs -> read_typed s = typed_of (VObj fs).
Proof.
  intros [[-> ->]|E]; [reflexivity|]. unfold read_typed. by rewrite (stored_nonempty _ _ E), E.
Qed.

Lemma build_stored f s fs :
  f_settings f = str_or s (js "{}") -> stored_as s fs ->
  buildSettingsJSON f = Some (stringify (VObj (form_settings (f_type f) (f_typed f) fs))).
Proof.
  intros Hf Hs. unfold buildSettingsJSON. rewrite Hf.
  destruct Hs as [[-> ->]|E]; [reflexivity|]. unfold str_or. rewrite (stored_nonempty _ _ E).
  rewrite (stored_nonempty _ _ E). cbn [andb]. case_bool_decide as Ec; cbn [negb].
  - rewrite Ec in E. assert (fs = []) as -> by (vm_compute in E; congruence). done.
  - by rewrite E.
Qed.

(** The extra settings of a stored object. *)
Lemma extra_read a b c d e g :
  extra_of (VObj [(js "force_format", a); (js "thinking_to_content", b); (js "proxy", c);
                  (js "pass_through_body_enabled", d); (js "system_prompt", e);
                  (js "system_prompt_override", g)])
  = mkExtra (value_or a (VBool false)) (value_or b (VBool false)) (value_or c (VStr []))
      (value_or d (VBool false)) (value_or e (VStr [])) (value_or g (VBool false)).
Proof. reflexivity. Qed.

Lemma value_or_again v d : truthy d = false -> value_or (value_or v d) d = value_or v d.
Proof. intros Hd. unfold value_or. destruct (truthy v) eqn:E; by rewrite ?E, ?Hd. Qed.

Lemma extra_again fs :
  obj_ok fs -> read_extra (buildSettingJSON (extra_of (VObj fs))) = extra_of (VObj fs).
Proof.
  intros Ho. unfold buildSettingJSON. set (o := VObj [_; _; _; _; _; _]).
  assert (Hok : json_ok o).
  { constructor.
    - apply obj_canon_named; cbn [keys fmap list_fmap fst]; apply (bool_decide_unpack _); vm_compute; reflexivity.
    - repeat (constructor; [cbn [snd]; apply value_or_either; [apply value_or_ok; [done|]|]; constructor|]). constructor. }
  unfold read_extra. rewrite json_roundtrip by done.
  destruct (stringify_head _ Hok) as (c & r & -> & _). cbn [nonempty negb].
  change (extra_of o = extra_of (VObj fs)). unfold o. rewrite extra_read. unfold extra_of.
  cbn [x_force_format x_thinking_to_content x_proxy x_pass_through_body_enabled x_system_prompt
       x_system_prompt_override].
  by rewrite !value_or_again.
Qed.

Lemma read_extra_stored s fs : stored_as s fs -> read_extra s = extra_of (VObj fs).
Proof.
  intros [[-> ->]|E]; [reflexivity|]. unfold read_extra. by rewrite (stored_nonempty _ _ E), E.
Qed.

(** ** Base URLs *)

Lemma normalizeBaseUrl_again s : trimmed (normalizeBaseUrl s) -> normalizeBaseUrl (normalizeBaseUrl s) = normalizeBaseUrl s.
Proof.
  intros Ht. unfold normalizeBaseUrl at 1. rewrite trim_id by done. unfold normalizeBaseUrl.
  by rewrite rev_involutive, drop_while_idemp.
Qed.

Lemma num_or_again x d : num_or (num_or x d) d = num_or x d.
Proof. unfold num_or. destruct (num_truthy x) eqn:E; [by rewrite E|]. by destruct (num_truthy d). Qed.

(** ** Theorems *)

Lemma update_of_ext f f' id settings :
  f_name f = f_name f' -> f_type f = f_type f' -> normalizeBaseUrl (f_base_url f) = normalizeBaseUrl (f_base_url f') ->
  f_openai_organization f = f_openai_organization f' -> f_models f = f_models f' -> f_group f = f_group f' ->
  f_model_mapping f = f_model_mapping f' -> f_priority f = f_priority f' -> f_weight f = f_weight f' ->
  f_test_model f = f_test_model f' -> f_auto_ban f = f_auto_ban f' ->
  f_status_code_mapping f = f_status_code_mapping f' -> f_tag f = f_tag f' -> f_remark f = f_remark f' ->
  f_extra f = f_extra f' -> f_param_override f = f_param_override f' ->
  f_header_override f = f_header_override f' -> f_other f = f_other f' -> f_key f = f_key f' ->
  update_of f id settings = update_of f' id settings.
Proof.
  intros E1 E2 E3 E4 E5 E6 E7 E8 E9 E10 E11 E12 E13 E14 E15 E16 E17 E18 E19.
  unfold update_of, cleared_texts, with_entered_key, update_base.
  by rewrite E1, E2, E3, E4, E5, E6, E7, E8, E9, E10, E11, E12, E13, E14, E15, E16, E17, E18, E19.
Qed.

(** A channel the form can edit: its settings are JSON objects of the declared
    type (or empty), it has a group, and its base URL has no white space before
    the slashes at its end. *)
Definition editable (c : Channel) : Prop :=
  (exists fs, stored_as (ch_settings c) fs /\ declared fs)
  /\ (exists fs, stored_as (ch_setting c) fs /\ obj_ok fs)
  /\ parseGroups (str_or (ch_group c) (js "default")) <> []
  /\ trimmed (normalizeBaseUrl (ch_base_url c)).

Lemma parseGroups_items s : Forall item (parseGroups s).
Proof. unfold parseGroups. destruct (negb _); [constructor|apply split_list_items]. Qed.

Lemma group_again s :
  parseGroups s <> [] -> parseGroups (str_or (formatGroups (parseGroups s)) (js "default")) = parseGroups s.
Proof.
  intros Hne. pose proof (parseGroups_items s) as Hi.
  destruct (formatGroups (parseGroups s)) as [|x w] eqn:E; unfold str_or; cbn [nonempty].
  - pose proof (parseGroups_format _ Hi Hne) as H. by rewrite E in H.
  - rewrite <- E. by apply parseGroups_format.
Qed.

(** C10: editing is stable.  Opening an editable channel in the form and saving
    it unchanged gives an update; when the channel has been updated, opening
    and saving it once more gives the same update, settings and all. *)
Theorem channel_edit_stable (c : Channel) (id : number) (Hc : editable c) :
  exists p, transformFormDataToUpdatePayload (transformChannelToFormDefaults c) id = Some p
    /\ transformFormDataToUpdatePayload (transformChannelToFormDefaults (apply_update p c)) id = Some p.
Proof.
  destruct Hc as ((fs & Hs & Hd) & (xs & Hx & Hxo) & Hg & Hb).
  set (f := transformChannelToFormDefaults c).
  assert (Ey : f_typed f = typed_of (VObj fs)) by (by apply read_typed_stored).
  assert (Ex : f_extra f = extra_of (VObj xs)) by (by apply read_extra_stored).
  unfold transformFormDataToUpdatePayload. rewrite (build_stored f _ fs eq_refl Hs), Ey.
  destruct (settings_again (f_type f) fs Hd) as [Hok Hfix].
  set (fs2 := form_settings (f_type f) (typed_of (VObj fs)) fs) in *.
  cbn [fmap option_fmap option_map]. eexists. split; [reflexivity|].
  destruct (update_texts f id (stringify (VObj fs2)))
    as (T1 & T2 & T3 & T4 & T5 & T6 & T7 & T8 & T9 & T10 & T11 & T12 & T13 & T14 & T15).
  destruct (update_numbers f id (stringify (VObj fs2))) as (N1 & N2 & N3 & N4).
  set (p := update_of f id (stringify (VObj fs2))) in *.
  assert (Ep : p = update_of f id (stringify (VObj fs2))) by reflexivity. clearbody p.
  set (f2 := transformChannelToFormDefaults (apply_update p c)).
  assert (Hp2 : stored_as (stringify (VObj fs2)) fs2) by (right; by apply json_roundtrip, obj_ok_json).
  assert (Et2 : f_type f2 = f_type f) by (unfold f2; cbn; by rewrite N1).
  assert (Ey2 : f_typed f2 = typed_of (VObj fs2)) by (unfold f2; cbn; rewrite T6; by apply read_typed_stored).
  assert (Es2 : f_settings f2 = str_or (stringify (VObj fs2)) (js "{}")) by (unfold f2; cbn; by rewrite T6).
  rewrite (build_stored f2 _ fs2 Es2 Hp2), Et2, Ey2, Hfix. cbn [fmap option_fmap option_map]. f_equal.
  rewrite Ep. clear Ep. apply update_of_ext; unfold f2, transformChannelToFormDefaults, apply_update;
    cbn [f_name f_type f_base_url f_key f_openai_organization f_models f_group f_model_mapping f_priority
      f_weight f_test_model f_auto_ban f_status f_status_code_mapping f_tag f_remark f_setting f_param_override
      f_header_override f_settings f_other f_extra f_typed ch_type ch_name ch_base_url ch_openai_organization
      ch_models ch_group ch_model_mapping ch_priority ch_weight ch_test_model ch_auto_ban ch_status
      ch_status_code_mapping ch_tag ch_remark ch_setting ch_param_override ch_header_override ch_settings
      ch_other ch_multi_key_mode]; rewrite ?T1, ?T2, ?T3, ?T4, ?T5, ?T7, ?T8, ?T9, ?T10,
    ?T11, ?T12, ?T13, ?T14, ?T15, ?N1, ?N2, ?N3, ?N4; try done.
  - by apply normalizeBaseUrl_again.
  - apply group_again, Hg.
  - apply num_or_again.
  - apply num_or_again.
  - rewrite Ex. by apply extra_again.
Qed.

Lemma sample_editable :
  editable (mkChannel (num_of_Z 1) (js "main") (js "https://api.example/ ") [] (js "gpt-4o") (js "vip, default") []
    (num_of_Z 2) (num_of_Z 0) [] None (num_of_Z 1) [] [] [] [] [] []
    (stringify (VObj [(js "note", VStr (js "kept")); (js "allow_speed", VBool true);
       (js "upstream_model_update_ignored_models", VArr (List.map VStr [js "a"; js "b"]))])) [] []).
Proof.
  unfold editable. split_and!.
  - eexists. split; [right; cbn [ch_settings]; apply json_roundtrip, obj_ok_json|]; unfold declared;
      [|split_and!; [|right; exists [js "a"; js "b"]; reflexivity|left; reflexivity]].
    all: apply obj_ok_json; constructor;
      [apply obj_canon_named; cbn [keys fmap list_fmap fst]; apply (bool_decide_unpack _); vm_compute; reflexivity
      |repeat (constructor; [cbn [snd List.map]; auto 10 with js|]); constructor].
  - exists []. split; [by left|]. split; [split; constructor|constructor].
  - vm_compute. discriminate.
  - apply (bool_decide_unpack _). vm_compute. reflexivity.
Qed.

Lemma channel_edit_stable_witness :
  exists c p, editable c /\ ch_settings c <> []
    /\ transformFormDataToUpdatePayload (transformChannelToFormDefaults c) (num_of_Z 7) = Some p
    /\ transformFormDataToUpdatePayload (transformChannelToFormDefaults (apply_update p c)) (num_of_Z 7) = Some p.
Proof.
  eexists.
  destruct (channel_edit_stable _ (num_of_Z 7) sample_editable) as (p & H1 & H2).
  exists p. split_and!; [exact sample_editable|discriminate|exact H1|exact H2].
Defined.

(** The stored object of the form's settings. *)
Lemma build_form f fs :
  stored_as (f_settings f) fs ->
  buildSettingsJSON f = Some (stringify (VObj (form_settings (f_type f) (f_typed f) fs))).
Proof.
  intros Hs. unfold buildSettingsJSON.
  destruct Hs as [[-> ->]|E]; [reflexivity|]. rewrite (stored_nonempty _ _ E). cbn [andb].
  case_bool_decide as Ec; cbn [negb].
  - rewrite Ec in E. assert (fs = []) as -> by (vm_compute in E; congruence). done.
  - by rewrite E.
Qed.

(** C35: what saving does to the settings of a channel.  The settings the form
    does not know are kept; those of the channel's type have the values of the
    form and those of other types are removed ([settled]); the settings of the
    upstream models are consistent where they can be fetched (no automatic
    synchronization and no detected models without the check, ignored models
    without blanks and repetitions) and the routes of an advanced custom
    channel are the normalized routes of the form. *)
Theorem settings_saved (f : ChannelFormValues) (fs : list (jsstr * value)) (Hs : stored_as (f_settings f) fs) :
  exists fs', buildSettingsJSON f = Some (stringify (VObj fs'))
    /\ (forall k, k ∉ form_keys -> assoc k fs' = assoc k fs)
    /\ settled (f_type f) (f_typed f) fs'
    /\ (type_in (f_type f) MODEL_FETCHABLE_TYPES = true -> settled_upstream (f_typed f) fs')
    /\ assoc (js "advanced_custom") fs'
       = (if type_is (f_type f) CHANNEL_TYPE_ADVANCED_CUSTOM then
            match parseAdvancedCustomConfig (Some (y_advanced_custom (f_typed f))) with
            | Some config => Some (config_value config)
            | None => assoc (js "advanced_custom") fs
            end
          else None).
Proof.
  eexists. split; [by apply build_form|]. split_and!.
  - intros k. apply form_settings_other.
  - apply form_settings_settled.
  - apply form_settings_upstream.
  - apply form_settings_advanced.
Qed.

Lemma settings_saved_witness :
  exists fs', buildSettingsJSON CHANNEL_FORM_DEFAULT_VALUES = Some (stringify (VObj fs'))
    /\ assoc (js "note") fs' = None /\ settled (num_of_Z 1) default_typed fs'.
Proof.
  destruct (settings_saved CHANNEL_FORM_DEFAULT_VALUES []) as (fs' & E & Hk & Hsettled & _).
  - right. vm_compute. reflexivity.
  - exists fs'. split_and!; [exact E| |exact Hsettled]. rewrite Hk; [reflexivity|].
    intros H. apply (bool_decide_pack _) in H. vm_compute in H. exact H.
Defined.

Lemma find_cleared f k :
  match List.find (fun x => bool_decide (x.1 = k)) (cleared_texts f) with
  | Some x => k ∈ cleared_keys
  | None => k ∉ cleared_keys
  end.
Proof.
  rewrite <- (cleared_texts_keys f). destruct (List.find _ _) as [x|] eqn:E.
  - apply List.find_some in E as [Hx E]. apply bool_decide_eq_true in E. subst k.
    by apply list_elem_of_fmap_2, list_elem_of_In.
  - intros (x & -> & Hx%list_elem_of_In)%list_elem_of_fmap.
    apply (find_none _ _ E) in Hx. by apply bool_decide_eq_false in Hx.
Qed.

(** An update says what it changes.  The key is in it exactly when one was
    entered; the nine texts that can be cleared are always in it as texts,
    empty or not, so that the server clears them; no other field of it is the
    empty text. *)
Theorem update_payload_spec (f : ChannelFormValues) (id : number) (p : list (jsstr * value))
    (Hp : transformFormDataToUpdatePayload f id = Some p) :
  assoc (js "key") p = (if nonempty (trim (f_key f)) then Some (VStr (f_key f)) else None)
  /\ (forall k, k ∈ cleared_keys -> exists s, assoc k p = Some (VStr s))
  /\ (forall k, k ∉ cleared_keys -> assoc k p <> Some (VStr [])).
Proof.
  unfold transformFormDataToUpdatePayload in Hp. destruct (buildSettingsJSON f) as [settings|]; [|done].
  cbn [fmap option_fmap option_map] in Hp. apply Some_inj in Hp. subst p.
  split_and!; intros; rewrite update_get.
  - pose proof (find_cleared f (js "key")) as Hc. destruct (List.find _ _) as [x|].
    { exfalso. apply (bool_decide_pack _) in Hc. vm_compute in Hc. exact Hc. }
    unfold with_entered_key.
    assert (Ht : nonempty (f_key f) && nonempty (trim (f_key f)) = nonempty (trim (f_key f)))
      by (by destruct (f_key f)).
    rewrite Ht. destruct (nonempty (trim (f_key f))) eqn:E; [|reflexivity].
    rewrite assoc_obj_set, decide_True by done. destruct (f_key f); done.
  - pose proof (find_cleared f k) as Hc. destruct (List.find _ _) as [x|]; [by eexists|done].
  - pose proof (find_cleared f k) as Hc. destruct (List.find _ _) as [x|]; [done|].
    destruct (assoc k _) as [v|]; [|done]. cbn [fmap option_fmap option_map].
    destruct v as [| | | |[|c w]| |]; done.
Qed.

Lemma update_payload_spec_witness :
  exists p, transformFormDataToUpdatePayload CHANNEL_FORM_DEFAULT_VALUES (num_of_Z 7) = Some p
    /\ assoc (js "key") p = None /\ exists s, assoc (js "tag") p = Some (VStr s).
Proof.
  assert (E : exists p, transformFormDataToUpdatePayload CHANNEL_FORM_DEFAULT_VALUES (num_of_Z 7) = Some p)
    by (eexists; reflexivity).
  destruct E as [p E]. exists p. split; [exact E|].
  destruct (update_payload_spec CHANNEL_FORM_DEFAULT_VALUES (num_of_Z 7) p E) as (H1 & H2 & _).
  split; [exact H1|]. apply H2. apply (bool_decide_unpack _). vm_compute. reflexivity.
Defined.

(** ** Validation *)

(** What the checks across fields ask for. *)
Definition refine_ok (url : jsstr -> option (jsstr * jsstr)) (data : ChannelFormValues) : Prop :=
  let type := f_type data in
  let config := config_value <$> parseAdvancedCustomConfig (Some (y_advanced_custom (f_typed data))) in
  (type_in type [3; 8; 36; 45]%Z = true -> trim (f_base_url data) <> [])
  /\ (type_is type CHANNEL_TYPE_ADVANCED_CUSTOM = true ->
      validateAdvancedCustomConfig url config = Some None
      /\ exists relative, advancedCustomConfigUsesRelativeUpstreamPath config = Some relative
         /\ (relative = true -> trim (f_base_url data) <> []))
  /\ (type_in type [3; 18; 21; 39; 41; 49]%Z = true -> trim (f_other data) <> [])
  /\ (type_is type 57 = true ->
      batch_mode data = false /\ (trim (f_key data) <> [] -> isCodexCredential (f_key data) = true))
  /\ (type_is type 41 = true -> y_vertex_key_type (f_typed data) = VStr (js "json") ->
      trim (f_key data) <> [] -> isVertexJsonKey (f_key data) = true)
  /\ (type_is type 41 = true -> y_vertex_key_type (f_typed data) = VStr (js "api_key") ->
      batch_mode data = false).

Lemma issue_nil (b : bool) (x y : jsstr) (l : list (jsstr * jsstr)) :
  (if b then [(x, y)] else []) ++ l = [] <-> b = false /\ l = [].
Proof. destruct b; naive_solver. Qed.
Lemma issue_nil_last (b : bool) (x y : jsstr) :
  (if b then [(x, y)] else []) = @nil (jsstr * jsstr) <-> b = false.
Proof. by destruct b. Qed.
Lemma blank_spec s : blank s = true <-> trim s = [].
Proof. unfold blank. by destruct (trim s). Qed.
Lemma is_text_spec v s : is_text v s = true <-> v = VStr s.
Proof. unfold is_text. destruct v; try naive_solver. rewrite bool_decide_eq_true. naive_solver. Qed.
Lemma and_blank (b : bool) s : b && blank s = false <-> (b = true -> trim s <> []).
Proof. rewrite <- blank_spec. destruct b, (blank s); naive_solver. Qed.

(** The checks across the fields of the form pass exactly when the channel
    type has what it needs ([refine_ok]): a base URL or a region where the type
    requires one, valid routes for an advanced custom channel and a base URL if
    a route is relative, a usable credential for the types with JSON keys, and
    no batch creation for the types without it. *)
Theorem superRefine_spec (url : jsstr -> option (jsstr * jsstr)) (data : ChannelFormValues) :
  superRefine url data = Some [] <-> refine_ok url data.
Proof.
  unfold superRefine, refine_ok. cbv zeta.
  set (config := config_value <$> _).
  set (adv := if type_is (f_type data) CHANNEL_TYPE_ADVANCED_CUSTOM then _ else Some []).
  set (adv_ok := type_is (f_type data) CHANNEL_TYPE_ADVANCED_CUSTOM = true -> _).
  assert (Hadv : adv = Some [] <-> adv_ok).
  { unfold adv, adv_ok. destruct (type_is _ CHANNEL_TYPE_ADVANCED_CUSTOM); [|naive_solver].
    destruct (validateAdvancedCustomConfig url config) as [[e|]|]; cbn [mbind option_bind]; [..|naive_solver].
    - destruct (advancedCustomConfigUsesRelativeUpstreamPath config); naive_solver.
    - destruct (advancedCustomConfigUsesRelativeUpstreamPath config) as [r|]; cbn [mbind option_bind app];
        [|naive_solver].
      rewrite (inj_iff Some), issue_nil_last, and_blank. naive_solver. }
  rewrite <- Hadv. clearbody adv. clear Hadv adv_ok.
  destruct adv as [l|]; cbn [mbind option_bind]; [|naive_solver].
  assert (Hl : forall r : list (jsstr * jsstr), l ++ r = [] <-> l = [] /\ r = [])
    by (intros r; destruct l; naive_solver).
  rewrite !(inj_iff Some), issue_nil, Hl, issue_nil, !and_blank. clear Hl.
  assert (Hk : forall b c d : bool, b && c && negb (blank (f_key data)) && negb d = false <->
    (b = true -> c = true -> trim (f_key data) <> [] -> d = true)).
  { intros b c d. rewrite <- blank_spec. destruct b, c, d, (blank (f_key data)); naive_solver. }
  assert (Hb : forall b c d : bool, b && c && d = false <-> (b = true -> c = true -> d = false))
    by (intros [] [] []; naive_solver).
  assert (H57 : forall r : list (jsstr * jsstr), (if type_is (f_type data) 57 then
       (if batch_mode data then [(js "multi_key_mode", K_codex_batch)] else [])
       ++ (if negb (blank (f_key data)) && negb (isCodexCredential (f_key data))
           then [(js "key", K_codex_key)] else []) else []) ++ r = [] <->
    (type_is (f_type data) 57 = true -> batch_mode data = false
       /\ (trim (f_key data) <> [] -> isCodexCredential (f_key data) = true)) /\ r = []).
  { intros r. rewrite <- blank_spec.
    destruct (type_is (f_type data) 57), (batch_mode data), (blank (f_key data)), (isCodexCredential (f_key data));
      cbn [app negb andb]; naive_solver. }
  rewrite H57, issue_nil, issue_nil_last, Hk, Hb, !is_text_spec. done.
Qed.
