(* ===== verification/JsFixed.v ===== *)
(** * Rounding, fixed notation and reading a number from a prefix

    [Math.round], [Math.abs], [Number.prototype.toFixed] and [parseFloat] of
    the language, on the numbers of JsNumber.  Rounding is computed exactly on
    the rational a finite number stands for. *)

From S2P Require Import Prelude JsNumber JsRegex.
From Stdlib Require Import SpecFloat.

Definition num_abs (x : number) : number := SFabs x.

(** [n / d] rounded to the nearest integer, a tie up. *)
Definition round_half_up (n d : Z) : Z := ((2 * n + d) / (2 * d))%Z.

(** A zero keeps the sign of the argument. *)
Definition math_round (x : number) : number :=
  match x with
  | S754_finite s m e =>
      if (0 <=? e)%Z then x
      else let z := round_half_up (if s then - Z.pos m else Z.pos m)%Z (2 ^ (- e))%Z in
           if (z =? 0)%Z then S754_zero s else num_of_Z z
  | _ => x
  end.

(** The digits of [n / 10 ^ f]. *)
Definition fixed_digits (f : nat) (n : Z) : jsstr :=
  let ds := dec_of_N (Z.to_N n) in
  let ds := zeros (S f - length ds) ++ ds in
  match f with
  | 0 => ds
  | _ => take (length ds - f) ds ++ js "." ++ drop (length ds - f) ds
  end.

(** [x.toFixed(f)] *)
Definition to_fixed (f : nat) (x : number) : jsstr :=
  match x with
  | S754_nan | S754_infinity _ => num_to_string x
  | S754_zero _ => fixed_digits f 0
  | S754_finite s m e =>
      if num_leb (decimal_value false 1 21) (num_abs x) then num_to_string x
      else
        let n := (Z.pos m * 10 ^ Z.of_nat f)%Z in
        let z := if (0 <=? e)%Z then (n * 2 ^ e)%Z else round_half_up n (2 ^ (- e))%Z in
        (if s then js "-" else []) ++ fixed_digits f z
  end.

(** A decimal literal with its sign, or [Infinity]. *)
Definition str_decimal (t : jsstr) : option number :=
  let '(neg, u) := match t with
                   | c :: u => if (c =? ch "-")%N then (true, u)
                               else if (c =? ch "+")%N then (false, u)
                               else (false, t)
                   | [] => (false, t)
                   end in
  if bool_decide (u = js "Infinity") then Some (S754_infinity neg) else read_unsigned_decimal neg u.

(** The longest prefix that is a literal. *)
Fixpoint longest_decimal (k : nat) (t : jsstr) : number :=
  match str_decimal (take k t) with
  | Some x => x
  | None => match k with 0 => NaN | S k' => longest_decimal k' t end
  end.
(** [parseFloat(s)] *)
Definition parse_float (s : jsstr) : number :=
  let t := trim_start s in longest_decimal (length t) t.

Example round_ties :
  List.map (fun s => num_to_string (math_round (num_of_string (js s)))) ["2.5"; "-2.5"; "0.49999999999999994"; "1e300"]%string
  = [js "3"; js "-2"; js "0"; js "1e+300"].
Proof. vm_compute. reflexivity. Qed.
Example fixed_texts :
  List.map (fun s => to_fixed 2 (num_of_string (js s))) ["1.005"; "0.001"; "-1.5"; "1e21"; "10.235"]%string
  = [js "1.00"; js "0.00"; js "-1.50"; js "1e+21"; js "10.23"].
Proof. vm_compute. reflexivity. Qed.
Example float_prefixes :
  List.map (fun s => num_to_string (parse_float (js s))) ["3."; " 1.5e3x"; "."; "1e"; "-.5"]%string
  = [js "3"; js "1500"; js "NaN"; js "1"; js "-0.5"].
Proof. vm_compute. reflexivity. Qed.

(** A literal without white space before it is read as [Number] reads it. *)
Lemma parse_float_literal s x :
  trimmed s -> s <> [] -> str_decimal s = Some x -> parse_float s = x /\ num_of_string s = x.
Proof.
  intros Ht Hs E. split.
  - unfold parse_float, trim_start. rewrite drop_while_id by (by destruct Ht). cbv zeta.
    destruct (length s) as [|k] eqn:El; [by destruct s|]. cbn [longest_decimal].
    by rewrite <- El, firstn_all, E.
  - unfold num_of_string, str_decimal in *. rewrite trim_id by done. destruct s as [|c s]; [done|].
    cbn [nonempty negb]. destruct (if (c =? ch "-")%N then _ else _) as [neg u].
    destruct (bool_decide _); [by injection E|]. by rewrite E.
Qed.
