(* ===== verification/ModelPricing.v ===== *)
(** * Model prices ([features/system-settings/models])

    pricing-format.ts, model-pricing-core.ts, model-pricing-snapshots.ts, the
    callbacks of model-ratio-visual-editor.tsx and [safeJsonParse] of
    utils/json-parser.ts.

    Prices are kept in ten JSON texts, one object from model names to numbers
    for each kind of price and two for the billing mode and expression
    ([Options]).  The optional texts of a row are read with [|| ''] or tested
    for truth, so an absent one is the empty text.  A text whose JSON is not an
    object, on which the code indexes and assigns, is outside the model
    ([pricing_map] is [None]); so are models named like a member of
    [Object.prototype]. *)

From S2P Require Import Prelude JsNumber JsFixed JsValue JsPretty JsRegex BillingExpr.

(** ** pricing-format.ts *)

Definition DISPLAY_DECIMALS : nat := 12.
Definition SNAP_DECIMALS : nat := 8.
Definition SNAP_EPSILON : number := decimal_value false 1 (-12).
(** [Number.EPSILON] *)
Definition EPSILON : number := S754_finite false 4503599627370496 (-104).

Definition roundToDecimals (value : number) (decimals : nat) : number :=
  let factor := num_of_Z (10 ^ Z.of_nat decimals) in
  num_div (math_round (num_mul value factor)) factor.

(** The loop over [decimals], from [SNAP_DECIMALS - left] on. *)
Fixpoint snap_loop (left : nat) (value tolerance : number) : number :=
  let rounded := roundToDecimals value (SNAP_DECIMALS - left) in
  if num_leb (num_abs (num_sub value rounded)) tolerance then rounded
  else match left with 0 => value | S l => snap_loop l value tolerance end.
Definition snapFloatDrift (value : number) : number :=
  snap_loop SNAP_DECIMALS value
    (math_max SNAP_EPSILON (num_mul (num_mul (num_abs value) EPSILON) (num_of_Z 8))).

Definition formatPricingNumber (num : number) : jsstr :=
  if negb (is_finite num) then []
  else num_to_string (parse_float (to_fixed DISPLAY_DECIMALS (snapFloatDrift num))).

(** ** json-parser.ts *)

Definition safeJsonParse (fallback : value) (text : jsstr) : value :=
  let fallback := if is_nullish fallback then VNull else fallback in
  if negb (nonempty text) || negb (nonempty (trim text)) then fallback
  else match json_parse (trim text) with Some v => v | None => fallback end.

(** ** model-pricing-core.ts *)

Inductive PricingMode := PerToken | PerRequest | TieredExpr.
#[export] Instance PricingMode_eq_dec : EqDecision PricingMode.
Proof. solve_decision. Defined.

Inductive LaneKey := LCompletion | LCache | LCreateCache | LImage | LAudioInput | LAudioOutput.
#[export] Instance LaneKey_eq_dec : EqDecision LaneKey.
Proof. solve_decision. Defined.
(** The keys of [laneConfigs], in order. *)
Definition laneConfigs : list LaneKey := [LCompletion; LCache; LCreateCache; LImage; LAudioInput; LAudioOutput].

(** [Record<LaneKey, A>]; also the ratio fields by lane ([ratioFieldByLane]):
    completionRatio, cacheRatio, createCacheRatio, imageRatio, audioRatio and
    audioCompletionRatio. *)
Record Lanes (A : Type) := mkLanes {
  completion : A; cache : A; createCache : A; image : A; audioInput : A; audioOutput : A }.
Arguments mkLanes {A}.
Arguments completion {A}.
Arguments cache {A}.
Arguments createCache {A}.
Arguments image {A}.
Arguments audioInput {A}.
Arguments audioOutput {A}.

#[export] Instance Lanes_eq_dec {A} `{EqDecision A} : EqDecision (Lanes A).
Proof. solve_decision. Defined.

Definition lane_get {A} (k : LaneKey) (l : Lanes A) : A :=
  match k with
  | LCompletion => completion l | LCache => cache l | LCreateCache => createCache l
  | LImage => image l | LAudioInput => audioInput l | LAudioOutput => audioOutput l
  end.
(** [{ ...l, [k]: v }] *)
Definition lane_set {A} (k : LaneKey) (v : A) (l : Lanes A) : Lanes A :=
  let put i x := if decide (i = k) then v else x in
  mkLanes (put LCompletion (completion l)) (put LCache (cache l)) (put LCreateCache (createCache l))
    (put LImage (image l)) (put LAudioInput (audioInput l)) (put LAudioOutput (audioOutput l)).
Definition lane_map {A B} (f : A -> B) (l : Lanes A) : Lanes B :=
  mkLanes (f (completion l)) (f (cache l)) (f (createCache l)) (f (image l)) (f (audioInput l))
    (f (audioOutput l)).

Definition EMPTY_LANE_PRICES : Lanes jsstr := mkLanes [] [] [] [] [] [].
Definition EMPTY_LANE_ENABLED : Lanes bool := mkLanes false false false false false false.

(** The eight numbers of a model: the fixed price, the input ratio and the
    ratio of each lane. *)
Record Numbers (A : Type) := mkNumbers { price : A; ratio : A; lanes : Lanes A }.
Arguments mkNumbers {A}.
Arguments price {A}.
Arguments ratio {A}.
Arguments lanes {A}.
#[export] Instance Numbers_eq_dec {A} `{EqDecision A} : EqDecision (Numbers A).
Proof. solve_decision. Defined.
Definition num_map {A B} (f : A -> B) (n : Numbers A) : Numbers B :=
  mkNumbers (f (price n)) (f (ratio n)) (lane_map f (lanes n)).

Record ModelRatioData := mkData {
  rd_name : jsstr; rd_numbers : Numbers jsstr; rd_mode : PricingMode;
  rd_billingExpr : jsstr; rd_requestRuleExpr : jsstr }.

(** Digits with an optional point and more digits, or a point first; or nothing. *)
Definition DRAFT_BODY : regex :=
  rseq [ropt (RGroup 1 (RAlt (rseq [rplus (RChar is_digit);
                                    ropt (RGroup 2 (RSeq (runit (ch ".")) (RStar (RChar is_digit))))])
                             (RSeq (runit (ch ".")) (RStar (RChar is_digit)))));
        REnd false].
Definition numericDraftRegex : regex := RSeq (RBegin false) DRAFT_BODY.

(** [hasValue] and [toNumberOrNull] on texts. *)
Definition hasValue (s : jsstr) : bool := nonempty s.
Definition toNumberOrNull (s : jsstr) : option number :=
  if negb (hasValue s) then None
  else let num := num_of_string s in if is_finite num then Some num else None.

Definition ratioToBasePrice (ratio : jsstr) : jsstr :=
  match toNumberOrNull ratio with
  | None => []
  | Some num => formatPricingNumber (num_mul num (num_of_Z 2))
  end.

Definition deriveLanePrice (ratio denominator : jsstr) : jsstr :=
  match toNumberOrNull ratio, toNumberOrNull denominator with
  | Some r, Some d => formatPricingNumber (num_mul r d)
  | _, _ => []
  end.

Record LaneState := mkLaneState { ls_promptPrice : jsstr; ls_prices : Lanes jsstr; ls_enabled : Lanes bool }.

Definition createInitialLaneState (data : option ModelRatioData) : LaneState :=
  match data with
  | None => mkLaneState [] EMPTY_LANE_PRICES EMPTY_LANE_ENABLED
  | Some d =>
      let r := lanes (rd_numbers d) in
      let promptPrice := ratioToBasePrice (ratio (rd_numbers d)) in
      let audioInputPrice := deriveLanePrice (audioInput r) promptPrice in
      mkLaneState promptPrice
        (mkLanes (deriveLanePrice (completion r) promptPrice) (deriveLanePrice (cache r) promptPrice)
           (deriveLanePrice (createCache r) promptPrice) (deriveLanePrice (image r) promptPrice)
           audioInputPrice (deriveLanePrice (audioOutput r) audioInputPrice))
        (lane_map hasValue r)
  end.

Record PreviewRow := mkPreview { pr_key : jsstr; pr_label : jsstr; pr_value : jsstr; pr_multiline : bool }.

Section Translated.
Context (t : jsstr -> jsstr).

Definition dollars (s : jsstr) : jsstr := js "$" ++ s.
Definition lane_row (prices : Lanes jsstr) (enabled : Lanes bool) (k : LaneKey) (key label : jsstr) : PreviewRow :=
  mkPreview key (t label)
    (if lane_get k enabled && nonempty (lane_get k prices) then dollars (lane_get k prices)
     else t (js "Empty")) false.

Definition buildPreviewRows (values : Numbers jsstr) (mode : PricingMode)
    (billingExpr requestRuleExpr promptPrice : jsstr) (lanePrices : Lanes jsstr)
    (laneEnabled : Lanes bool) : list PreviewRow :=
  match mode with
  | TieredExpr =>
      [mkPreview (js "mode") (js "BillingMode") (js "tiered_expr") false;
       mkPreview (js "expr") (t (js "Expression"))
         (str_or (combineBillingExpr billingExpr requestRuleExpr) (t (js "Empty"))) true]
  | PerRequest =>
      [mkPreview (js "price") (js "ModelPrice") (str_or (price values) (t (js "Empty"))) false]
  | PerToken =>
      let row := lane_row lanePrices laneEnabled in
      [mkPreview (js "inputPrice") (t (js "Input price"))
         (if nonempty promptPrice then dollars promptPrice else t (js "Empty")) false;
       row LCompletion (js "completion") (js "Completion price");
       row LCache (js "cache") (js "Cache read price");
       row LCreateCache (js "createCache") (js "Cache write price");
       row LImage (js "image") (js "Image input price");
       row LAudioInput (js "audio") (js "Audio input price");
       row LAudioOutput (js "audioCompletion") (js "Audio output price")]
  end.
End Translated.

(** ** model-pricing-snapshots.ts *)

(** The ten texts, or what is made of each. *)
Record Options (A : Type) := mkOptions { o_numbers : Numbers A; o_mode : A; o_expr : A }.
Arguments mkOptions {A}.
Arguments o_numbers {A}.
Arguments o_mode {A}.
Arguments o_expr {A}.
Definition opt_map {A B} (f : A -> B) (o : Options A) : Options B :=
  mkOptions (num_map f (o_numbers o)) (f (o_mode o)) (f (o_expr o)).
(** All or nothing. *)
Definition lane_all {A} (l : Lanes (option A)) : option (Lanes A) :=
  match completion l, cache l, createCache l, image l, audioInput l, audioOutput l with
  | Some a, Some b, Some c, Some d, Some e, Some f => Some (mkLanes a b c d e f)
  | _, _, _, _, _, _ => None
  end.
Definition num_all {A} (n : Numbers (option A)) : option (Numbers A) :=
  match price n, ratio n, lane_all (lanes n) with
  | Some a, Some b, Some l => Some (mkNumbers a b l)
  | _, _, _ => None
  end.
Definition opt_all {A} (o : Options (option A)) : option (Options A) :=
  match num_all (o_numbers o), o_mode o, o_expr o with
  | Some n, Some m, Some e => Some (mkOptions n m e)
  | _, _, _ => None
  end.
(** In the order of the arguments of [buildModelSnapshots]. *)
Definition opt_list {A} (o : Options A) : list A :=
  let l := lanes (o_numbers o) in
  [price (o_numbers o); ratio (o_numbers o); cache l; createCache l; completion l; image l;
   audioInput l; audioOutput l; o_mode o; o_expr o].

Definition pmap := list (jsstr * value).
Definition pricing_map (text : jsstr) : option pmap :=
  match safeJsonParse (VObj []) text with VObj fs => Some fs | _ => None end.
Definition pricing_maps (texts : Options jsstr) : option (Options pmap) :=
  opt_all (opt_map pricing_map texts).

Record ModelPricingSnapshot := mkSnapshot {
  sn_name : jsstr; sn_numbers : Numbers jsstr; sn_billingMode : PricingMode;
  sn_billingExpr : jsstr; sn_requestRuleExpr : jsstr; sn_hasConflict : bool }.
#[export] Instance ModelPricingSnapshot_eq_dec : EqDecision ModelPricingSnapshot.
Proof. solve_decision. Defined.

Definition hasPricingValue (s : jsstr) : bool := nonempty s.

(** [map[name]?.toString() || ''] *)
Definition entry_text (name : jsstr) (m : pmap) : option jsstr :=
  match assoc name m with
  | None => Some []
  | Some v => if is_nullish v then Some [] else to_string v
  end.

(** Any ratio beside a price. *)
Definition has_ratio (n : Numbers jsstr) : bool :=
  let l := lanes n in
  nonempty (ratio n) || nonempty (completion l) || nonempty (cache l) || nonempty (createCache l)
  || nonempty (image l) || nonempty (audioInput l) || nonempty (audioOutput l).

(** [billingExprMap[name] || '']; a value that is not a text has no [trim]. *)
Definition expr_text (name : jsstr) (m : pmap) : option jsstr :=
  match assoc name m with
  | Some (VStr s) => Some s
  | Some v => if truthy v then None else Some []
  | None => Some []
  end.

(** [billingModeMap[name] === 'tiered_expr'] *)
Definition is_tiered (name : jsstr) (m : pmap) : bool :=
  match assoc name m with Some (VStr s) => bool_decide (s = js "tiered_expr") | _ => false end.

Definition snapshot_of (maps : Options pmap) (name : jsstr) : option ModelPricingSnapshot :=
  match num_all (num_map (entry_text name) (o_numbers maps)) with
  | None => None
  | Some n =>
      if is_tiered name (o_mode maps) then
        match expr_text name (o_expr maps) with
        | None => None
        | Some fullExpr =>
            match splitBillingExprAndRequestRules fullExpr with
            | None => None
            | Some sp => Some (mkSnapshot name n TieredExpr (billingExpr sp) (requestRuleExpr sp) false)
            end
        end
      else
        Some (mkSnapshot name n (if nonempty (price n) then PerRequest else PerToken) [] []
                (nonempty (price n) && has_ratio n))
  end.

Definition model_names (maps : Options pmap) : list jsstr := js_set (concat (List.map keys (opt_list maps))).

Definition buildModelSnapshots (texts : Options jsstr) : option (list ModelPricingSnapshot) :=
  match pricing_maps texts with
  | None => None
  | Some maps => mapM (snapshot_of maps) (model_names maps)
  end.

Definition mode_text (m : PricingMode) : jsstr :=
  match m with PerToken => js "per-token" | PerRequest => js "per-request" | TieredExpr => js "tiered_expr" end.

Definition getSnapshotSignature (snapshot : option ModelPricingSnapshot) : jsstr :=
  match snapshot with
  | None => []
  | Some s =>
      let n := sn_numbers s in let l := lanes n in
      stringify (VObj
        [(js "price", VStr (price n)); (js "ratio", VStr (ratio n)); (js "cacheRatio", VStr (cache l));
         (js "createCacheRatio", VStr (createCache l)); (js "completionRatio", VStr (completion l));
         (js "imageRatio", VStr (image l)); (js "audioRatio", VStr (audioInput l));
         (js "audioCompletionRatio", VStr (audioOutput l));
         (js "billingMode", VStr (mode_text (sn_billingMode s)));
         (js "billingExpr", VStr (sn_billingExpr s)); (js "requestRuleExpr", VStr (sn_requestRuleExpr s))])
  end.

(** The summary and the detail of a row. *)

Definition ratioToPrice (ratio denominator : jsstr) : jsstr :=
  let d := if nonempty denominator then toNumberOrNull denominator else Some (num_of_Z 2) in
  match toNumberOrNull ratio, d with
  | Some r, Some d => formatPricingNumber (num_mul r d)
  | _, _ => []
  end.

Definition getModeLabel (mode : PricingMode) : jsstr :=
  match mode with PerRequest => js "Per-request" | TieredExpr => js "Expression" | PerToken => js "Per-token" end.
Definition getModeVariant (mode : PricingMode) : jsstr :=
  match mode with PerRequest => js "warning" | TieredExpr => js "info" | PerToken => js "success" end.

Section Summaries.
Context (t : jsstr -> jsstr).
(** A middle dot between blanks. *)
Definition DOT : jsstr := js " " ++ [183%N] ++ js " ".

Definition getExpressionSummary (row : ModelPricingSnapshot) : jsstr :=
  let tierCount := length (re_all (rlit (js "tier(")) (sn_billingExpr row)) in
  if 0 <? tierCount
  then t (js "Tiered pricing") ++ DOT ++ dec_of_N (N.of_nat tierCount) ++ js " " ++ t (js "tiers")
  else t (js "Expression pricing").

Definition getPriceSummary (row : ModelPricingSnapshot) : jsstr :=
  let n := sn_numbers row in let l := lanes n in
  match sn_billingMode row with
  | TieredExpr => getExpressionSummary row
  | PerRequest =>
      if nonempty (price n) then js "$" ++ price n ++ js " / " ++ t (js "request") else t (js "Unset price")
  | PerToken =>
      let inputPrice := ratioToPrice (ratio n) [] in
      if negb (nonempty inputPrice) then t (js "Unset price")
      else
        let extraCount := length (List.filter hasPricingValue
          [completion l; cache l; createCache l; image l; audioInput l; audioOutput l]) in
        if 0 <? extraCount
        then t (js "Input") ++ js " $" ++ inputPrice ++ DOT ++ dec_of_N (N.of_nat extraCount) ++ js " " ++ t (js "extras")
        else t (js "Input") ++ js " $" ++ inputPrice
  end.

Definition getPriceDetail (row : ModelPricingSnapshot) : jsstr :=
  let n := sn_numbers row in let l := lanes n in
  match sn_billingMode row with
  | TieredExpr =>
      if nonempty (sn_requestRuleExpr row) then t (js "Includes request rules") else t (js "Expression based")
  | PerRequest => t (js "Fixed request price")
  | PerToken =>
      let inputPrice := ratioToPrice (ratio n) [] in
      if negb (nonempty inputPrice) then t (js "No base input price")
      else
        let detail label r :=
          if nonempty r then [t (js label) ++ js " $" ++ ratioToPrice r inputPrice] else [] in
        let details := take 2 (detail "Output"%string (completion l) ++ detail "Cache"%string (cache l)
                               ++ detail "Cache write"%string (createCache l)) in
        if nonempty details then join DOT details else t (js "Base input price only")
  end.
End Summaries.

(** ** model-ratio-visual-editor.tsx *)

Record ModelRow := mkRow {
  row_shown : ModelPricingSnapshot; row_saved : option ModelPricingSnapshot;
  row_draft : option ModelPricingSnapshot; row_isDraftChanged : bool; row_isDraftDeleted : bool;
  row_isDraftNew : bool }.

(** [new Map(rows.map((row) => [row.name, row])).get(name)] *)
Definition row_by_name (rows : list ModelPricingSnapshot) (name : jsstr) : option ModelPricingSnapshot :=
  List.find (fun r => bool_decide (sn_name r = name)) (rev rows).

Definition model_row (savedRows draftRows : list ModelPricingSnapshot) (name : jsstr) : option ModelRow :=
  let saved := row_by_name savedRows name in
  let draft := row_by_name draftRows name in
  let displayed := match saved with Some s => Some s | None => draft end in
  (fun d => mkRow d saved draft
     (negb (bool_decide (getSnapshotSignature saved = getSnapshotSignature draft)))
     (bool_decide (is_Some saved) && negb (bool_decide (is_Some draft)))
     (negb (bool_decide (is_Some saved)) && bool_decide (is_Some draft))) <$> displayed.

Definition model_rows (collate : jsstr -> jsstr -> comparison)
    (savedRows draftRows : list ModelPricingSnapshot) : list ModelRow :=
  let modelNames := js_set (js_set (List.map sn_name savedRows) ++ js_set (List.map sn_name draftRows)) in
  js_sort (fun a b => collate (sn_name (row_shown a)) (sn_name (row_shown b)))
    (List.filter (fun r => negb (row_isDraftDeleted r)) (omap (model_row savedRows draftRows) modelNames)).

Definition models (collate : jsstr -> jsstr -> comparison) (saved draft : Options jsstr) : option (list ModelRow) :=
  match buildModelSnapshots saved, buildModelSnapshots draft with
  | Some s, Some d => Some (model_rows collate s d)
  | _, _ => None
  end.

Definition modeCounts (rows : list ModelRow) : nat * nat * nat :=
  foldl (fun acc r =>
    let '(a, b, c) := acc in
    match sn_billingMode (row_shown r) with
    | PerToken => (S a, b, c) | PerRequest => (a, S b, c) | TieredExpr => (a, b, S c)
    end) (0, 0, 0) rows.

(** The state of the editor beside the table's own: the draft texts are the
    fields of the form it is part of. *)
Record VisualEditor := mkVisualEditor {
  ve_texts : Options jsstr; ve_editData : option ModelRatioData; ve_editorOpen : bool;
  ve_sheetOpen : bool; ve_globalFilter : jsstr }.

Definition edit_data (model : ModelRow) : ModelRatioData :=
  let editable := match row_draft model with
                  | Some d => d
                  | None => match row_saved model with Some s => s | None => row_shown model end
                  end in
  let n := sn_numbers editable in
  mkData (sn_name editable) n
    (match sn_billingMode editable with
     | TieredExpr => TieredExpr
     | _ => if nonempty (price n) then PerRequest else PerToken
     end) (sn_billingExpr editable) (sn_requestRuleExpr editable).

Definition handleEdit (isMobile : bool) (model : ModelRow) (s : VisualEditor) : VisualEditor :=
  mkVisualEditor (ve_texts s) (Some (edit_data model)) true (if isMobile then true else ve_sheetOpen s)
    (ve_globalFilter s).

Definition handleAdd (isMobile : bool) (s : VisualEditor) : VisualEditor :=
  mkVisualEditor (ve_texts s) None true (if isMobile then true else ve_sheetOpen s) (ve_globalFilter s).

Definition handleGlobalFilterChange (next : jsstr) (s : VisualEditor) : VisualEditor :=
  if bool_decide (next = ve_globalFilter s) then s
  else mkVisualEditor (ve_texts s) None false false next.

(** [delete map[name]] in each map. *)
Definition delete_model (name : jsstr) (maps : Options pmap) : Options pmap := opt_map (obj_delete name) maps.
(** [onChange(field, JSON.stringify(map, null, 2))] for each map. *)
Definition print_maps (maps : Options pmap) : Options jsstr := opt_map (fun m => stringify2 (VObj m)) maps.

Definition handleDelete (name : jsstr) (s : VisualEditor) : option VisualEditor :=
  match pricing_maps (ve_texts s) with
  | None => None
  | Some maps =>
      let texts := print_maps (delete_model name maps) in
      Some (if bool_decide (rd_name <$> ve_editData s = Some name)
            then mkVisualEditor texts None false false (ve_globalFilter s)
            else mkVisualEditor texts (ve_editData s) (ve_editorOpen s) (ve_sheetOpen s) (ve_globalFilter s))
  end.

Definition setIfPresent (name value : jsstr) (target : pmap) : pmap :=
  if negb (nonempty value) then target
  else let parsed := parse_float value in
       if is_finite parsed then obj_set name (VNum parsed) target else target.

Definition set_lanes (name : jsstr) (l : Lanes jsstr) (m : Lanes pmap) : Lanes pmap :=
  mkLanes (setIfPresent name (completion l) (completion m)) (setIfPresent name (cache l) (cache m))
    (setIfPresent name (createCache l) (createCache m)) (setIfPresent name (image l) (image m))
    (setIfPresent name (audioInput l) (audioInput m)) (setIfPresent name (audioOutput l) (audioOutput m)).

(** The body of [targetNames.forEach]. *)
Definition persist_model (data : ModelRatioData) (maps : Options pmap) (name : jsstr) : Options pmap :=
  let m := delete_model name maps in
  let n := rd_numbers data in
  let nm := o_numbers m in
  match rd_mode data with
  | TieredExpr =>
      let combined := combineBillingExpr (rd_billingExpr data) (rd_requestRuleExpr data) in
      mkOptions
        (mkNumbers (setIfPresent name (price n) (price nm)) (setIfPresent name (ratio n) (ratio nm))
           (set_lanes name (lanes n) (lanes nm)))
        (if nonempty combined then obj_set name (VStr (js "tiered_expr")) (o_mode m) else o_mode m)
        (if nonempty combined then obj_set name (VStr combined) (o_expr m) else o_expr m)
  | _ =>
      if nonempty (price n)
      then mkOptions (mkNumbers (setIfPresent name (price n) (price nm)) (ratio nm) (lanes nm)) (o_mode m) (o_expr m)
      else mkOptions (mkNumbers (price nm) (setIfPresent name (ratio n) (ratio nm)) (set_lanes name (lanes n) (lanes nm)))
             (o_mode m) (o_expr m)
  end.

Definition persistPricingData (data : ModelRatioData) (targetNames : list jsstr) (texts : Options jsstr)
  : option (Options jsstr) :=
  (fun maps => print_maps (fold_left (persist_model data) targetNames maps)) <$> pricing_maps texts.

Inductive CopyResult := NoSource | NoTarget | Copied (count : nat).

(** [targetNames]: the names of the selected rows that pass the filter. *)
Definition handleBatchCopy (targetNames : list jsstr) (s : VisualEditor) : option (CopyResult * VisualEditor) :=
  match ve_editData s with
  | None => Some (NoSource, s)
  | Some data =>
      if negb (nonempty targetNames) then Some (NoTarget, s)
      else (fun texts => (Copied (length targetNames),
                          mkVisualEditor texts (ve_editData s) (ve_editorOpen s) (ve_sheetOpen s) (ve_globalFilter s)))
             <$> persistPricingData data targetNames (ve_texts s)
  end.

(** [commit]: what the open panel's [commitDraft] returns, [None] when there
    is no panel. *)
Definition commitOpenEditor (commit : option (option ModelRatioData)) (s : VisualEditor) : option (bool * VisualEditor) :=
  if negb (ve_editorOpen s) then Some (true, s)
  else match commit with
       | None => Some (true, s)
       | Some None => Some (false, s)
       | Some (Some data) =>
           (fun texts => (true, mkVisualEditor texts (Some data) (ve_editorOpen s) (ve_sheetOpen s) (ve_globalFilter s)))
             <$> persistPricingData data [rd_name data] (ve_texts s)
       end.
