(* ===== verification/PricingPanel.v ===== *)
(** * The panel of one model's prices ([models/model-pricing-sheet.tsx])

    The state of [ModelPricingEditorPanel], the values of its form and one
    function per handler.  The form library keeps the values and runs the
    schema; what the panel asks of it is [setValue], [reset], [getValues] and
    whether the schema accepts the name.  A handler runs with the state of the
    last render. *)

From S2P Require Import Prelude JsNumber JsValue JsRegex BillingExpr ModelPricing.

Inductive PanelError := NeedsInputPrice | NeedsAudioInput.

Record Panel := mkPanel {
  pp_editData : option ModelRatioData; pp_pricingMode : PricingMode; pp_promptPrice : jsstr;
  pp_lanePrices : Lanes jsstr; pp_laneEnabled : Lanes bool; pp_billingExpr : jsstr;
  pp_requestRuleExpr : jsstr; pp_editorReloadToken : nat; pp_name : jsstr; pp_values : Numbers jsstr }.

Definition EMPTY_VALUES : Numbers jsstr := mkNumbers [] [] EMPTY_LANE_PRICES.
Definition initial_panel : Panel :=
  mkPanel None PerToken [] EMPTY_LANE_PRICES EMPTY_LANE_ENABLED [] [] 0 [] EMPTY_VALUES.

(** The effect on a new [editData]. *)
Definition load_panel (editData : option ModelRatioData) (s : Panel) : Panel :=
  let next := createInitialLaneState editData in
  let '(name, values, mode, expr, rules) :=
    match editData with
    | Some d =>
        (rd_name d, rd_numbers d,
         match rd_mode d with
         | TieredExpr => TieredExpr
         | _ => if nonempty (price (rd_numbers d)) then PerRequest else PerToken
         end, rd_billingExpr d, rd_requestRuleExpr d)
    | None => ([], EMPTY_VALUES, PerToken, [], [])
    end in
  mkPanel editData mode (ls_promptPrice next) (ls_prices next) (ls_enabled next) expr rules
    (S (pp_editorReloadToken s)) name values.

(** ** Updates of one part *)

Definition with_values (v : Numbers jsstr) (s : Panel) : Panel :=
  mkPanel (pp_editData s) (pp_pricingMode s) (pp_promptPrice s) (pp_lanePrices s) (pp_laneEnabled s)
    (pp_billingExpr s) (pp_requestRuleExpr s) (pp_editorReloadToken s) (pp_name s) v.
Definition with_lanes (prices : Lanes jsstr) (enabled : Lanes bool) (s : Panel) : Panel :=
  mkPanel (pp_editData s) (pp_pricingMode s) (pp_promptPrice s) prices enabled
    (pp_billingExpr s) (pp_requestRuleExpr s) (pp_editorReloadToken s) (pp_name s) (pp_values s).
Definition with_prompt (p : jsstr) (s : Panel) : Panel :=
  mkPanel (pp_editData s) (pp_pricingMode s) p (pp_lanePrices s) (pp_laneEnabled s)
    (pp_billingExpr s) (pp_requestRuleExpr s) (pp_editorReloadToken s) (pp_name s) (pp_values s).
Definition with_mode (m : PricingMode) (expr : jsstr) (s : Panel) : Panel :=
  mkPanel (pp_editData s) m (pp_promptPrice s) (pp_lanePrices s) (pp_laneEnabled s)
    expr (pp_requestRuleExpr s) (pp_editorReloadToken s) (pp_name s) (pp_values s).
Definition with_exprs (expr rules : jsstr) (s : Panel) : Panel :=
  mkPanel (pp_editData s) (pp_pricingMode s) (pp_promptPrice s) (pp_lanePrices s) (pp_laneEnabled s)
    expr rules (pp_editorReloadToken s) (pp_name s) (pp_values s).
Definition with_name (n : jsstr) (s : Panel) : Panel :=
  mkPanel (pp_editData s) (pp_pricingMode s) (pp_promptPrice s) (pp_lanePrices s) (pp_laneEnabled s)
    (pp_billingExpr s) (pp_requestRuleExpr s) (pp_editorReloadToken s) n (pp_values s).
(** [setFormValue(ratioFieldByLane[lane], v)] and [setFormValue('ratio', v)] *)
Definition set_lane_ratio (lane : LaneKey) (v : jsstr) (s : Panel) : Panel :=
  let n := pp_values s in with_values (mkNumbers (price n) (ratio n) (lane_set lane v (lanes n))) s.
Definition set_ratio (v : jsstr) (s : Panel) : Panel :=
  let n := pp_values s in with_values (mkNumbers (price n) v (lanes n)) s.

(** ** Handlers *)

(** [price / base] when both are numbers and the base is not zero. *)
Definition quotient_text (price base : jsstr) : jsstr :=
  match toNumberOrNull price, toNumberOrNull base with
  | Some p, Some b => if num_eqb b (num_of_Z 0) then [] else formatPricingNumber (num_div p b)
  | _, _ => []
  end.
Definition deriveLaneRatio (lane : LaneKey) (price nextPromptPrice : jsstr) (nextLanePrices : Lanes jsstr) : jsstr :=
  quotient_text price
    (match lane with LAudioOutput => audioInput nextLanePrices | _ => nextPromptPrice end).

Definition input_ratio (promptPrice : jsstr) : jsstr :=
  match toNumberOrNull promptPrice with
  | Some p => formatPricingNumber (num_div p (num_of_Z 2))
  | None => []
  end.

Definition sync_lane (prompt : jsstr) (prices : Lanes jsstr) (enabled : Lanes bool) (s : Panel) (key : LaneKey) : Panel :=
  set_lane_ratio key
    (if lane_get key enabled then deriveLaneRatio key (lane_get key prices) prompt prices else []) s.
Definition syncLaneRatios (prompt : jsstr) (prices : Lanes jsstr) (enabled : Lanes bool) (s : Panel) : Panel :=
  fold_left (sync_lane prompt prices enabled) laneConfigs (set_ratio (input_ratio prompt) s).

Definition handlePromptPriceChange (value : jsstr) (s : Panel) : Panel :=
  if negb (re_test numericDraftRegex value) then s
  else syncLaneRatios value (pp_lanePrices s) (pp_laneEnabled s) (with_prompt value s).

Definition handleLanePriceChange (lane : LaneKey) (value : jsstr) (s : Panel) : Panel :=
  if negb (re_test numericDraftRegex value) then s
  else
    let nextLanePrices := lane_set lane value (pp_lanePrices s) in
    let s1 := with_lanes nextLanePrices (pp_laneEnabled s) s in
    let s2 := if lane_get lane (pp_laneEnabled s)
              then set_lane_ratio lane (deriveLaneRatio lane value (pp_promptPrice s) nextLanePrices) s1
              else s1 in
    if bool_decide (lane = LAudioInput) && audioOutput (pp_laneEnabled s)
    then set_lane_ratio LAudioOutput
           (deriveLaneRatio LAudioOutput (audioOutput nextLanePrices) (pp_promptPrice s) nextLanePrices) s2
    else s2.

Definition handleLaneToggle (lane : LaneKey) (checked : bool) (s : Panel) : Panel :=
  let nextEnabled := lane_set lane checked (pp_laneEnabled s) in
  if checked then
    set_lane_ratio lane
      (deriveLaneRatio lane (lane_get lane (pp_lanePrices s)) (pp_promptPrice s) (pp_lanePrices s))
      (with_lanes (pp_lanePrices s) nextEnabled s)
  else
    let nextPrices := lane_set lane [] (pp_lanePrices s) in
    let s1 := set_lane_ratio lane [] s in
    if bool_decide (lane = LAudioInput)
    then with_lanes (lane_set LAudioOutput [] nextPrices) (lane_set LAudioOutput false nextEnabled)
           (set_lane_ratio LAudioOutput [] s1)
    else with_lanes nextPrices nextEnabled s1.

Definition handleModeChange (nextMode : PricingMode) (s : Panel) : Panel :=
  with_mode nextMode
    (if bool_decide (nextMode = TieredExpr) && negb (nonempty (pp_billingExpr s))
     then jsq "tier('base', p * 0 + c * 0)" else pp_billingExpr s) s.

(** The inputs of the fixed price and of the name, which is fixed when a model
    is edited. *)
Definition change_price (value : jsstr) (s : Panel) : Panel :=
  if re_test numericDraftRegex value
  then let n := pp_values s in with_values (mkNumbers value (ratio n) (lanes n)) s
  else s.
Definition change_name (value : jsstr) (s : Panel) : Panel :=
  match pp_editData s with Some _ => s | None => with_name value s end.

(** ** Committing *)

Definition missing_input (s : Panel) : bool :=
  bool_decide (pp_pricingMode s = PerToken)
  && negb (bool_decide (is_Some (toNumberOrNull (pp_promptPrice s))))
  && existsb (fun k => lane_get k (pp_laneEnabled s) && hasValue (lane_get k (pp_lanePrices s))) laneConfigs.
Definition missing_audio (s : Panel) : bool :=
  bool_decide (pp_pricingMode s = PerToken) && audioOutput (pp_laneEnabled s)
  && negb (hasValue (audioInput (pp_lanePrices s))).

Inductive Warning := ConflictingPrices | Missing (e : PanelError).
Definition warnings (s : Panel) : list Warning :=
  (match pp_editData s with
   | Some d => if nonempty (price (rd_numbers d)) && has_ratio (rd_numbers d) then [ConflictingPrices] else []
   | None => []
   end) ++ (if missing_input s then [Missing NeedsInputPrice] else [])
        ++ (if missing_audio s then [Missing NeedsAudioInput] else []).

Definition validatePricingValues (s : Panel) : option PanelError :=
  if missing_input s then Some NeedsInputPrice
  else if missing_audio s then Some NeedsAudioInput else None.

Definition buildSubmitData (s : Panel) : ModelRatioData :=
  let tiered := bool_decide (pp_pricingMode s = TieredExpr) in
  mkData (trim (pp_name s)) (pp_values s) (pp_pricingMode s)
    (if tiered then pp_billingExpr s else []) (if tiered then pp_requestRuleExpr s else []).

(** The schema asks for a name.  The messages of the fields belong to the
    form: [Invalid] when the schema refuses, [Refused] with the message
    [validatePricingValues] sets. *)
Inductive CommitResult := Invalid | Refused (e : PanelError) | Committed (data : ModelRatioData).
Definition commitDraft (s : Panel) : CommitResult :=
  if negb (nonempty (pp_name s)) then Invalid
  else match validatePricingValues s with
       | Some e => Refused e
       | None => Committed (buildSubmitData s)
       end.

(** ** Events *)

Inductive PanelEvent :=
| Load (editData : option ModelRatioData)
| PromptPrice (value : jsstr)
| LanePrice (lane : LaneKey) (value : jsstr)
| LaneToggle (lane : LaneKey) (checked : bool)
| ChooseMode (mode : PricingMode)
| FixedPrice (value : jsstr)
| Name (value : jsstr)
| Expressions (expr rules : jsstr).

Definition panel_step (s : Panel) (e : PanelEvent) : Panel :=
  match e with
  | Load d => load_panel d s
  | PromptPrice v => handlePromptPriceChange v s
  | LanePrice l v => handleLanePriceChange l v s
  | LaneToggle l b => handleLaneToggle l b s
  | ChooseMode m => handleModeChange m s
  | FixedPrice v => change_price v s
  | Name v => change_name v s
  | Expressions e r => with_exprs e r s
  end.
Definition panel_run (s : Panel) (es : list PanelEvent) : Panel := fold_left panel_step es s.
