(* ===== verification/ModelPricingFacts.v ===== *)
(** * Theorems on model prices

    Saving the prices of a model changes the rows of the targets and of no
    other model, a row shows what was saved, deleting removes one model, and a
    row is marked as changed exactly when one of its fields differs. *)

From S2P Require Import Prelude JsNumber JsFixed JsValue JsPretty JsRegex BillingExpr ModelPricing.

(** ** The ten maps *)

(** Projections of the records of maps, and nothing else. *)
Ltac fields :=
  cbn [o_numbers o_mode o_expr price ratio lanes completion cache createCache image audioInput audioOutput].
Ltac fields_in H :=
  cbn [o_numbers o_mode o_expr price ratio lanes completion cache createCache image audioInput audioOutput] in H.

Lemma opt_map_list {A B} (f : A -> B) o : opt_list (opt_map f o) = List.map f (opt_list o).
Proof. done. Qed.

Definition opt_Forall {A} (P : A -> Prop) (o : Options A) : Prop := Forall P (opt_list o).

Lemma opt_Forall_map {A B} (P : B -> Prop) (f : A -> B) o :
  opt_Forall P (opt_map f o) <-> opt_Forall (fun x => P (f x)) o.
Proof. unfold opt_Forall. rewrite opt_map_list. change (List.map ?g ?l) with (g <$> l). by rewrite Forall_fmap. Qed.

Lemma opt_all_some {A} (o : Options A) : opt_all (opt_map Some o) = Some o.
Proof. by destruct o as [[? ? []] ? ?]. Qed.

(** ** Printing and reading the maps *)

Lemma pricing_map_printed m : obj_ok m -> pricing_map (stringify2 (VObj m)) = Some m.
Proof.
  intros H%obj_ok_json. destruct (printed_object m H) as (Et & Hn & Hp).
  unfold pricing_map, safeJsonParse. by rewrite Et, Hn, Hp.
Qed.

Lemma pricing_maps_printed maps : opt_Forall obj_ok maps -> pricing_maps (print_maps maps) = Some maps.
Proof.
  intros H. unfold pricing_maps, print_maps.
  assert (E : opt_map pricing_map (opt_map (fun m => stringify2 (VObj m)) maps) = opt_map Some maps).
  { destruct maps as [[a b [c d e f g h]] i j]. unfold opt_Forall, opt_list in H. fields_in H.
    repeat (apply Forall_cons in H as [? H]). unfold opt_map, num_map, lane_map. fields.
    by rewrite !pricing_map_printed. }
  by rewrite E, opt_all_some.
Qed.

(** ** What the maps say of one model *)

Definition entries (name : jsstr) (maps : Options pmap) : Options (option value) := opt_map (assoc name) maps.

Lemma snapshot_entries maps maps' name :
  entries name maps = entries name maps' -> snapshot_of maps name = snapshot_of maps' name.
Proof.
  destruct maps as [[a b [c d e f g h]] i j], maps' as [[a' b' [c' d' e' f' g' h']] i' j'].
  intros [=]. unfold snapshot_of, entry_text, is_tiered, expr_text, num_map, lane_map. fields.
  by repeat match goal with H : assoc _ _ = assoc _ _ |- _ => rewrite H; clear H end.
Qed.

Lemma listed_entries maps name :
  name ∈ model_names maps <-> ~ Forall (eq None) (opt_list (entries name maps)).
Proof.
  unfold model_names. rewrite elem_of_js_set.
  change (opt_list (entries name maps)) with (List.map (assoc name) (opt_list maps)).
  generalize (opt_list maps). intros l. induction l as [|m l IH]; cbn [List.map concat].
  { rewrite elem_of_nil. split; [done|]. intros H. by destruct H. }
  rewrite elem_of_app, IH, Forall_cons. destruct (assoc name m) as [v|] eqn:E.
  - split; [by intros _ [? _]|]. intros _. left. destruct (decide (name ∈ keys m)) as [|Hn]; [done|].
    apply assoc_None in Hn. congruence.
  - apply assoc_None in E. tauto.
Qed.

(** The rows are the snapshots of the names. *)
Lemma snapshot_name maps name s : snapshot_of maps name = Some s -> sn_name s = name.
Proof. unfold snapshot_of. intros H. by repeat (split_match_in H; simplify_eq). Qed.

Lemma find_snapshot maps names rows name :
  mapM (snapshot_of maps) names = Some rows -> NoDup names ->
  row_by_name rows name = if decide (name ∈ names) then snapshot_of maps name else None.
Proof.
  intros H%mapM_Some_1 Hn. unfold row_by_name.
  assert (G : List.find (fun r => bool_decide (sn_name r = name)) (rev rows)
    = if decide (name ∈ names) then snapshot_of maps name else None); [|done].
  induction H as [|n r names rows Hr _ IH]; [done|]. apply NoDup_cons in Hn as [Hn Hnd].
  specialize (IH Hnd). cbn [rev].
  assert (Hf : forall l : list ModelPricingSnapshot, List.find (fun r => bool_decide (sn_name r = name)) (l ++ [r])
    = match List.find (fun r => bool_decide (sn_name r = name)) l with
      | Some x => Some x | None => if bool_decide (sn_name r = name) then Some r else None end).
  { intros l. induction l as [|x l IHl]; [done|]. cbn [app List.find]. by destruct (bool_decide (sn_name x = name)). }
  rewrite Hf, IH, (snapshot_name maps n r Hr). destruct (decide (name ∈ names)) as [Hin|Hin].
  - rewrite decide_True by (by right). destruct (snapshot_of maps name) as [x|] eqn:E; [done|].
    rewrite bool_decide_eq_false_2 by congruence. done.
  - destruct (decide (n = name)) as [->|E].
    + by rewrite bool_decide_eq_true_2, decide_True by (done || by left).
    + rewrite bool_decide_eq_false_2, decide_False by (done || by intros [?|?]%elem_of_cons). done.
Qed.

Lemma built_rows texts maps rows name :
  pricing_maps texts = Some maps -> buildModelSnapshots texts = Some rows ->
  row_by_name rows name = if decide (name ∈ model_names maps) then snapshot_of maps name else None.
Proof.
  intros E H. unfold buildModelSnapshots in H. rewrite E in H.
  apply (find_snapshot maps (model_names maps)); [done|apply NoDup_js_set].
Qed.

(** Two texts whose maps agree on a model show the same row. *)
Lemma same_row texts texts' maps maps' rows rows' name :
  pricing_maps texts = Some maps -> pricing_maps texts' = Some maps' ->
  buildModelSnapshots texts = Some rows -> buildModelSnapshots texts' = Some rows' ->
  entries name maps = entries name maps' -> row_by_name rows name = row_by_name rows' name.
Proof.
  intros E E' H H' He. rewrite (built_rows texts maps rows), (built_rows texts' maps' rows') by done.
  rewrite (snapshot_entries maps maps') by done.
  destruct (decide (name ∈ model_names maps)) as [Hin|Hin], (decide (name ∈ model_names maps')) as [Hin'|Hin'];
    try done; rewrite listed_entries in Hin, Hin'; rewrite He in Hin; tauto.
Qed.

(** ** Saving *)

(** The number a text is stored as, and the text it is shown as again. *)
Definition stored_number (s : jsstr) : option number :=
  if nonempty s && is_finite (parse_float s) then Some (parse_float s) else None.
Definition stored_text (s : jsstr) : jsstr := default [] (num_to_string <$> stored_number s).

(** The numbers that are stored in each mode: all with an expression, the
    price alone when there is one, else the ratios. *)
Definition stored_fields {A} (f : jsstr -> A) (d : ModelRatioData) : Numbers A :=
  let n := rd_numbers d in
  match rd_mode d with
  | TieredExpr => num_map f n
  | _ => if nonempty (price n)
         then mkNumbers (f (price n)) (f []) (lane_map (fun _ => f []) (lanes n))
         else mkNumbers (f []) (f (ratio n)) (lane_map f (lanes n))
  end.
Definition combined (d : ModelRatioData) : jsstr :=
  match rd_mode d with
  | TieredExpr => combineBillingExpr (rd_billingExpr d) (rd_requestRuleExpr d)
  | _ => []
  end.

Definition saved_entries (d : ModelRatioData) : Options (option value) :=
  let expr (v : value) := if nonempty (combined d) then Some v else None in
  mkOptions (stored_fields (fun s => VNum <$> stored_number s) d)
    (expr (VStr (js "tiered_expr"))) (expr (VStr (combined d))).

(** The row of a model that was saved: none when nothing is stored. *)
Definition saved_row (d : ModelRatioData) (name : jsstr) : option ModelPricingSnapshot :=
  let n := stored_fields stored_text d in
  if nonempty (combined d) then
    (fun sp => mkSnapshot name n TieredExpr (billingExpr sp) (requestRuleExpr sp) false)
      <$> splitBillingExprAndRequestRules (combined d)
  else if nonempty (price n) || has_ratio n then
    Some (mkSnapshot name n (if nonempty (price n) then PerRequest else PerToken) [] []
            (nonempty (price n) && has_ratio n))
  else None.

Lemma stored_number_nil : stored_number [] = None.
Proof. done. Qed.

Lemma assoc_setIfPresent k name v m :
  assoc k (setIfPresent name v m)
  = if decide (k = name) then match stored_number v with Some x => Some (VNum x) | None => assoc k m end
    else assoc k m.
Proof.
  unfold setIfPresent, stored_number. destruct (nonempty v); cbn [negb andb]; [|by case_decide].
  destruct (is_finite (parse_float v)); [apply assoc_obj_set|by case_decide].
Qed.

Lemma assoc_if_set (b : bool) k name (v : value) m :
  assoc k (if b then obj_set name v m else m)
  = if decide (k = name) then if b then Some v else assoc k m else assoc k m.
Proof. destruct b; [apply assoc_obj_set|by case_decide]. Qed.

Lemma persist_other d maps name k :
  k <> name -> entries k (persist_model d maps name) = entries k maps.
Proof.
  intros Hk. destruct maps as [[a b [c e f g h i]] m x].
  unfold persist_model, delete_model, entries, opt_map, num_map, lane_map, set_lanes. cbv zeta.
  destruct (rd_mode d), (nonempty (price (rd_numbers d))); fields;
    by rewrite ?assoc_if_set, ?assoc_setIfPresent, ?assoc_obj_delete, ?decide_False by done.
Qed.

Lemma persist_same d maps name : entries name (persist_model d maps name) = saved_entries d.
Proof.
  destruct maps as [[a b [c e f g h i]] m x].
  unfold persist_model, delete_model, entries, saved_entries, stored_fields, combined, opt_map, num_map,
    lane_map, set_lanes. cbv zeta.
  destruct (rd_mode d), (nonempty (price (rd_numbers d))); fields;
    rewrite ?assoc_if_set, ?assoc_setIfPresent, ?assoc_obj_delete, ?decide_True, ?stored_number_nil by done;
    by repeat match goal with |- context [stored_number ?s] => destruct (stored_number s) end.
Qed.

Lemma persist_entries d names maps k :
  entries k (fold_left (persist_model d) names maps)
  = if decide (k ∈ names) then saved_entries d else entries k maps.
Proof.
  revert maps. induction names as [|n names IH]; intros maps; [done|]. cbn [fold_left]. rewrite IH.
  destruct (decide (k ∈ names)) as [Hk|Hk]; [by rewrite decide_True by (by right)|].
  destruct (decide (k = n)) as [->|Hn].
  - by rewrite persist_same, decide_True by (by left).
  - rewrite persist_other, decide_False by (done || by intros [?|?]%elem_of_cons). done.
Qed.

(** ** Objects stay printable *)

(** The number a text is stored as is printed and read without loss. *)
Definition text_ok (s : jsstr) : Prop :=
  match stored_number s with Some x => json_num_ok x | None => True end.
#[export] Instance text_ok_dec s : Decision (text_ok s).
Proof. unfold text_ok. destruct (stored_number s); apply _. Defined.

Definition data_ok (d : ModelRatioData) : Prop :=
  let n := rd_numbers d in let l := lanes n in
  Forall text_ok
    [price n; ratio n; completion l; cache l; createCache l; image l; audioInput l; audioOutput l].

Lemma set_if_present_ok name v m :
  text_ok v -> obj_ok m -> obj_ok (setIfPresent name v m).
Proof.
  intros H Hm. unfold setIfPresent. unfold text_ok, stored_number in H. destruct (nonempty v); [|done]. cbn [negb andb] in *.
  destruct (is_finite (parse_float v)); [|done]. apply obj_ok_set; [|done]. by constructor.
Qed.

Lemma if_set_ok (b : bool) name (s : jsstr) m : obj_ok m -> obj_ok (if b then obj_set name (VStr s) m else m).
Proof. intros H. destruct b; [apply obj_ok_set; [constructor|done]|done]. Qed.

Lemma persist_ok d maps name :
  data_ok d -> opt_Forall obj_ok maps -> opt_Forall obj_ok (persist_model d maps name).
Proof.
  intros Hd H. destruct maps as [[a b [c e f g h i]] m x].
  unfold data_ok in Hd. repeat (apply Forall_cons in Hd as [? Hd]).
  unfold opt_Forall, opt_list in *. fields_in H. repeat (apply Forall_cons in H as [? H]).
  unfold persist_model, delete_model, opt_map, num_map, lane_map, set_lanes. cbv zeta.
  destruct (rd_mode d), (nonempty (price (rd_numbers d))); fields;
    repeat (apply Forall_cons; split); try apply Forall_nil; try done;
    try apply if_set_ok; try (apply set_if_present_ok; [done|]); by apply obj_ok_delete.
Qed.

Lemma persist_all_ok d names maps :
  data_ok d -> opt_Forall obj_ok maps -> opt_Forall obj_ok (fold_left (persist_model d) names maps).
Proof.
  intros Hd. revert maps. induction names as [|n names IH]; intros maps H; [done|].
  by apply IH, persist_ok.
Qed.

(** ** The row of a saved model *)

Definition entry_shown (o : option value) : option jsstr :=
  match o with None => Some [] | Some v => if is_nullish v then Some [] else to_string v end.

Lemma entry_shown_stored s : entry_shown (VNum <$> stored_number s) = Some (stored_text s).
Proof. unfold stored_text. by destruct (stored_number s). Qed.

Lemma shown_fields d :
  num_all (num_map entry_shown (stored_fields (fun s => VNum <$> stored_number s) d))
  = Some (stored_fields stored_text d).
Proof.
  unfold stored_fields, num_map, lane_map, num_all, lane_all.
  destruct (rd_mode d), (nonempty (price (rd_numbers d))); fields; by rewrite !entry_shown_stored.
Qed.

Lemma snapshot_saved maps name d :
  entries name maps = saved_entries d ->
  snapshot_of maps name
  = let n := stored_fields stored_text d in
    if nonempty (combined d) then
      (fun sp => mkSnapshot name n TieredExpr (billingExpr sp) (requestRuleExpr sp) false)
        <$> splitBillingExprAndRequestRules (combined d)
    else Some (mkSnapshot name n (if nonempty (price n) then PerRequest else PerToken) [] []
                 (nonempty (price n) && has_ratio n)).
Proof.
  intros E. cbv zeta. unfold snapshot_of.
  assert (En : num_map (entry_text name) (o_numbers maps) = num_map entry_shown (o_numbers (entries name maps))) by done.
  assert (Em : assoc name (o_mode maps) = o_mode (entries name maps)) by done.
  assert (Ex : assoc name (o_expr maps) = o_expr (entries name maps)) by done.
  rewrite En, E. cbn [saved_entries o_numbers]. rewrite shown_fields. unfold is_tiered, expr_text.
  rewrite Em, Ex, E. cbn [saved_entries o_mode o_expr]. destruct (nonempty (combined d)); [|done].
  rewrite bool_decide_eq_true_2 by done. by destruct (splitBillingExprAndRequestRules (combined d)).
Qed.

Lemma json_num_nonempty x : json_num_ok x -> num_to_string x <> [].
Proof. intros [_ H] E. rewrite E in H. apply parse_json_number_head in H as (c & t & ? & _). done. Qed.

Lemma stored_shown s : text_ok s -> None = (VNum <$> stored_number s) <-> nonempty (stored_text s) = false.
Proof.
  unfold text_ok, stored_text. destruct (stored_number s) as [x|]; [|done]. intros H.
  pose proof (json_num_nonempty x H) as Hn. cbn. by destruct (num_to_string x).
Qed.

Lemma saved_listed d :
  data_ok d -> nonempty (combined d) = false ->
  Forall (eq None) (opt_list (saved_entries d))
  <-> nonempty (price (stored_fields stored_text d)) || has_ratio (stored_fields stored_text d) = false.
Proof.
  intros Hd Hc. unfold data_ok in Hd. repeat (apply Forall_cons in Hd as [? Hd]).
  assert (Hnil : text_ok []) by done.
  unfold saved_entries, opt_list, has_ratio. rewrite Hc. fields. unfold stored_fields, num_map, lane_map.
  destruct (rd_mode d), (nonempty (price (rd_numbers d))); fields;
    rewrite !Forall_cons, Forall_nil, !stored_shown, !orb_false_iff by done; tauto.
Qed.

Lemma saved_shown maps name d :
  data_ok d -> entries name maps = saved_entries d ->
  (if decide (name ∈ model_names maps) then snapshot_of maps name else None) = saved_row d name.
Proof.
  intros Hd E. rewrite (snapshot_saved maps name d E). unfold saved_row. cbv zeta.
  destruct (nonempty (combined d)) eqn:Hc.
  - rewrite decide_True; [done|]. rewrite listed_entries, E. unfold saved_entries, opt_list. rewrite Hc. fields.
    rewrite !Forall_cons. naive_solver.
  - destruct (nonempty (price _) || _) eqn:Hb.
    + rewrite decide_True; [done|]. rewrite listed_entries, E, saved_listed, Hb by done. done.
    + rewrite decide_False; [done|]. rewrite listed_entries, E, saved_listed, Hb by done. tauto.
Qed.

(** Reading the rows of maps that agree with others outside [names]. *)
Lemma mapM_total {A B} (f : A -> option B) l :
  (forall x, x ∈ l -> is_Some (f x)) -> is_Some (mapM f l).
Proof. intros H. apply mapM_is_Some_2. by apply Forall_forall. Qed.

Lemma built_some texts maps rows name :
  pricing_maps texts = Some maps -> buildModelSnapshots texts = Some rows -> name ∈ model_names maps ->
  is_Some (snapshot_of maps name).
Proof.
  intros E H Hin. unfold buildModelSnapshots in H. rewrite E in H.
  assert (Hs : is_Some (mapM (snapshot_of maps) (model_names maps))) by (by eexists).
  apply mapM_is_Some_1 in Hs. rewrite Forall_forall in Hs. by apply Hs.
Qed.

(** Saving: the rows of the targets are what was saved, the others are
    unchanged. *)
Lemma persist_build d names texts maps rows :
  pricing_maps texts = Some maps -> opt_Forall obj_ok maps -> buildModelSnapshots texts = Some rows ->
  data_ok d -> is_Some (splitBillingExprAndRequestRules (combined d)) ->
  exists texts' rows', persistPricingData d names texts = Some texts'
    /\ buildModelSnapshots texts' = Some rows'
    /\ forall name, row_by_name rows' name
         = if decide (name ∈ names) then saved_row d name else row_by_name rows name.
Proof.
  intros E Hok H Hd Hsp. set (maps' := fold_left (persist_model d) names maps).
  assert (Hok' : opt_Forall obj_ok maps') by (by apply persist_all_ok).
  assert (E' : pricing_maps (print_maps maps') = Some maps') by (by apply pricing_maps_printed).
  assert (Hrows : is_Some (buildModelSnapshots (print_maps maps'))).
  { unfold buildModelSnapshots. rewrite E'. apply mapM_total. intros name Hin.
    pose proof (persist_entries d names maps name) as He. fold maps' in He.
    destruct (decide (name ∈ names)) as [Hn|Hn].
    - rewrite (snapshot_saved maps' name d He). cbv zeta.
      destruct (nonempty (combined d)); [|by eexists]. destruct Hsp as [sp ->]. by eexists.
    - rewrite (snapshot_entries maps' maps name He). eapply built_some; [done..|].
      apply listed_entries. apply listed_entries in Hin. by rewrite He in Hin. }
  destruct Hrows as [rows' Hrows]. exists (print_maps maps'), rows'. split_and!; [|done|].
  - unfold persistPricingData. by rewrite E.
  - intros name. pose proof (persist_entries d names maps name) as He. fold maps' in He.
    destruct (decide (name ∈ names)) as [Hn|Hn].
    + rewrite (built_rows _ maps' rows') by done. by apply saved_shown.
    + by apply (same_row (print_maps maps') texts maps' maps).
Qed.

(** C18: Saving the prices of a model to a list of targets, which is what
    committing the panel and copying to the selected rows do, writes ten texts
    from which the table shows, for each target, the row of what was saved (no
    row when nothing was stored), and for every other model the row it had. *)
Theorem persist_rows d names texts maps rows :
  pricing_maps texts = Some maps -> opt_Forall obj_ok maps -> buildModelSnapshots texts = Some rows ->
  data_ok d -> is_Some (splitBillingExprAndRequestRules (combined d)) ->
  exists texts' rows', persistPricingData d names texts = Some texts'
    /\ buildModelSnapshots texts' = Some rows'
    /\ forall name, row_by_name rows' name
         = if decide (name ∈ names) then saved_row d name else row_by_name rows name.
Proof. apply persist_build. Qed.

(** ** Deleting *)

Lemma delete_entries name k maps :
  entries k (delete_model name maps)
  = if decide (k = name) then opt_map (fun _ => None) maps else entries k maps.
Proof.
  destruct maps as [[a b [c e f g h i]] m x]. unfold delete_model, entries, opt_map, num_map, lane_map. fields.
  rewrite !assoc_obj_delete. by case_decide.
Qed.

Lemma delete_ok name maps : opt_Forall obj_ok maps -> opt_Forall obj_ok (delete_model name maps).
Proof.
  intros H. unfold delete_model. apply opt_Forall_map. unfold opt_Forall in *.
  eapply Forall_impl; [exact H|]. intros m. apply obj_ok_delete.
Qed.

(** Deleting a model removes its row and no other, and closes the panel
    exactly when it shows the deleted model. *)
Theorem delete_rows name s maps rows :
  pricing_maps (ve_texts s) = Some maps -> opt_Forall obj_ok maps ->
  buildModelSnapshots (ve_texts s) = Some rows ->
  exists s' rows', handleDelete name s = Some s' /\ buildModelSnapshots (ve_texts s') = Some rows'
    /\ (forall k, row_by_name rows' k = if decide (k = name) then None else row_by_name rows k)
    /\ ve_editData s' = (if decide (rd_name <$> ve_editData s = Some name) then None else ve_editData s)
    /\ ve_globalFilter s' = ve_globalFilter s.
Proof.
  intros E Hok H. set (maps' := delete_model name maps).
  assert (Hok' : opt_Forall obj_ok maps') by (by apply delete_ok).
  assert (E' : pricing_maps (print_maps maps') = Some maps') by (by apply pricing_maps_printed).
  assert (He := fun k => delete_entries name k maps). fold maps' in He.
  assert (Hgone : name ∉ model_names maps').
  { rewrite listed_entries, He, decide_True by done. intros Hn. apply Hn.
    destruct maps as [[a b [c e f g h i]] m x]. by repeat constructor. }
  assert (Hrows : is_Some (buildModelSnapshots (print_maps maps'))).
  { unfold buildModelSnapshots. rewrite E'. apply mapM_total. intros k Hin.
    assert (k <> name) by (by intros ->). specialize (He k). rewrite decide_False in He by done.
    rewrite (snapshot_entries maps' maps k He). eapply built_some; [done..|].
    apply listed_entries. apply listed_entries in Hin. by rewrite He in Hin. }
  destruct Hrows as [rows' Hrows]. unfold handleDelete. rewrite E.
  eexists _, rows'. split; [reflexivity|]. split_and!; [by case_bool_decide| |by case_decide; case_bool_decide|by case_bool_decide].
  intros k. destruct (decide (k = name)) as [->|Hk].
  - rewrite (built_rows _ maps' rows') by done. by rewrite decide_False.
  - apply (same_row (print_maps maps') (ve_texts s) maps' maps); [done..|]. by rewrite He, decide_False.
Qed.

(** ** Marking a row as changed *)

Definition fields_of (s : ModelPricingSnapshot) : Numbers jsstr * PricingMode * jsstr * jsstr :=
  (sn_numbers s, sn_billingMode s, sn_billingExpr s, sn_requestRuleExpr s).

Lemma signature_inj a b :
  getSnapshotSignature (Some a) = getSnapshotSignature (Some b) <-> fields_of a = fields_of b.
Proof.
  split; [|unfold fields_of; intros [= E1 E2 E3 E4]; unfold getSnapshotSignature; by rewrite E1, E2, E3, E4].
  assert (Hok : forall s, exists fs, getSnapshotSignature (Some s) = stringify (VObj fs) /\ json_ok (VObj fs)
    /\ fs = let n := sn_numbers s in let l := lanes n in
        [(js "price", VStr (price n)); (js "ratio", VStr (ratio n)); (js "cacheRatio", VStr (cache l));
         (js "createCacheRatio", VStr (createCache l)); (js "completionRatio", VStr (completion l));
         (js "imageRatio", VStr (image l)); (js "audioRatio", VStr (audioInput l));
         (js "audioCompletionRatio", VStr (audioOutput l));
         (js "billingMode", VStr (mode_text (sn_billingMode s)));
         (js "billingExpr", VStr (sn_billingExpr s)); (js "requestRuleExpr", VStr (sn_requestRuleExpr s))]).
  { intros s. eexists. split_and!; [reflexivity| |reflexivity]. constructor; [|repeat constructor].
    vm_compute. reflexivity. }
  destruct (Hok a) as (fa & Ea & Ha & Hfa), (Hok b) as (fb & Eb & Hb & Hfb). rewrite Ea, Eb. intros E.
  apply (f_equal json_parse) in E. rewrite !json_roundtrip in E by done. injection E as E. rewrite Hfa, Hfb in E.
  destruct a as [na [pa ra [a1 a2 a3 a4 a5 a6]] ma ea qa ca], b as [nb [pb rb [b1 b2 b3 b4 b5 b6]] mb eb qb cb].
  cbn in E. injection E as -> -> -> -> -> -> -> -> Em -> ->. unfold fields_of. cbn.
  assert (ma = mb) as -> by (destruct ma, mb; done). done.
Qed.

Lemma signature_none s : getSnapshotSignature (Some s) <> getSnapshotSignature None.
Proof. done. Qed.

(** ** The table *)

Lemma row_by_name_some rows k r : row_by_name rows k = Some r -> sn_name r = k /\ r ∈ rows.
Proof.
  unfold row_by_name. intros [H E]%List.find_some. apply bool_decide_eq_true in E.
  split; [done|]. by apply list_elem_of_In, in_rev.
Qed.
Lemma row_by_name_listed rows k : is_Some (row_by_name rows k) <-> k ∈ List.map sn_name rows.
Proof.
  rewrite list_elem_of_In, in_map_iff. split.
  - intros [r Hr]. apply row_by_name_some in Hr as [? Hr]. exists r. by rewrite <- list_elem_of_In.
  - intros (r & <- & Hr). unfold row_by_name. destruct (List.find _ (rev rows)) as [x|] eqn:E; [by eexists|].
    apply find_none with (x := r) in E; [|by apply in_rev; rewrite rev_involutive].
    by apply bool_decide_eq_false in E.
Qed.

(** Whether a row has conflicting prices is decided by its numbers and mode. *)
Definition conflict_ok (s : ModelPricingSnapshot) : Prop :=
  sn_hasConflict s
  = negb (bool_decide (sn_billingMode s = TieredExpr)) && nonempty (price (sn_numbers s)) && has_ratio (sn_numbers s).

Lemma snapshot_conflict maps name s : snapshot_of maps name = Some s -> conflict_ok s.
Proof.
  unfold snapshot_of, conflict_ok. intros H. destruct (num_all _) as [n|]; [|done].
  destruct (is_tiered _ _).
  - by repeat (split_match_in H; simplify_eq).
  - simplify_eq/=. by destruct (nonempty (price n)).
Qed.

Lemma built_props texts rows :
  buildModelSnapshots texts = Some rows -> NoDup (List.map sn_name rows) /\ Forall conflict_ok rows.
Proof.
  unfold buildModelSnapshots. destruct (pricing_maps texts) as [maps|]; [|done]. intros H%mapM_Some_1.
  assert (E : List.map sn_name rows = model_names maps).
  { induction H as [|n r ns rows Hr _ IH]; [done|]. cbn [List.map]. by rewrite IH, (snapshot_name _ _ _ Hr). }
  split; [rewrite E; apply NoDup_js_set|]. clear E.
  induction H as [|n r ns rows Hr _ IH]; constructor; [by eapply snapshot_conflict|done].
Qed.

Lemma same_snapshot a b :
  sn_name a = sn_name b -> conflict_ok a -> conflict_ok b -> fields_of a = fields_of b <-> a = b.
Proof.
  intros Hn Ha Hb. split; [|by intros ->]. unfold conflict_ok in *. unfold fields_of. intros [= E1 E2 E3 E4].
  rewrite E1, E2, <- Hb in Ha. destruct a, b. cbn in *. congruence.
Qed.

(** What a row of the table says of the saved and of the draft prices. *)
Definition row_ok (ss ds : list ModelPricingSnapshot) (r : ModelRow) : Prop :=
  let k := sn_name (row_shown r) in
  row_saved r = row_by_name ss k /\ row_draft r = row_by_name ds k
  /\ Some (row_shown r) = match row_saved r with Some s => Some s | None => row_draft r end
  /\ (row_isDraftChanged r = false <-> row_saved r = row_draft r)
  /\ (row_isDraftNew r = true <-> row_saved r = None).

Lemma model_row_ok ss ds k r :
  Forall conflict_ok ss -> Forall conflict_ok ds -> model_row ss ds k = Some r ->
  sn_name (row_shown r) = k
  /\ row_isDraftDeleted r = negb (bool_decide (is_Some (row_by_name ds k)))
  /\ (is_Some (row_by_name ds k) -> row_ok ss ds r).
Proof.
  intros Hs Hd. unfold model_row, row_ok. cbv zeta.
  destruct (row_by_name ss k) as [s|] eqn:Es, (row_by_name ds k) as [d|] eqn:Ed; cbn [fmap option_fmap option_map];
    intros E; simplify_eq; cbn [row_shown row_saved row_draft row_isDraftChanged row_isDraftNew row_isDraftDeleted].
  all: repeat match goal with
       | H : row_by_name _ _ = Some _ |- _ => let E' := fresh in pose proof (row_by_name_some _ _ _ H) as [E' ?]; rewrite ?E'; revert H
       end; intros.
  - split_and!; [done|done|]. intros _. rewrite Es, Ed. split_and!; [done|done|done| |done].
    rewrite negb_false_iff, bool_decide_eq_true, signature_inj, same_snapshot, (inj_iff Some); [done| |..].
    { congruence. } { by eapply Forall_forall in Hs. } { by eapply Forall_forall in Hd. }
  - split_and!; [done|done|]. by intros [? ?].
  - split_and!; [done|done|]. intros _. rewrite Es, Ed. split_and!; done.
Qed.

Lemma shown_names ss ds l :
  Forall conflict_ok ss -> Forall conflict_ok ds ->
  List.map (fun r => sn_name (row_shown r))
    (List.filter (fun r => negb (row_isDraftDeleted r)) (omap (model_row ss ds) l))
  = List.filter (fun k => bool_decide (is_Some (row_by_name ds k))) l.
Proof.
  intros Hs Hd. induction l as [|k l IH]; [done|]. cbn [omap list_omap List.filter].
  destruct (model_row ss ds k) as [r|] eqn:E.
  - destruct (model_row_ok ss ds k r Hs Hd E) as (Hk & Hdel & _). cbn [List.filter]. rewrite Hdel, negb_involutive.
    destruct (bool_decide _); [|done]. cbn [List.map]. by rewrite Hk, IH.
  - assert (row_by_name ds k = None) as ->; [|done].
    unfold model_row in E. by destruct (row_by_name ss k), (row_by_name ds k).
Qed.

(** C21: The table has one row for each model of the draft, sorted by name; a row
    shows the saved prices, or the draft's for a new model, and is marked as
    changed exactly when the two differ in some field: comparing the printed
    signatures is comparing the rows. *)
Theorem rows_spec collate saved draft ss ds :
  buildModelSnapshots saved = Some ss -> buildModelSnapshots draft = Some ds ->
  (forall x y, collate x y = Gt -> collate y x <> Gt) ->
  exists rows, models collate saved draft = Some rows
    /\ List.map (fun r => sn_name (row_shown r)) rows ≡ₚ List.map sn_name ds
    /\ Forall (row_ok ss ds) rows
    /\ Sorted (fun a b => collate (sn_name (row_shown a)) (sn_name (row_shown b)) <> Gt) rows.
Proof.
  intros Es Ed Hc. unfold models. rewrite Es, Ed. eexists. split; [reflexivity|]. unfold model_rows. cbv zeta.
  apply built_props in Es as [_ Hs]. apply built_props in Ed as [Hn Hd]. set (names := js_set _).
  assert (Hnames : NoDup names /\ forall k, k ∈ List.map sn_name ds -> k ∈ names).
  { split; [apply NoDup_js_set|]. intros k Hk. apply elem_of_js_set, elem_of_app. right. by apply elem_of_js_set. }
  split_and!.
  - etrans; [apply Permutation_map, js_sort_perm|]. rewrite shown_names by done.
    apply NoDup_Permutation; [apply NoDup_ListNoDup, List.NoDup_filter, NoDup_ListNoDup; apply Hnames|done|].
    intros k. rewrite list_elem_of_In, filter_In, <- list_elem_of_In, bool_decide_eq_true, row_by_name_listed.
    naive_solver.
  - apply Forall_forall. intros r Hr. apply elem_of_js_sort, list_elem_of_In, filter_In in Hr as [Hr Hdel].
    apply list_elem_of_In, list_elem_of_omap in Hr as (k & _ & Hr).
    destruct (model_row_ok ss ds k r Hs Hd Hr) as (_ & Hb & Hok). apply Hok.
    rewrite Hb, negb_involutive, bool_decide_eq_true in Hdel. done.
  - apply js_sort_sorted. intros a b. apply Hc.
Qed.

(** ** Examples *)

(** A model with a fixed price of 2, one with an input and a completion ratio. *)
Definition example_maps : Options pmap :=
  mkOptions (mkNumbers [(js "a", VNum (num_of_Z 2))] [(js "b", VNum (num_of_Z 1))]
               (mkLanes [(js "b", VNum (num_of_Z 4))] [] [] [] [] [])) [] [].
Definition example_texts : Options jsstr := print_maps example_maps.
Definition example_rows : list ModelPricingSnapshot := default [] (buildModelSnapshots example_texts).
(** An expression with a ratio, to be saved. *)
Definition example_data : ModelRatioData :=
  mkData (js "b") (mkNumbers [] (js "0.5") EMPTY_LANE_PRICES) TieredExpr (jsq "tier('base', p * 2)") [].

Lemma example_maps_ok : opt_Forall obj_ok example_maps.
Proof.
  assert (Hn : forall k z, safe z -> obj_ok [(k, VNum (num_of_Z z))]).
  { intros k z Hz. apply (obj_ok_set k (VNum (num_of_Z z)) []).
    - constructor. by apply json_num_ok_safe.
    - split; [split; constructor|constructor]. }
  assert (H0 : obj_ok []) by (split; [split; constructor|constructor]).
  repeat apply Forall_cons_2; try apply Forall_nil_2; first [exact H0|apply Hn; done].
Qed.

Lemma persist_rows_witness :
  exists texts' rows', persistPricingData example_data [js "b"; js "c"] example_texts = Some texts'
    /\ buildModelSnapshots texts' = Some rows'
    /\ row_by_name rows' (js "a") = row_by_name example_rows (js "a")
    /\ row_by_name rows' (js "c")
       = Some (mkSnapshot (js "c") (mkNumbers [] (js "0.5") EMPTY_LANE_PRICES) TieredExpr
                 (jsq "tier('base', p * 2)") [] false).
Proof.
  destruct (persist_rows example_data [js "b"; js "c"] example_texts example_maps example_rows)
    as (texts' & rows' & H1 & H2 & H3).
  - apply pricing_maps_printed, example_maps_ok.
  - apply example_maps_ok.
  - vm_compute. reflexivity.
  - apply (bool_decide_unpack _). vm_compute. exact I.
  - eexists. vm_compute. reflexivity.
  - exists texts', rows'. split; [exact H1|]. split; [exact H2|]. rewrite !H3. split; vm_compute; reflexivity.
Defined.

Lemma delete_rows_witness :
  exists s' rows', handleDelete (js "b") (mkVisualEditor example_texts None false false []) = Some s'
    /\ buildModelSnapshots (ve_texts s') = Some rows'
    /\ row_by_name rows' (js "b") = None
    /\ row_by_name rows' (js "a") = row_by_name example_rows (js "a").
Proof.
  destruct (delete_rows (js "b") (mkVisualEditor example_texts None false false []) example_maps example_rows)
    as (s' & rows' & H1 & H2 & H3 & _).
  - apply pricing_maps_printed, example_maps_ok.
  - apply example_maps_ok.
  - vm_compute. reflexivity.
  - exists s', rows'. split; [exact H1|]. split; [exact H2|]. rewrite !H3. split; vm_compute; reflexivity.
Defined.

(** Two models saved, one of them deleted from the draft and another added. *)
Definition example_draft : Options jsstr :=
  print_maps (mkOptions (mkNumbers [(js "a", VNum (num_of_Z 3))] [(js "c", VNum (num_of_Z 1))]
                           (mkLanes [] [] [] [] [] [])) [] []).
Lemma rows_spec_witness :
  exists rows, models (fun _ _ => Eq) example_texts example_draft = Some rows
    /\ List.map (fun r => sn_name (row_shown r)) rows ≡ₚ [js "a"; js "c"].
Proof.
  destruct (rows_spec (fun _ _ => Eq) example_texts example_draft example_rows
              (default [] (buildModelSnapshots example_draft))) as (rows & H1 & H2 & _).
  - vm_compute. reflexivity.
  - vm_compute. reflexivity.
  - intros x y H. discriminate H.
  - exists rows. split; [exact H1|]. exact H2.
Defined.
