(* ===== verification/PricingPanelFacts.v ===== *)
(** * Theorems on the panel of one model's prices

    The ratios the panel commits are the ones of the prices it shows, the data
    of a row that is loaded is the row, and a fixed price that is still in the
    form wins over the chosen mode. *)

From S2P Require Import Prelude JsNumber JsFixed JsValue JsPretty JsRegex BillingExpr ModelPricing PricingPanel ModelPricingFacts.

(** ** Ratios follow prices *)

(** The ratio of each lane that the prices and switches of the panel stand for. *)
Definition lane_ratio (s : Panel) (k : LaneKey) : jsstr :=
  if lane_get k (pp_laneEnabled s)
  then deriveLaneRatio k (lane_get k (pp_lanePrices s)) (pp_promptPrice s) (pp_lanePrices s) else [].
Definition synced (s : Panel) : Prop :=
  ratio (pp_values s) = input_ratio (pp_promptPrice s)
  /\ forall k, lane_get k (lanes (pp_values s)) = lane_ratio s k.

(** Events after which the panel is in step whatever it was before, and the
    one that replaces it by stored ratios. *)
Definition resyncs (e : PanelEvent) : bool :=
  match e with Load None => true | PromptPrice v => re_test numericDraftRegex v | _ => false end.
Definition reloads (e : PanelEvent) : bool := match e with Load (Some _) => true | _ => false end.

Lemma lane_get_set {A} k k' (v : A) l : lane_get k (lane_set k' v l) = if decide (k = k') then v else lane_get k l.
Proof. by destruct k. Qed.

(** A goal on the lanes of an updated panel, lane by lane. *)
Ltac lane_by_lane lane Hl :=
  let k := fresh "k" in
  split; [done|]; intros k; unfold lane_ratio;
  cbn [set_lane_ratio with_values with_lanes pp_values pp_lanePrices pp_laneEnabled pp_promptPrice lanes];
  rewrite ?lane_get_set, ?Hl; unfold lane_ratio; destruct lane, k; try done;
  cbn [lane_get lane_set audioInput audioOutput completion cache createCache image] in *;
  try congruence; repeat match goal with H : _ (pp_laneEnabled _) = _ |- _ => rewrite H end; done.

Lemma sync_synced v prices enabled s :
  let s' := syncLaneRatios v prices enabled s in
  ratio (pp_values s') = input_ratio v
  /\ (forall k, lane_get k (lanes (pp_values s'))
        = if lane_get k enabled then deriveLaneRatio k (lane_get k prices) v prices else [])
  /\ pp_promptPrice s' = pp_promptPrice s /\ pp_lanePrices s' = pp_lanePrices s
  /\ pp_laneEnabled s' = pp_laneEnabled s.
Proof. split_and!; [done| |done..]. intros k. by destruct k. Qed.

Lemma resync_synced s e : resyncs e = true -> synced (panel_step s e).
Proof.
  destruct e as [[d|]|v| | | | | |]; try done; cbn [resyncs panel_step]; intros H.
  - split; [done|]. intros k. by destruct k.
  - unfold handlePromptPriceChange. rewrite H. cbn [negb].
    destruct (sync_synced v (pp_lanePrices s) (pp_laneEnabled s) (with_prompt v s)) as (H1 & H2 & H3 & H4 & H5).
    unfold synced, lane_ratio. rewrite H3, H4, H5. done.
Qed.

Lemma lane_price_synced lane v s : synced s -> synced (handleLanePriceChange lane v s).
Proof.
  intros [Hr Hl]. unfold handleLanePriceChange. destruct (re_test _ _); [|done]. cbn [negb]. cbv zeta.
  destruct (lane_get lane (pp_laneEnabled s)) eqn:El, (audioOutput (pp_laneEnabled s)) eqn:Eo,
    (bool_decide_reflect (lane = LAudioInput)); cbn [andb]; lane_by_lane lane Hl.
Qed.

Lemma toggle_synced lane b s : synced s -> synced (handleLaneToggle lane b s).
Proof.
  intros [Hr Hl]. unfold handleLaneToggle. cbv zeta.
  destruct b; [|destruct (bool_decide_reflect (lane = LAudioInput))]; lane_by_lane lane Hl.
Qed.

Lemma step_synced s e : reloads e = false -> synced s -> synced (panel_step s e).
Proof.
  destruct e as [[d|]|v|l v|l b|m|v|v|x r]; cbn [reloads panel_step]; intros H Hs; try done.
  - by apply (resync_synced s (Load None)).
  - destruct (re_test numericDraftRegex v) eqn:E; [by apply (resync_synced s (PromptPrice v))|].
    unfold handlePromptPriceChange. by rewrite E.
  - by apply lane_price_synced.
  - by apply toggle_synced.
  - unfold change_price. by destruct (re_test _ _).
  - unfold change_name. by destruct (pp_editData s).
Qed.

Lemma run_synced es s : Forall (fun x => reloads x = false) es -> synced s -> synced (panel_run s es).
Proof.
  revert s. induction es as [|e es IH]; intros s H Hs; [done|]. apply Forall_cons in H as [He H].
  apply IH; [done|by apply step_synced].
Qed.

(** C19: Once an input price was entered, or a new model was begun, the ratios
    the panel commits are those of the prices it shows: whatever prices,
    switches and modes are changed after that, the input ratio is half the
    input price, the ratio of an enabled lane its price over the input price
    (over the audio input price for audio output), and a disabled lane has
    none. *)
Theorem panel_synced s e es d :
  resyncs e = true -> Forall (fun x => reloads x = false) es ->
  commitDraft (panel_run (panel_step s e) es) = Committed d ->
  let s' := panel_run (panel_step s e) es in
  ratio (rd_numbers d) = input_ratio (pp_promptPrice s')
  /\ (forall k, lane_get k (lanes (rd_numbers d)) = lane_ratio s' k).
Proof.
  intros He Hes Hc. cbv zeta.
  destruct (run_synced es (panel_step s e) Hes (resync_synced s e He)) as [H1 H2].
  unfold commitDraft in Hc. destruct (nonempty (pp_name _)); [|done]. cbn [negb] in Hc.
  destruct (validatePricingValues _); [done|]. injection Hc as <-. done.
Qed.

Definition example_events : list PanelEvent :=
  [Name (js "m"); LaneToggle LAudioInput true; LanePrice LAudioInput (js "4"); LaneToggle LAudioOutput true;
   LanePrice LAudioOutput (js "8"); LanePrice LAudioInput (js "2")].
Definition example_panel : Panel := panel_run (panel_step initial_panel (PromptPrice (js "1"))) example_events.
Lemma panel_synced_witness :
  commitDraft example_panel = Committed (buildSubmitData example_panel)
  /\ ratio (rd_numbers (buildSubmitData example_panel)) = js "0.5"
  /\ lane_get LAudioInput (lanes (rd_numbers (buildSubmitData example_panel))) = js "2"
  /\ lane_get LAudioOutput (lanes (rd_numbers (buildSubmitData example_panel))) = js "4".
Proof.
  assert (E : commitDraft example_panel = Committed (buildSubmitData example_panel)) by (vm_compute; reflexivity).
  split; [exact E|].
  destruct (panel_synced initial_panel (PromptPrice (js "1")) example_events (buildSubmitData example_panel))
    as [H1 H2].
  - vm_compute. reflexivity.
  - apply (bool_decide_unpack _). vm_compute. exact I.
  - exact E.
  - rewrite H1, !H2. split_and!; vm_compute; reflexivity.
Defined.

(** ** A fixed price that stays in the form *)

(** Events that leave the fixed price alone. *)
Definition keeps_price (e : PanelEvent) : bool :=
  match e with Load _ | FixedPrice _ => false | _ => true end.

Lemma step_keeps_price s e :
  keeps_price e = true ->
  price (pp_values (panel_step s e)) = price (pp_values s)
  /\ (pp_editData s <> None -> pp_editData (panel_step s e) = pp_editData s /\ pp_name (panel_step s e) = pp_name s).
Proof.
  destruct e as [[d|]|v|l v|l b|m|v|v|x r]; cbn [keeps_price panel_step]; intros H; try done.
  - unfold handlePromptPriceChange. by destruct (re_test _ _).
  - unfold handleLanePriceChange. destruct (re_test _ _); [|done]. cbn [negb]. cbv zeta.
    by destruct (lane_get l (pp_laneEnabled s)), (bool_decide _ && _).
  - unfold handleLaneToggle. cbv zeta. destruct b; [done|]. by destruct (bool_decide (l = LAudioInput)).
  - unfold change_name. by destruct (pp_editData s) eqn:E.
Qed.

Lemma run_keeps_price es s :
  Forall (fun e => keeps_price e = true) es -> pp_editData s <> None ->
  price (pp_values (panel_run s es)) = price (pp_values s) /\ pp_name (panel_run s es) = pp_name s.
Proof.
  revert s. induction es as [|e es IH]; intros s H Hd; [done|]. apply Forall_cons in H as [He H].
  destruct (step_keeps_price s e He) as [Hp Hn]. destruct (Hn Hd) as [Hed Hnm].
  destruct (IH (panel_step s e) H) as [E1 E2]; [by rewrite Hed|]. unfold panel_run in *. cbn [fold_left].
  by rewrite E1, E2.
Qed.

Lemma committed_data s d : commitDraft s = Committed d -> d = buildSubmitData s.
Proof.
  unfold commitDraft. destruct (nonempty (pp_name s)); [|done]. cbn [negb].
  destruct (validatePricingValues s); congruence.
Qed.

(** What a save in the mode of tokens writes for a model with a fixed price. *)
Lemma fixed_price_saved s p name :
  price (pp_values s) = p -> nonempty (stored_text p) = true -> pp_pricingMode s = PerToken ->
  saved_row (buildSubmitData s) name
  = Some (mkSnapshot name (mkNumbers (stored_text p) [] EMPTY_LANE_PRICES) PerRequest [] [] false).
Proof.
  intros E1 Hp Hm. assert (Hn : nonempty p = true) by (unfold stored_text, stored_number in Hp; by destruct p).
  unfold saved_row, combined, stored_fields. cbn [buildSubmitData rd_mode rd_numbers rd_name].
  rewrite Hm. cbn [nonempty]. rewrite E1, Hn. cbv zeta. fields. by rewrite Hp.
Qed.

(** C36: The mode chosen in the panel does not decide what is saved.  When a
    model with a fixed price is opened, switched to per-token prices, edited in
    any way but for the field of the fixed price (which that mode does not
    show) and saved, the data that is committed has the mode per token and the
    ratios, but in the texts that are written the model has the old fixed price
    and none of the ratios; the rows of the other models are kept.  The form
    keeps the price on a change of mode, and saving looks at the price first.
    (The stored texts are JSON objects that show rows, and the committed numbers
    survive JSON.) *)
Theorem per_token_choice_lost s0 d0 es d v maps rows :
  let s := panel_run (panel_step s0 (Load (Some d0))) es in
  let p := price (rd_numbers d0) in
  let name := trim (rd_name d0) in
  Forall (fun e => keeps_price e = true) es -> nonempty (stored_text p) = true ->
  pp_pricingMode s = PerToken -> commitDraft s = Committed d -> data_ok d ->
  ve_editorOpen v = true -> pricing_maps (ve_texts v) = Some maps -> opt_Forall obj_ok maps ->
  buildModelSnapshots (ve_texts v) = Some rows ->
  rd_mode d = PerToken /\ rd_numbers d = pp_values s
  /\ exists v' rows', commitOpenEditor (Some (Some d)) v = Some (true, v')
    /\ buildModelSnapshots (ve_texts v') = Some rows'
    /\ row_by_name rows' name
       = Some (mkSnapshot name (mkNumbers (stored_text p) [] EMPTY_LANE_PRICES) PerRequest [] [] false)
    /\ forall k, k <> name -> row_by_name rows' k = row_by_name rows k.
Proof.
  intros s p name Hes Hp Hm Hc Hd Ho E Hok H. apply committed_data in Hc. subst d.
  destruct (run_keeps_price es (panel_step s0 (Load (Some d0))) Hes) as [E1 E2]; [done|].
  fold s in E1, E2. cbn [panel_step load_panel pp_values pp_name] in E1, E2. split; [exact Hm|]. split; [done|].
  destruct (persist_build (buildSubmitData s) [name] (ve_texts v) maps rows) as (texts' & rows' & Hpe & Hb & Hall);
    [done..|unfold combined, buildSubmitData; cbn [rd_mode]; rewrite Hm; by eexists|].
  unfold commitOpenEditor. rewrite Ho. cbn [negb].
  assert (rd_name (buildSubmitData s) = name) as -> by (cbn; by rewrite E2). rewrite Hpe.
  eexists _, rows'. split; [reflexivity|]. split; [done|]. split.
  - rewrite Hall, decide_True by (by left). by apply fixed_price_saved.
  - intros k Hk. rewrite Hall, decide_False; [done|]. by intros ->%list_elem_of_singleton.
Qed.

(** A model with the price 1, changed to an input price of 3; and where it is
    shown. *)
Definition priced_model : ModelRatioData := mkData (js "m") (mkNumbers (js "1") [] EMPTY_LANE_PRICES) PerRequest [] [].
Definition priced_events : list PanelEvent := [ChooseMode PerToken; PromptPrice (js "3")].
Definition priced_panel : Panel := panel_run (panel_step initial_panel (Load (Some priced_model))) priced_events.
Definition open_editor : VisualEditor := mkVisualEditor example_texts None true false [].
Lemma per_token_choice_lost_witness :
  ratio (rd_numbers (buildSubmitData priced_panel)) = js "1.5"
  /\ rd_mode (buildSubmitData priced_panel) = PerToken
  /\ exists v' rows', commitOpenEditor (Some (Some (buildSubmitData priced_panel))) open_editor = Some (true, v')
    /\ buildModelSnapshots (ve_texts v') = Some rows'
    /\ row_by_name rows' (js "m")
       = Some (mkSnapshot (js "m") (mkNumbers (js "1") [] EMPTY_LANE_PRICES) PerRequest [] [] false).
Proof.
  split; [vm_compute; reflexivity|].
  destruct (per_token_choice_lost initial_panel priced_model priced_events (buildSubmitData priced_panel)
              open_editor example_maps example_rows)
    as (H1 & _ & v' & rows' & H2 & H3 & H4 & _).
  - repeat constructor.
  - vm_compute. reflexivity.
  - vm_compute. reflexivity.
  - vm_compute. reflexivity.
  - apply (bool_decide_unpack _). vm_compute. exact I.
  - reflexivity.
  - apply pricing_maps_printed, example_maps_ok.
  - apply example_maps_ok.
  - vm_compute. reflexivity.
  - split; [exact H1|]. exists v', rows'. split; [exact H2|]. split; [exact H3|].
    refine (eq_trans H4 _). vm_compute. reflexivity.
Defined.

(** ** Opening a row and saving it again *)

Lemma derived_nil x : deriveLanePrice x [] = [].
Proof. unfold deriveLanePrice. by destruct (toNumberOrNull x). Qed.
Lemma derived_none x p : toNumberOrNull p = None -> deriveLanePrice x p = [].
Proof. intros H. unfold deriveLanePrice. rewrite H. by destruct (toNumberOrNull x). Qed.

(** Without an input price a panel that was just loaded shows no lane prices. *)
Lemma loaded_input d s : missing_input (load_panel (Some d) s) = false.
Proof.
  unfold missing_input. destruct (bool_decide _) eqn:Hm; [|done]. cbn [andb].
  destruct (toNumberOrNull _) as [x|] eqn:E; [done|]. cbn [negb]. unfold laneConfigs. cbn [existsb].
  cbn [load_panel createInitialLaneState pp_lanePrices pp_promptPrice ls_prices ls_promptPrice] in *.
  cbn [lane_get completion cache createCache image audioInput audioOutput].
  rewrite !(derived_none _ _ E), derived_nil. cbn [hasValue nonempty]. by rewrite !andb_false_r.
Qed.

Definition number_texts (n : Numbers jsstr) : list jsstr :=
  let l := lanes n in [price n; ratio n; completion l; cache l; createCache l; image l; audioInput l; audioOutput l].

(** A row whose texts are read back as they are: a trimmed name, numbers in the
    form they are printed in with at least one of them set, an expression whose
    parts are put together and taken apart again. *)
Definition row_stable (r : ModelPricingSnapshot) : Prop :=
  nonempty (sn_name r) = true /\ trim (sn_name r) = sn_name r /\ sn_hasConflict r = false
  /\ Forall (fun t => text_ok t /\ stored_text t = t) (number_texts (sn_numbers r))
  /\ (sn_billingMode r <> TieredExpr -> nonempty (price (sn_numbers r)) || has_ratio (sn_numbers r) = true)
  /\ (sn_billingMode r = TieredExpr ->
      let full := combineBillingExpr (sn_billingExpr r) (sn_requestRuleExpr r) in
      nonempty full = true /\ exists sp, splitBillingExprAndRequestRules full = Some sp
        /\ billingExpr sp = sn_billingExpr r /\ requestRuleExpr sp = sn_requestRuleExpr r).

(** What the table knows of a row: its mode follows from its price, and it has
    expressions only in the mode of expressions. *)
Definition row_shape (r : ModelPricingSnapshot) : Prop :=
  conflict_ok r
  /\ (sn_billingMode r <> TieredExpr ->
      sn_billingMode r = (if nonempty (price (sn_numbers r)) then PerRequest else PerToken)
      /\ sn_billingExpr r = [] /\ sn_requestRuleExpr r = []).

Lemma snapshot_shape maps name s : snapshot_of maps name = Some s -> row_shape s.
Proof.
  intros H. split; [by eapply snapshot_conflict|]. unfold snapshot_of in H. destruct (num_all _); [|done].
  destruct (is_tiered _ _); [by repeat (split_match_in H; simplify_eq)|]. by injection H as <-.
Qed.

Lemma has_ratio_none n :
  has_ratio n = false -> ratio n = [] /\ lanes n = EMPTY_LANE_PRICES.
Proof.
  unfold has_ratio. rewrite !orb_false_iff. intros ((((((H1 & H2) & H3) & H4) & H5) & H6) & H7).
  destruct n as [p r [a b c d e f]]. fields_in H1. fields_in H2. fields_in H3. fields_in H4. fields_in H5.
  fields_in H6. fields_in H7. by destruct r, a, b, c, d, e, f.
Qed.

(** Saving the loaded row gives the row; it is listed when a field is set. *)
Lemma stable_row s mr r :
  row_draft mr = Some r -> row_shape r -> row_stable r ->
  let d := buildSubmitData (load_panel (Some (edit_data mr)) s) in
  rd_name d = sn_name r /\ data_ok d /\ is_Some (splitBillingExprAndRequestRules (combined d))
  /\ saved_row d (sn_name r) = Some r.
Proof.
  intros Hmr [Hc Hsh] (Hn & Ht & Hcf & Hf & Hset & Hx). cbv zeta.
  unfold edit_data. rewrite Hmr. unfold buildSubmitData. cbn [load_panel pp_name pp_values pp_pricingMode
    pp_billingExpr pp_requestRuleExpr rd_name rd_numbers rd_mode rd_billingExpr rd_requestRuleExpr].
  destruct r as [name n m e q c]. cbn [sn_name sn_numbers sn_billingMode sn_billingExpr sn_requestRuleExpr
    sn_hasConflict] in *. subst c.
  assert (Hd : Forall text_ok (number_texts n)) by (eapply Forall_impl; [exact Hf|by intros ? [? _]]).
  assert (Hst : num_map stored_text n = n).
  { destruct n as [p r [a b c' d e' f]]. unfold number_texts in Hf. fields_in Hf.
    repeat (apply Forall_cons in Hf as [[_ ?] Hf]). unfold num_map, lane_map. fields. congruence. }
  split; [done|]. split; [exact Hd|]. unfold saved_row, combined, stored_fields. cbn [rd_mode rd_numbers].
  destruct (decide (m = TieredExpr)) as [->|Hm].
  - rewrite bool_decide_eq_true_2 by done. cbn [rd_billingExpr rd_requestRuleExpr].
    destruct Hx as (Hne & sp & Esp & E1 & E2); [done|]. rewrite Esp, Hne. split; [by eexists|].
    cbn [fmap option_fmap option_map]. by rewrite Hst, E1, E2.
  - destruct (Hsh Hm) as (Em & -> & ->). specialize (Hset Hm).
    unfold conflict_ok in Hc. cbn [sn_name sn_numbers sn_billingMode sn_hasConflict] in Hc.
    rewrite bool_decide_eq_false_2 in Hc by done. cbn [negb andb] in Hc.
    destruct n as [p r l]. fields_in Hc. fields_in Hset. fields_in Em. unfold num_map in Hst. fields_in Hst.
    injection Hst as E3 E4 E5. destruct (nonempty p) eqn:Hp; subst m; fields; rewrite ?Hp, ?E3, ?E4, ?E5;
      (split; [by eexists|]); cbn [nonempty]; fields; rewrite ?Hp.
    + destruct (has_ratio_none (mkNumbers p r l)) as [E1 E2]; [done|]. fields_in E1. fields_in E2. by subst r l.
    + assert (p = []) as -> by (by destruct p). cbn [stored_text stored_number nonempty orb andb default fmap option_fmap option_map] in *. by rewrite Hset.
Qed.
