(* ===== verification/TierEditor.v ===== *)
(** * The editor of tiered prices ([models/tiered-pricing-editor.tsx])

    The number inputs, the cards of tiers and of request rules, and
    [TieredPricingEditor] itself: its state, its four effects and its handlers.

    A component renders with the state of the last batch of updates; after it
    the effects whose dependencies changed run in order, each with the values of
    that render, and their updates make the next state ([flush]).  The text of
    the expression and of the rules belongs to the panel of the model and is
    part of the state here.  An exception while rendering or in an effect, which
    unmounts the editor, or in a handler is [None]. *)

From S2P Require Import Prelude JsNumber JsValue JsRegex BillingExpr TierExpr.

(** ** Tables *)

Definition in_group (g : jsstr) (v : BillingVar) : bool := bool_decide (bv_group v = Some g).
Definition CACHE_PRICE_VARS : list BillingVar := List.filter (in_group (js "cache")) BILLING_EXTRA_VARS.
Definition MEDIA_PRICE_VARS : list BillingVar := List.filter (in_group (js "media")) BILLING_EXTRA_VARS.

(** Values and label keys. *)
Definition CONDITION_INPUT_OPTIONS : list (jsstr * jsstr) :=
  [(js "len", js "Full input length"); (js "p", js "Billable input tokens"); (js "c", js "Billable output tokens")].
Definition OPS : list jsstr := [js "<"; js "<="; js ">"; js ">="].

Record Preset := mkPreset {
  preset_key : jsstr; preset_label : jsstr; preset_expr : jsstr; preset_requestRules : list RequestRuleGroup }.
Record PresetGroup := mkPresetGroup { group_name : jsstr; group_presets : list Preset }.

Definition PRESET_GROUPS : list PresetGroup := [
  mkPresetGroup (js "Fixed price") [
   mkPreset (js "flat") (js "Flat")
     (jsq "tier('base', p * 2 + c * 4)")
     [];
   mkPreset (js "claude-opus") (js "Claude Opus 4.6")
     (jsq "tier('base', p * 5 + c * 25 + cr * 0.5 + cc * 6.25 + cc1h * 10)")
     [];
   mkPreset (js "gpt-5.4") (js "GPT-5.4")
     (jsq "len <= 272000 ? tier('standard', p * 2.5 + c * 15 + cr * 0.25) : tier('long_context', p * 5 + c * 22.5 + cr * 0.5)")
     []];
  mkPresetGroup (js "Tiered") [
   mkPreset (js "claude-sonnet") (js "Claude Sonnet 4.5")
     (jsq "len <= 200000 ? tier('standard', p * 3 + c * 15 + cr * 0.3 + cc * 3.75 + cc1h * 6) : tier('long_context', p * 6 + c * 22.5 + cr * 0.6 + cc * 7.5 + cc1h * 12)")
     [];
   mkPreset (js "qwen3-max") (js "Qwen3 Max")
     (jsq "len <= 32000 ? tier('short', p * 1.2 + c * 6 + cr * 0.24 + cc * 1.5) : len <= 128000 ? tier('mid', p * 2.4 + c * 12 + cr * 0.48 + cc * 3) : tier('long', p * 3 + c * 15 + cr * 0.6 + cc * 3.75)")
     [];
   mkPreset (js "glm-4.5-air") (js "GLM-4.5 Air")
     (jsq "len < 32000 && c < 200 ? tier('short_output', p * 0.8 + c * 2 + cr * 0.16) : len < 32000 && c >= 200 ? tier('long_output', p * 0.8 + c * 6 + cr * 0.16) : tier('mid_context', p * 1.2 + c * 8 + cr * 0.24)")
     [];
   mkPreset (js "doubao-seed-1.8") (js "Doubao Seed 1.8")
     (jsq "len <= 32000 && c <= 200 ? tier('discount', p * 0.8 + c * 2 + cr * 0.16 + cc * 0.17) : len <= 32000 ? tier('short', p * 0.8 + c * 8 + cr * 0.16 + cc * 0.17) : len <= 128000 ? tier('mid', p * 1.2 + c * 16 + cr * 0.16 + cc * 0.17) : tier('long', p * 2.4 + c * 24 + cr * 0.16 + cc * 0.17)")
     []];
  mkPresetGroup (js "Multimodal") [
   mkPreset (js "gpt-image-1-mini") (js "GPT Image 1 Mini")
     (jsq "tier('base', p * 2 + c * 8 + img * 2.5)")
     [];
   mkPreset (js "gemini-2.5-flash") (js "Gemini 2.5 Flash")
     (jsq "tier('base', p * 0.3 + c * 2.5 + cr * 0.03 + ai * 1.0)")
     [];
   mkPreset (js "gemini-3-pro-image") (js "Gemini 3 Pro Image")
     (jsq "tier('base', p * 2 + c * 12 + img_o * 120)")
     [];
   mkPreset (js "qwen3-omni-flash") (js "Qwen3 Omni Flash")
     (jsq "tier('base', p * 0.43 + c * 3.06 + img * 0.78 + ai * 3.81 + ao * 15.11)")
     []];
  mkPresetGroup (js "Request rule") [
   mkPreset (js "claude-opus-fast") (js "Claude Opus 4.6 Fast")
     (jsq "tier('base', p * 5 + c * 25 + cr * 0.5 + cc * 6.25 + cc1h * 10)")
     [mkGroup [ParamHeaderCondition SourceHeader (js "anthropic-beta") MATCH_CONTAINS (js "fast-mode-2026-02-01")] (js "6")];
   mkPreset (js "gpt-5.4-tiers") (js "GPT-5.4 Priority/Flex")
     (jsq "len <= 272000 ? tier('standard', p * 2.5 + c * 15 + cr * 0.25) : tier('long_context', p * 5 + c * 22.5 + cr * 0.5)")
     [mkGroup [ParamHeaderCondition SourceParam (js "service_tier") MATCH_EQ (js "priority")] (js "2");
        mkGroup [ParamHeaderCondition SourceParam (js "service_tier") MATCH_EQ (js "flex")] (js "0.5")]];
  mkPresetGroup (js "Time-based") [
   mkPreset (js "night-discount") (js "Night discount (50%)")
     (jsq "tier('base', p * 3 + c * 15)")
     [mkGroup [TimeCondition (js "hour") (js "Asia/Shanghai") MATCH_RANGE [] (js "21") (js "6")] (js "0.5")];
   mkPreset (js "weekend-discount") (js "Weekend discount (80%)")
     (jsq "tier('base', p * 3 + c * 15)")
     [mkGroup [TimeCondition (js "weekday") (js "Asia/Shanghai") MATCH_EQ (js "0") [] []] (js "0.8");
        mkGroup [TimeCondition (js "weekday") (js "Asia/Shanghai") MATCH_EQ (js "6") [] []] (js "0.8")]]].

(** The groups of presets that are shown. *)
Definition visible_presets (expanded : bool) : list PresetGroup :=
  if expanded then PRESET_GROUPS else take 2 PRESET_GROUPS.

(** ** Numbers and their drafts *)

(** [Number(uc) || 0] *)
Definition unitCostToPrice (uc : number) : number := num_or uc (num_of_Z 0).
Definition priceToUnitCost (price : number) : number := num_or price (num_of_Z 0).

Definition draft_number (v : CondValue) : number :=
  match v with CondNum x => x | CondText s => num_of_string s end.

(** [locale]: [Number.prototype.toLocaleString]. *)
Definition formatTokenHint (locale : number -> jsstr) (n : option CondValue) : jsstr :=
  match n with
  | None | Some (CondText []) => []
  | Some n =>
      let v := draft_number n in
      if is_nan v then []
      else if num_eqb v (num_of_Z 0) then js "= 0"
      else if num_leb (num_of_Z 1000000) v then js "= " ++ locale (num_div v (num_of_Z 1000000)) ++ js "M tokens"
      else if num_leb (num_of_Z 1000) v then js "= " ++ locale (num_div v (num_of_Z 1000)) ++ js "K tokens"
      else js "= " ++ locale v ++ js " tokens"
  end.

Definition formatNumberDraft (value : CondValue) : jsstr :=
  match value with
  | CondNum x => if is_finite x then num_to_string x else js "0"
  | CondText s => s
  end.
Definition parseNumberDraft (value : jsstr) : number :=
  if negb (nonempty (trim value)) then num_of_Z 0
  else let next := num_of_string value in if is_finite next then next else num_of_Z 0.
Definition isZeroDraft (value : jsstr) : bool :=
  nonempty (trim value) && num_eqb (parseNumberDraft value) (num_of_Z 0).

(** [DraftNumberInput]: its state, and the number its handlers report.  The
    text of the input element is [text]. *)
Record DraftInput := mkDraftInput { di_draft : jsstr; di_focused : bool }.
Definition draft_mount (value : CondValue) : DraftInput := mkDraftInput (formatNumberDraft value) false.
Definition draft_effect (value : CondValue) (s : DraftInput) : DraftInput :=
  if di_focused s then s else mkDraftInput (formatNumberDraft value) (di_focused s).
Definition draft_change (text : jsstr) (s : DraftInput) : DraftInput * number :=
  (mkDraftInput text (di_focused s), parseNumberDraft text).
(** Whether the text is selected, so that typing replaces a zero. *)
Definition draft_focus (selectZeroOnFocus : bool) (text : jsstr) (s : DraftInput) : DraftInput * bool :=
  (mkDraftInput (di_draft s) true, selectZeroOnFocus && isZeroDraft text).
Definition draft_blur (text : jsstr) (s : DraftInput) : DraftInput * number :=
  let normalized := parseNumberDraft text in (mkDraftInput (num_to_string normalized) false, normalized).

(** ** The card of a tier *)

(** [ConditionRow]: the three inputs of a condition. *)
Inductive ConditionChange := SetVar (v : jsstr) | SetOp (o : jsstr) | SetValue (x : number).
Definition condition_change (c : TierConditionInput) (ch : ConditionChange) : TierConditionInput :=
  match ch with
  | SetVar v => mkCond v (ci_op c) (ci_value c)
  | SetOp o => mkCond (ci_var c) o (ci_value c)
  | SetValue x => mkCond (ci_var c) (ci_op c) (Some (CondNum x))
  end.

(** [filter((_, i) => i !== index)] *)
Definition without_index {A} (index : nat) (l : list A) : list A := take index l ++ drop (S index) l.

Definition with_conditions (cs : list TierConditionInput) (t : VisualTier) : VisualTier :=
  mkVisual (vt_label t) cs (vt_cache_mode t) (vt_costs t).

Module TierCard.
(** The handlers of a card of [VisualTierCard]: the tier they report.  The
    index of a condition is the one of a row that is shown. *)
Definition handleConditionChange (i : nat) (next : TierConditionInput) (t : VisualTier) : VisualTier :=
  with_conditions (<[i := next]> (vt_conditions t)) t.
Definition handleConditionRemove (i : nat) (t : VisualTier) : VisualTier :=
  with_conditions (without_index i (vt_conditions t)) t.
Definition handlePriceChange (field : jsstr) (value : number) (t : VisualTier) : VisualTier :=
  mkVisual (vt_label t) (vt_conditions t) (vt_cache_mode t) (<[field := value]> (vt_costs t)).
Definition handleCacheModeChange (mode : CacheMode) (t : VisualTier) : VisualTier :=
  let f := js "cache_create_1h_unit_cost" in
  mkVisual (vt_label t) (vt_conditions t) mode
    (<[f := if bool_decide (mode = CACHE_MODE_TIMED) then default (num_of_Z 0) (vt_costs t !! f) else num_of_Z 0]>
       (vt_costs t)).
Definition change_label (label : jsstr) (t : VisualTier) : VisualTier :=
  mkVisual label (vt_conditions t) (vt_cache_mode t) (vt_costs t).

(** The price a field shows, and the prices that are shown. *)
Definition shown_price (t : VisualTier) (field : jsstr) : number :=
  unitCostToPrice (default (num_of_Z 0) (vt_costs t !! field)).
Definition hasMediaPricing (t : VisualTier) : bool :=
  existsb (fun v => num_ltb (num_of_Z 0) (shown_price t (default [] (bv_tierField v)))) MEDIA_PRICE_VARS.
Definition shown_cache_vars (t : VisualTier) : list BillingVar :=
  List.filter (fun v => negb (bool_decide (bv_key v = js "cc1h")
                              && negb (bool_decide (vt_cache_mode t = CACHE_MODE_TIMED)))) CACHE_PRICE_VARS.
End TierCard.

(** ** The list of tiers *)

(** The handlers of [VisualEditor], which work on the normalized configuration:
    what they report, [None] when they report nothing. *)
Definition handleTierChange (index : nat) (next : VisualTier) (config : VisualConfig) : VisualConfig :=
  <[index := normalizeVisualTier (partial_tier next)]> config.

Definition DEFAULT_LIMIT (v : jsstr) : TierConditionInput := mkCond v (js "<") (Some (CondNum (num_of_Z 200000))).

Definition handleAddTier (config : VisualConfig) : VisualConfig :=
  let bounded :=
    match last config with
    | Some t => if nonempty (vt_conditions t) then config
                else removelast config
                     ++ [normalizeVisualTier (partial_tier (with_conditions [DEFAULT_LIMIT (js "len")] t))]
    | None => config
    end in
  bounded ++ [normalizeVisualTier
    (mkPartialTier (Some (js "tier_" ++ dec_of_N (N.of_nat (length bounded + 1)))) (Some []) None
       (<[js "input_unit_cost" := num_of_Z 0]> (<[js "output_unit_cost" := num_of_Z 0]> ∅)))].

Definition handleRemoveTier (index : nat) (config : VisualConfig) : VisualConfig :=
  let tiers := without_index index config in if nonempty tiers then tiers else config.

Definition handleAddCondition (index : nat) (config : VisualConfig) : option VisualConfig :=
  match config !! index with
  | None => None
  | Some tier =>
      if 2 <=? length (vt_conditions tier) then None
      else
        let nextVar := if existsb (fun c => bool_decide (ci_var c = js "len")) (vt_conditions tier)
                       then js "c" else js "len" in
        Some (<[index := with_conditions (vt_conditions tier ++ [DEFAULT_LIMIT nextVar]) tier]> config)
  end.

(** What can be done in the list: to the tier of a card, and to the list. *)
Inductive TierChange :=
| Label (s : jsstr) | Condition (i : nat) (ch : ConditionChange) | DropCondition (i : nat)
| Price (field : jsstr) (next : number) | Cache (mode : CacheMode).
Definition tier_change (t : VisualTier) (ch : TierChange) : VisualTier :=
  match ch with
  | Label s => TierCard.change_label s t
  | Condition i ch =>
      match vt_conditions t !! i with
      | Some c => TierCard.handleConditionChange i (condition_change c ch) t
      | None => t
      end
  | DropCondition i => TierCard.handleConditionRemove i t
  | Price f x => TierCard.handlePriceChange f (priceToUnitCost x) t
  | Cache m => TierCard.handleCacheModeChange m t
  end.
Inductive ConfigChange := OnTier (i : nat) (ch : TierChange) | AddTier | RemoveTier (i : nat) | AddCondition (i : nat).
Definition config_change (visualConfig : option VisualConfig) (ch : ConfigChange) : option VisualConfig :=
  let config := normalizeVisualConfig visualConfig in
  match ch with
  | OnTier i ch => (fun t => handleTierChange i (tier_change t ch) config) <$> config !! i
  | AddTier => Some (handleAddTier config)
  | RemoveTier i => Some (handleRemoveTier i config)
  | AddCondition i => handleAddCondition i config
  end.

(** ** Cards of request rules *)

Definition condition_source (c : RequestCondition) : jsstr :=
  match c with
  | ParamHeaderCondition src _ _ _ => source_name src
  | TimeCondition _ _ _ _ _ _ => js "time"
  end.

Section RuleLabels.
Context (t : jsstr -> jsstr).
Definition match_labels : list (jsstr * jsstr) :=
  [(MATCH_EQ, js "Equals"); (MATCH_CONTAINS, js "Contains"); (MATCH_EXISTS, js "Exists");
   (MATCH_GT, js "Greater than"); (MATCH_GTE, js "Greater than or equal"); (MATCH_LT, js "Less than");
   (MATCH_LTE, js "Less than or equal"); (MATCH_RANGE, js "Overnight range")].
Definition getMatchLabel (mode : jsstr) : jsstr :=
  match assoc mode match_labels with Some l => t l | None => mode end.
Definition time_labels : list (jsstr * jsstr) :=
  [(js "hour", js "Hour of day"); (js "minute", js "Minute"); (js "weekday", js "Weekday");
   (js "month", js "Month number"); (js "day", js "Day of month")].
Definition getTimeFuncLabel (timeFunc : jsstr) : jsstr :=
  match assoc timeFunc time_labels with Some l => t l | None => timeFunc end.
Definition sourceLabel (c : RequestCondition) : jsstr :=
  match c with
  | ParamHeaderCondition SourceParam _ _ _ => t (js "Body param")
  | ParamHeaderCondition SourceHeader _ _ _ => t (js "Header")
  | TimeCondition _ _ _ _ _ _ => t (js "Time")
  end.
End RuleLabels.

Module RuleRow.
(** The handlers of [RuleConditionRow], [handleModeChange] as
    [handleMatchModeChange]: the condition they report, [None] when
    they report nothing. *)
Definition handleSourceChange (source : jsstr) : option RequestCondition :=
  if bool_decide (source = js "time") then Some createEmptyTimeCondition
  else
    let with_source s :=
      match createEmptyCondition with
      | ParamHeaderCondition _ path mode value => ParamHeaderCondition s path mode value
      | c => c
      end in
    if bool_decide (source = js "header") then Some (with_source SourceHeader)
    else if bool_decide (source = js "param") then Some (with_source SourceParam) else None.
Definition handleMatchModeChange (mode : jsstr) (c : RequestCondition) : RequestCondition :=
  match c with
  | ParamHeaderCondition s path _ value => ParamHeaderCondition s path mode value
  | TimeCondition f tz _ value a b => TimeCondition f tz mode value a b
  end.
(** The inputs of a time condition report numbers, which are stored as texts. *)
Inductive RowChange :=
| TimeFunc (f : jsstr) | Timezone (tz : jsstr) | RangeStart (x : number) | RangeEnd (x : number)
| TimeValue (x : number) | Path (p : jsstr) | Value (v : jsstr) | Source (s : jsstr) | Mode (m : jsstr).
Definition row_change (c : RequestCondition) (ch : RowChange) : option RequestCondition :=
  match ch, c with
  | Source s, _ => handleSourceChange s
  | Mode m, _ => Some (handleMatchModeChange m c)
  | TimeFunc f, TimeCondition _ tz m v a b => Some (TimeCondition f tz m v a b)
  | Timezone tz, TimeCondition f _ m v a b => Some (TimeCondition f tz m v a b)
  | RangeStart x, TimeCondition f tz m v _ b => Some (TimeCondition f tz m v (num_to_string x) b)
  | RangeEnd x, TimeCondition f tz m v a _ => Some (TimeCondition f tz m v a (num_to_string x))
  | TimeValue x, TimeCondition f tz m _ a b => Some (TimeCondition f tz m (num_to_string x) a b)
  | Path p, ParamHeaderCondition s _ m v => Some (ParamHeaderCondition s p m v)
  | Value v, ParamHeaderCondition s p m _ => Some (ParamHeaderCondition s p m v)
  | _, _ => None
  end.
End RuleRow.

Module RuleCard.
(** The handlers of [RuleGroupCard], with the word [Rule] in their names. *)
Definition handleRuleConditionChange (i : nat) (next : RequestCondition) (g : RequestRuleGroup) : RequestRuleGroup :=
  mkGroup (<[i := next]> (conditions g)) (multiplier g).
Definition handleAddRuleCondition (timeMode : bool) (g : RequestRuleGroup) : RequestRuleGroup :=
  mkGroup (conditions g ++ [if timeMode then createEmptyTimeCondition else createEmptyCondition]) (multiplier g).
Definition remove_condition (i : nat) (g : RequestRuleGroup) : RequestRuleGroup :=
  mkGroup (without_index i (conditions g)) (multiplier g).
Definition change_multiplier (x : number) (g : RequestRuleGroup) : RequestRuleGroup :=
  mkGroup (conditions g) (num_to_string x).
End RuleCard.

(** ** The editor *)

Inductive EditorMode := Visual | Raw.
#[export] Instance EditorMode_eq_dec : EqDecision EditorMode.
Proof. solve_decision. Defined.

(** [te_seen] and [te_seenName] are the dependencies of the first two effects
    when they last ran; [te_expr] and [te_rules] are the texts of the panel. *)
Record TierEditor := mkTierEditor {
  te_mode : EditorMode; te_config : option VisualConfig; te_raw : jsstr; te_groups : list RequestRuleGroup;
  te_init : bool; te_seen : option (jsstr * jsstr); te_seenName : option jsstr;
  te_name : jsstr; te_expr : jsstr; te_rules : jsstr }.

(** [tryParseRequestRuleExpr(text) || []] *)
Definition groups_of (text : jsstr) : option (list RequestRuleGroup) :=
  match tryParseRequestRuleExpr text with Val gs => Some gs | Null => Some [] | Throw => None end.

Definition mount (name expr rules : jsstr) : option TierEditor :=
  (fun gs => mkTierEditor Visual (tryParseVisualConfig expr) (combineBillingExpr expr rules) gs
               false None None name expr rules) <$> groups_of rules.

Definition canUseVisualRules (rules : jsstr) : option bool :=
  if negb (nonempty rules) then Some true
  else match tryParseRequestRuleExpr rules with Val _ => Some true | Null => Some false | Throw => None end.

Definition effectiveExpr (s : TierEditor) : option jsstr :=
  match te_mode s with
  | Visual => Some (generateExprFromVisualConfig (te_config s))
  | Raw => billingExpr <$> splitBillingExprAndRequestRules (te_raw s)
  end.

(** *** Effects *)

(** The first one: read the texts again, once after [te_init] was cleared. *)
Definition init_effect (s : TierEditor) : option TierEditor :=
  let ran := Some (te_expr s, te_rules s) in
  if bool_decide (te_seen s = ran) then Some s
  else if te_init s
  then Some (mkTierEditor (te_mode s) (te_config s) (te_raw s) (te_groups s) true ran (te_seenName s)
               (te_name s) (te_expr s) (te_rules s))
  else
    let '(mode, config) :=
      match tryParseVisualConfig (te_expr s) with
      | Some parsed => (Visual, Some parsed)
      | None => if nonempty (te_expr s) then (Raw, None) else (te_mode s, Some createDefaultVisualConfig)
      end in
    (fun gs => mkTierEditor mode config (combineBillingExpr (te_expr s) (te_rules s)) gs true ran
                 (te_seenName s) (te_name s) (te_expr s) (te_rules s)) <$> groups_of (te_rules s).

(** The second one, on the name of the model. *)
Definition name_effect (s next : TierEditor) : TierEditor :=
  if bool_decide (te_seenName s = Some (te_name s)) then next
  else mkTierEditor (te_mode next) (te_config next) (te_raw next) (te_groups next) false (te_seen next)
         (Some (te_name s)) (te_name next) (te_expr next) (te_rules next).

(** The other two report the texts to the panel.  They test what they report,
    so that running them again on the same values changes nothing. *)
Definition with_texts (expr rules : jsstr) (s : TierEditor) : TierEditor :=
  mkTierEditor (te_mode s) (te_config s) (te_raw s) (te_groups s) (te_init s) (te_seen s) (te_seenName s)
    (te_name s) expr rules.
Definition reported_rules (s : TierEditor) : jsstr :=
  match te_mode s with Visual => buildRequestRuleExpr (te_groups s) | Raw => te_rules s end.

Definition flush (s : TierEditor) : option TierEditor :=
  match effectiveExpr s, canUseVisualRules (te_rules s), init_effect s with
  | Some effective, Some _, Some next => Some (with_texts effective (reported_rules s) (name_effect s next))
  | _, _, _ => None
  end.

Fixpoint settle (n : nat) (s : TierEditor) : option TierEditor :=
  match n with 0 => Some s | S n => match flush s with Some s' => settle n s' | None => None end end.

(** *** Handlers *)

Definition handleVisualChange (next : VisualConfig) (s : TierEditor) : TierEditor :=
  mkTierEditor (te_mode s) (Some next) (te_raw s) (te_groups s) (te_init s) (te_seen s) (te_seenName s)
    (te_name s) (te_expr s) (te_rules s).
Definition handleRuleGroupsChange (next : list RequestRuleGroup) (s : TierEditor) : TierEditor :=
  mkTierEditor (te_mode s) (te_config s) (te_raw s) next (te_init s) (te_seen s) (te_seenName s)
    (te_name s) (te_expr s) (te_rules s).

(** When the split throws the text was already set: the next render throws. *)
Definition handleRawChange (value : jsstr) (s : TierEditor) : option TierEditor :=
  (fun sp => mkTierEditor (te_mode s) (te_config s) value (te_groups s) (te_init s) (te_seen s) (te_seenName s)
               (te_name s) (te_expr s) (requestRuleExpr sp)) <$> splitBillingExprAndRequestRules value.

Definition handleModeChange (next : EditorMode) (s : TierEditor) : option TierEditor :=
  match next with
  | Visual =>
      match splitBillingExprAndRequestRules (te_raw s) with
      | None => None
      | Some sp =>
          let config := match tryParseVisualConfig (billingExpr sp) with
                        | Some parsed => parsed
                        | None => createDefaultVisualConfig
                        end in
          (fun gs => mkTierEditor Visual (Some config) (te_raw s) gs (te_init s) (te_seen s) (te_seenName s)
                       (te_name s) (te_expr s) (requestRuleExpr sp)) <$> groups_of (requestRuleExpr sp)
      end
  | Raw =>
      let expr := generateExprFromVisualConfig (te_config s) in
      let ruleExpr := buildRequestRuleExpr (te_groups s) in
      Some (mkTierEditor Raw (te_config s) (str_or (combineBillingExpr expr ruleExpr) expr) (te_groups s)
              (te_init s) (te_seen s) (te_seenName s) (te_name s) (te_expr s) (te_rules s))
  end.

Definition applyPreset (p : Preset) (s : TierEditor) : TierEditor :=
  let presetGroups := preset_requestRules p in
  let ruleExpr := buildRequestRuleExpr presetGroups in
  let combined := str_or (combineBillingExpr (preset_expr p) ruleExpr) (preset_expr p) in
  let parsed := tryParseVisualConfig (preset_expr p) in
  mkTierEditor (match parsed with Some _ => Visual | None => Raw end) parsed combined presetGroups
    (te_init s) (te_seen s) (te_seenName s) (te_name s) (te_expr s) ruleExpr.

(** The name of a new model, typed in the panel. *)
Definition rename (name : jsstr) (s : TierEditor) : TierEditor :=
  mkTierEditor (te_mode s) (te_config s) (te_raw s) (te_groups s) (te_init s) (te_seen s) (te_seenName s)
    name (te_expr s) (te_rules s).

(** *** Sessions: events, each followed by renders until the editor rests *)

Inductive TierEvent :=
| EditConfig (ch : ConfigChange) | EditGroups (gs : list RequestRuleGroup) | EditRaw (value : jsstr)
| SwitchMode (m : EditorMode) | UsePreset (p : Preset) | Rename (name : jsstr).
Definition handle (e : TierEvent) (s : TierEditor) : option TierEditor :=
  match e with
  | EditConfig ch => Some (match config_change (te_config s) ch with
                           | Some next => handleVisualChange next s
                           | None => s
                           end)
  | EditGroups gs => Some (handleRuleGroupsChange gs s)
  | EditRaw v => handleRawChange v s
  | SwitchMode m => handleModeChange m s
  | UsePreset p => Some (applyPreset p s)
  | Rename n => Some (rename n s)
  end.
(** Five renders are enough ([TierEditorFacts]). *)
Definition RENDERS : nat := 5.
Fixpoint session (es : list TierEvent) (s : TierEditor) : option TierEditor :=
  match es with
  | [] => Some s
  | e :: es =>
      match handle e s with
      | None => None
      | Some s' => match settle RENDERS s' with None => None | Some s'' => session es s'' end
      end
  end.
Definition opened (name expr rules : jsstr) : option TierEditor :=
  match mount name expr rules with None => None | Some s => settle RENDERS s end.
