(* ===== verification/TierEditorFacts.v ===== *)
(** * Theorems on the editor of tiered prices

    The effects come to rest after five renders, in a state where the panel has
    the texts of what is shown; an expression the visual editor wrote is opened
    without a change; and what the effect that clears the initialization flag on
    the first render makes of other texts: an expression of the text editor is
    replaced, unreadable rules are erased, and the first preset with rules is
    applied without its prices. *)

From S2P Require Import Prelude JsNumber JsValue JsRegex BillingExpr BillingExprFacts.
From S2P Require Import TierExpr TierExprFacts TierConfigFacts TierEditor.
From S2P Require Import ModelPricing PricingPanel ModelPricingFacts.

(** One render, with the state's fields. *)
Ltac render :=
  unfold flush, effectiveExpr, init_effect, name_effect, with_texts, reported_rules;
  cbn [te_mode te_config te_raw te_groups te_init te_seen te_seenName te_name te_expr te_rules].

(** ** Coming to rest *)

(** What is shown: all that the reported texts depend on. *)
Definition shown (s : TierEditor) : EditorMode * option VisualConfig * jsstr * list RequestRuleGroup :=
  (te_mode s, te_config s, te_raw s, te_groups s).

(** The panel has the texts of what is shown. *)
Definition in_step (s : TierEditor) : Prop :=
  effectiveExpr s = Some (te_expr s) /\ reported_rules s = te_rules s.

Lemma effective_shown s s' : shown s = shown s' -> effectiveExpr s = effectiveExpr s'.
Proof. intros [= E1 E2 E3 E4]. unfold effectiveExpr. by rewrite E1, E2, E3. Qed.
Lemma reported_shown s s' :
  shown s = shown s' -> te_rules s' = reported_rules s -> reported_rules s' = reported_rules s.
Proof.
  intros [= E1 E2 E3 E4] H. unfold reported_rules in *. rewrite <- E1, <- E4, H. by destruct (te_mode s).
Qed.

(** One render. *)
Lemma render_inv s s' :
  flush s = Some s' ->
  effectiveExpr s = Some (te_expr s') /\ te_rules s' = reported_rules s
  /\ is_Some (canUseVisualRules (te_rules s))
  /\ te_seen s' = Some (te_expr s, te_rules s) /\ te_seenName s' = Some (te_name s) /\ te_name s' = te_name s
  /\ (te_seenName s = Some (te_name s) ->
      (te_init s = true \/ te_seen s = Some (te_expr s, te_rules s)) /\ shown s' = shown s /\ te_init s' = te_init s
      \/ te_init s' = true).
Proof.
  unfold flush. destruct (effectiveExpr s) as [eff|]; [|done].
  destruct (canUseVisualRules (te_rules s)) as [b|] eqn:Eb; [|done].
  destruct (init_effect s) as [next|] eqn:Ei; [|done]. intros [= <-].
  assert (Hn : te_seen next = Some (te_expr s, te_rules s) /\ te_name next = te_name s
    /\ te_seenName next = te_seenName s
    /\ ((te_init s = true \/ te_seen s = Some (te_expr s, te_rules s)) /\ shown next = shown s
        /\ te_init next = te_init s \/ te_init next = true)).
  { unfold init_effect in Ei. case_bool_decide as Hs; [simplify_eq; eauto 10|].
    destruct (te_init s) eqn:Et; [simplify_eq; cbn; eauto 10|].
    destruct (tryParseVisualConfig (te_expr s)) as [c|]; [|destruct (nonempty (te_expr s))];
      destruct (groups_of (te_rules s)); try done; injection Ei as <-; cbn; eauto 10. }
  destruct Hn as (H1 & H2 & H3 & H4). unfold name_effect. case_bool_decide as Hname; cbn; split_and!; try done.
  - congruence.
Qed.

Lemma settled_if s :
  in_step s -> is_Some (canUseVisualRules (te_rules s)) -> te_seen s = Some (te_expr s, te_rules s) ->
  te_seenName s = Some (te_name s) -> flush s = Some s.
Proof.
  intros [H1 H2] [b Hb] Hs Hn. unfold flush, init_effect, name_effect. rewrite H1, Hb.
  rewrite !bool_decide_eq_true_2 by done. rewrite H2. by destruct s.
Qed.

(** With the flag set, two more renders are enough. *)
Lemma rest_of_two s s1 s2 :
  te_seenName s = Some (te_name s) -> te_init s = true -> flush s = Some s1 -> flush s1 = Some s2 ->
  flush s2 = Some s2 /\ in_step s2.
Proof.
  intros Hn Hi F1 F2.
  assert (Hsame : forall a b, te_seenName a = Some (te_name a) -> te_init a = true -> flush a = Some b -> shown b = shown a).
  { clear. intros a b Hn Hi F. unfold flush, init_effect in F.
    destruct (effectiveExpr a); [|done]. destruct (canUseVisualRules (te_rules a)); [|done].
    rewrite Hi in F. unfold name_effect in F. rewrite (bool_decide_eq_true_2 (te_seenName a = _)) in F by done.
    case_bool_decide; by injection F as <-. }
  pose proof (Hsame s s1 Hn Hi F1) as Sh1.
  apply render_inv in F1 as (E1 & R1 & _ & S1 & N1 & M1 & C1).
  assert (Hi1 : te_init s1 = true) by (destruct (C1 Hn) as [(_ & _ & ->)|]; done).
  assert (Hn1 : te_seenName s1 = Some (te_name s1)) by congruence.
  pose proof (Hsame s1 s2 Hn1 Hi1 F2) as Sh2.
  apply render_inv in F2 as (E2 & R2 & B2 & S2 & N2 & M2 & _).
  pose proof (reported_shown s s1 (eq_sym Sh1) R1) as P1.
  pose proof (reported_shown s1 s2 (eq_sym Sh2) R2) as P2.
  assert (Ex : te_expr s2 = te_expr s1).
  { rewrite (effective_shown s1 s Sh1) in E2. congruence. }
  assert (Er : te_rules s2 = te_rules s1) by congruence.
  assert (Hst : in_step s2) by (split; [rewrite (effective_shown s2 s1 Sh2); congruence|congruence]).
  split; [|done]. apply settled_if; [done|by rewrite Er|congruence|congruence].
Qed.

(** The general case: five. *)
Lemma rests s s' : settle RENDERS s = Some s' -> flush s' = Some s' /\ in_step s'.
Proof.
  unfold RENDERS. cbn [settle]. intros H.
  destruct (flush s) as [s1|] eqn:F1; [|done]. destruct (flush s1) as [s2|] eqn:F2; [|done].
  destruct (flush s2) as [s3|] eqn:F3; [|done]. destruct (flush s3) as [s4|] eqn:F4; [|done].
  destruct (flush s4) as [s5|] eqn:F5; [|done]. injection H as <-.
  destruct (render_inv _ _ F1) as (_ & _ & _ & _ & N1 & M1 & _).
  destruct (render_inv _ _ F2) as (E2 & R2 & B2 & S2 & N2 & M2 & C2).
  destruct (render_inv _ _ F3) as (E3 & R3 & B3 & S3 & N3 & M3 & C3).
  assert (Hn1 : te_seenName s1 = Some (te_name s1)) by congruence.
  assert (Hn2 : te_seenName s2 = Some (te_name s2)) by congruence.
  assert (Hn3 : te_seenName s3 = Some (te_name s3)) by congruence.
  destruct (te_init s1) eqn:I1.
  { destruct (rest_of_two s1 s2 s3 Hn1 I1 F2 F3) as [Hr Hi].
    assert (s5 = s3) by (simplify_eq; congruence). by subst s5. }
  destruct (te_init s2) eqn:I2.
  { destruct (rest_of_two s2 s3 s4 Hn2 I2 F3 F4) as [Hr Hi].
    assert (s5 = s4) by (simplify_eq; congruence). by subst s5. }
  destruct (C2 Hn1) as [([?|Hs1] & Sh2 & _)|]; [congruence| |congruence].
  destruct (te_init s3) eqn:I3; [by apply (rest_of_two s3 s4 s5)|].
  destruct (C3 Hn2) as [([?|Hs2] & Sh3 & _)|]; [congruence| |congruence].
  assert (Hst2 : in_step s2).
  { split; [rewrite (effective_shown s2 s1 Sh2); done|by rewrite (reported_shown s1 s2) by done]. }
  assert (Hr : flush s2 = Some s2) by (apply settled_if; [done|done|done|done]).
  assert (s5 = s2) by (simplify_eq; congruence). by subst s5.
Qed.

(** C17: The editor comes to rest.  Its effects read each other's results: they
    parse the texts of the panel into the editor and report the editor's texts
    to the panel.  From every state, unless an exception unmounts the editor,
    five renders lead to one in which no effect changes anything, and there the
    panel has the expression of what is shown and, in the visual mode, the rules
    that are shown: the effects cannot run in circles. *)
Theorem editor_rests s s' :
  settle RENDERS s = Some s' ->
  flush s' = Some s' /\ effectiveExpr s' = Some (te_expr s')
  /\ (te_mode s' = Visual ->
      te_expr s' = generateExprFromVisualConfig (te_config s') /\ te_rules s' = buildRequestRuleExpr (te_groups s')).
Proof.
  intros H. destruct (rests s s' H) as [Hf [H1 H2]]. split_and!; [done|done|]. intros Hm.
  unfold effectiveExpr, reported_rules in *. rewrite Hm in H1, H2. split; congruence.
Qed.

(** ** Opening *)

Lemma groups_of_read gs : Forall wf_group gs -> groups_of (buildRequestRuleExpr gs) = Some gs.
Proof. intros H. unfold groups_of. by rewrite rules_read_back. Qed.
Lemma can_use_rules gs : Forall wf_group gs -> canUseVisualRules (buildRequestRuleExpr gs) = Some true.
Proof. intros H. unfold canUseVisualRules. rewrite rules_read_back by done. by destruct (negb _). Qed.

(** Resting is not left by more renders. *)
Lemma settle_rest n s : flush s = Some s -> settle n s = Some s.
Proof. intros H. induction n as [|n IH]; [done|]. cbn [settle]. by rewrite H. Qed.
Lemma settle_step n s s1 : flush s = Some s1 -> settle (S n) s = settle n s1.
Proof. intros H. cbn [settle]. by rewrite H. Qed.

(** The state after the first render of texts the visual editor wrote. *)
Definition visual_opened (name : jsstr) (ts : VisualConfig) (gs : list RequestRuleGroup) : TierEditor :=
  let expr := generateExprFromVisualConfig (Some ts) in
  let rules := buildRequestRuleExpr gs in
  mkTierEditor Visual (Some ts) (combineBillingExpr expr rules) gs false (Some (expr, rules)) (Some name)
    name expr rules.

Lemma visual_opened_rests name ts gs :
  Forall wf_group gs -> flush (visual_opened name ts gs) = Some (visual_opened name ts gs).
Proof. intros H. apply settled_if; [done| |done|done]. cbn. rewrite can_use_rules by done. by eexists. Qed.

Lemma opened_visual name ts ts' gs :
  let expr := generateExprFromVisualConfig (Some ts) in
  tryParseVisualConfig expr = Some ts' -> generateExprFromVisualConfig (Some ts') = expr -> Forall wf_group gs ->
  opened name expr (buildRequestRuleExpr gs) = Some (visual_opened name ts' gs).
Proof.
  cbv zeta. intros Hp Hg H. unfold opened, mount. rewrite groups_of_read by done. cbn [fmap option_fmap option_map].
  rewrite Hp. unfold RENDERS. erewrite settle_step; [by apply settle_rest, visual_opened_rests|].
  unfold visual_opened. render. rewrite can_use_rules, groups_of_read, Hp by done. render. by rewrite Hg.
Qed.

(** What the visual editor wrote is opened as it is: for tiers and rules that
    can be read back, the editor shows the same tiers and the same rules in the
    visual mode, rests, and leaves both texts of the panel unchanged. *)
Theorem reopen_stable name ts gs :
  ts <> [] -> Forall tier_readable ts -> Forall wf_group gs ->
  let expr := generateExprFromVisualConfig (Some ts) in
  exists s ts', opened name expr (buildRequestRuleExpr gs) = Some s /\ flush s = Some s
    /\ te_mode s = Visual /\ te_config s = Some ts' /\ same_tiers ts ts' /\ te_groups s = gs
    /\ te_expr s = expr /\ te_rules s = buildRequestRuleExpr gs.
Proof.
  intros Hts Hr Hg. cbv zeta. destruct (visual_read_back ts Hts Hr) as (ts' & Hp & Hs & Ht).
  exists (visual_opened name ts' gs), ts'.
  split_and!; [by apply opened_visual|by apply visual_opened_rests|done..].
Qed.

(** ** Texts that are lost *)






(** C37: Opening a price that the visual editor wrote for readable tiers, with
    rules it cannot read, erases the rules: it shows none, and reports none.  The text that asks to edit them as
    an expression is not reached.  The rules the editor writes for a comparison
    of a parameter are of this kind. *)
Theorem unread_rules_erased name ts rules :
  ts <> [] -> Forall tier_readable ts -> tryParseRequestRuleExpr rules = Null ->
  let expr := generateExprFromVisualConfig (Some ts) in
  exists s, opened name expr rules = Some s /\ flush s = Some s /\ te_mode s = Visual
    /\ te_expr s = expr /\ te_rules s = [] /\ te_groups s = [].
Proof.
  intros Hts Hr Hn. cbv zeta. destruct (visual_read_back ts Hts Hr) as (ts' & Hp & _ & Hg).
  set (expr := generateExprFromVisualConfig (Some ts)) in *.
  assert (Hg0 : groups_of rules = Some []) by (unfold groups_of; by rewrite Hn).
  assert (Hc : canUseVisualRules rules = Some false).
  { unfold canUseVisualRules. destruct rules; [done|]. by rewrite Hn. }
  assert (Hne : rules <> []) by (by intros ->).
  set (st init seen r raw := mkTierEditor Visual (Some ts') raw [] init (Some (expr, seen)) (Some name) name expr r).
  assert (F1 : forall raw, flush (st false rules [] raw) = Some (st true [] [] (combineBillingExpr expr []))).
  { intros raw. unfold st. render. rewrite Hg, bool_decide_eq_false_2 by congruence. rewrite Hp.
    rewrite bool_decide_eq_true_2 by done. done. }
  assert (Hrest : forall raw, flush (st true [] [] raw) = Some (st true [] [] raw)).
  { intros raw. apply settled_if; [|by eexists|done|done]. split; [|done]. unfold effectiveExpr, st. cbn [te_mode te_config].
    by rewrite Hg. }
  exists (st true [] [] (combineBillingExpr expr [])). split_and!; [|done..]. unfold opened, mount.
  rewrite Hg0. cbn [fmap option_fmap option_map]. rewrite Hp. unfold RENDERS.
  rewrite (settle_step 4 _ (st false rules [] (combineBillingExpr expr rules))).
  - rewrite (settle_step 3 _ _ (F1 _)). by apply settle_rest.
  - unfold st. render. rewrite Hc, Hg0, Hp, Hg. done.
Qed.

(** What a render makes of a state with given tiers, rules and texts: with the
    flag set, and the texts read at the last render, it only reports. *)
Lemma reporting_flush cfg raw gs seen name expr :
  Forall wf_group gs ->
  let rules := buildRequestRuleExpr gs in
  let st seen expr := mkTierEditor Visual cfg raw gs true (Some (seen, rules)) (Some name) name expr rules in
  flush (st seen expr) = Some (st expr (generateExprFromVisualConfig cfg)).
Proof.
  intros H. cbv zeta. render. rewrite can_use_rules by done.
  rewrite (bool_decide_eq_true_2 (Some name = Some name)) by done.
  case_bool_decide as E; [|done]. by injection E as ->.
Qed.

(** The first render after a preset was chosen in a resting state. *)
Lemma preset_flush s ts' p c :
  flush s = Some s -> tryParseVisualConfig (te_expr s) = Some ts' ->
  tryParseVisualConfig (preset_expr p) = Some c -> Forall wf_group (preset_requestRules p) ->
  buildRequestRuleExpr (preset_requestRules p) <> te_rules s ->
  let rules := buildRequestRuleExpr (preset_requestRules p) in
  exists raw, flush (applyPreset p s)
    = Some (mkTierEditor Visual (Some (if te_init s then c else ts')) raw (preset_requestRules p) true
              (Some (te_expr s, rules)) (Some (te_name s)) (te_name s) (generateExprFromVisualConfig (Some c)) rules).
Proof.
  intros Hf Hp Hc Hw Hne. cbv zeta. destruct (render_inv s s Hf) as (_ & _ & _ & Hs & Hn & _).
  unfold applyPreset. rewrite Hc. render. rewrite can_use_rules, Hs by done.
  rewrite bool_decide_eq_false_2 by (intros [= E]; by apply Hne).
  rewrite Hp, groups_of_read, Hn, (bool_decide_eq_true_2 (Some (te_name s) = Some (te_name s))) by done.
  destruct (te_init s); eexists; reflexivity.
Qed.

(** C38: A preset that changes the rules is applied with its prices only after
    the editor has read the texts of the panel since it was opened or since the
    name of the model was changed.  In a
    resting editor of an expression the visual editor wrote for readable tiers,
    choosing a preset of the visual form with other rules (all presets of the
    table are of the visual form) gives the rules of the preset; its prices replace the old
    ones when the flag of that reading is set, and are lost when it is not, since
    the change of the rules makes the first effect read the old expression again.
    Opening such an expression with rules that are read back leaves the flag
    cleared, so the first such preset chosen after it loses its prices, unless
    the expression or the rules were changed before. *)
Theorem preset_prices_lost s ts p c :
  flush s = Some s -> te_expr s = generateExprFromVisualConfig (Some ts) ->
  ts <> [] -> Forall tier_readable ts ->
  tryParseVisualConfig (preset_expr p) = Some c -> Forall wf_group (preset_requestRules p) ->
  buildRequestRuleExpr (preset_requestRules p) <> te_rules s ->
  (exists s', session [UsePreset p] s = Some s' /\ flush s' = Some s' /\ te_mode s' = Visual
     /\ te_groups s' = preset_requestRules p /\ te_rules s' = buildRequestRuleExpr (preset_requestRules p)
     /\ te_init s' = true
     /\ te_expr s' = (if te_init s then generateExprFromVisualConfig (Some c) else te_expr s))
  /\ forall name gs, Forall wf_group gs ->
     exists s0, opened name (generateExprFromVisualConfig (Some ts)) (buildRequestRuleExpr gs) = Some s0
       /\ flush s0 = Some s0 /\ te_init s0 = false
       /\ te_expr s0 = generateExprFromVisualConfig (Some ts) /\ te_rules s0 = buildRequestRuleExpr gs.
Proof.
  intros Hf He Hts Hr Hc Hw Hne. destruct (visual_read_back ts Hts Hr) as (ts' & Hp & _ & Ht). split.
  - assert (Hp' : tryParseVisualConfig (te_expr s) = Some ts') by (by rewrite He).
    destruct (preset_flush s ts' p c Hf Hp' Hc Hw Hne) as (raw & F0). cbn [session handle]. unfold RENDERS.
    rewrite (settle_step _ _ _ F0). cbn [settle]. rewrite !reporting_flush by done.
    eexists. split; [reflexivity|]. rewrite reporting_flush by done.
    split_and!; [done..|]. cbn [te_expr]. destruct (te_init s); [done|]. by rewrite Ht, He.
  - intros name gs Hg. exists (visual_opened name ts' gs).
    split_and!; [by apply (opened_visual name ts)|by apply visual_opened_rests|done|exact Ht|done].
Qed.

(** ** Examples *)

(** Every preset of the table is of the visual form. *)
Example presets_visual :
  forallb (fun p => match tryParseVisualConfig (preset_expr p) with Some _ => true | None => false end)
    (concat (List.map group_presets PRESET_GROUPS)) = true.
Proof. vm_compute. reflexivity. Qed.

(** Without an expression the editor rests in the text mode, with the price
    zero: the default tier of the first effect is replaced. *)
Definition new_model : option TierEditor := mount (js "m") [] [].
Lemma editor_rests_witness :
  exists s s', new_model = Some s /\ settle RENDERS s = Some s' /\ flush s' = Some s'
    /\ te_mode s' = Raw /\ te_expr s' = js "p * 0 + c * 0".
Proof.
  eexists. eexists. split; [reflexivity|]. split; [vm_compute; reflexivity|].
  split; [|split; vm_compute; reflexivity].
  match goal with |- flush ?x = _ => destruct (editor_rests (default x new_model) x) as [H _] end.
  - vm_compute. reflexivity.
  - exact H.
Defined.


(** A rule the editor writes for a comparison of a parameter. *)
Definition param_rule : jsstr :=
  buildRequestRuleExpr [mkGroup [ParamHeaderCondition SourceParam (js "max_tokens") MATCH_GT (js "4096")] (js "2")].
Lemma unread_rules_erased_witness :
  exists s, opened (js "m") (generateExprFromVisualConfig (Some example_config)) param_rule = Some s
    /\ nonempty param_rule = true /\ te_rules s = [].
Proof.
  destruct (unread_rules_erased (js "m") example_config param_rule) as (s & H1 & _ & _ & _ & H5 & _).
  - discriminate.
  - apply (bool_decide_unpack _). vm_compute. exact I.
  - vm_compute. reflexivity.
  - exists s. split; [exact H1|]. split; [vm_compute; reflexivity|exact H5].
Defined.

Definition night_discount : Preset :=
  default (mkPreset [] [] [] []) (last (removelast (concat (List.map group_presets PRESET_GROUPS)))).
Lemma night_rules_wf : Forall wf_group (preset_requestRules night_discount).
Proof.
  assert (D : forall P `{Decision P}, bool_decide P = true -> P) by (intros P ? E; by apply bool_decide_eq_true in E).
  change (preset_requestRules night_discount)
    with [mkGroup [TimeCondition (js "hour") (js "Asia/Shanghai") MATCH_RANGE [] (js "21") (js "6")] (js "0.5")].
  repeat constructor; simpl; try done; try (apply D with (P := _ ∈ _); [apply _|reflexivity]); try (by vm_compute).
Qed.
(** The preset chosen first after opening, and chosen after another one. *)
Definition opened_example : TierEditor :=
  visual_opened (js "m") (default [] (tryParseVisualConfig (generateExprFromVisualConfig (Some example_config)))) [].
Lemma preset_prices_lost_witness :
  opened (js "m") (generateExprFromVisualConfig (Some example_config)) [] = Some opened_example
  /\ exists s, session [UsePreset night_discount] opened_example = Some s
    /\ te_groups s = preset_requestRules night_discount
    /\ te_expr s = generateExprFromVisualConfig (Some example_config)
    /\ preset_expr night_discount <> te_expr s.
Proof.
  assert (Ho : opened (js "m") (generateExprFromVisualConfig (Some example_config)) [] = Some opened_example)
    by (vm_compute; reflexivity).
  split; [exact Ho|].
  destruct (preset_prices_lost opened_example example_config night_discount
              (default [] (tryParseVisualConfig (preset_expr night_discount))))
    as [(s & H2 & _ & _ & H5 & _ & _ & H7) _].
  - vm_compute. reflexivity.
  - vm_compute. reflexivity.
  - discriminate.
  - apply (bool_decide_unpack _). vm_compute. exact I.
  - vm_compute. reflexivity.
  - exact night_rules_wf.
  - apply (bool_decide_unpack _). vm_compute. exact I.
  - exists s. split; [exact H2|]. split; [exact H5|]. rewrite H7.
    split; [vm_compute; reflexivity|]. apply (bool_decide_unpack _). vm_compute. exact I.
Defined.
Example preset_kept_after_another :
  (fun s => te_expr s) <$> session [UsePreset night_discount; UsePreset (default night_discount
      (head (concat (List.map group_presets PRESET_GROUPS))))] opened_example
  = Some (jsq "tier('base', p * 2 + c * 4)").
Proof. vm_compute. reflexivity. Qed.
