(* ===== verification/PanelEditorFacts.v ===== *)
(** * The panel with the editor of tiered prices mounted in it

    In the mode of expressions the panel ([models/model-pricing-sheet.tsx])
    renders [TieredPricingEditor] with its two texts, and the editor's effects
    report texts back before anything is typed.  Opening a row of the table is
    loading it into the panel and letting that editor come to rest; a row that is
    opened so and saved again is kept when the editor leaves its texts alone. *)

From S2P Require Import Prelude JsNumber JsFixed JsValue JsPretty JsRegex BillingExpr BillingExprFacts.
From S2P Require Import TierExpr TierExprFacts TierConfigFacts TierEditor.
From S2P Require Import ModelPricing PricingPanel ModelPricingFacts PricingPanelFacts TierEditorFacts.

(** The content of the tab of the mode: only that of the chosen mode is mounted,
    with a key that changes on every load, so the editor starts anew.  [None]
    when an exception unmounts the page. *)
Definition mount_editor (s : Panel) : option Panel :=
  match pp_pricingMode s with
  | TieredExpr => (fun e => with_exprs (te_expr e) (te_rules e) s)
                    <$> opened (pp_name s) (pp_billingExpr s) (pp_requestRuleExpr s)
  | _ => Some s
  end.
Definition open_panel (editData : option ModelRatioData) (s : Panel) : option Panel :=
  mount_editor (load_panel editData s).

(** The expression and the rules of a tiered row are texts of the visual editor
    that it reads back. *)
Definition written_visually (r : ModelPricingSnapshot) : Prop :=
  sn_billingMode r = TieredExpr ->
  exists ts gs, ts <> [] /\ Forall tier_readable ts /\ Forall wf_group gs
    /\ sn_billingExpr r = generateExprFromVisualConfig (Some ts)
    /\ sn_requestRuleExpr r = buildRequestRuleExpr gs.

(** The editor leaves such texts alone. *)
Lemma opened_row s mr r :
  row_draft mr = Some r -> written_visually r ->
  open_panel (Some (edit_data mr)) s = Some (load_panel (Some (edit_data mr)) s).
Proof.
  intros Hmr Hv. unfold open_panel, mount_editor.
  destruct (pp_pricingMode (load_panel (Some (edit_data mr)) s)) eqn:Em; try done.
  assert (Hm : sn_billingMode r = TieredExpr).
  { revert Em. unfold edit_data. rewrite Hmr. cbn [load_panel pp_pricingMode rd_mode rd_numbers].
    by destruct (sn_billingMode r), (nonempty (price (sn_numbers r))). }
  destruct (Hv Hm) as (ts & gs & Hts & Hr & Hg & E1 & E2).
  destruct (visual_read_back ts Hts Hr) as (ts' & Hp & _ & Ht).
  assert (Ho : opened (sn_name r) (sn_billingExpr r) (sn_requestRuleExpr r) = Some (visual_opened (sn_name r) ts' gs)).
  { rewrite E1, E2. by apply opened_visual. }
  unfold edit_data. rewrite Hmr. cbn [load_panel pp_name pp_billingExpr pp_requestRuleExpr rd_name rd_billingExpr rd_requestRuleExpr].
  rewrite Ho. cbn [fmap option_fmap option_map visual_opened te_expr te_rules]. rewrite Ht, <- E1, <- E2. done.
Qed.

(** C20: Opening a row of the table and saving it without a change keeps every
    row.  Opening loads the row into the panel and, for a tiered row, mounts the
    editor of tiered prices, whose effects report its texts; the panel commits
    the data of the row, and the texts that are written show the same rows as
    before.  It is so when the panel does not ask for an audio input price, and
    for a row that is read back as it is: a trimmed name that is not empty, no
    conflict between price and ratios, numbers in the form they are printed in,
    at least one of them without an expression; and a tiered row whose
    expression and rules the visual editor wrote for readable tiers and rules
    (any expression it cannot read is replaced on opening, any rules it cannot
    read are erased) and whose full text is split into the two again. *)
Theorem edit_stable mobile s0 s maps rows mr r :
  pricing_maps (ve_texts s) = Some maps -> opt_Forall obj_ok maps ->
  buildModelSnapshots (ve_texts s) = Some rows ->
  row_draft mr = Some r -> row_by_name rows (sn_name r) = Some r -> row_stable r -> written_visually r ->
  let s1 := handleEdit mobile mr s in
  missing_audio (load_panel (ve_editData s1) s0) = false ->
  exists panel d s2 rows', open_panel (ve_editData s1) s0 = Some panel
    /\ commitDraft panel = Committed d /\ commitOpenEditor (Some (Some d)) s1 = Some (true, s2)
    /\ buildModelSnapshots (ve_texts s2) = Some rows'
    /\ forall k, row_by_name rows' k = row_by_name rows k.
Proof.
  intros E Hok H Hmr Hr Hst Hv. cbv zeta. cbn [handleEdit ve_editData]. set (panel := load_panel _ s0). intros Ha.
  exists panel. assert (Hsh : row_shape r).
  { rewrite (built_rows _ maps rows) in Hr by done. case_decide; [|done]. by eapply snapshot_shape. }
  destruct (stable_row s0 mr r Hmr Hsh Hst) as (Hn & Hd & Hsp & Hrow). fold panel in Hn, Hd, Hsp, Hrow.
  destruct (persist_build (buildSubmitData panel) [rd_name (buildSubmitData panel)] (ve_texts s) maps rows)
    as (texts' & rows' & Hp & Hb & Hall); [done..|].
  exists (buildSubmitData panel). unfold commitOpenEditor. cbn [handleEdit ve_editorOpen negb ve_texts]. rewrite Hp.
  eexists _, rows'. split_and!; [by apply (opened_row s0 mr r)| |reflexivity|done|].
  - unfold commitDraft, validatePricingValues. rewrite Ha. unfold panel. rewrite loaded_input.
    cbn [load_panel pp_name]. unfold edit_data. rewrite Hmr. cbn [rd_name]. by destruct Hst as [-> _].
  - intros k. rewrite Hall, Hn. case_decide as Hk; [|done]. apply list_elem_of_singleton in Hk. subst k. congruence.
Qed.

(** A model with an expression of two tiers and a rule, beside one with a fixed
    price. *)
Definition tiered_config : VisualConfig :=
  [tier_at (js "small") [mkCond (js "len") (js "<=") (Some (CondNum (num_of_Z 200000)))] (js "1.5") (js "6");
   tier_at (js "large") [] (js "3") (js "12")].
Definition tiered_expr : jsstr := generateExprFromVisualConfig (Some tiered_config).
Definition tiered_groups : list RequestRuleGroup := preset_requestRules night_discount.
Definition tiered_rules : jsstr := buildRequestRuleExpr tiered_groups.
Definition tiered_maps : Options pmap :=
  mkOptions (mkNumbers [(js "a", VNum (num_of_Z 2))] [] (mkLanes [] [] [] [] [] []))
    [(js "t", VStr (js "tiered_expr"))] [(js "t", VStr (combineBillingExpr tiered_expr tiered_rules))].
Definition tiered_editor : VisualEditor := mkVisualEditor (print_maps tiered_maps) None false false [].
Definition tiered_row : ModelPricingSnapshot :=
  mkSnapshot (js "t") (mkNumbers [] [] EMPTY_LANE_PRICES) TieredExpr tiered_expr tiered_rules false.
Definition tiered_model_row : ModelRow := mkRow tiered_row (Some tiered_row) (Some tiered_row) false false false.

Lemma tiered_maps_ok : opt_Forall obj_ok tiered_maps.
Proof.
  assert (Hn : forall k v, json_ok v -> obj_ok [(k, v)]).
  { intros k v Hv. apply (obj_ok_set k v []); [done|]. split; [split; constructor|constructor]. }
  assert (H0 : obj_ok []) by (split; [split; constructor|constructor]).
  repeat apply Forall_cons_2; try apply Forall_nil_2;
    first [exact H0|apply Hn; constructor; by apply json_num_ok_safe|apply Hn; constructor].
Qed.

Lemma edit_stable_witness :
  exists panel d s2 rows',
    open_panel (ve_editData (handleEdit false tiered_model_row tiered_editor)) initial_panel = Some panel
    /\ commitDraft panel = Committed d
    /\ commitOpenEditor (Some (Some d)) (handleEdit false tiered_model_row tiered_editor) = Some (true, s2)
    /\ buildModelSnapshots (ve_texts s2) = Some rows'
    /\ row_by_name rows' (js "t") = Some tiered_row.
Proof.
  destruct (edit_stable false initial_panel tiered_editor tiered_maps
              (default [] (buildModelSnapshots (print_maps tiered_maps))) tiered_model_row tiered_row)
    as (panel & d & s2 & rows' & H1 & H2 & H3 & H4 & H5).
  - apply pricing_maps_printed, tiered_maps_ok.
  - apply tiered_maps_ok.
  - vm_compute. reflexivity.
  - reflexivity.
  - vm_compute. reflexivity.
  - split_and!; [vm_compute; reflexivity..| | |].
    + apply (bool_decide_unpack _). vm_compute. exact I.
    + intros H. destruct (H eq_refl).
    + intros _. split; [vm_compute; reflexivity|]. eexists. split; [vm_compute; reflexivity|].
      split; vm_compute; reflexivity.
  - intros _. exists tiered_config, tiered_groups. split; [discriminate|].
    split; [apply (bool_decide_unpack _); vm_compute; exact I|].
    split; [exact night_rules_wf|]. split; reflexivity.
  - vm_compute. reflexivity.
  - exists panel, d, s2, rows'. split; [exact H1|]. split; [exact H2|]. split; [exact H3|]. split; [exact H4|].
    rewrite H5. vm_compute. reflexivity.
Defined.
