(* ===== verification/RuleEditFacts.v ===== *)
(** * Rules while they are edited

    The cards of request rules hold conditions that are not complete: a name or
    a value is missing, or a value is left over from another mode.  The editor
    prints them as if they were not there; what it prints of any such rules is
    the text of rules that are read back. *)

From S2P Require Import Prelude JsNumber JsValue JsRegex BillingExpr BillingExprFacts TierEditor.

(** ** Conditions the printed rules are read back from *)

Definition is_header (s : PHSource) : bool := match s with SourceHeader => true | SourceParam => false end.

(** A condition on the time whose zone is plain text; a condition on a header or
    parameter without a name, or with a plain name that asks whether it exists,
    compares it with a text for equality, searches a header, or compares with
    what is not a number.  A comparison of a parameter with a number and a search
    in a parameter are the ones that are printed and not read back. *)
Definition condition_ok (c : RequestCondition) : bool :=
  match normalizeCondition (partial_of c) with
  | TimeCondition _ tz _ _ _ _ => forallb plain_unit tz
  | ParamHeaderCondition src path mode v =>
      negb (nonempty (trim path))
      || forallb plain_unit (trim path)
         && (bool_decide (mode = MATCH_EXISTS)
             || forallb value_unit (trim v)
                && (bool_decide (mode = MATCH_EQ) || is_header src && bool_decide (mode = MATCH_CONTAINS))
             || bool_decide (is_Some (cmp_op mode)) && negb (is_numeric_literal (trim v)))
  end.
Definition group_ok (g : RequestRuleGroup) : Prop := forallb condition_ok (conditions g) = true.

(** What is printed of a condition: nothing, or a condition that is read back. *)
Definition prints_readable (c : RequestCondition) : Prop :=
  buildRequestConditionExpr c = []
  \/ exists c', wf_cond c' /\ buildRequestConditionExpr c = buildRequestConditionExpr c'.

Lemma wf_cond_prints c : wf_cond c -> nonempty (buildRequestConditionExpr c) = true.
Proof.
  intros H. rewrite build_cond by done. destruct (cond_reads c H) as [[[_ _ _ _ Hn] _] _].
  by destruct (cond_text c).
Qed.

Lemma offered_mode_offered source mode d :
  d ∈ (getRequestRuleMatchOptions source).*1 ->
  offered_mode source mode d ∈ (getRequestRuleMatchOptions source).*1.
Proof.
  intros Hd. unfold offered_mode. destruct mode as [m|]; [|done]. destruct (existsb _ _) eqn:E; [|done].
  apply existsb_exists in E as (o & Ho & Em). apply bool_decide_eq_true in Em as <-.
  apply list_elem_of_fmap. exists o. split; [done|by apply list_elem_of_In].
Qed.

Lemma build_norm c n :
  normalizeCondition (partial_of c) = n -> normalizeCondition (partial_of n) = n ->
  buildRequestConditionExpr c = buildRequestConditionExpr n.
Proof. intros H1 H2. unfold buildRequestConditionExpr. by rewrite H1, H2. Qed.

(** ** Conditions on the time *)

Definition TIME_MODES : list jsstr := [MATCH_EQ; MATCH_GTE; MATCH_LT; MATCH_RANGE].
Lemma time_modes : (getRequestRuleMatchOptions (js "time")).*1 = TIME_MODES.
Proof. reflexivity. Qed.

Lemma time_func_offered f : (if isTimeFunc (Some f) then f else js "hour") ∈ TIME_FUNCS.
Proof. unfold isTimeFunc. case_bool_decide; [done|]. by apply (bool_decide_unpack _). Qed.

Lemma time_normalized f tz mode v s e :
  f ∈ TIME_FUNCS -> tz <> [] -> mode ∈ TIME_MODES ->
  normalizeCondition (partial_of (TimeCondition f tz mode v s e)) = TimeCondition f tz mode v s e.
Proof.
  intros Hf Ht Hm. unfold normalizeCondition. cbn [partial_of pa_source]. rewrite bool_decide_true by done.
  cbn [pa_timeFunc pa_timezone pa_mode pa_value pa_rangeStart pa_rangeEnd default from_option id].
  unfold isTimeFunc. rewrite bool_decide_true by done. f_equal; [by destruct tz|].
  revert Hm. unfold TIME_MODES. rewrite !elem_of_cons.
  intros [->|[->|[->|[->|H]]]]; try reflexivity. by apply elem_of_nil in H.
Qed.

Lemma time_prints f tz mode v s e :
  f ∈ TIME_FUNCS -> tz <> [] -> forallb plain_unit tz = true ->
  mode ∈ TIME_MODES -> prints_readable (TimeCondition f tz mode v s e).
Proof.
  intros Hf Ht Hp Hm. unfold prints_readable.
  unfold buildRequestConditionExpr at 1 2. rewrite time_normalized by done. unfold buildTimeConditionExpr.
  assert (Hc : mode = MATCH_RANGE \/ mode <> MATCH_RANGE /\ mode ∈ [MATCH_EQ; MATCH_GTE; MATCH_LT]).
  { revert Hm. unfold TIME_MODES. rewrite !elem_of_cons.
    intros [->|[->|[->|[->|H]]]]; auto; try (right; split; [done|auto]).
    by apply elem_of_nil in H. }
  destruct Hc as [->|[Hr Hm']].
  - rewrite bool_decide_true by done. destruct (is_numeric_literal (trim s)) eqn:Es; [|by left].
    destruct (is_numeric_literal (trim e)) eqn:Ee; [|by left]. cbn [negb orb]. right.
    exists (TimeCondition f tz MATCH_RANGE [] (trim s) (trim e)). split; [by constructor|].
    unfold buildRequestConditionExpr. rewrite time_normalized by done. unfold buildTimeConditionExpr.
    rewrite bool_decide_true by done. by rewrite !trim_idemp, Es, Ee.
  - rewrite bool_decide_false by done. destruct (is_numeric_literal (trim v)) eqn:Ev; [|by left]. cbn [negb]. right.
    exists (TimeCondition f tz mode (trim v) [] []). split; [by constructor|].
    unfold buildRequestConditionExpr. rewrite time_normalized by done. unfold buildTimeConditionExpr.
    rewrite bool_decide_false by done. by rewrite !trim_idemp, Ev.
Qed.

(** ** Conditions on headers and parameters *)

Lemma ph_prints src path mode v :
  (negb (nonempty (trim path))
   || forallb plain_unit (trim path)
      && (bool_decide (mode = MATCH_EXISTS)
          || forallb value_unit (trim v)
             && (bool_decide (mode = MATCH_EQ) || is_header src && bool_decide (mode = MATCH_CONTAINS))
          || bool_decide (is_Some (cmp_op mode)) && negb (is_numeric_literal (trim v)))) = true ->
  buildParamHeaderExpr src path mode v = []
  \/ exists c', wf_cond c' /\ buildParamHeaderExpr src path mode v = buildRequestConditionExpr c'.
Proof.
  unfold buildParamHeaderExpr. destruct (nonempty (trim path)) eqn:Ep; [|by left]. cbn [negb orb].
  rewrite andb_true_iff, !orb_true_iff, !andb_true_iff, orb_true_iff, andb_true_iff, !bool_decide_eq_true.
  assert (Hn : trim path <> []) by (by destruct (trim path)).
  intros [Hp [[->|[Hv [->|[Hh ->]]]]|[[op Hop] Hnum]]].
  - right. exists (ParamHeaderCondition src (trim path) MATCH_EXISTS []).
    split; [constructor; [done|apply trim_idemp]|].
    unfold buildRequestConditionExpr. rewrite normalize_ph by (by apply (bool_decide_unpack _)).
    unfold buildParamHeaderExpr. by rewrite trim_idemp, Ep.
  - right. exists (ParamHeaderCondition src (trim path) MATCH_EQ (trim v)).
    split; [constructor; [done|apply trim_idemp|split; [apply trim_idemp|done]]|].
    unfold buildRequestConditionExpr. rewrite normalize_ph by (by apply (bool_decide_unpack _)).
    unfold buildParamHeaderExpr, buildExprLiteral. by rewrite !trim_idemp, Ep.
  - destruct src; [done|]. right. exists (ParamHeaderCondition SourceHeader (trim path) MATCH_CONTAINS (trim v)).
    split; [constructor; [done|apply trim_idemp|split; [apply trim_idemp|done]]|].
    unfold buildRequestConditionExpr. rewrite normalize_ph by (by apply (bool_decide_unpack _)).
    unfold buildParamHeaderExpr, buildExprLiteral. by rewrite !trim_idemp, Ep.
  - left. apply negb_true_iff in Hnum. unfold cmp_op in Hop |- *.
    repeat case_bool_decide; subst; try done; by rewrite Hnum.
Qed.

Lemma condition_prints c : condition_ok c = true -> prints_readable c.
Proof.
  unfold condition_ok. destruct (normalizeCondition (partial_of c)) as [src path mode v|f tz mode v s e] eqn:E.
  - intros H. unfold prints_readable. unfold buildRequestConditionExpr at 1 2. rewrite E. by apply ph_prints.
  - intros Hp. destruct c as [src path mode' v'|f' tz' mode' v' s' e'];
      [by unfold normalizeCondition in E; cbn [partial_of pa_source] in E; destruct src|].
    unfold normalizeCondition in E. cbn [partial_of pa_source] in E. rewrite bool_decide_true in E by done.
    cbn [pa_timeFunc pa_timezone pa_mode pa_value pa_rangeStart pa_rangeEnd default from_option id] in E.
    assert (Hf : f ∈ TIME_FUNCS) by (injection E as <- _; apply time_func_offered).
    assert (Ht : tz <> []) by (injection E as _ <- _; unfold str_or; by destruct tz').
    assert (Hm : mode ∈ TIME_MODES).
    { injection E as _ _ <- _. rewrite <- time_modes. apply (offered_mode_offered (js "time") (Some mode') MATCH_GTE). by apply (bool_decide_unpack _). }
    destruct (time_prints f tz mode v s e Hf Ht Hp Hm) as [H|(c' & H1 & H2)].
    + left. rewrite <- H. apply build_norm; [exact E|by apply time_normalized].
    + right. exists c'. split; [done|]. rewrite <- H2. apply build_norm; [exact E|by apply time_normalized].
Qed.

(** ** Groups *)

Lemma conditions_print cs :
  forallb condition_ok cs = true ->
  exists cs', Forall wf_cond cs'
    /\ List.filter nonempty (List.map buildRequestConditionExpr cs) = List.map buildRequestConditionExpr cs'.
Proof.
  induction cs as [|c cs IH]; cbn [forallb]; [by exists []|].
  intros [Hc Hcs]%andb_true_iff. destruct (IH Hcs) as (cs' & Hw & E). cbn [List.map List.filter].
  destruct (condition_prints c Hc) as [->|(c' & Hc' & ->)]; [by exists cs'|].
  exists (c' :: cs'). rewrite wf_cond_prints, E by done. split; [by constructor|done].
Qed.

Lemma printed_conditions cs :
  Forall wf_cond cs ->
  List.filter nonempty (List.map buildRequestConditionExpr cs) = List.map buildRequestConditionExpr cs.
Proof.
  induction 1 as [|c cs H _ IH]; [done|]. cbn [List.map List.filter]. by rewrite wf_cond_prints, IH.
Qed.

Lemma group_prints g :
  group_ok g ->
  buildRuleGroupFactor g = [] \/ exists g', wf_group g' /\ buildRuleGroupFactor g = buildRuleGroupFactor g'.
Proof.
  intros Hg. unfold buildRuleGroupFactor. destruct (is_numeric_literal (trim (multiplier g))) eqn:Em; [|by left].
  cbn [negb]. destruct (conditions_print (conditions g) Hg) as (cs & Hw & E). rewrite E.
  destruct cs as [|c cs]; [by left|]. right. exists (mkGroup (c :: cs) (trim (multiplier g))). split.
  - split; [done|exact Hw|exact Em].
  - cbn [conditions multiplier]. by rewrite trim_idemp, Em, printed_conditions.
Qed.

(** The rules that are read back from the printed text. *)
Lemma rules_print gs :
  Forall group_ok gs ->
  exists gs', Forall wf_group gs' /\ buildRequestRuleExpr gs = buildRequestRuleExpr gs'.
Proof.
  intros H. unfold buildRequestRuleExpr.
  enough (exists gs', Forall wf_group gs' /\ List.filter nonempty (List.map buildRuleGroupFactor gs)
    = List.filter nonempty (List.map buildRuleGroupFactor gs')) as (gs' & ? & E) by (exists gs'; by rewrite E).
  induction H as [|g gs Hg _ (gs' & Hw & E)]; [by exists []|]. cbn [List.map List.filter].
  destruct (group_prints g Hg) as [->|(g' & Hg' & ->)]; [by exists gs'|].
  exists (g' :: gs'). split; [by constructor|]. cbn [List.map List.filter]. by rewrite E.
Qed.

Lemma wf_cond_ok c : wf_cond c -> condition_ok c = true.
Proof.
  unfold condition_ok. destruct 1 as [src path [Hne Hp] Ht|path v [Hne Hp] Ht [Hv Hu]|src path v [Hne Hp] Ht [Hv Hu]
    |f tz mode v Hf [Hne Hp] Hm Hn|f tz s e Hf [Hne Hp] Hs He].
  4, 5: rewrite time_normalized; [done..|].
  4: { revert Hm. unfold TIME_MODES. rewrite !elem_of_cons. tauto. }
  4: by apply (bool_decide_unpack _).
  all: rewrite normalize_ph by (by apply (bool_decide_unpack _)); rewrite Ht, Hp; cbn [andb];
    rewrite ?Hv, ?Hu; cbn; by rewrite !orb_true_r.
Qed.

Lemma wf_group_ok g : wf_group g -> group_ok g.
Proof.
  intros [_ H _]. unfold group_ok. induction H as [|c cs Hc _ IH]; [done|]. cbn [forallb]. by rewrite wf_cond_ok.
Qed.

(** ** What the buttons of the cards make *)

Example added_rules_ok : group_ok createEmptyRuleGroup /\ group_ok createEmptyTimeRuleGroup.
Proof. split; vm_compute; reflexivity. Qed.

Lemma added_condition_ok b g : group_ok g -> group_ok (RuleCard.handleAddRuleCondition b g).
Proof.
  unfold group_ok. intros H. cbn [RuleCard.handleAddRuleCondition conditions]. rewrite forallb_app, H.
  by destruct b; vm_compute.
Qed.
