(* ===== verification/TierSessionFacts.v ===== *)
(** * Sessions of the visual editor of tiered prices

    Edits with the inputs the editor offers keep the tiers in the form its
    expression is read back from; whatever sequence of them is made, with the
    re-reading by the effects in between, the editor stays in the visual mode
    and its texts open again as they were left. *)

From S2P Require Import Prelude JsNumber JsValue JsRegex BillingExpr BillingExprFacts.
From S2P Require Import TierExpr TierExprFacts TierConfigFacts TierEditor TierEditorFacts RuleEditFacts.

(** ** Tiers the editor can hold *)

(** A value that is missing, or a number that is read back from its text. *)
Definition value_ok (v : option CondValue) : Prop :=
  match v with
  | None | Some (CondText []) => True
  | Some v =>
      let t := cond_value_text v in
      t <> [] /\ forallb is_num_unit_plus t = true /\ num_to_string (num_of_string t) = t
  end.
#[export] Instance value_ok_dec v : Decision (value_ok v).
Proof. destruct v as [[x|[|u s]]|]; apply _. Defined.

Definition cond_ok (c : TierConditionInput) : Prop :=
  ci_var c ∈ COND_VARS /\ ci_op c ∈ COND_OPS /\ value_ok (ci_value c).
#[export] Instance cond_ok_dec c : Decision (cond_ok c).
Proof. apply _. Defined.

Definition tier_editable (t : VisualTier) : Prop :=
  forallb not_quote (vt_label t) = true /\ Forall cond_ok (vt_conditions t) /\ length (vt_conditions t) <= 2
  /\ costs_printable (vt_costs t).
#[export] Instance tier_editable_dec t : Decision (tier_editable t).
Proof. apply _. Defined.

Definition config_editable (ts : VisualConfig) : Prop := ts <> [] /\ Forall tier_editable ts.

Lemma cond_ok_complete c : cond_ok c -> cond_complete c = true -> cond_readable c.
Proof.
  intros (Hv & Ho & Hx) Hc. unfold cond_complete in Hc. rewrite !andb_true_iff in Hc. destruct Hc as [_ Hc].
  unfold cond_readable, cond_value. destruct (ci_value c) as [[x|[|u s]]|]; try done; cbn in *; tauto.
Qed.

Lemma cond_read_ok c : cond_readable c -> cond_ok (cond_read c).
Proof.
  intros (Hv & Ho & Hne & Hu & Hr). unfold cond_ok, cond_read, value_ok. cbn [ci_var ci_op ci_value cond_value_text].
  rewrite Hr. split_and!; done.
Qed.

Lemma editable_readable t : tier_editable t -> tier_readable t.
Proof.
  intros (Hl & Hc & _ & Hp). split_and!; [done| |done]. apply Forall_forall. intros c Hin.
  apply list_elem_of_In, filter_In in Hin as [Hin Hcomp]. apply cond_ok_complete; [|done].
  rewrite Forall_forall in Hc. by apply Hc, list_elem_of_In.
Qed.

(** ** Changes *)

Definition condition_change_ok (ch : ConditionChange) : Prop :=
  match ch with
  | SetVar v => v ∈ CONDITION_INPUT_OPTIONS.*1
  | SetOp o => o ∈ OPS
  | SetValue x => value_ok (Some (CondNum x))
  end.
Definition tier_change_ok (ch : TierChange) : Prop :=
  match ch with
  | Label s => forallb not_quote s = true
  | Condition _ ch => condition_change_ok ch
  | Price _ x => printable (priceToUnitCost x)
  | _ => True
  end.
Definition config_change_ok (ch : ConfigChange) : Prop :=
  match ch with OnTier _ ch => tier_change_ok ch | _ => True end.

Lemma condition_changed c ch : cond_ok c -> condition_change_ok ch -> cond_ok (condition_change c ch).
Proof.
  intros (Hv & Ho & Hx) Hch. destruct ch as [v|o|x]; split_and!; try done.
  revert Hch. cbn. unfold COND_VARS. rewrite !elem_of_cons. tauto.
Qed.

Lemma printable_zero : printable (num_of_Z 0).
Proof. apply (bool_decide_unpack _). vm_compute. exact I. Qed.

Lemma set_cost_printable costs f x :
  costs_printable costs -> printable (num_or x (num_of_Z 0)) -> costs_printable (<[f := x]> costs).
Proof.
  unfold costs_printable. rewrite !Forall_forall. intros H Hx g Hg. unfold cost_or_0, cost.
  destruct (decide (f = g)) as [->|Hne]; [by rewrite lookup_insert_eq|rewrite lookup_insert_ne by done; by apply H].
Qed.

Lemma without_index_ok {A} (P : A -> Prop) i l : Forall P l -> Forall P (without_index i l).
Proof. intros H. apply Forall_app. split; [by apply Forall_take|by apply Forall_drop]. Qed.
Lemma without_index_length {A} i (l : list A) : length (without_index i l) <= length l.
Proof. unfold without_index. rewrite length_app, length_take, length_drop. lia. Qed.

Lemma tier_changed t ch : tier_editable t -> tier_change_ok ch -> tier_editable (tier_change t ch).
Proof.
  intros (Hl & Hc & Hn & Hp) Hch. destruct ch as [s|i ch|i|f x|m]; cbn [tier_change tier_change_ok] in *.
  - by split_and!.
  - destruct (vt_conditions t !! i) as [c|] eqn:E; [|by split_and!]. split_and!; cbn; [done| |by rewrite length_insert|done].
    apply Forall_insert; [done|]. apply condition_changed; [by eapply Forall_lookup_1|done].
  - split_and!; cbn; [done|by apply without_index_ok| |done]. pose proof (without_index_length i (vt_conditions t)). lia.
  - split_and!; cbn; [done|done|done|]. apply set_cost_printable; [done|]. unfold priceToUnitCost in *.
    by rewrite num_or_0_idemp.
  - unfold TierCard.handleCacheModeChange. cbv zeta. set (f := js "cache_create_1h_unit_cost").
    split_and!; cbn [vt_label vt_conditions vt_costs]; [done|done|done|]. apply set_cost_printable; [done|].
    case_bool_decide; [|apply printable_zero]. unfold costs_printable in Hp. rewrite Forall_forall in Hp.
    specialize (Hp f). unfold cost_or_0, cost in Hp. destruct (vt_costs t !! f); [|apply printable_zero].
    apply Hp. by apply (bool_decide_unpack _).
Qed.

Lemma normalize_editable t : tier_editable t -> tier_editable (normalizeVisualTier (partial_tier t)).
Proof.
  intros (Hl & Hc & Hn & Hp). split_and!; [done|done|done|]. unfold costs_printable in *.
  rewrite Forall_forall in *. intros f Hf. rewrite normalized_cost_or_0 by done. by apply Hp.
Qed.

Lemma normalize_config ts : config_editable ts -> config_editable (normalizeVisualConfig (Some ts)).
Proof.
  intros [Hn H]. destruct ts as [|t ts]; [done|]. split; [done|]. cbn [normalizeVisualConfig].
  change (List.map ?f ?l) with (f <$> l). apply Forall_fmap. eapply Forall_impl; [exact H|]. apply normalize_editable.
Qed.

Lemma limit_ok v : v ∈ COND_VARS -> cond_ok (DEFAULT_LIMIT v).
Proof. intros H. split_and!; [done|by apply (bool_decide_unpack _)|apply (bool_decide_unpack _); vm_compute; exact I]. Qed.

Lemma with_conditions_ok t cs :
  tier_editable t -> Forall cond_ok cs -> length cs <= 2 -> tier_editable (with_conditions cs t).
Proof. intros (Hl & _ & _ & Hp) H1 H2. by split_and!. Qed.

Lemma tier_name_plain n : forallb not_quote (js "tier_" ++ dec_of_N n) = true.
Proof.
  rewrite forallb_app. apply andb_true_iff. split; [done|].
  eapply forallb_impl; [|apply dec_of_N_digits]. intros x Hx. unfold not_quote. by destruct (N.eqb_spec x 34) as [->|].
Qed.

Lemma add_tier_ok ts : config_editable ts -> config_editable (handleAddTier ts).
Proof.
  intros [Hn H]. unfold handleAddTier. cbv zeta. split; [by intros [_ ?]%app_nil|].
  set (bounded := match last ts with Some t => _ | None => _ end). apply Forall_app. split.
  - unfold bounded. destruct (last ts) as [t|] eqn:E; [|done]. destruct (nonempty (vt_conditions t)); [done|].
    apply last_Some in E as [l' ->]. rewrite removelast_last. apply Forall_app in H as [H1 H2].
    apply Forall_app. split; [done|]. apply Forall_cons in H2 as [H2 _]. apply Forall_singleton, normalize_editable.
    apply with_conditions_ok; [done| |cbn; lia]. apply Forall_singleton, limit_ok. by apply (bool_decide_unpack _).
  - apply Forall_singleton. split_and!; [apply tier_name_plain|constructor|cbn; lia|].
    apply Forall_forall. intros f Hf. rewrite normalized_cost_or_0 by done.
    assert (Hz : forall f, f ∈ COST_FIELDS -> printable (cost_or_0 (<[js "input_unit_cost" := num_of_Z 0]>
      (<[js "output_unit_cost" := num_of_Z 0]> ∅)) f)); [|by apply Hz].
    apply Forall_forall. apply (bool_decide_unpack _). vm_compute. exact I.
Qed.

Lemma insert_nonempty {A} i (x : A) l : l <> [] -> <[i := x]> l <> [].
Proof. intros H E. apply (f_equal length) in E. rewrite length_insert in E. by destruct l. Qed.

Lemma config_changed ts ch ts' :
  config_editable ts -> config_change_ok ch -> config_change (Some ts) ch = Some ts' -> config_editable ts'.
Proof.
  intros H Hch E. apply normalize_config in H. revert E. unfold config_change.
  set (c := normalizeVisualConfig (Some ts)) in *. destruct ch as [i ch| |i|i]; cbn [config_change_ok] in Hch.
  - destruct (c !! i) as [t|] eqn:Et; [|done]. intros [= <-]. destruct H as [Hn H]. split.
    + by apply insert_nonempty.
    + apply Forall_insert; [done|]. apply normalize_editable, tier_changed; [|done]. by eapply Forall_lookup_1.
  - intros [= <-]. by apply add_tier_ok.
  - intros [= <-]. unfold handleRemoveTier. destruct (without_index i c) as [|t l] eqn:E; [done|].
    split; [done|]. cbn [nonempty]. rewrite <- E. apply without_index_ok, H.
  - unfold handleAddCondition. destruct (c !! i) as [t|] eqn:Et; [|done].
    destruct (2 <=? length (vt_conditions t)) eqn:El; [done|]. intros [= <-]. apply Nat.leb_gt in El. destruct H as [Hn H].
    split; [by apply insert_nonempty|].
    apply Forall_insert; [done|]. assert (Ht : tier_editable t) by (by eapply Forall_lookup_1).
    apply with_conditions_ok; [done| |rewrite length_app; cbn; lia]. apply Forall_app. split; [apply Ht|].
    apply Forall_singleton, limit_ok. destruct (existsb _ _); by apply (bool_decide_unpack _).
Qed.

(** Reading back. *)
Lemma read_editable ts ts' : config_editable ts -> same_tiers ts ts' -> config_editable ts'.
Proof.
  intros [Hn H] Hs. unfold same_tiers in Hs. split.
  { intros ->. apply Forall2_nil_inv_r in Hs. unfold parts in Hs. by destruct ts. }
  assert (Hp : Forall (fun p : part => Forall cond_readable p.1.1 /\ forallb not_quote p.1.2 = true
    /\ costs_printable (vt_costs p.2) /\ length p.1.1 <= 2) (parts ts)).
  { apply Forall_forall. intros p Hin.
    destruct (parts_readable ts p) as (H1 & H2 & H3); [eapply Forall_impl; [exact H|apply editable_readable]|done|].
    split_and!; try done. apply elem_of_lookup_imap in Hin as (i & t & -> & Ht).
    apply (Forall_lookup_1 _ _ _ _ H) in Ht as (_ & _ & Hlen & _). cbn. destruct (_ || _); [|cbn; lia].
    etrans; [|exact Hlen]. apply List.filter_length_le. }
  clear Hn H. induction Hs as [|p t' ps ts' (E1 & E2 & E3 & _) _ IH]; [constructor|].
  apply Forall_cons in Hp as [(H1 & H2 & H3 & H4) Hp]. constructor; [|by apply IH]. unfold tier_editable.
  rewrite E1, E2, length_map. split_and!; [done| |done|].
  - change (List.map ?f ?l) with (f <$> l). apply Forall_fmap. eapply Forall_impl; [exact H1|]. apply cond_read_ok.
  - unfold costs_printable in *. rewrite Forall_forall in *. intros f Hf. rewrite E3 by done. by apply H3.
Qed.

(** ** Sessions *)

(** A text the visual editor wrote, and the states of a session. *)
Definition written (expr : jsstr) : Prop :=
  exists ts, config_editable ts /\ expr = generateExprFromVisualConfig (Some ts).
Definition rules_written (rules : jsstr) : Prop :=
  exists gs, Forall wf_group gs /\ rules = buildRequestRuleExpr gs.
Definition visual_state (s : TierEditor) : Prop :=
  te_mode s = Visual /\ (exists ts, te_config s = Some ts /\ config_editable ts)
  /\ Forall group_ok (te_groups s) /\ written (te_expr s) /\ rules_written (te_rules s).

Lemma written_read expr :
  written expr -> exists ts, tryParseVisualConfig expr = Some ts /\ config_editable ts.
Proof.
  intros (ts & [Hn H] & ->).
  destruct (visual_read_back ts Hn) as (ts' & Hp & Hs & _); [eapply Forall_impl; [exact H|apply editable_readable]|].
  exists ts'. split; [done|]. by apply (read_editable ts).
Qed.
Lemma rules_written_read rules :
  rules_written rules -> exists gs, groups_of rules = Some gs /\ Forall wf_group gs /\ is_Some (canUseVisualRules rules).
Proof.
  intros (gs & H & ->). exists gs. rewrite groups_of_read, can_use_rules by done. eauto.
Qed.

Lemma wf_groups_ok gs : Forall wf_group gs -> Forall group_ok gs.
Proof. intros H. eapply Forall_impl; [exact H|apply wf_group_ok]. Qed.

Lemma visual_flush s : visual_state s -> exists s', flush s = Some s' /\ visual_state s'.
Proof.
  intros (Hm & (ts & Hc & Ht) & Hg & Hw & Hr).
  destruct (written_read _ Hw) as (ts0 & Hp & Ht0). destruct (rules_written_read _ Hr) as (gs0 & Hgs & Hg0 & [b Hb]).
  assert (Hi : exists next, init_effect s = Some next /\ te_mode next = Visual
    /\ (exists ts, te_config next = Some ts /\ config_editable ts) /\ Forall group_ok (te_groups next)).
  { apply wf_groups_ok in Hg0. unfold init_effect. case_bool_decide; [exists s; split_and!; try done; by exists ts|].
    destruct (te_init s); [|rewrite Hp, Hgs]; (eexists; split; [reflexivity|]); split_and!; try done;
      [by exists ts|by exists ts0]. }
  destruct Hi as (next & Hi & Hmn & Hcn & Hgn). unfold flush. unfold effectiveExpr, reported_rules. rewrite Hm, Hb, Hi.
  eexists. split; [reflexivity|]. unfold visual_state, name_effect, with_texts.
  assert (Hwr : written (generateExprFromVisualConfig (te_config s))) by (rewrite Hc; by exists ts).
  assert (Hrr : rules_written (buildRequestRuleExpr (te_groups s))) by (by apply rules_print).
  case_bool_decide; cbn [te_mode te_config te_groups te_expr te_rules]; by split_and!.
Qed.

Lemma visual_settle n s : visual_state s -> exists s', settle n s = Some s' /\ visual_state s'.
Proof.
  revert s. induction n as [|n IH]; intros s H; [by exists s|]. destruct (visual_flush s H) as (s1 & F & H1).
  destruct (IH s1 H1) as (s' & E & H'). exists s'. by rewrite (settle_step _ _ _ F).
Qed.

(** Edits with the inputs of the visual editor: of the tiers, of the rules to
    ones whose printed text can be read back, complete or not, and of the name. *)
Definition event_ok (e : TierEvent) : Prop :=
  match e with
  | EditConfig ch => config_change_ok ch
  | EditGroups gs => Forall group_ok gs
  | Rename _ => True
  | _ => False
  end.

Lemma visual_handle e s : event_ok e -> visual_state s -> exists s', handle e s = Some s' /\ visual_state s'.
Proof.
  intros He (Hm & (ts & Hc & Ht) & Hg & Hw & Hr). destruct e as [ch|gs|v|m|p|n]; try done; cbn [handle].
  - eexists. split; [reflexivity|]. rewrite Hc. destruct (config_change (Some ts) ch) as [ts'|] eqn:E.
    + split_and!; try done. exists ts'. split; [done|]. by apply (config_changed ts ch).
    + split_and!; try done. by exists ts.
  - eexists. split; [reflexivity|]. split_and!; try done. by exists ts.
  - eexists. split; [reflexivity|]. split_and!; try done. by exists ts.
Qed.

Lemma visual_session_ok es s :
  Forall event_ok es -> visual_state s -> flush s = Some s ->
  exists s', session es s = Some s' /\ visual_state s' /\ flush s' = Some s' /\ in_step s'.
Proof.
  intros H. revert s. induction H as [|e es He _ IH]; intros s Hs Hf.
  - exists s. split_and!; [done|done|done|]. destruct (rests s s) as [_ ?]; [by apply settle_rest|done].
  - destruct (visual_handle e s He Hs) as (s1 & E1 & H1). destruct (visual_settle RENDERS s1 H1) as (s2 & E2 & H2).
    destruct (rests s1 s2 E2) as [F2 _]. destruct (IH s2 H2 F2) as (s' & E' & H'). exists s'. cbn [session].
    by rewrite E1, E2.
Qed.

Lemma visual_mounted name ts gs :
  config_editable ts -> Forall wf_group gs ->
  exists m, mount name (generateExprFromVisualConfig (Some ts)) (buildRequestRuleExpr gs) = Some m /\ visual_state m.
Proof.
  intros Hts Hg. unfold mount. rewrite groups_of_read by done. eexists. split; [reflexivity|].
  destruct (written_read (generateExprFromVisualConfig (Some ts))) as (ts1 & Hp & H1); [by exists ts|].
  split_and!; [done|by exists ts1|by apply wf_groups_ok|by exists ts|by exists gs].
Qed.

(** C16: A session in the visual editor on a price it wrote for readable tiers and
    rules, no tier with more than two conditions.  Whatever is done, in
    any order, to the tiers (labels without a double quote, thresholds printed
    without a minus sign, numbers that are read back from their text), to the
    name, and to the rules (rules and conditions added,
    filled in and removed, complete or not, but for the two kinds of conditions
    that are printed and not read back: a comparison of a parameter with a
    number and a search in a parameter; names are plain text and values have no
    parentheses, & or |), with the re-reading of the texts by the effects after
    each step: no exception is raised, the editor stays in the visual mode and has
    a tier, no tier more than two conditions, and the panel has the expression
    and the rules that are shown.  When the two texts are opened again both are
    left as they are, and the rules shown are the complete ones. *)
Theorem visual_session name ts gs es :
  config_editable ts -> Forall wf_group gs -> Forall event_ok es ->
  exists s0 s ts', opened name (generateExprFromVisualConfig (Some ts)) (buildRequestRuleExpr gs) = Some s0
    /\ session es s0 = Some s /\ te_mode s = Visual /\ te_config s = Some ts' /\ config_editable ts'
    /\ te_expr s = generateExprFromVisualConfig (Some ts') /\ te_rules s = buildRequestRuleExpr (te_groups s)
    /\ exists s', opened name (te_expr s) (te_rules s) = Some s' /\ te_mode s' = Visual
         /\ te_expr s' = te_expr s /\ te_rules s' = te_rules s /\ Forall wf_group (te_groups s')
         /\ (Forall wf_group (te_groups s) -> te_groups s' = te_groups s).
Proof.
  intros Hts Hg Hes. destruct (visual_mounted name ts gs Hts Hg) as (m & Em & Hm).
  destruct (visual_settle RENDERS m Hm) as (s0 & E0 & H0).
  destruct (rests m s0 E0) as [F0 _]. destruct (visual_session_ok es s0 Hes H0 F0) as (s & Es & Hs & _ & Hin).
  destruct Hs as (Hv & (ts' & Hc & Ht') & Hgs & _). destruct Hin as [H1 H2].
  unfold effectiveExpr, reported_rules in H1, H2. rewrite Hv in H1, H2. rewrite Hc in H1. injection H1 as H1.
  exists s0, s, ts'. split; [unfold opened; by rewrite Em|]. split_and!; [done|done|done|done|by symmetry|by symmetry|].
  destruct Ht' as [Hn' Hr']. destruct (rules_print _ Hgs) as (gs' & Hg' & E'). rewrite E' in H2.
  destruct (visual_read_back ts' Hn') as (ts2 & Hp & _ & Ht); [eapply Forall_impl; [exact Hr'|apply editable_readable]|].
  exists (visual_opened name ts2 gs').
  split_and!; [|done|exact (eq_trans Ht H1)|exact H2|exact Hg'|].
  - rewrite <- H1, <- H2. by apply (opened_visual name ts' ts2).
  - intros Hw. pose proof (groups_of_read _ Hw) as R. rewrite E', groups_of_read in R by done. by injection R.
Qed.

(** A price with one tier: a second tier is added, its limit, label and price
    changed, a condition added and removed; a rule is added, filled in step by
    step, and another one is begun and left without a name. *)
Definition header_is (v : jsstr) : RequestCondition := ParamHeaderCondition SourceHeader (js "x-speed") MATCH_EQ v.
Definition example_edits : list TierEvent :=
  [EditConfig AddTier; EditConfig (OnTier 0 (Condition 0 (SetValue (num_of_Z 32000))));
   EditConfig (OnTier 1 (Label (js "long"))); EditConfig (OnTier 1 (Price (js "input_unit_cost") (num_of_string (js "2.5"))));
   EditConfig (AddCondition 0); Rename (js "n"); EditConfig (OnTier 0 (DropCondition 1));
   EditGroups [createEmptyRuleGroup]; EditGroups [mkGroup [header_is []] []]; EditGroups [mkGroup [header_is (js "fast")] []];
   EditGroups [mkGroup [header_is (js "fast")] (js "2")];
   EditGroups [mkGroup [header_is (js "fast"); createEmptyCondition] (js "2"); createEmptyTimeRuleGroup]].
Definition default_expr : jsstr := generateExprFromVisualConfig (Some createDefaultVisualConfig).
Example example_edits_expr :
  (fun s => (te_expr s, te_rules s, length (te_groups s))) <$> (opened (js "m") default_expr [] ≫= session example_edits)
  = Some (jsq "len < 32000 ? tier('base', p * 0 + c * 0) : tier('long', p * 2.5 + c * 0)",
          jsq "(header('x-speed') == 'fast' ? 2 : 1)", 2).
Proof. vm_compute. reflexivity. Qed.
Lemma visual_session_witness :
  exists s0 s, opened (js "m") default_expr [] = Some s0 /\ session example_edits s0 = Some s
    /\ te_mode s = Visual /\ te_rules s = buildRequestRuleExpr (te_groups s).
Proof.
  destruct (visual_session (js "m") createDefaultVisualConfig [] example_edits)
    as (s0 & s & ts' & H1 & H2 & H3 & _ & _ & _ & H7 & _).
  - split; [discriminate|]. apply (bool_decide_unpack _). vm_compute. exact I.
  - constructor.
  - unfold example_edits. repeat apply Forall_cons_2; try apply Forall_nil_2;
      cbn [event_ok config_change_ok tier_change_ok condition_change_ok];
      first [exact I|reflexivity|apply (bool_decide_unpack _); vm_compute; exact I|
             repeat constructor; vm_compute; reflexivity].
  - exists s0, s. split; [exact H1|]. split; [exact H2|]. split; [exact H3|exact H7].
Defined.
