(* ===== verification/RatioSync.v ===== *)
(** * Synchronizing prices with other servers
    ([models/upstream-ratio-sync.tsx], [-helpers.ts], [-table.tsx])

    The differences the server found, what is chosen of them for each model
    (the resolutions), and the option texts that are written from it.  Fields
    and models are texts, as in the objects of the code; a value is a number, a
    text, [null] or missing.  A text whose JSON is not an object is outside the
    model, as in ModelPricing. *)

From S2P Require Import Prelude JsNumber JsValue JsPretty ModelPricing.

(** ** Fields *)

Definition RATIO_SYNC_FIELDS : list jsstr :=
  [js "model_ratio"; js "completion_ratio"; js "cache_ratio"; js "create_cache_ratio"; js "image_ratio";
   js "audio_ratio"; js "audio_completion_ratio"].
Definition SYNC_FIELD_ORDER : list jsstr :=
  RATIO_SYNC_FIELDS ++ [js "model_price"; js "billing_mode"; js "billing_expr"].
Definition NUMERIC_SYNC_FIELDS : list jsstr := RATIO_SYNC_FIELDS ++ [js "model_price"].

(** Values and label keys. *)
Definition RATIO_TYPE_OPTIONS : list (jsstr * jsstr) :=
  [(js "model_ratio", js "Model ratio"); (js "completion_ratio", js "Completion ratio");
   (js "cache_ratio", js "Cache ratio"); (js "create_cache_ratio", js "Create cache ratio");
   (js "image_ratio", js "Image ratio"); (js "audio_ratio", js "Audio ratio");
   (js "audio_completion_ratio", js "Audio completion ratio"); (js "model_price", js "Fixed price");
   (js "billing_expr", js "Expression billing")].
Definition getSyncFieldLabel (t : jsstr -> jsstr) (ratioType : jsstr) : jsstr :=
  match assoc ratioType RATIO_TYPE_OPTIONS with Some l => t l | None => ratioType end.

Inductive Category := CatPrice | CatRatio | CatTiered.
#[export] Instance Category_eq_dec : EqDecision Category.
Proof. solve_decision. Defined.
Definition getBillingCategory (ratioType : jsstr) : Category :=
  if bool_decide (ratioType = js "model_price") then CatPrice
  else if bool_decide (ratioType = js "billing_mode") || bool_decide (ratioType = js "billing_expr") then CatTiered
  else CatRatio.

Definition capitalize (word : jsstr) : jsstr := to_upper (take 1 word) ++ drop 1 word.
Definition optionKeyBySyncField (ratioType : jsstr) : jsstr :=
  if bool_decide (ratioType = js "billing_mode") then js "billing_setting.billing_mode"
  else if bool_decide (ratioType = js "billing_expr") then js "billing_setting.billing_expr"
  else concat (List.map capitalize (split_char (ch "_") ratioType)).

(** ** Servers to compare with *)

Definition DEFAULT_ENDPOINT : jsstr := js "/api/pricing".
Definition OFFICIAL_CHANNEL_ID : Z := -100.
Definition OFFICIAL_CHANNEL_ENDPOINT : jsstr := js "/llm-metadata/api/newapi/ratio_config-v1-base.json".
Definition MODELS_DEV_PRESET_ID : Z := -101.
Definition MODELS_DEV_PRESET_ENDPOINT : jsstr := js "https://models.dev/api.json".
Definition OPENROUTER_ENDPOINT : jsstr := js "openrouter".
Definition OPENROUTER_CHANNEL_TYPE : Z := 20.

Record UpstreamChannel := mkChannel { uc_id : Z; uc_name : jsstr; uc_base_url : jsstr; uc_type : Z }.
Definition getDefaultEndpointForChannel (c : UpstreamChannel) : jsstr :=
  if bool_decide (uc_id c = MODELS_DEV_PRESET_ID) then MODELS_DEV_PRESET_ENDPOINT
  else if bool_decide (uc_id c = OFFICIAL_CHANNEL_ID) then OFFICIAL_CHANNEL_ENDPOINT
  else if bool_decide (uc_type c = OPENROUTER_CHANNEL_TYPE) then OPENROUTER_ENDPOINT
  else DEFAULT_ENDPOINT.

(** The effect on the list of servers: endpoints that are missing or empty. *)
Definition endpoint_of (id : Z) (endpoints : gmap Z jsstr) : jsstr := default [] (endpoints !! id).
Definition fill_endpoints (channels : list UpstreamChannel) (prev : gmap Z jsstr) : gmap Z jsstr :=
  fold_left (fun next c => if nonempty (endpoint_of (uc_id c) next) then next
                           else <[uc_id c := getDefaultEndpointForChannel c]> next) channels prev.

Record UpstreamConfig := mkUpstream { up_id : Z; up_name : jsstr; up_base_url : jsstr; up_endpoint : jsstr }.
(** What is asked of the server; [None] when nothing is selected. *)
Definition handleConfirmChannelSelection (channels : list UpstreamChannel) (endpoints : gmap Z jsstr) (selectedIds : list Z)
  : option (list UpstreamConfig) :=
  match List.filter (fun c => bool_decide (uc_id c ∈ selectedIds)) channels with
  | [] => None
  | selected => Some (List.map (fun c => mkUpstream (uc_id c) (uc_name c) (uc_base_url c)
                                           (str_or (endpoint_of (uc_id c) endpoints) DEFAULT_ENDPOINT)) selected)
  end.

(** ** Differences *)

(** The confidence of a value is only shown. *)
Record RatioDifference := mkDifference { df_current : value; df_upstreams : list (jsstr * value) }.
Definition ModelDiffs := list (jsstr * RatioDifference).
Definition DifferencesMap := list (jsstr * ModelDiffs).
Definition ModelRes := list (jsstr * value).
Definition ResolutionsMap := list (jsstr * ModelRes).

(** [ratioTypes[field]?.upstreams?.[source]] *)
Definition upstream_value (field source : jsstr) (ratioTypes : ModelDiffs) : value :=
  match assoc field ratioTypes with
  | Some d => default VUndefined (assoc source (df_upstreams d))
  | None => VUndefined
  end.

Definition isSelectableUpstreamValue (v : value) : bool :=
  negb (is_nullish v) && match v with VStr s => negb (bool_decide (s = js "same")) | _ => true end.

Definition getOrderedRatioTypes (ratioTypes : ModelDiffs) (filter : jsstr) : list jsstr :=
  let ks := keys ratioTypes in
  let ordered := List.filter (fun f => bool_decide (f ∈ ks)) SYNC_FIELD_ORDER
                 ++ List.filter (fun f => negb (bool_decide (f ∈ SYNC_FIELD_ORDER))) ks in
  if negb (nonempty filter) || bool_decide (filter = js "__all__") then ordered
  else List.filter (fun f => bool_decide (f = filter)) ordered.

Definition getPreferredSyncField (ratioTypes : ModelDiffs) (ratioType source : jsstr) : jsstr :=
  if negb (bool_decide (ratioType = js "billing_expr"))
     && isSelectableUpstreamValue (upstream_value (js "billing_expr") source ratioTypes)
  then js "billing_expr" else ratioType.

(** ** Choosing *)

(** The body of [setResolutions] in [handleSelectValue] for one model. *)
Definition select_in (modelDiffs : option ModelDiffs) (source finalType : jsstr) (finalValue : value) (res : ModelRes)
  : ModelRes :=
  let category := getBillingCategory finalType in
  let kept := List.filter (fun f =>
      negb (negb (bool_decide (category = CatTiered)) && negb (bool_decide (getBillingCategory f.1 = CatTiered))
            && negb (bool_decide (getBillingCategory f.1 = category)))) res in
  let chosen := obj_set finalType finalValue kept in
  match modelDiffs with
  | Some diffs =>
      if bool_decide (category = CatTiered) && nonempty source then
        let modeVal := upstream_value (js "billing_mode") source diffs in
        let exprVal := upstream_value (js "billing_expr") source diffs in
        let with_mode :=
          if isSelectableUpstreamValue modeVal then obj_set (js "billing_mode") modeVal chosen
          else if bool_decide (finalType = js "billing_expr")
          then obj_set (js "billing_mode") (VStr (js "tiered_expr")) chosen else chosen in
        if isSelectableUpstreamValue exprVal then obj_set (js "billing_expr") exprVal with_mode else with_mode
      else chosen
  | None => chosen
  end.

Definition handleSelectValue (differences : DifferencesMap) (model ratioType : jsstr) (v : value) (source : jsstr)
    (res : ResolutionsMap) : ResolutionsMap :=
  let modelDiffs := assoc model differences in
  let preferredType := if nonempty source then getPreferredSyncField (default [] modelDiffs) ratioType source else ratioType in
  let preferredValue :=
    if bool_decide (preferredType = ratioType) then v
    else let u := upstream_value preferredType source (default [] modelDiffs) in if is_nullish u then v else u in
  obj_set model (select_in modelDiffs source preferredType preferredValue (default [] (assoc model res))) res.

Definition deleteResolutionField (res : ResolutionsMap) (model ratioType : jsstr) : ResolutionsMap :=
  match assoc model res with
  | None => res
  | Some m =>
      let m1 := obj_delete ratioType m in
      let m2 := if bool_decide (ratioType = js "billing_expr") then obj_delete (js "billing_mode") m1 else m1 in
      let m3 := if bool_decide (ratioType = js "billing_mode") then obj_delete (js "billing_expr") m2 else m2 in
      if nonempty m3 then obj_set model m3 res else obj_delete model res
  end.

(** The rows of the table are the differences; the filters of [-table.tsx]. *)
Definition in_diffs (field : jsstr) (r : ModelDiffs) : bool := bool_decide (is_Some (assoc field r)).
Definition billingConflict (r : ModelDiffs) : bool :=
  in_diffs (js "model_price") r && existsb (fun f => in_diffs f r) RATIO_SYNC_FIELDS.
Definition filteredData (differences : DifferencesMap) (search ratioTypeFilter : jsstr) : DifferencesMap :=
  let data := if nonempty (trim search)
              then List.filter (fun r => includes (to_lower search) (to_lower r.1)) differences else differences in
  if nonempty ratioTypeFilter && negb (bool_decide (ratioTypeFilter = js "__all__"))
  then List.filter (fun r => in_diffs ratioTypeFilter r.2) data else data.
Definition upstreamNames (rows : DifferencesMap) (ratioTypeFilter : jsstr) : list jsstr :=
  js_set (concat (List.map (fun row : jsstr * ModelDiffs =>
    concat (List.map (fun rt => match assoc rt row.2 with Some d => keys (df_upstreams d) | None => [] end)
              (getOrderedRatioTypes row.2 ratioTypeFilter))) rows)).

(** Every value of a column, in the order of the rows and fields.  Each call
    updates the resolutions the one before left. *)
Definition bulk {A} (f : jsstr -> ModelDiffs -> jsstr -> A -> A) (ratioTypeFilter : jsstr) (rows : DifferencesMap) (s : A) : A :=
  fold_left (fun s row => fold_left (fun s rt => f row.1 row.2 rt s) (getOrderedRatioTypes row.2 ratioTypeFilter) s) rows s.
Definition handleBulkSelect (differences : DifferencesMap) (ratioTypeFilter upstream : jsstr) (rows : DifferencesMap)
  : ResolutionsMap -> ResolutionsMap :=
  bulk (fun model diffs rt res =>
    let v := upstream_value rt upstream diffs in
    if bool_decide (getPreferredSyncField diffs rt upstream = rt) && isSelectableUpstreamValue v
    then handleSelectValue differences model rt v upstream res else res) ratioTypeFilter rows.
Definition handleBulkUnselect (ratioTypeFilter upstream : jsstr) (rows : DifferencesMap)
  : ResolutionsMap -> ResolutionsMap :=
  bulk (fun model diffs rt res =>
    match upstream_value rt upstream diffs with VUndefined => res | _ => deleteResolutionField res model rt end)
    ratioTypeFilter rows.

(** ** Writing the options *)

Definition parseJsonRecord (raw : jsstr) : option pmap :=
  match json_parse (str_or raw (js "{}")) with
  | Some (VObj fs) => Some fs
  | Some _ => None
  | None => Some []
  end.
Definition parsedRatios (texts : Options jsstr) : option (Options pmap) := opt_all (opt_map parseJsonRecord texts).

(** The keys of the options, and the fields they belong to. *)
Definition by_field {A} (f : jsstr -> A) : Options A :=
  mkOptions
    (mkNumbers (f (js "model_price")) (f (js "model_ratio"))
       (mkLanes (f (js "completion_ratio")) (f (js "cache_ratio")) (f (js "create_cache_ratio"))
          (f (js "image_ratio")) (f (js "audio_ratio")) (f (js "audio_completion_ratio"))))
    (f (js "billing_mode")) (f (js "billing_expr")).
Definition OPTION_KEYS : Options jsstr :=
  mkOptions
    (mkNumbers (js "ModelPrice") (js "ModelRatio")
       (mkLanes (js "CompletionRatio") (js "CacheRatio") (js "CreateCacheRatio") (js "ImageRatio") (js "AudioRatio")
          (js "AudioCompletionRatio")))
    (js "billing_setting.billing_mode") (js "billing_setting.billing_expr").
Definition opt_zip {A B C} (f : A -> B -> C) (a : Options A) (b : Options B) : Options C :=
  let x := o_numbers a in let y := o_numbers b in let l := lanes x in let m := lanes y in
  mkOptions
    (mkNumbers (f (price x) (price y)) (f (ratio x) (ratio y))
       (mkLanes (f (completion l) (completion m)) (f (cache l) (cache m)) (f (createCache l) (createCache m))
          (f (image l) (image m)) (f (audioInput l) (audioInput m)) (f (audioOutput l) (audioOutput m))))
    (f (o_mode a) (o_mode b)) (f (o_expr a) (o_expr b)).

Definition has_field (field : jsstr) (m : ModelRes) : bool := bool_decide (field ∈ keys m).
Definition hasPrice (m : ModelRes) : bool := has_field (js "model_price") m.
Definition hasRatio (m : ModelRes) : bool := existsb (fun f => has_field f m) RATIO_SYNC_FIELDS.

(** The maps a choice clears before it is written. *)
Definition cleared (m : ModelRes) (field : jsstr) : bool :=
  (hasPrice m && bool_decide (field ∈ RATIO_SYNC_FIELDS)) || (hasRatio m && bool_decide (field = js "model_price")).
Definition clear_conflicts (model : jsstr) (m : ModelRes) (final : Options pmap) : Options pmap :=
  opt_zip (fun field pm => if cleared m field then obj_delete model pm else pm) (by_field id) final.

(** [Number(value)] for the numeric fields. *)
Definition synced_value (field : jsstr) (v : value) : option value :=
  if bool_decide (field ∈ NUMERIC_SYNC_FIELDS) then VNum <$> to_number v else Some v.

(** [finalRatios[optionKey][model] = value]; a key that is not there throws. *)
Definition write_field (model : jsstr) (final : option (Options pmap)) (f : jsstr * value) : option (Options pmap) :=
  match final, synced_value f.1 f.2 with
  | Some final, Some v =>
      let key := optionKeyBySyncField f.1 in
      if bool_decide (key ∈ opt_list OPTION_KEYS)
      then Some (opt_zip (fun k pm => if bool_decide (k = key) then obj_set model v pm else pm) OPTION_KEYS final)
      else None
  | _, _ => None
  end.
Definition sync_model (final : option (Options pmap)) (r : jsstr * ModelRes) : option (Options pmap) :=
  fold_left (write_field r.1) r.2 (clear_conflicts r.1 r.2 <$> final).

Definition performSync (resolutions : ResolutionsMap) (currentRatios : Options pmap) : option (Options jsstr) :=
  print_maps <$> fold_left sync_model resolutions (Some currentRatios).

(** ** Applying *)

Definition getLocalBillingCategory (model : jsstr) (r : Options pmap) : option Category :=
  let has (m : pmap) := bool_decide (is_Some (assoc model m)) in
  let n := o_numbers r in let l := lanes n in
  if has (price n) then Some CatPrice
  else if has (ratio n) || has (completion l) || has (cache l) || has (createCache l) || has (image l)
          || has (audioInput l) || has (audioOutput l) then Some CatRatio
  else None.

Definition new_category (m : ModelRes) : Category :=
  if hasPrice m then CatPrice else if hasRatio m then CatRatio else CatTiered.

(** [v === value] *)
Definition same_value (a b : value) : bool :=
  match a, b with
  | VNum x, VNum y => num_eqb x y
  | VStr s, VStr t => bool_decide (s = t)
  | _, _ => false
  end.
Definition findSourceChannel (differences : DifferencesMap) (model ratioType : jsstr) (v : value) : jsstr :=
  match assoc model differences ≫= assoc ratioType with
  | None => js "Unknown"
  | Some d => match List.find (fun u => same_value u.2 v) (df_upstreams d) with Some u => u.1 | None => js "Unknown" end
  end.

Record ConflictItem := mkConflict { cf_channel : jsstr; cf_model : jsstr; cf_current : jsstr; cf_newVal : jsstr }.
Section Conflicts.
Context (t : jsstr -> jsstr).
(** [`${label}: ${value ?? '-'}`] *)
Definition described (label : jsstr) (v : option value) : jsstr :=
  t label ++ js ": " ++ default [] (to_string (match v with
                                               | Some v => if is_nullish v then VStr (js "-") else v
                                               | None => VStr (js "-")
                                               end)).
Definition conflict_of (differences : DifferencesMap) (current : Options pmap) (r : jsstr * ModelRes) : list ConflictItem :=
  let '(model, m) := r in
  let n := o_numbers current in
  let ratios a b := described (js "Model ratio") a ++ [10%N] ++ described (js "Completion ratio") b in
  match getLocalBillingCategory model current with
  | None => []
  | Some localCat =>
      let newCat := new_category m in
      if negb (bool_decide (newCat = CatTiered)) && negb (bool_decide (localCat = newCat)) then
        [mkConflict (join (js ", ") (js_set (List.map (fun f => findSourceChannel differences model f.1 f.2) m))) model
           (if bool_decide (localCat = CatPrice) then described (js "Fixed price") (assoc model (price n))
            else ratios (assoc model (ratio n)) (assoc model (completion (lanes n))))
           (if bool_decide (newCat = CatPrice) then described (js "Fixed price") (assoc (js "model_price") m)
            else ratios (assoc (js "model_ratio") m) (assoc (js "completion_ratio") m))]
      else []
  end.
Definition conflicts (differences : DifferencesMap) (current : Options pmap) (res : ResolutionsMap) : list ConflictItem :=
  concat (List.map (conflict_of differences current) res).

(** What is asked, or what is written. *)
Inductive ApplyResult := AskConflicts (items : list ConflictItem) | Write (texts : Options jsstr).
Definition handleApplySync (differences : DifferencesMap) (current : Options pmap) (res : ResolutionsMap) : option ApplyResult :=
  let items := conflicts differences current res in
  if nonempty items then Some (AskConflicts items) else Write <$> performSync res current.
End Conflicts.

(** After all options were written, the differences that were chosen go. *)
Definition drop_difference (model : jsstr) (d : DifferencesMap) (field : jsstr) : DifferencesMap :=
  match assoc model d with
  | Some diffs =>
      if in_diffs field diffs then
        let rest := obj_delete field diffs in
        if nonempty rest then obj_set model rest d else obj_delete model d
      else d
  | None => d
  end.
Definition synced_differences (resolutions : ResolutionsMap) (d : DifferencesMap) : DifferencesMap :=
  fold_left (fun d r => fold_left (drop_difference r.1) (keys r.2) d) resolutions d.

(** ** The state and its events *)

Record Sync := mkSync { sy_differences : DifferencesMap; sy_resolutions : ResolutionsMap }.
Inductive SyncEvent :=
| Fetched (diffs : DifferencesMap)
| Select (model ratioType : jsstr) (v : value) (source : jsstr)
| Unselect (model ratioType : jsstr)
| BulkSelect (filter upstream : jsstr) (rows : DifferencesMap)
| BulkUnselect (filter upstream : jsstr) (rows : DifferencesMap)
| Synced.
Definition sync_step (s : Sync) (e : SyncEvent) : Sync :=
  let d := sy_differences s in let r := sy_resolutions s in
  match e with
  | Fetched diffs => mkSync diffs []
  | Select model rt v source => mkSync d (handleSelectValue d model rt v source r)
  | Unselect model rt => mkSync d (deleteResolutionField r model rt)
  | BulkSelect f u rows => mkSync d (handleBulkSelect d f u rows r)
  | BulkUnselect f u rows => mkSync d (handleBulkUnselect f u rows r)
  | Synced => mkSync (synced_differences r d) []
  end.
Definition sync_run (s : Sync) (es : list SyncEvent) : Sync := fold_left sync_step es s.
