(* ===== verification/RatioSyncFacts.v ===== *)
(** * Theorems on synchronizing prices

    What is chosen for a model is never a fixed price together with a ratio, and
    an expression never without its mode; and writing the choices changes
    exactly the fields that were chosen, clears the ones they exclude, and
    leaves all others. *)

From S2P Require Import Prelude JsNumber JsValue JsPretty ModelPricing ModelPricingFacts RatioSync.

(** ** Choices *)

(** No fixed price beside a ratio. *)
Definition exclusive (m : ModelRes) : Prop :=
  forall f g, is_Some (assoc f m) -> is_Some (assoc g m) -> getBillingCategory f = CatPrice -> getBillingCategory g <> CatRatio.
Definition with_mode_ok (m : ModelRes) : Prop :=
  is_Some (assoc (js "billing_expr") m) -> is_Some (assoc (js "billing_mode") m).
Definition res_ok (m : ModelRes) : Prop := m <> [] /\ ordered m /\ exclusive m /\ with_mode_ok m.
Definition resolutions_ok (r : ResolutionsMap) : Prop :=
  ordered r /\ forall model m, assoc model r = Some m -> res_ok m.

Lemma assoc_filter_key {A} (p : jsstr -> bool) k (m : list (jsstr * A)) :
  assoc k (List.filter (fun f => p f.1) m) = if p k then assoc k m else None.
Proof.
  induction m as [|[k0 v0] m IH]; [by destruct (p k)|]. cbn [List.filter fst].
  destruct (p k0) eqn:E; cbn [assoc]; rewrite IH; case_decide; try done; subst; by rewrite E.
Qed.

Lemma nonempty_assoc {A} k (v : A) m : assoc k m = Some v -> m <> [].
Proof. by destruct m. Qed.

Lemma set_exclusive f v m :
  exclusive m -> (forall g, is_Some (assoc g m) -> getBillingCategory f <> CatTiered ->
                            getBillingCategory g = CatTiered \/ getBillingCategory g = getBillingCategory f) ->
  exclusive (obj_set f v m).
Proof.
  intros He Hf a b Ha Hb Ca Cb. rewrite assoc_obj_set in Ha, Hb.
  destruct (decide (a = f)) as [->|Na], (decide (b = f)) as [->|Nb].
  - congruence.
  - destruct (Hf b Hb) as [E|E]; congruence.
  - destruct (Hf a Ha) as [E|E]; congruence.
  - by apply (He a b).
Qed.

Lemma kept_filter final m :
  let category := getBillingCategory final in
  let keep k := negb (negb (bool_decide (category = CatTiered)) && negb (bool_decide (getBillingCategory k = CatTiered))
                      && negb (bool_decide (getBillingCategory k = category))) in
  let kept := List.filter (fun f : jsstr * value => keep f.1) m in
  ordered m -> exclusive m -> with_mode_ok m ->
  ordered kept /\ exclusive kept /\ with_mode_ok kept
  /\ (forall g, is_Some (assoc g kept) -> getBillingCategory final <> CatTiered ->
        getBillingCategory g = CatTiered \/ getBillingCategory g = getBillingCategory final).
Proof.
  intros category keep kept Ho He Hm.
  assert (Hk : forall k, assoc k kept = if keep k then assoc k m else None) by (intros k; apply assoc_filter_key).
  split_and!.
  - by apply ordered_filter.
  - intros a b Ha Hb. rewrite Hk in Ha, Hb. destruct (keep a), (keep b); try by destruct Ha, Hb. by apply He.
  - intros Hx. rewrite Hk in *.
    assert (keep (js "billing_expr") = true) as E1 by (unfold keep; by destruct (bool_decide (category = CatTiered))).
    assert (keep (js "billing_mode") = true) as E2 by (unfold keep; by destruct (bool_decide (category = CatTiered))).
    rewrite E1 in Hx. rewrite E2. by apply Hm.
  - intros g Hg Hc. rewrite Hk in Hg. unfold keep in Hg.
    rewrite (bool_decide_eq_false_2 (category = CatTiered)) in Hg by done. cbn [negb andb] in Hg.
    destruct (bool_decide_reflect (getBillingCategory g = CatTiered)); [by left|].
    destruct (bool_decide_reflect (getBillingCategory g = category)); [by right|]. by destruct Hg.
Qed.

(** A field of the tiered kind can be added to any choice. *)
Lemma set_tiered f v m : getBillingCategory f = CatTiered -> exclusive m -> exclusive (obj_set f v m).
Proof. intros Hf He. by apply set_exclusive. Qed.

Lemma tiered_fields f :
  getBillingCategory f = CatTiered -> f = js "billing_mode" \/ f = js "billing_expr".
Proof.
  unfold getBillingCategory. case_bool_decide; [done|]. case_bool_decide; [by left|]. case_bool_decide; [by right|done].
Qed.

Lemma set_mode_ok f v m :
  with_mode_ok m -> (f = js "billing_expr" -> is_Some (assoc (js "billing_mode") m)) -> with_mode_ok (obj_set f v m).
Proof.
  intros Hm Hf. unfold with_mode_ok. rewrite !assoc_obj_set. repeat case_decide; try done; subst; eauto.
Qed.

Lemma select_ok diffs source final v m :
  nonempty source = true -> ordered m -> exclusive m -> with_mode_ok m ->
  res_ok (select_in (Some diffs) source final v m).
Proof.
  intros Hs Ho He Hm. unfold select_in. rewrite Hs. cbv zeta.
  destruct (kept_filter final m Ho He Hm) as (Hko & Hke & Hkm & Hkc). set (kept := List.filter _ m) in *.
  assert (Hce : exclusive (obj_set final v kept)) by (by apply set_exclusive).
  assert (Hcf : assoc final (obj_set final v kept) = Some v) by (rewrite assoc_obj_set; by rewrite decide_True).
  assert (Hco : ordered (obj_set final v kept)) by (by apply ordered_obj_set).
  set (modeVal := upstream_value (js "billing_mode") source diffs).
  set (exprVal := upstream_value (js "billing_expr") source diffs).
  destruct (bool_decide_reflect (getBillingCategory final = CatTiered)) as [Ht|Ht]; cbn [andb].
  - set (chosen := obj_set final v kept) in *.
    set (wm := if isSelectableUpstreamValue modeVal then _ else _).
    assert (Hwm : ordered wm /\ exclusive wm /\ is_Some (assoc (js "billing_mode") wm) /\ wm <> []).
    { unfold wm. destruct (isSelectableUpstreamValue modeVal).
      { split_and!; [by apply ordered_obj_set|by apply set_tiered| |].
        - rewrite assoc_obj_set, decide_True by done. by eexists.
        - eapply nonempty_assoc. rewrite assoc_obj_set, decide_True; done. }
      case_bool_decide as Hf.
      { split_and!; [by apply ordered_obj_set|by apply set_tiered| |].
        - rewrite assoc_obj_set, decide_True by done. by eexists.
        - eapply nonempty_assoc. rewrite assoc_obj_set, decide_True; done. }
      destruct (tiered_fields final Ht) as [-> | ->]; [|done].
      split_and!; [done|done|by eexists|by eapply nonempty_assoc]. }
    destruct Hwm as (H1 & H2 & H3 & H4).
    destruct (isSelectableUpstreamValue exprVal).
    + split_and!; [|by apply ordered_obj_set|by apply set_tiered|apply set_mode_ok; by intros _].
      eapply nonempty_assoc. rewrite assoc_obj_set, decide_True; done.
    + split_and!; try done. by intros _.
  - split_and!; [by eapply nonempty_assoc|done|done|]. apply set_mode_ok; [done|]. intros ->. by destruct Ht.
Qed.

Lemma ordered_nil {A} : ordered (@nil (jsstr * A)).
Proof. split; constructor. Qed.

Lemma resolutions_set r model m : resolutions_ok r -> res_ok m -> resolutions_ok (obj_set model m r).
Proof.
  intros [Ho H] Hm. split; [by apply ordered_obj_set|]. intros k x. rewrite assoc_obj_set. case_decide; [naive_solver|apply H].
Qed.
Lemma resolutions_delete r model : resolutions_ok r -> resolutions_ok (obj_delete model r).
Proof.
  intros [Ho H]. split; [by apply ordered_filter|]. intros k x. rewrite assoc_obj_delete. case_decide; [done|apply H].
Qed.

Lemma select_value_ok d model rt v source r :
  nonempty source = true -> is_Some (assoc model d) -> resolutions_ok r ->
  resolutions_ok (handleSelectValue d model rt v source r).
Proof.
  intros Hs [diffs Hd] Hr. unfold handleSelectValue. rewrite Hd, Hs. apply resolutions_set; [done|].
  destruct Hr as [_ Hr]. destruct (assoc model r) as [m|] eqn:E; cbn [default].
  - destruct (Hr model m E) as (_ & ? & ? & ?). by apply select_ok.
  - apply select_ok; [done|apply ordered_nil|by intros a b [? ?]|by intros [? ?]].
Qed.

Lemma unselect_ok r model rt : resolutions_ok r -> resolutions_ok (deleteResolutionField r model rt).
Proof.
  intros Hr. unfold deleteResolutionField. destruct (assoc model r) as [m|] eqn:E; [|done].
  destruct (proj2 Hr model m E) as (_ & Ho & He & Hm). cbv zeta.
  set (m1 := obj_delete rt m). set (m2 := if bool_decide (rt = js "billing_expr") then _ else m1).
  set (m3 := if bool_decide (rt = js "billing_mode") then _ else m2).
  assert (Hdel : forall k (x : ModelRes), ordered x -> exclusive x -> ordered (obj_delete k x) /\ exclusive (obj_delete k x)).
  { intros k x Hxo Hxe. split; [by apply ordered_filter|]. intros a b Ha Hb. rewrite assoc_obj_delete in Ha, Hb.
    destruct (decide (a = k)), (decide (b = k)); try by destruct Ha, Hb. by apply Hxe. }
  assert (H3 : ordered m3 /\ exclusive m3).
  { unfold m3, m2, m1. repeat case_bool_decide; repeat (apply Hdel; [apply Hdel|apply Hdel]); try apply Hdel; try done;
      repeat apply Hdel; done. }
  assert (H4 : with_mode_ok m3).
  { unfold with_mode_ok, m3, m2, m1. repeat case_bool_decide; rewrite ?assoc_obj_delete; repeat case_decide; try done;
      try congruence; by intros [? ?]. }
  destruct (nonempty m3) eqn:En; [|by apply resolutions_delete].
  apply resolutions_set; [done|]. split_and!; [by intros E3; rewrite E3 in En|apply H3|apply H3|done].
Qed.

(** Choices are made in rows of the table, from a named server. *)
Definition event_ok (s : Sync) (e : SyncEvent) : Prop :=
  match e with
  | Select model _ _ source => nonempty source = true /\ is_Some (assoc model (sy_differences s))
  | BulkSelect _ upstream rows =>
      nonempty upstream = true /\ Forall (fun r => is_Some (assoc r.1 (sy_differences s))) rows
  | _ => True
  end.
Inductive sync_reach : Sync -> Prop :=
| reach_init : sync_reach (mkSync [] [])
| reach_step s e : sync_reach s -> event_ok s e -> sync_reach (sync_step s e).

Lemma bulk_ok {A} (P : A -> Prop) (Q : jsstr -> Prop) f filter (rows : DifferencesMap) s :
  (forall model diffs rt x, Q model -> P x -> P (f model diffs rt x)) ->
  Forall (fun r => Q r.1) rows -> P s -> P (bulk f filter rows s).
Proof.
  intros Hf Hr. revert s. unfold bulk. induction Hr as [|r rows Hq _ IH]; intros s Hs; [done|]. cbn [fold_left].
  apply IH. generalize (getOrderedRatioTypes r.2 filter). intros l. revert s Hs.
  induction l as [|rt l IHl]; intros s Hs; [done|]. apply IHl. by apply Hf.
Qed.

Lemma sync_step_ok s e : event_ok s e -> resolutions_ok (sy_resolutions s) -> resolutions_ok (sy_resolutions (sync_step s e)).
Proof.
  assert (Hnil : resolutions_ok []) by (split; [apply ordered_nil|done]).
  intros He Hs. destruct e as [d|model rt v source|model rt|f u rows|f u rows|]; cbn in *; try done.
  - destruct He. by apply select_value_ok.
  - by apply unselect_ok.
  - destruct He as [Hu Hr]. apply (bulk_ok resolutions_ok (fun m => is_Some (assoc m (sy_differences s)))); [|done|done].
    intros model diffs rt x Hq Hx. cbv beta zeta.
    match goal with |- resolutions_ok (if ?b then _ else _) => destruct b end; [by apply select_value_ok|done].
  - apply (bulk_ok resolutions_ok (fun _ => True)); [|by apply Forall_true|done].
    intros model diffs rt x _ Hx. destruct (upstream_value rt u diffs); try done; by apply unselect_ok.
Qed.

Lemma reach_ok s : sync_reach s -> resolutions_ok (sy_resolutions s).
Proof.
  intros H. induction H as [|s e _ IH He]; [split; [apply ordered_nil|done]|by apply sync_step_ok].
Qed.

(** C39: Whatever is chosen, bulk-chosen and taken back in the table, in any
    order, no model ever has a fixed price chosen together with a ratio, nor an
    expression without a billing mode, nor an empty set of choices (which would
    count as a selection). *)
Theorem choices_exclusive s model m :
  sync_reach s -> assoc model (sy_resolutions s) = Some m ->
  m <> [] /\ (hasPrice m = true -> hasRatio m = false)
  /\ (has_field (js "billing_expr") m = true -> has_field (js "billing_mode") m = true).
Proof.
  intros H Hm. destruct (proj2 (reach_ok s H) model m Hm) as (Hn & _ & He & Hx).
  assert (Hk : forall f, has_field f m = true <-> is_Some (assoc f m)).
  { intros f. unfold has_field. rewrite bool_decide_eq_true. destruct (assoc f m) eqn:E.
    - split; [by eexists|]. intros _. destruct (decide (f ∈ keys m)) as [|Hf]; [done|]. apply assoc_None in Hf. congruence.
    - apply assoc_None in E. split; [done|by intros [? ?]]. }
  split_and!; [done| |by rewrite !Hk]. intros Hp. unfold hasPrice in Hp. apply Hk in Hp.
  apply not_true_iff_false. unfold hasRatio. rewrite existsb_exists. intros (g & Hg & Hr). apply Hk in Hr.
  apply (He (js "model_price") g Hp Hr); [done|]. apply list_elem_of_In in Hg. revert Hg.
  unfold RATIO_SYNC_FIELDS. rewrite !elem_of_cons, elem_of_nil. by intuition subst.
Qed.

(** ** Records of ten *)

Lemma opt_zip_ext {A B C} (f g : A -> B -> C) a b :
  (forall x y, x ∈ opt_list a -> f x y = g x y) -> opt_zip f a b = opt_zip g a b.
Proof.
  destruct a as [[x1 x2 [x3 x4 x5 x6 x7 x8]] x9 x0]. intros H. unfold opt_zip. fields.
  rewrite !H; [done|..]; unfold opt_list; fields; set_solver.
Qed.
Lemma opt_zip_zip {A B C D} (f : A -> C -> D) (g : A -> B -> C) a b :
  opt_zip f a (opt_zip g a b) = opt_zip (fun x y => f x (g x y)) a b.
Proof. done. Qed.
Lemma opt_zip_snd {A B} (a : Options A) (b : Options B) : opt_zip (fun _ y => y) a b = b.
Proof. by destruct b as [[? ? []] ? ?]. Qed.

Lemma entries_zip {A} name (f : A -> pmap -> pmap) (g : A -> option value -> option value) a maps :
  (forall x pm, assoc name (f x pm) = g x (assoc name pm)) ->
  entries name (opt_zip f a maps) = opt_zip g a (entries name maps).
Proof.
  intros H. unfold entries, opt_map, num_map, lane_map, opt_zip. fields. by rewrite !H.
Qed.
Lemma zip_ok {A} (f : A -> pmap -> pmap) a maps :
  (forall x pm, obj_ok pm -> obj_ok (f x pm)) -> opt_Forall obj_ok maps -> opt_Forall obj_ok (opt_zip f a maps).
Proof.
  intros Hf H. unfold opt_Forall, opt_list, opt_zip in *. fields_in H. fields.
  repeat (apply Forall_cons in H as [? H]). repeat (apply Forall_cons; split); try apply Forall_nil; try done; by apply Hf.
Qed.

Abbreviation FIELDS := (by_field id).

(** A field's option key says the field. *)
Lemma write_by_field {A} field (g : A -> A) (o : Options A) :
  field ∈ SYNC_FIELD_ORDER ->
  opt_zip (fun k x => if bool_decide (k = optionKeyBySyncField field) then g x else x) OPTION_KEYS o
  = opt_zip (fun f x => if bool_decide (f = field) then g x else x) FIELDS o.
Proof.
  unfold SYNC_FIELD_ORDER, RATIO_SYNC_FIELDS. cbn [app]. rewrite !elem_of_cons, elem_of_nil.
  intros [->|[->|[->|[->|[->|[->|[->|[->|[->|[->|[]]]]]]]]]]]; reflexivity.
Qed.
Lemma field_key field : field ∈ SYNC_FIELD_ORDER -> optionKeyBySyncField field ∈ opt_list OPTION_KEYS.
Proof.
  unfold SYNC_FIELD_ORDER, RATIO_SYNC_FIELDS. cbn [app]. rewrite !elem_of_cons, elem_of_nil.
  intros [->|[->|[->|[->|[->|[->|[->|[->|[->|[->|[]]]]]]]]]]]; by apply (bool_decide_unpack _); vm_compute.
Qed.

(** ** Writing the choices of one model *)

(** The choices can be written: known fields, each once, with values that are
    printed without loss. *)
Definition writable (m : ModelRes) : Prop :=
  NoDup (keys m)
  /\ Forall (fun f => f.1 ∈ SYNC_FIELD_ORDER /\ exists v, synced_value f.1 f.2 = Some v /\ json_ok v) m.

(** What a field of a model holds afterwards. *)
Definition synced_field (m : ModelRes) (field : jsstr) (old : option value) : option value :=
  match assoc field m with
  | Some v => synced_value field v
  | None => if cleared m field then None else old
  end.

Lemma write_fields model m maps :
  writable m -> opt_Forall obj_ok maps ->
  exists maps', fold_left (write_field model) m (Some maps) = Some maps' /\ opt_Forall obj_ok maps'
    /\ entries model maps'
       = opt_zip (fun f old => match assoc f m with Some v => synced_value f v | None => old end) FIELDS (entries model maps)
    /\ forall name, name <> model -> entries name maps' = entries name maps.
Proof.
  intros [Hn Hm]. revert maps. induction Hm as [|[f v] m [Hf (sv & Hs & Hj)] _ IH]; intros maps Hok.
  { exists maps. by split_and!. }
  unfold keys in Hn. rewrite fmap_cons in Hn. apply NoDup_cons in Hn as [Hnf Hn]. cbn [fst snd] in *. cbn [fold_left].
  set (maps1 := opt_zip (fun f0 pm => if bool_decide (f0 = f) then obj_set model sv pm else pm) FIELDS maps).
  assert (Ew : write_field model (Some maps) (f, v) = Some maps1).
  { unfold write_field. cbn [fst snd]. rewrite Hs, bool_decide_eq_true_2 by (by apply field_key).
    f_equal. by apply (write_by_field f (obj_set model sv)). }
  rewrite Ew. destruct (IH Hn maps1) as (maps' & E' & Hok' & Hsame & Hother).
  { apply zip_ok; [|done]. intros x pm Hpm. case_bool_decide; [by apply obj_ok_set|done]. }
  exists maps'. split_and!; [done|done| |].
  - rewrite Hsame. unfold maps1.
    rewrite (entries_zip model _ (fun f0 old => if bool_decide (f0 = f) then Some sv else old)).
    2:{ intros x pm. case_bool_decide; [|done]. by rewrite assoc_obj_set, decide_True. }
    rewrite opt_zip_zip. apply opt_zip_ext. intros x y _. cbn [assoc]. case_decide as E.
    + subst x. rewrite bool_decide_eq_true_2 by done. apply assoc_None in Hnf. by rewrite Hnf.
    + by rewrite bool_decide_eq_false_2.
  - intros name Hne. rewrite Hother by done. unfold maps1. rewrite (entries_zip name _ (fun _ old => old)).
    + apply opt_zip_snd.
    + intros x pm. case_bool_decide; [|done]. by rewrite assoc_obj_set, decide_False.
Qed.

Lemma sync_one model m maps :
  writable m -> opt_Forall obj_ok maps ->
  exists maps', sync_model (Some maps) (model, m) = Some maps' /\ opt_Forall obj_ok maps'
    /\ entries model maps' = opt_zip (synced_field m) FIELDS (entries model maps)
    /\ forall name, name <> model -> entries name maps' = entries name maps.
Proof.
  intros Hm Hok. unfold sync_model. cbn [fst snd fmap option_fmap option_map].
  destruct (write_fields model m (clear_conflicts model m maps) Hm) as (maps' & E & Hok' & Hs & Ho).
  { apply zip_ok; [|done]. intros x pm Hpm. destruct (cleared m x); [by apply obj_ok_delete|done]. }
  exists maps'. split_and!; [done|done| |].
  - rewrite Hs. unfold clear_conflicts.
    rewrite (entries_zip model _ (fun f old => if cleared m f then None else old)).
    2:{ intros x pm. destruct (cleared m x); [by rewrite assoc_obj_delete, decide_True|done]. }
    rewrite opt_zip_zip. done.
  - intros name Hne. rewrite Ho by done. unfold clear_conflicts. rewrite (entries_zip name _ (fun _ old => old)).
    + apply opt_zip_snd.
    + intros x pm. destruct (cleared m x); [by rewrite assoc_obj_delete, decide_False|done].
Qed.

Lemma sync_all res maps :
  NoDup (keys res) -> Forall (fun r => writable r.2) res -> opt_Forall obj_ok maps ->
  exists maps', fold_left sync_model res (Some maps) = Some maps' /\ opt_Forall obj_ok maps'
    /\ forall model, entries model maps'
         = match assoc model res with
           | Some m => opt_zip (synced_field m) FIELDS (entries model maps)
           | None => entries model maps
           end.
Proof.
  intros Hn Hw. revert maps. induction Hw as [|[model m] res Hm _ IH]; intros maps Hok; [by exists maps|].
  unfold keys in Hn. rewrite fmap_cons in Hn. apply NoDup_cons in Hn as [Hnm Hn]. cbn [fst snd fold_left] in *.
  destruct (sync_one model m maps Hm Hok) as (maps1 & -> & Hok1 & Hs & Ho).
  destruct (IH Hn maps1 Hok1) as (maps' & E & Hok' & Hall). exists maps'. split_and!; [done|done|].
  intros name. rewrite Hall. cbn [assoc]. case_decide as Hd.
  - subst name. apply assoc_None in Hnm. by rewrite Hnm, Hs.
  - by rewrite Ho.
Qed.

(** ** No conflict is written *)

Lemma numbers_of_entries maps name s :
  snapshot_of maps name = Some s ->
  num_all (num_map entry_shown (o_numbers (entries name maps))) = Some (sn_numbers s).
Proof.
  unfold snapshot_of. change (num_map entry_shown (o_numbers (entries name maps)))
    with (num_map (entry_text name) (o_numbers maps)).
  destruct (num_all _) as [n|]; [|done]. intros H. by repeat (split_match_in H; simplify_eq).
Qed.

Lemma synced_no_conflict maps maps' model m s :
  entries model maps' = opt_zip (synced_field m) FIELDS (entries model maps) ->
  (hasPrice m = true -> hasRatio m = false) -> hasPrice m || hasRatio m = true ->
  snapshot_of maps' model = Some s -> sn_hasConflict s = false.
Proof.
  intros He Hx Hany Hs. pose proof (snapshot_conflict _ _ _ Hs) as Hc. apply numbers_of_entries in Hs. rewrite He in Hs.
  unfold conflict_ok in Hc. rewrite Hc. clear Hc.
  assert (Hnone : forall f, (hasPrice m = true -> f ∈ RATIO_SYNC_FIELDS) -> (hasPrice m = false -> f = js "model_price") ->
    forall old, entry_shown (synced_field m f old) = Some []).
  { intros f H1 H2 old. unfold synced_field. destruct (hasPrice m) eqn:Ep.
    - assert (assoc f m = None) as ->.
      { apply assoc_None. intros Hin. specialize (Hx eq_refl). apply not_true_iff_false in Hx. apply Hx.
        unfold hasRatio. apply existsb_exists. exists f. split; [apply list_elem_of_In; by apply H1|].
        by apply bool_decide_eq_true. }
      unfold cleared. rewrite Ep, bool_decide_eq_true_2 by (by apply H1). done.
    - rewrite (H2 eq_refl). assert (assoc (js "model_price") m = None) as ->.
      { apply assoc_None. intros Hin. unfold hasPrice, has_field in Ep. by apply bool_decide_eq_false in Ep. }
      unfold cleared. rewrite Ep. cbn [orb] in Hany. rewrite Hany.
      by rewrite (bool_decide_eq_true_2 (js "model_price" = js "model_price")). }
  destruct (hasPrice m) eqn:Ep.
  - assert (has_ratio (sn_numbers s) = false) as ->; [|by rewrite andb_false_r].
    unfold opt_zip, num_map, lane_map in Hs. cbn [o_numbers price ratio lanes completion cache createCache image audioInput
      audioOutput by_field id] in Hs. unfold id in Hs.
    assert (Hr : forall f, f ∈ RATIO_SYNC_FIELDS -> forall old, entry_shown (synced_field m f old) = Some [])
      by (intros f Hf; by apply Hnone).
    rewrite (Hr (js "model_ratio")), (Hr (js "completion_ratio")), (Hr (js "cache_ratio")), (Hr (js "create_cache_ratio")),
      (Hr (js "image_ratio")), (Hr (js "audio_ratio")), (Hr (js "audio_completion_ratio")) in Hs
      by (by apply (bool_decide_unpack _)).
    unfold num_all, lane_all in Hs. fields_in Hs. destruct (entry_shown _) as [p|]; [|done]. by injection Hs as <-.
  - assert (nonempty (price (sn_numbers s)) = false) as ->; [|by rewrite andb_false_r].
    unfold opt_zip, num_map, lane_map in Hs. cbn [o_numbers price ratio lanes by_field] in Hs. unfold id in Hs.
    rewrite (Hnone (js "model_price")) in Hs by done. unfold num_all in Hs. cbn [price ratio lanes] in Hs.
    destruct (entry_shown _); [|done]. destruct (lane_all _); [|done]. by injection Hs as <-.
Qed.

(** C40: Applying the choices writes ten option texts in which, for every model
    that was chosen for, each chosen field has the chosen value (as a number
    where the field is one), the ratios are removed if a fixed price was chosen
    and the price if a ratio was, and every other field is as it was; other
    models are unchanged; and no such model is left with conflicting prices. *)
Theorem sync_spec res cur :
  opt_Forall obj_ok cur -> NoDup (keys res) -> Forall (fun r => writable r.2) res ->
  exists texts maps, performSync res cur = Some texts /\ pricing_maps texts = Some maps
    /\ (forall model, entries model maps
          = match assoc model res with
            | Some m => opt_zip (synced_field m) FIELDS (entries model cur)
            | None => entries model cur
            end)
    /\ (forall model m s, assoc model res = Some m -> (hasPrice m = true -> hasRatio m = false) ->
          hasPrice m || hasRatio m = true -> snapshot_of maps model = Some s -> sn_hasConflict s = false).
Proof.
  intros Hok Hn Hw. destruct (sync_all res cur Hn Hw Hok) as (maps & E & Hok' & Hall).
  exists (print_maps maps), maps. split_and!; [exact (f_equal (fmap print_maps) E)|by apply pricing_maps_printed|done|].
  intros model m s Hm Hx Hany Hs. eapply (synced_no_conflict cur maps); [|done..]. by rewrite Hall, Hm.
Qed.

(** ** Examples *)

(** A server with a fixed price for a model that has ratios here. *)
Definition example_diffs : DifferencesMap :=
  [(js "b", [(js "model_ratio", mkDifference (VNum (num_of_Z 1)) [(js "up", VNum (num_of_Z 3))]);
             (js "model_price", mkDifference VNull [(js "up", VNum (num_of_Z 5))])])].
Definition example_choice : Sync := sync_run (mkSync [] []) [Fetched example_diffs; BulkSelect [] (js "up") example_diffs].

Lemma choices_exclusive_witness :
  exists m, assoc (js "b") (sy_resolutions example_choice) = Some m /\ hasPrice m = true /\ hasRatio m = false.
Proof.
  destruct (choices_exclusive example_choice (js "b") [(js "model_price", VNum (num_of_Z 5))]) as (_ & H & _).
  - apply (reach_step (mkSync example_diffs []) (BulkSelect [] (js "up") example_diffs)).
    + apply (reach_step (mkSync [] []) (Fetched example_diffs)); [constructor|exact I].
    + split; [reflexivity|]. repeat constructor. by eexists.
  - vm_compute. reflexivity.
  - exists [(js "model_price", VNum (num_of_Z 5))]. split; [vm_compute; reflexivity|].
    split; [vm_compute; reflexivity|]. apply H. vm_compute. reflexivity.
Defined.

Lemma sync_spec_witness :
  exists texts maps, performSync (sy_resolutions example_choice) example_maps = Some texts
    /\ pricing_maps texts = Some maps
    /\ entries (js "a") maps = entries (js "a") example_maps
    /\ price (o_numbers (entries (js "b") maps)) = Some (VNum (num_of_Z 5))
    /\ ratio (o_numbers (entries (js "b") maps)) = None.
Proof.
  destruct (sync_spec (sy_resolutions example_choice) example_maps) as (texts & maps & H1 & H2 & H3 & _).
  - apply example_maps_ok.
  - apply (bool_decide_unpack _). vm_compute. exact I.
  - assert (E : sy_resolutions example_choice = [(js "b", [(js "model_price", VNum (num_of_Z 5))])])
      by (vm_compute; reflexivity).
    rewrite E. apply Forall_singleton. split; [apply (bool_decide_unpack _); vm_compute; exact I|].
    apply Forall_singleton. split; [apply (bool_decide_unpack _); vm_compute; exact I|].
    exists (VNum (num_of_Z 5)). split; [vm_compute; reflexivity|]. constructor. by apply json_num_ok_safe.
  - exists texts, maps. split; [exact H1|]. split; [exact H2|]. rewrite !H3. split_and!; vm_compute; reflexivity.
Defined.
